(* ===== verification/_CoqProject ===== *)
-Q . S2P
Prelude.v
GoLib.v
GoTime.v
GoNumber.v
Sha256.v
Base64.v
Webhook.v
Json.v
Contract.v
ContractFacts.v
Policy.v
Store.v
Redaction.v
AuditChain.v
GoText.v
Target.v
Alert.v
Correlator.v
Journal.v
Approval.v
Coordinator.v
RecoverySystem.v
Stabilization.v
Delivery.v
Outbox.v
Lifecycle.v
IncidentQuery.v
Observer.v
Report.v
Evidence.v
Docker.v
JsonText.v
JsonStruct.v
Runbook.v
AdminProtocol.v
AdminServer.v
AdminClient.v
Analysis.v
Llm.v
Service.v
ServerLife.v
GoPath.v
Config.v
Command.v
Telemetry.v
Acceptance.v
