(* ===== verification/Prelude.v ===== *)
(** * The Pulse agent: a verification library

    Pulse (src/, Go) is a daemon that watches registered services on one host.
    It probes them, correlates signals into incidents, analyses an incident with
    a language model over redacted evidence, lets a human approve a recovery
    command, executes it at most once through Docker, verifies that the service
    is stable again and reports the outcome to signed webhooks.  All state is in
    one embedded key-value file; every change is audited in a hash chain.

    This library translates the Go packages under src/internal/ into Rocq
    definitions with the names of the source, and proves what makes each package
    correct, alone and in composition.

    ** How the program's parts interact

    - Signals enter from the observer (internal/observer, probes of the targets
      of internal/target) and from the alert ingress (internal/alert,
      authenticated by internal/webhook).  internal/correlator deduplicates them
      and drives the lifecycle of incidents, which internal/incident queries.
    - internal/evidence collects bounded records through internal/redaction,
      internal/analysis gives them with the runbooks of internal/runbook to the
      model of internal/llm and validates the answer.
    - internal/recovery journals a command, takes its approval, asks
      internal/policy before and after the approval, and executes it by
      internal/docker.  internal/stabilization samples the target's health, then
      completes the command or schedules a retry.
    - internal/lifecycle and internal/report publish events and terminal reports:
      payload and queue entry in one transaction, sent by internal/delivery.
    - internal/store holds the buckets, internal/contract the persisted types and
      the strict decoder, internal/audit the chain inside the store.
    - internal/adminipc is the local administrative socket, internal/command the
      command line, which is its client; internal/config validates the
      configuration and internal/standalone runs the daemon.  internal/telemetry
      records bounded events, internal/acceptance runs the release baseline.

    ** How the code is rendered

    - A Go string is a byte string ([string]), an integer a [Z] with its
      wrap-around written out ([wrap64]), a [time.Time] the nanoseconds since year
      one, a [time.Duration] a 64-bit integer.  Maps are [gmap]; slices are lists,
      a pointer or a nil slice an [option] where the code tells them apart.
    - A fallible call is a [result]: a value, or the sentinel error its chain
      wraps ([errors.Is] is equality of sentinels).  A body of a transaction is a
      computation of the monad [st], whose failure discards the state: rollback.
    - The database bbolt is not part of the repository: [Store.Bolt] lists the
      calls made on it, [Store.BoltLaws] what its documentation states,
      [Store.BoltRoom] that the file has room, [Store.gmapBolt] is an instance, with
      which the concrete examples run.  Theorems about one component are proved
      for every instance.
    - What comes from outside (clock, random identities, contexts, network and
      engine answers) is an argument or a record of answers; where several calls
      overlap, every critical section of a Go mutex and every transaction is one
      step of a step relation, and the theorem is about all its runs.
    - A document is the tree its JSON text parses to, with members in document
      order and repetitions kept; [Json.Decode] is the strict decoder.  The text
      written for a tree is modelled ([Json.render]), so that lengths and digests are
    those of the code's own bytes: durations and floats have the texts of
    GoNumber, a byte that is not UTF-8 becomes the six characters of its escape;
    the text determines the tree (JsonText).

    ** The files

    Go's libraries:
    - Prelude: errors, results, transactions, wrap-around, updates of records,
      lists and maps (the rest of this file).
    - GoLib, GoText: strings, UTF-8, numbers, identifiers.  GoTime: RFC 3339 text
      of instants.  GoNumber: the texts of durations ([time.Duration.String], with
      its reader and their round trip) and of floats (the shortest that reads
      back, in the format of encoding/json).  GoPath: path/filepath.  Sha256, Base64: digests, HMAC, base64.
      Json, JsonText, JsonStruct: encoding/json, injectivity of its text, structs
      with optional members and line framing.

    Data and decisions:
    - Contract, ContractFacts (internal/contract/contracts.go, decode.go): the
      records, [Validate], the state machines, their round trips.
    - Policy (internal/policy/policy.go): [Evaluate].
    - Redaction (internal/redaction/redaction.go): [Redact], [ContainsSensitive] over
      a matcher of the patterns used.

    Persistence:
    - Store (internal/store/store.go): transactions, buckets, migrations.
    - AuditChain (internal/audit/chain.go): [Append], [readChain].

    Ingress and incidents:
    - Webhook (internal/webhook/standard.go), Alert (internal/alert/ingress.go),
      Target (internal/target/registry.go), Correlator
      (internal/correlator/correlator.go), Observer (internal/observer/observer.go),
      IncidentQuery (internal/incident/query.go), Evidence
      (internal/evidence/evidence.go).

    Analysis:
    - Analysis (internal/analysis/graph.go) over any model; Llm
      (internal/llm/llm.go), the bounded model; Runbook (internal/runbook/runbook.go).

    Recovery:
    - Journal, Approval, Coordinator (internal/recovery/journal.go, approval.go,
      coordinator.go).  The coordinator's operations are programs of atomic steps.
    - RecoverySystem interleaves any number of them with approvals, changes of other
      components and crashes.
    - Docker (internal/docker/adapter.go) over the interface [Docker.Client] of the
      engine, with [Docker.DockerLaws] for what its documentation states.
    - Stabilization (internal/stabilization/verifier.go) against the interface
      [Stabilization.CommandFinalizer] with its frame [FinalizerFrame]; the
      coordinator's [CompleteStabilization] is the instance [coordinator_frame].

    Outbound:
    - Delivery (internal/delivery/delivery.go): the durable queue.
    - Outbox: what the publishers share, over [Outbox.PayloadKind]; its instances are
      Lifecycle (internal/lifecycle/publisher.go) and Report
      (internal/report/publisher.go, source.go).

    Administration and process:
    - AdminProtocol (internal/adminipc/protocol.go), AdminServer (server.go, one
      connection), ServerLife (server.go, accept loop, workers and shutdown),
      AdminClient (client.go, and both ends together).
    - Config (internal/config/config.go) over [Config.GoNet], the parsers of net/url
      and net; its [setup] is what internal/standalone/service.go builds from it.
    - Service (internal/standalone/service.go): admission of work and drain.
    - Command (internal/command/command.go) over [Command.Surroundings], with the
      administrative client over a connection put in its place by [remote].
    - Telemetry (internal/telemetry/telemetry.go), Acceptance
      (internal/acceptance/runner.go).

    ** What is shown

    Recovery is safe (C1-C3).  In every run, with any interleaving, any answers
    from outside and any crashes, a command is handed to Docker at most once; each
    execution follows two authorizations current at its time; reconciliation never
    executes.  The policy allows exactly what a declarative policy authorizes (C4).
    The adapter restarts at most once and only the container its registered
    selector was resolved to (C21).  The verifier makes one legal observation per
    call (C10).

    The record is trustworthy (C5-C8).  Reading the chain accepts exactly the
    numbered, linked logs whose digests are the SHA-256 of the canonical text of
    their events; no sequence of transactions changes an audit record; a fresh valid
    event is always appended; a repeated identity is accepted once and makes the
    chain unreadable.

    Ingress is exact (C9, C11, C15, C16, C18-C20).  One signal makes at most one
    legal step of one record; signing and verification agree; a restarted registry
    recovers its snapshot; a signed message is accepted once when receipts are kept
    for 601 seconds or more (C16; [Alert.Accept_replays_below_601_seconds] shows
    that a nanosecond less is too little); pages list every incident exactly once
    in order; the counters of a rule are its current run, its probes never overlap,
    and the times of the cycles that start them are its interval apart (C20, which
    says nothing of when a probe ends).

    Analysis is grounded (C22, C23, C28-C30).  Evidence is bounded and redacted, a
    stored runbook never changes, a completed analysis refers only to its input and
    is the first usable answer.  A streamed request panics when its consumer leaves
    it at a partial response.

    Outbound is consistent (C12-C14, C17).  The queue stays well formed and bounded;
    a pass posts only pending entries whose next attempt is reached and whose
    expiry is not, each at most once, records one attempt per changed entry and
    passes over none that is due; attempts are bounded.  Every queued payload is
    stored under its own identity: a lifecycle event is always loadable, a report
    exactly when its document is at most 64 KiB long, which the publisher does not
    check ([Report.oversized_report_unreadable]).

    Administration is faithful and audited (C24-C27, C36-C38).  A call of the
    client is the same operation done by the daemon in the name of the peer; no
    success leaves the server unaudited; messages round-trip; the command line calls
    exactly what its arguments say (C37 covers every line, the acceptance run
    included, which needs neither client nor configuration), reads no argument
    beyond its end and always ends in order.

    The process is orderly (C31-C35, C39, C40).  The service drains exactly when it
    stopped and all admitted work is complete, the server leaves no connection and
    no worker behind, validation accepts exactly the specified configurations and
    those start every component, telemetry has a bounded number of attribute sets,
    the baseline passes exactly when its quality gates do.

    Where the code departs from its own documents or from what it means to do, a
    lemma or one of these theorems states the departure: the poisoned chain (C6,
    C7), receipts shorter than the signatures (C16), errors of the incident query
    (C24), the streamed panic (C30), the thresholds that cannot be missed (C40), a
    socket that may name the state file ([Config.socket_on_state_valid]).

    ** Fuel and bounds

    Every recursion of the code is structural here or has fuel that is enough by
    construction: decoding runes and trimming use the length of the string, and
    each round consumes a byte; the binary search of the policy uses the length of
    the list, halved each round; [decimal] uses ten digits, which hold any 32-bit
    number ([AdminProtocol.decimal_digits_spec]); the shortest text of a float is
    searched among the 17 precisions that are always enough; [backoff] runs once per retry.
    Following the pages of a query is a client's loop, and C18 states that more
    rounds than items give all of them.  Loops over attempts, targets, records
    and queue entries run over the list or the configured count.  The decoder's
    limit ([MaxDocumentBytes], 64 KiB) is that of the source.

    ** Not modelled

    - internal/docker/sdk.go converts between the adapter's types and those of
      the Docker SDK and calls it; the SDK is the parameter [Docker.Client].
    - internal/faultfixture and cmd/fault-fixture, internal/llm/fake.go: a workload
      and a fake for tests of containers, not part of the agent.  cmd/pulse-agent
      only calls [Command.Execute].
    - Files: opening, locking, backing up and restoring the database, reading
      configuration, registration and runbook files, socket files and the
      credentials of a peer as the kernel gives them.  Their results are arguments.
    - Random identities and clocks: arguments, with their failures.
    - HTTP: listening for alerts, the requests of delivery and of the model's
      provider; a round trip is its status or error.
    - OpenTelemetry: starting, flushing and stopping its providers.  Components
      other than telemetry leave out their calls of it, which change no state.
    - The parsers of net/url and net, and of time on the command line: arguments.
      Scanning the characters of a JSON text: documents are trees.
    - The Markdown summary of the acceptance baseline: formatting.
    - Memory, scheduling and data races: critical sections are atomic because the
      source guards them by its mutexes. *)
From stdpp Require Export base list strings gmap sorting.
From Stdlib Require Export ZArith Lia Bool.
From stdpp Require Import options.

Declare Scope go_scope.
Delimit Scope go_scope with go.

(** * Go errors

    A Go sentinel error is a package-level [errors.New] value; [fmt.Errorf]
    with [%w] wraps it and [errors.Is] finds it again.  The model keeps of an
    error the sentinel its chain holds: its package and its text. *)
Record error := mkError { err_pkg : string; err_text : string }.

#[export] Instance error_eq_dec : EqDecision error.
Proof. solve_decision. Defined.

(** A fallible Go call: a value, or an error. *)
Inductive result (A : Type) : Type :=
| Ok (a : A)
| Fail (e : error).
Arguments Ok {A} a.
Arguments Fail {A} e.

#[export] Instance result_ret : MRet result := fun A a => Ok a.
#[export] Instance result_bind : MBind result :=
  fun A B f m => match m with Ok a => f a | Fail e => Fail e end.

(** [if err := check; err != nil { return err }] for a check with no value. *)
Definition guard_err (b : bool) (e : error) : result unit :=
  if b then Ok tt else Fail e.

Definition is_ok {A} (r : result A) : bool :=
  match r with Ok _ => true | Fail _ => false end.

(** A computation over a state that a failure throws away: the body of a
    managed transaction, which is rolled back when it returns an error. *)
Definition st (S A : Type) : Type := S -> result (A * S).

#[export] Instance st_ret S : MRet (st S) := fun A a s => Ok (a, s).
#[export] Instance st_bind S : MBind (st S) :=
  fun A B f m s => match m s with Ok (a, s') => f a s' | Fail e => Fail e end.

Definition st_fail {S A} (e : error) : st S A := fun _ => Fail e.
Definition st_lift {S A} (r : result A) : st S A :=
  fun s => match r with Ok a => Ok (a, s) | Fail e => Fail e end.
Definition st_get {S} : st S S := fun s => Ok (s, s).

(** * Integers *)

Definition maxInt64 : Z := 9223372036854775807.
Definition minInt64 : Z := -9223372036854775808.

(** Two's complement wrap-around of a 64-bit signed result. *)
Definition wrap64 (z : Z) : Z := (z + 2 ^ 63) `mod` 2 ^ 64 - 2 ^ 63.

Definition int64_ok (z : Z) : bool := (minInt64 <=? z)%Z && (z <=? maxInt64)%Z.

(** * Lists *)

(** The first element that satisfies [p], as a [for ... range] search returns it. *)
Fixpoint find_first {A} (p : A -> bool) (l : list A) : option A :=
  match l with
  | [] => None
  | x :: l' => if p x then Some x else find_first p l'
  end.

(** Monadic left-to-right traversal, as a [for ... range] loop that returns on
    the first error. *)
Fixpoint for_each {A} (f : A -> result unit) (l : list A) : result unit :=
  match l with
  | [] => Ok tt
  | x :: l' => match f x with Ok _ => for_each f l' | Fail e => Fail e end
  end.

(** The loop of [map[string]struct{}] bookkeeping that rejects a repeated or an
    empty value: [seen] holds the values met so far. *)
Fixpoint no_repeat (seen : gset string) (l : list string) : bool :=
  match l with
  | [] => true
  | x :: l' => if decide (x ∈ seen) then false else no_repeat ({[x]} ∪ seen) l'
  end.

(** * Tactics *)

(** Split every [match] and [if] whose scrutinee is not itself one. *)
Ltac case_match_one :=
  match goal with
  | |- context [ match ?x with _ => _ end ] =>
    lazymatch x with
    | context [ match _ with _ => _ end ] => fail
    | _ => let E := fresh "E" in destruct x eqn:E
    end
  | H : context [ match ?x with _ => _ end ] |- _ =>
    lazymatch x with
    | context [ match _ with _ => _ end ] => fail
    | _ => let E := fresh "E" in destruct x eqn:E
    end
  end.
Ltac split_matches := repeat (case_match_one; simplify_eq/=).

(** Pass the outermost guard [if b { return err }] of a successful call. *)
Ltac pass_guard E :=
  match goal with
  | |- context [ if ?b then Fail _ else _ ] => destruct b eqn:E; [done|]
  end.

(** Boolean connectives to propositions, in hypotheses and goal. *)
Ltac bool_prop :=
  repeat match goal with
  | H : _ && _ = true |- _ => apply andb_true_iff in H; destruct H
  | H : _ || _ = false |- _ => apply orb_false_iff in H; destruct H
  | H : _ && _ = false |- _ => apply andb_false_iff in H
  | H : _ || _ = true |- _ => apply orb_true_iff in H
  | H : negb _ = true |- _ => apply negb_true_iff in H
  | H : negb _ = false |- _ => apply negb_false_iff in H
  | H : bool_decide _ = true |- _ => apply bool_decide_eq_true in H
  | H : bool_decide _ = false |- _ => apply bool_decide_eq_false in H
  | H : (_ =? _)%Z = true |- _ => apply Z.eqb_eq in H
  | H : (_ =? _)%Z = false |- _ => apply Z.eqb_neq in H
  | H : (_ <? _)%Z = true |- _ => apply Z.ltb_lt in H
  | H : (_ <? _)%Z = false |- _ => apply Z.ltb_ge in H
  | H : (_ <=? _)%Z = true |- _ => apply Z.leb_le in H
  | H : (_ <=? _)%Z = false |- _ => apply Z.leb_gt in H
  | |- _ && _ = true => apply andb_true_iff; split
  | |- _ || _ = false => apply orb_false_iff; split
  | |- negb _ = true => apply negb_true_iff
  | |- negb _ = false => apply negb_false_iff
  | |- bool_decide _ = true => apply bool_decide_eq_true
  | |- bool_decide _ = false => apply bool_decide_eq_false
  | |- (_ =? _)%Z = true => apply Z.eqb_eq
  | |- (_ =? _)%Z = false => apply Z.eqb_neq
  | |- (_ <? _)%Z = true => apply Z.ltb_lt
  | |- (_ <? _)%Z = false => apply Z.ltb_ge
  | |- (_ <=? _)%Z = true => apply Z.leb_le
  | |- (_ <=? _)%Z = false => apply Z.leb_gt
  end.

(** * Assignment to a struct field

    [r <| f := v |>] is the struct [r] with its field [f] set to [v]; a record
    type opts in by giving its eta expansion. *)
Class Updatable (R : Type) := eta_of : R -> R.
Class Setter {R A : Type} (proj : R -> A) := set_field : A -> R -> R.

Ltac build_setter :=
  lazymatch goal with
  | |- @Setter ?R ?A ?proj =>
    let inst := constr:(_ : Updatable R) in
    let body := eval red in inst in
    let abs := eval pattern proj in body in
    lazymatch abs with
    | ?F _ => let t := eval cbv beta in (fun (v : A) (r : R) => F (fun _ => v) r) in exact t
    end
  end.
#[export] Hint Extern 0 (Setter _) => build_setter : typeclass_instances.

Notation "r <| f := v |>" := (set_field (proj := f) v r)
  (at level 12, left associativity, f at level 99, v at level 99, format "r <| f  :=  v |>").

Create HintDb go.

(** * Generic lemmas *)

Lemma guard_err_ok b e : guard_err b e = Ok tt <-> b = true.
Proof. destruct b; simpl; split; congruence. Qed.

Lemma result_bind_ok {A B} (m : result A) (f : A -> result B) b :
  (m ≫= f) = Ok b <-> exists a, m = Ok a /\ f a = Ok b.
Proof. destruct m; simpl; split; naive_solver. Qed.

Lemma st_bind_ok {S A B} (m : st S A) (f : A -> st S B) s r :
  (m ≫= f) s = Ok r <-> exists a s', m s = Ok (a, s') /\ f a s' = Ok r.
Proof.
  unfold mbind, st_bind. destruct (m s) as [[a s']|e]; split; naive_solver.
Qed.

Lemma find_first_some {A} (p : A -> bool) l x :
  find_first p l = Some x -> x ∈ l /\ p x = true.
Proof.
  induction l as [|y l IH]; simpl; [done|].
  destruct (p y) eqn:E; intros; simplify_eq; [set_solver|].
  destruct IH; set_solver.
Qed.

Lemma find_first_none {A} (p : A -> bool) l :
  find_first p l = None <-> forall x, x ∈ l -> p x = false.
Proof.
  induction l as [|y l IH]; simpl; [set_solver|].
  destruct (p y) eqn:E; split; intros H.
  - done.
  - rewrite H in E; [done|set_solver].
  - intros x [->|?]%elem_of_cons; [done|]. by apply IH.
  - apply IH. set_solver.
Qed.

Lemma for_each_ok {A} (f : A -> result unit) l :
  for_each f l = Ok tt <-> Forall (fun x => f x = Ok tt) l.
Proof.
  induction l as [|x l IH]; simpl; [by split|].
  rewrite Forall_cons. destruct (f x) as [[]|]; naive_solver.
Qed.

Lemma no_repeat_spec seen l :
  no_repeat seen l = true <-> NoDup l /\ forall x, x ∈ l -> x ∉ seen.
Proof.
  revert seen. induction l as [|x l IH]; simpl; intros seen.
  { split; [|done]. intros _; split; [constructor|set_solver]. }
  case_decide as H.
  - split; [done|]. intros [_ Hn]. exfalso. apply (Hn x); set_solver.
  - rewrite IH, NoDup_cons. split.
    + intros [Hnd Hs]. split; [split|]; [|done|].
      * intros Hx. apply (Hs x Hx). set_solver.
      * intros y [->|Hy]%elem_of_cons; [done|]. specialize (Hs y Hy). set_solver.
    + intros [[Hx Hnd] Hs]. split; [done|]. intros y Hy.
      assert (y ≠ x) by naive_solver. specialize (Hs y). set_solver.
Qed.

Lemma no_repeat_NoDup l : no_repeat ∅ l = true <-> NoDup l.
Proof. rewrite no_repeat_spec. split; [naive_solver|]. split; [done|]. set_solver. Qed.

Lemma wrap64_id z : int64_ok z = true -> wrap64 z = z.
Proof.
  unfold int64_ok, wrap64, minInt64, maxInt64. intros; bool_prop.
  rewrite Z.mod_small; lia.
Qed.

Lemma NoDup_suffix {A} n (l : list A) : NoDup l -> NoDup (drop n l).
Proof. rewrite <- (take_drop n l) at 1. intros Hnd%NoDup_app. tauto. Qed.

Lemma elem_of_suffix {A} n (l : list A) x : x ∈ drop n l -> x ∈ l.
Proof. intros Hx. rewrite <- (take_drop n l). apply elem_of_app. by right. Qed.

Lemma fmap_NoDup_inj {A B} (f : A -> B) l x y :
  NoDup (map f l) -> x ∈ l -> y ∈ l -> f x = f y -> x = y.
Proof.
  induction l as [|z l IH]; intros Hnd Hx Hy Hf; [set_solver|].
  apply NoDup_cons in Hnd as [Hz Hnd].
  apply elem_of_cons in Hx as [->|Hx]; apply elem_of_cons in Hy as [->|Hy]; [done| | |by apply IH].
  - exfalso. apply Hz. rewrite Hf. by apply list_elem_of_fmap_2.
  - exfalso. apply Hz. rewrite <- Hf. by apply list_elem_of_fmap_2.
Qed.
