(* ===== verification/GoLib.v ===== *)
(** The parts of the Go standard library the program uses on plain values:
    byte strings and UTF-8 ([strings], [unicode/utf8]), decimal numbers
    ([strconv], [fmt]), instants and durations ([time]).

    A Go string is a byte string, here a Rocq [string]; [len] is
    [String.length]; Go's [==] on strings is [decide (x = y)].  A [time.Time]
    is the number of nanoseconds since 0001-01-01T00:00:00Z, so that the zero
    [time.Time] is 0 and [UTC] changes nothing; a [time.Duration] is a 64-bit
    signed integer. *)
From S2P Require Import Prelude.
From Stdlib Require Import DecimalString DecimalZ DecimalPos Decimal.
From stdpp Require Import options.
Local Open Scope Z_scope.

(** * Bytes and strings *)

Definition byte_of (c : Ascii.ascii) : Z := Z.of_N (Ascii.N_of_ascii c).
Definition of_byte (z : Z) : Ascii.ascii := Ascii.ascii_of_N (Z.to_N z).

Definition go_len (s : string) : Z := Z.of_nat (String.length s).

Definition str_eqb (a b : string) : bool := bool_decide (a = b).
Infix "=s" := str_eqb (at level 70) : go_scope.

Fixpoint bytes (s : string) : list Z :=
  match s with
  | EmptyString => []
  | String c s' => byte_of c :: bytes s'
  end.

Fixpoint of_bytes (l : list Z) : string :=
  match l with
  | [] => EmptyString
  | b :: l' => String (of_byte b) (of_bytes l')
  end.

(** [strings.HasPrefix]. *)
Fixpoint has_prefix (p s : string) : bool :=
  match p, s with
  | EmptyString, _ => true
  | String c p', String d s' => Ascii.eqb c d && has_prefix p' s'
  | _, _ => false
  end.

(** Remaining bytes after [n]. *)
Fixpoint drop_bytes (n : nat) (s : string) : string :=
  match n, s with
  | O, _ => s
  | S n', String _ s' => drop_bytes n' s'
  | _, EmptyString => EmptyString
  end.

Definition runeError : Z := 65533.

(** [utf8.DecodeRune] on a byte list: the rune and the bytes it takes; an
    invalid sequence is U+FFFD of width 1, the empty input has width 0. *)
Definition cont (b : Z) : bool := (128 <=? b) && (b <=? 191).
Definition decode_rune (l : list Z) : Z * nat :=
  match l with
  | [] => (runeError, 0%nat)
  | b0 :: r =>
    if b0 <? 128 then (b0, 1%nat)
    else if (194 <=? b0) && (b0 <=? 223) then
      match r with
      | b1 :: _ => if cont b1 then ((b0 - 192) * 64 + (b1 - 128), 2%nat) else (runeError, 1%nat)
      | _ => (runeError, 1%nat)
      end
    else if (224 <=? b0) && (b0 <=? 239) then
      match r with
      | b1 :: b2 :: _ =>
        let lo := if b0 =? 224 then 160 else 128 in
        let hi := if b0 =? 237 then 159 else 191 in
        if (lo <=? b1) && (b1 <=? hi) && cont b2
        then ((b0 - 224) * 4096 + (b1 - 128) * 64 + (b2 - 128), 3%nat)
        else (runeError, 1%nat)
      | _ => (runeError, 1%nat)
      end
    else if (240 <=? b0) && (b0 <=? 244) then
      match r with
      | b1 :: b2 :: b3 :: _ =>
        let lo := if b0 =? 240 then 144 else 128 in
        let hi := if b0 =? 244 then 143 else 191 in
        if (lo <=? b1) && (b1 <=? hi) && cont b2 && cont b3
        then ((b0 - 240) * 262144 + (b1 - 128) * 4096 + (b2 - 128) * 64 + (b3 - 128), 4%nat)
        else (runeError, 1%nat)
      | _ => (runeError, 1%nat)
      end
    else (runeError, 1%nat)
  end.

(** [range] over a string: the runes with their widths; every step consumes at
    least one byte, so the length is enough fuel. *)
Fixpoint runes_fuel (fuel : nat) (l : list Z) : list (Z * nat) :=
  match fuel, l with
  | S fuel', _ :: _ =>
    let rw := decode_rune l in rw :: runes_fuel fuel' (drop (snd rw) l)
  | _, _ => []
  end.
Definition runes (s : string) : list (Z * nat) := runes_fuel (String.length s) (bytes s).

(** [utf8.ValidString]: no rune of the range is the width-1 error. *)
Definition valid_utf8 (s : string) : bool :=
  forallb (fun rw => negb ((fst rw =? runeError) && (snd rw =? 1)%nat)) (runes s).

(** [utf8.EncodeRune]. *)
Definition encode_rune (r : Z) : list Z :=
  if (r <? 0) || (1114111 <? r) || ((55296 <=? r) && (r <=? 57343)) then [239; 191; 189]
  else if r <? 128 then [r]
  else if r <? 2048 then [192 + r / 64; 128 + r mod 64]
  else if r <? 65536 then [224 + r / 4096; 128 + (r / 64) mod 64; 128 + r mod 64]
  else [240 + r / 262144; 128 + (r / 4096) mod 64; 128 + (r / 64) mod 64; 128 + r mod 64].

(** The string [encoding/json] writes for [s]: invalid bytes become U+FFFD. *)
Definition utf8_coerce (s : string) : string :=
  if valid_utf8 s then s
  else of_bytes (concat (map (fun rw => encode_rune (fst rw)) (runes s))).

(** [unicode.IsSpace], as the UTF-8 encodings of the White_Space runes. *)
Definition space_encodings : list (list Z) :=
  [[9]; [10]; [11]; [12]; [13]; [32]; [194; 133]; [194; 160]; [225; 154; 128];
   [226; 128; 128]; [226; 128; 129]; [226; 128; 130]; [226; 128; 131];
   [226; 128; 132]; [226; 128; 133]; [226; 128; 134]; [226; 128; 135];
   [226; 128; 136]; [226; 128; 137]; [226; 128; 138]; [226; 128; 168];
   [226; 128; 169]; [226; 128; 175]; [226; 129; 159]; [227; 128; 128]].

Fixpoint list_prefix (p l : list Z) : bool :=
  match p, l with
  | [], _ => true
  | a :: p', b :: l' => (a =? b) && list_prefix p' l'
  | _, _ => false
  end.

(** Strip leading encodings of [encs]. *)
Fixpoint trim_left (encs : list (list Z)) (fuel : nat) (l : list Z) : list Z :=
  match fuel with
  | O => l
  | S fuel' =>
    match find_first (fun e => list_prefix e l) encs with
    | Some e => trim_left encs fuel' (drop (length e) l)
    | None => l
    end
  end.

(** [strings.TrimSpace]. *)
Definition trim_space (s : string) : string :=
  let l := bytes s in
  let l1 := trim_left space_encodings (length l) l in
  of_bytes (reverse (trim_left (map reverse space_encodings) (length l1) (reverse l1))).

(** [strings.ContainsRune(s, r)] for an ASCII rune [r]. *)
Definition contains_byte (s : string) (b : Z) : bool :=
  existsb (Z.eqb b) (bytes s).

(** * Decimal text *)

(** [strconv.Itoa] and [strconv.FormatInt(_, 10)]. *)
Definition itoa (z : Z) : string := NilZero.string_of_int (Z.to_int z).
Definition atoi (s : string) : option Z := Z.of_int <$> NilZero.int_of_string s.

Fixpoint zeros (n : nat) : string :=
  match n with O => EmptyString | S n' => String (of_byte 48) (zeros n') end.

(** [%0wd] on a non-negative number. *)
Definition pad (w : nat) (z : Z) : string :=
  let d := itoa z in String.append (zeros (w - String.length d)) d.

(** * Instants and durations *)

Definition time := Z.
Definition duration := Z.

Definition time_zero : time := 0.
Definition is_zero (t : time) : bool := t =? 0.
Definition before (t u : time) : bool := t <? u.
Definition after (t u : time) : bool := u <? t.
Definition utc (t : time) : time := t.

(** [Time.Sub] saturates at the limits of a [Duration]. *)
Definition time_sub (t u : time) : duration := Z.max minInt64 (Z.min maxInt64 (t - u)).
Definition time_add (t : time) (d : duration) : time := t + d.

(** [Time.Truncate]: down to a multiple of [d] since the zero time. *)
Definition truncate (t : time) (d : duration) : time :=
  if d <=? 0 then t else t - t mod d.

(** Nanoseconds from the zero time to 1970-01-01. *)
Definition unixEpoch : time := 62135596800 * 1000000000.
(** [Time.UnixNano] wraps as a 64-bit integer. *)
Definition unix_nano (t : time) : Z := wrap64 (t - unixEpoch).

Definition nanosecond : duration := 1.
Definition millisecond : duration := 1000000.
Definition second : duration := 1000000000.
Definition minute : duration := 60 * second.
Definition hour : duration := 60 * minute.

(** * Lemmas *)

Lemma str_eqb_eq a b : str_eqb a b = true <-> a = b.
Proof. apply bool_decide_eq_true. Qed.
Lemma str_eqb_neq a b : str_eqb a b = false <-> a <> b.
Proof. apply bool_decide_eq_false. Qed.
Lemma str_eqb_refl a : str_eqb a a = true.
Proof. by apply str_eqb_eq. Qed.

Ltac str_prop :=
  repeat match goal with
  | H : str_eqb _ _ = true |- _ => apply str_eqb_eq in H
  | H : str_eqb _ _ = false |- _ => apply str_eqb_neq in H
  | |- str_eqb _ _ = true => apply str_eqb_eq
  | |- str_eqb _ _ = false => apply str_eqb_neq
  end.

Lemma of_byte_byte_of c : of_byte (byte_of c) = c.
Proof. unfold of_byte, byte_of. rewrite N2Z.id. apply Ascii.ascii_N_embedding. Qed.

Lemma of_bytes_bytes s : of_bytes (bytes s) = s.
Proof. induction s as [|c s IH]; simpl; [done|]. by rewrite of_byte_byte_of, IH. Qed.

Lemma bytes_inj s t : bytes s = bytes t -> s = t.
Proof. intros H. by rewrite <- (of_bytes_bytes s), <- (of_bytes_bytes t), H. Qed.

Lemma length_bytes s : length (bytes s) = String.length s.
Proof. induction s; simpl; congruence. Qed.

Lemma byte_of_range c : 0 <= byte_of c < 256.
Proof. unfold byte_of. pose proof (Ascii.N_ascii_bounded c). lia. Qed.

Lemma bytes_range s : Forall (fun b => 0 <= b < 256) (bytes s).
Proof. induction s; simpl; constructor; auto using byte_of_range. Qed.

Lemma bytes_app s t : bytes (String.append s t) = (bytes s ++ bytes t)%list.
Proof. induction s as [|c s IH]; simpl; [done|]. unfold String.append in *. by rewrite IH. Qed.

Lemma string_app_assoc a b c :
  String.append (String.append a b) c = String.append a (String.append b c).
Proof. apply bytes_inj. by rewrite !bytes_app, app_assoc. Qed.

Lemma string_app_length a b :
  String.length (String.append a b) = (String.length a + String.length b)%nat.
Proof. by rewrite <- !length_bytes, bytes_app, length_app. Qed.

Lemma string_app_inj_l a b c : String.append a b = String.append a c -> b = c.
Proof.
  intros H. apply bytes_inj. apply (f_equal bytes) in H.
  rewrite !bytes_app in H. by simplify_eq.
Qed.

Lemma string_app_inj_same_length a b c d :
  String.length a = String.length c ->
  String.append a b = String.append c d -> a = c /\ b = d.
Proof.
  intros Hl H. apply (f_equal bytes) in H. rewrite !bytes_app in H.
  apply app_inj_1 in H as [Ha Hb]; [|by rewrite !length_bytes].
  split; by apply bytes_inj.
Qed.

Lemma utf8_coerce_valid s : valid_utf8 s = true -> utf8_coerce s = s.
Proof. unfold utf8_coerce. by intros ->. Qed.

(** ASCII strings are valid UTF-8. *)
Definition ascii_only (s : string) : bool := forallb (fun b => b <? 128) (bytes s).

Lemma ascii_runes l fuel :
  (length l <= fuel)%nat -> forallb (fun b => b <? 128) l = true ->
  runes_fuel fuel l = map (fun b => (b, 1%nat)) l.
Proof.
  revert fuel. induction l as [|b l IH]; intros [|fuel] Hf Ha; simpl in *; try done; [lia|].
  apply andb_true_iff in Ha as [Hb Ha]. rewrite Hb; simpl. f_equal.
  apply IH; [lia|done].
Qed.

Lemma ascii_valid_utf8 s : ascii_only s = true -> valid_utf8 s = true.
Proof.
  intros H. unfold valid_utf8, runes. rewrite <- length_bytes.
  rewrite ascii_runes; [|done|exact H].
  unfold ascii_only in H. induction (bytes s) as [|b l IH]; simpl in *; [done|].
  apply andb_true_iff in H as [Hb H]. rewrite IH by done.
  apply Z.ltb_lt in Hb. unfold runeError.
  destruct (b =? 65533) eqn:E; [apply Z.eqb_eq in E; lia|done].
Qed.

(** A rune below 128 is the one byte it was read from. *)
Lemma decode_rune_ascii b l :
  0 <= b < 256 -> fst (decode_rune (b :: l)) < 128 -> b < 128 /\ decode_rune (b :: l) = (b, 1%nat).
Proof.
  intros Hb. unfold decode_rune, runeError, cont.
  destruct (Z.ltb_spec b 128); [done|].
  repeat case_match; simpl; bool_prop; lia.
Qed.

Lemma ascii_runes_bytes fuel l :
  (length l <= fuel)%nat -> Forall (fun b => 0 <= b < 256) l ->
  Forall (fun r => r < 128) (map fst (runes_fuel fuel l)) -> map fst (runes_fuel fuel l) = l.
Proof.
  revert l. induction fuel as [|fuel IH]; intros [|b l] Hf Hr Ha; try done; [simpl in Hf; lia|].
  cbn [runes_fuel map] in *. apply Forall_cons in Ha as [Hb Ha]. apply Forall_cons in Hr as [Hb0 Hr].
  destruct (decode_rune_ascii b l Hb0 Hb) as [_ Hd]. rewrite Hd in *. simpl in *. f_equal. apply IH; [lia|done|done].
Qed.

Lemma ascii_rune_values s : ascii_only s = true -> map fst (runes s) = bytes s.
Proof.
  intros Ha. unfold runes. rewrite <- length_bytes, ascii_runes; [|done|exact Ha]. by rewrite map_map, map_id.
Qed.

Lemma small_rune_values s : Forall (fun r => r < 128) (map fst (runes s)) -> map fst (runes s) = bytes s.
Proof. unfold runes. rewrite <- length_bytes. apply ascii_runes_bytes; [done|apply bytes_range]. Qed.

Lemma atoi_itoa z : atoi (itoa z) = Some z.
Proof.
  unfold atoi, itoa. rewrite NilZero.isi; [simpl; by rewrite DecimalZ.of_to|..];
    destruct z as [|p|p]; simpl; try done; intros [=H];
    by apply DecimalPos.Unsigned.to_uint_nonnil in H.
Qed.

Lemma itoa_inj a b : itoa a = itoa b -> a = b.
Proof. intros H. apply (f_equal atoi) in H. rewrite !atoi_itoa in H. by simplify_eq. Qed.

Lemma byte_of_of_byte b : 0 <= b < 256 -> byte_of (of_byte b) = b.
Proof.
  intros H. unfold byte_of, of_byte. rewrite Ascii.N_ascii_embedding; lia.
Qed.

Lemma bytes_of_bytes l : Forall (fun b => 0 <= b < 256) l -> bytes (of_bytes l) = l.
Proof. induction 1; simpl; [done|]. by rewrite byte_of_of_byte, IHForall. Qed.

(** Two texts that end at the first separator. *)
Lemma sep_split sep (l l' r r' : list Z) :
  Forall (fun b => b <> sep) l -> Forall (fun b => b <> sep) l' ->
  (l ++ sep :: r)%list = (l' ++ sep :: r')%list -> l = l' /\ r = r'.
Proof.
  intros Hl. revert l'. induction Hl as [|b l Hb _ IH]; intros l' Hl' Heq.
  - destruct Hl' as [|b' l' Hb' _]; simpl in Heq; naive_solver.
  - destruct Hl' as [|b' l' Hb' Hl']; simpl in Heq; [naive_solver|].
    injection Heq as -> Heq. destruct (IH _ Hl' Heq). naive_solver.
Qed.

Definition no_byte (b : Z) (s : string) : bool := forallb (fun x => negb (x =? b)) (bytes s).

Lemma string_sep_split c a a' r r' :
  no_byte (byte_of c) a = true -> no_byte (byte_of c) a' = true ->
  String.append a (String c r) = String.append a' (String c r') -> a = a' /\ r = r'.
Proof.
  unfold no_byte. rewrite !forallb_forall. intros Ha Ha' Heq. apply (f_equal bytes) in Heq.
  rewrite !bytes_app in Heq. simpl in Heq. apply (sep_split (byte_of c)) in Heq as [H1 H2].
  - split; by apply bytes_inj.
  - apply Forall_forall. intros b Hb%list_elem_of_In. apply Ha, negb_true_iff, Z.eqb_neq in Hb. done.
  - apply Forall_forall. intros b Hb%list_elem_of_In. apply Ha', negb_true_iff, Z.eqb_neq in Hb. done.
Qed.

(** Text without spaces at its ends keeps them: here, visible ASCII. *)
Lemma trim_left_visible encs fuel l :
  Forall (fun e => exists b e', e = b :: e' /\ (b <= 32 \/ 127 < b)) encs -> Forall (fun b => 33 <= b < 128) l ->
  trim_left encs fuel l = l.
Proof.
  intros He Hl. destruct fuel; [done|]. cbn [trim_left].
  assert (find_first (fun e => list_prefix e l) encs = None) as ->; [|done].
  induction He as [|e encs (b & e' & -> & Hb) _ IH]; [done|]. cbn [find_first list_prefix].
  destruct Hl as [|x l Hx Hl]; [done|]. rewrite (proj2 (Z.eqb_neq b x)) by lia. exact IH.
Qed.
Lemma visible_trim s : Forall (fun b => 33 <= b < 128) (bytes s) -> trim_space s = s.
Proof.
  intros Hs. unfold trim_space. rewrite (trim_left_visible space_encodings), trim_left_visible; [| |by apply Forall_reverse| |done].
  - rewrite reverse_involutive. apply of_bytes_bytes.
  - repeat (constructor; [eexists _, _; split; [reflexivity|lia]|]). constructor.
  - repeat (constructor; [eexists _, _; split; [reflexivity|lia]|]). constructor.
Qed.
