(* ===== verification/GoTime.v ===== *)
(** [time.Time.Format(time.RFC3339Nano)] for UTC instants, and its
    injectivity: the audit digest and the JSON documents write instants as
    text. *)
From S2P Require Import Prelude GoLib.
From stdpp Require Import options.
Local Open Scope Z_scope.

(** * The proleptic Gregorian calendar

    [civil_of_days n] is the year, month and day of the [n]th day after
    0001-01-01; the computation counts years from March, in eras of 400 years
    (146097 days). *)
Definition era_day_to_civil (doe : Z) : Z * Z * Z :=
  let yoe := (doe - doe / 1460 + doe / 36524 - doe / 146096) / 365 in
  let doy := doe - (365 * yoe + yoe / 4 - yoe / 100) in
  let mp := (5 * doy + 2) / 153 in
  let d := doy - (153 * mp + 2) / 5 + 1 in
  let m := if mp <? 10 then mp + 3 else mp - 9 in
  (if m <=? 2 then yoe + 1 else yoe, m, d).

Definition civil_of_days (n : Z) : Z * Z * Z :=
  let z := n + 306 in
  let '(y, m, d) := era_day_to_civil (z mod 146097) in
  (y + 400 * (z / 146097), m, d).

Definition civil_to_era_day (y m d : Z) : Z :=
  let yoe := if m <=? 2 then y - 1 else y in
  let mp := if 2 <? m then m - 3 else m + 9 in
  365 * yoe + yoe / 4 - yoe / 100 + (153 * mp + 2) / 5 + d - 1.

(** The day number of a civil date. *)
Definition days_of_civil (y m d : Z) : Z :=
  let y' := if m <=? 2 then y - 1 else y in
  let era := y' / 400 in
  era * 146097 + civil_to_era_day (y - 400 * era) m d - 306.

(** * Text *)

(** [w] decimal digits of [z], most significant first. *)
Fixpoint digits (w : nat) (z : Z) : list Z :=
  match w with
  | O => []
  | S w' => (digits w' (z / 10) ++ [48 + z mod 10])%list
  end.

(** Trailing zeros of a digit text dropped. *)
Fixpoint strip_zeros (l : list Z) : list Z :=
  match l with
  | b :: l' => if b =? 48 then strip_zeros l' else l
  | [] => []
  end.
Definition trim_zeros (l : list Z) : list Z := reverse (strip_zeros (reverse l)).

Definition day_ns : Z := 86400 * 1000000000.

Definition year_of (t : time) : Z := (civil_of_days (t / day_ns)).1.1.

(** [t.UTC().Format(time.RFC3339Nano)] for a year of four digits. *)
Definition rfc3339_bytes (t : time) : list Z :=
  let '(y, m, d) := civil_of_days (t / day_ns) in
  let s := (t mod day_ns) / 1000000000 in
  let ns := t mod 1000000000 in
  (digits 4 y ++ [45] ++ digits 2 m ++ [45] ++ digits 2 d ++ [84] ++
   digits 2 (s / 3600) ++ [58] ++ digits 2 (s / 60 mod 60) ++ [58] ++ digits 2 (s mod 60) ++
   (if ns =? 0 then [] else 46 :: trim_zeros (digits 9 ns)) ++ [90])%list.

Definition rfc3339 (t : time) : string := of_bytes (rfc3339_bytes t).

(** [MarshalJSON] refuses years outside [0,9999]. *)
Definition time_printable (t : time) : bool := (0 <=? year_of t) && (year_of t <=? 9999).

(** * Lemmas *)

Section Calendar.
#[local] Ltac Zify.zify_post_hook ::= Z.to_euclidean_division_equations.

(** The year of an era day, and the day within that (March based) year. *)
Lemma era_year_ok doe :
  0 <= doe < 146097 ->
  let yoe := (doe - doe / 1460 + doe / 36524 - doe / 146096) / 365 in
  0 <= yoe < 400 /\ 0 <= doe - (365 * yoe + yoe / 4 - yoe / 100) <= 365.
Proof. intros H yoe. subst yoe. split; lia. Qed.

Lemma era_month_ok doy :
  0 <= doy <= 365 ->
  let mp := (5 * doy + 2) / 153 in
  0 <= mp <= 11 /\ 1 <= doy - (153 * mp + 2) / 5 + 1 <= 31.
Proof. intros H mp. subst mp. split; lia. Qed.
End Calendar.

(** Ranges of the civil date of an era day, and the day number back. *)
Lemma era_day_ok doe y m d :
  0 <= doe < 146097 -> era_day_to_civil doe = (y, m, d) ->
  civil_to_era_day y m d = doe /\ 1 <= m <= 12 /\ 1 <= d <= 31 /\
  0 <= (if m <=? 2 then y - 1 else y) < 400.
Proof.
  intros H. destruct (era_year_ok doe H) as [Hy Hd].
  unfold era_day_to_civil, civil_to_era_day. cbv zeta in *.
  set (yoe := (doe - doe / 1460 + doe / 36524 - doe / 146096) / 365) in *.
  set (doy := doe - (365 * yoe + yoe / 4 - yoe / 100)) in *.
  destruct (era_month_ok doy Hd) as [Hm Hday]. cbv zeta in *.
  set (mp := (5 * doy + 2) / 153) in *. clearbody mp yoe.
  intros [= <- <- <-].
  destruct (Z.ltb_spec mp 10).
  - destruct (Z.leb_spec (mp + 3) 2); [lia|]. destruct (Z.ltb_spec 2 (mp + 3)); [|lia].
    replace (mp + 3 - 3) with mp by lia. lia.
  - destruct (Z.leb_spec (mp - 9) 2); [|lia]. destruct (Z.ltb_spec 2 (mp - 9)); [lia|].
    replace (yoe + 1 - 1) with yoe by lia. replace (mp - 9 + 9) with mp by lia. lia.
Qed.

Lemma civil_of_days_ok n :
  let '(y, m, d) := civil_of_days n in
  days_of_civil y m d = n /\ 1 <= m <= 12 /\ 1 <= d <= 31.
Proof.
  unfold civil_of_days.
  pose proof (Z.mod_pos_bound (n + 306) 146097 ltac:(lia)) as Hb.
  destruct (era_day_to_civil ((n + 306) mod 146097)) as [[y m] d] eqn:E.
  apply era_day_ok in E as (Hdoe & Hm & Hd & Hy); [|done].
  set (q := (n + 306) / 146097) in *.
  pose proof (Z.div_mod (n + 306) 146097 ltac:(lia)) as Hdm. fold q in Hdm.
  split; [|lia]. unfold days_of_civil.
  assert ((if m <=? 2 then y + 400 * q - 1 else y + 400 * q) / 400 = q) as ->.
  { destruct (m <=? 2).
    - replace (y + 400 * q - 1) with ((y - 1) + q * 400) by lia.
      rewrite Z.div_add by lia. rewrite Z.div_small by lia. lia.
    - replace (y + 400 * q) with (y + q * 400) by lia.
      rewrite Z.div_add by lia. rewrite Z.div_small by lia. lia. }
  replace (y + 400 * q - 400 * q) with y by lia. lia.
Qed.

Lemma civil_of_days_inj a b : civil_of_days a = civil_of_days b -> a = b.
Proof.
  intros H. pose proof (civil_of_days_ok a) as Ha. pose proof (civil_of_days_ok b) as Hb.
  rewrite H in Ha. destruct (civil_of_days b) as [[y m] d]. lia.
Qed.

Lemma length_digits w z : length (digits w z) = w.
Proof. revert z. induction w; simpl; intros; [done|]. rewrite length_app, IHw; simpl; lia. Qed.

Lemma digits_inj w a b :
  0 <= a < 10 ^ Z.of_nat w -> 0 <= b < 10 ^ Z.of_nat w -> digits w a = digits w b -> a = b.
Proof.
  revert a b. induction w as [|w IH]; intros a b Ha Hb H; simpl in *; [lia|].
  apply app_inj_2 in H as [H1 H2]; [|done]. injection H2 as H2.
  replace (Z.of_nat (S w)) with (Z.of_nat w + 1) in Ha, Hb by lia.
  rewrite Z.pow_add_r in Ha, Hb by lia.
  assert (a / 10 = b / 10).
  { apply IH; [| |done]; (split; [apply Z.div_pos; lia|apply Z.div_lt_upper_bound; lia]). }
  rewrite (Z.div_mod a 10), (Z.div_mod b 10) by lia. lia.
Qed.

Lemma digits_range w z : Forall (fun b => 48 <= b <= 57) (digits w z).
Proof.
  revert z. induction w as [|w IH]; simpl; intros z; [constructor|].
  apply Forall_app; split; [apply IH|]. constructor; [|constructor].
  pose proof (Z.mod_pos_bound z 10 ltac:(lia)). lia.
Qed.

Lemma strip_zeros_split l : exists k, l = (replicate k 48 ++ strip_zeros l)%list.
Proof.
  induction l as [|b l [k Hk]]; simpl; [by exists 0%nat|].
  destruct (b =? 48) eqn:E.
  - apply Z.eqb_eq in E as ->. exists (S k). simpl. by rewrite <- Hk.
  - by exists 0%nat.
Qed.

Lemma strip_zeros_inj l1 l2 :
  length l1 = length l2 -> strip_zeros l1 = strip_zeros l2 -> l1 = l2.
Proof.
  intros Hl H. destruct (strip_zeros_split l1) as [k1 E1], (strip_zeros_split l2) as [k2 E2].
  rewrite E1, E2 in Hl. rewrite !length_app, !length_replicate, H in Hl.
  rewrite E1, E2, H. by replace k2 with k1 by lia.
Qed.

Lemma trim_zeros_inj l1 l2 :
  length l1 = length l2 -> trim_zeros l1 = trim_zeros l2 -> l1 = l2.
Proof.
  intros Hl H. apply (f_equal reverse) in H. unfold trim_zeros in H.
  rewrite !reverse_involutive in H. apply strip_zeros_inj in H; [|by rewrite !length_reverse].
  apply (f_equal reverse) in H. by rewrite !reverse_involutive in H.
Qed.

Lemma trim_zeros_range w z : Forall (fun b => 48 <= b <= 57) (trim_zeros (digits w z)).
Proof.
  pose proof (digits_range w z) as H. unfold trim_zeros. apply Forall_reverse.
  destruct (strip_zeros_split (reverse (digits w z))) as [k E].
  apply Forall_reverse in H. rewrite E in H. by apply Forall_app in H as [_ H].
Qed.

(** Dates and day times of an instant determine it. *)
Lemma time_parts_inj t u :
  t / day_ns = u / day_ns ->
  (t mod day_ns) / 1000000000 = (u mod day_ns) / 1000000000 ->
  t mod 1000000000 = u mod 1000000000 -> t = u.
Proof.
  unfold day_ns. intros Hd Hs Hn.
  rewrite (Z.div_mod t (86400 * 1000000000)), (Z.div_mod u (86400 * 1000000000)), Hd by lia.
  f_equal.
  assert (Hm : forall x, x mod (86400 * 1000000000) mod 1000000000 = x mod 1000000000).
  { intros x. apply Z.mod_mod_divide. by exists 86400. }
  rewrite (Z.div_mod (t mod (86400 * 1000000000)) 1000000000) by lia.
  rewrite (Z.div_mod (u mod (86400 * 1000000000)) 1000000000) by lia.
  by rewrite !Hm, Hs, Hn.
Qed.

(** Digits, [-], [.], [:], [T] and [Z] only. *)
Lemma rfc3339_bytes_strict t :
  Forall (fun b => 48 <= b <= 57 \/ b = 45 \/ b = 46 \/ b = 58 \/ b = 84 \/ b = 90) (rfc3339_bytes t).
Proof.
  unfold rfc3339_bytes. destruct (civil_of_days _) as [[y m] d].
  assert (Hd : forall w z, Forall (fun b => 48 <= b <= 57 \/ b = 45 \/ b = 46 \/ b = 58 \/ b = 84 \/ b = 90) (digits w z)).
  { intros. eapply Forall_impl; [apply digits_range|]. simpl. lia. }
  assert (Ht : Forall (fun b => 48 <= b <= 57 \/ b = 45 \/ b = 46 \/ b = 58 \/ b = 84 \/ b = 90)
                 (trim_zeros (digits 9 (t mod 1000000000)))).
  { eapply Forall_impl; [apply trim_zeros_range|]. simpl. lia. }
  rewrite !Forall_app, !Forall_singleton.
  repeat split; auto; try lia.
  destruct (_ =? 0); [constructor|]. constructor; [lia|auto].
Qed.

Lemma rfc3339_bytes_range t : Forall (fun b => 45 <= b <= 90) (rfc3339_bytes t).
Proof. eapply Forall_impl; [apply rfc3339_bytes_strict|]. simpl. lia. Qed.

(** The fraction of a second, as it is written. *)
Definition frac_bytes (ns : Z) : list Z :=
  if ns =? 0 then [] else 46 :: trim_zeros (digits 9 ns).

Lemma frac_bytes_inj a b :
  0 <= a < 1000000000 -> 0 <= b < 1000000000 ->
  (frac_bytes a ++ [90])%list = (frac_bytes b ++ [90])%list -> a = b.
Proof.
  intros Ha Hb H. apply app_inj_2 in H as [H _]; [|done]. unfold frac_bytes in H.
  destruct (Z.eqb_spec a 0), (Z.eqb_spec b 0); [congruence|done..|]. injection H as H.
  apply trim_zeros_inj in H; [|done].
  by apply (digits_inj 9) in H; [|simpl; lia..].
Qed.

(** Two instants of four-digit years with the same text are equal. *)
Lemma rfc3339_bytes_inj t u :
  time_printable t = true -> time_printable u = true ->
  rfc3339_bytes t = rfc3339_bytes u -> t = u.
Proof.
  unfold time_printable, year_of, rfc3339_bytes. intros Ht Hu H.
  pose proof (civil_of_days_ok (t / day_ns)) as Ct. pose proof (civil_of_days_ok (u / day_ns)) as Cu.
  pose proof (Z.mod_pos_bound t day_ns ltac:(unfold day_ns; lia)) as Bt.
  pose proof (Z.mod_pos_bound u day_ns ltac:(unfold day_ns; lia)) as Bu.
  pose proof (Z.mod_pos_bound t 1000000000 ltac:(lia)) as Nt.
  pose proof (Z.mod_pos_bound u 1000000000 ltac:(lia)) as Nu.
  fold (frac_bytes (t mod 1000000000)) in H. fold (frac_bytes (u mod 1000000000)) in H.
  destruct (civil_of_days (t / day_ns)) as [[y m] d] eqn:E1.
  destruct (civil_of_days (u / day_ns)) as [[y' m'] d'] eqn:E2. simpl in Ht, Hu.
  bool_prop.
  repeat (apply app_inj_1 in H as [? H]; [|by rewrite ?length_digits]).
  apply frac_bytes_inj in H; [|done..].
  set (s := (t mod day_ns) / 1000000000) in *. set (s' := (u mod day_ns) / 1000000000) in *.
  assert (0 <= s < 86400) by (subst s; split; [apply Z.div_pos; lia|apply Z.div_lt_upper_bound; unfold day_ns in *; lia]).
  assert (0 <= s' < 86400) by (subst s'; split; [apply Z.div_pos; lia|apply Z.div_lt_upper_bound; unfold day_ns in *; lia]).
  repeat match goal with
  | X : digits _ _ = digits _ _ |- _ =>
    apply digits_inj in X; [|clear X; simpl; Z.to_euclidean_division_equations; lia..]
  end.
  apply time_parts_inj; [| |done].
  - apply civil_of_days_inj. rewrite E1, E2. congruence.
  - fold s s'. clearbody s s'. Z.to_euclidean_division_equations; lia.
Qed.

Lemma rfc3339_inj t u :
  time_printable t = true -> time_printable u = true -> rfc3339 t = rfc3339 u -> t = u.
Proof.
  intros Ht Hu H. apply (f_equal bytes) in H. unfold rfc3339 in H.
  rewrite !bytes_of_bytes in H
    by (eapply Forall_impl; [apply rfc3339_bytes_range|]; simpl; lia).
  by apply rfc3339_bytes_inj.
Qed.

Lemma rfc3339_epoch : rfc3339 unixEpoch = "1970-01-01T00:00:00Z".
Proof. reflexivity. Qed.

Lemma rfc3339_leap_day :
  rfc3339 (unixEpoch + 951782400 * second + 120) = "2000-02-29T00:00:00.00000012Z".
Proof. reflexivity. Qed.
