(* ===== verification/GoNumber.v ===== *)
(** The texts Go writes for durations ([time.Duration.String]) and for floats
    inside JSON ([strconv.AppendFloat] at the shortest precision, in the format
    [encoding/json] chooses), and what the text of a duration says. *)
From S2P Require Import Prelude GoLib GoTime.
From Stdlib Require Import SpecFloat DecimalString.
From stdpp Require Import options.
Local Open Scope Z_scope.

(** * Durations *)

(** [fmtFrac]: the lowest [prec] digits of [v] behind a point, without trailing
    zeros and without the point when none is left. *)
Definition fmtFrac (prec : nat) (v : Z) : list Z :=
  match trim_zeros (digits prec v) with [] => [] | l => 46 :: l end.
Definition fmtInt (v : Z) : list Z := bytes (itoa v).

(** [Duration.String] of a positive duration: one unit below a second, else
    hours and minutes as far as they are needed, and seconds. *)
Definition duration_bytes (u : Z) : list Z :=
  if u <? second then
    if u =? 0 then [48; 115]
    else if u <? 1000 then (fmtInt u ++ [110; 115])%list
    else if u <? millisecond then (fmtInt (u / 1000) ++ fmtFrac 3 u ++ [194; 181; 115])%list
    else (fmtInt (u / millisecond) ++ fmtFrac 6 u ++ [109; 115])%list
  else
    let s := u / second in
    ((if s / 60 =? 0 then []
      else (if s / 60 / 60 =? 0 then [] else fmtInt (s / 60 / 60) ++ [104]) ++ fmtInt (s / 60 mod 60) ++ [109]) ++
     fmtInt (s mod 60) ++ fmtFrac 9 u ++ [115])%list.
Definition duration_text (d : duration) : string :=
  of_bytes ((if d <? 0 then [45] else []) ++ duration_bytes (Z.abs d))%list.

Example duration_texts :
  map duration_text [0; 1; 1500; 999999; 2 * millisecond; 30 * second; 90 * minute; - (1500 * millisecond); minInt64] =
  ["0s"; "1ns"; of_bytes [49; 46; 53; 194; 181; 115]; of_bytes [57; 57; 57; 46; 57; 57; 57; 194; 181; 115]; "2ms"; "30s";
   "1h30m0s"; "-1.5s"; "-2562047h47m16.854775808s"].
Proof. vm_compute. reflexivity. Qed.

(** * Floats *)

Fixpoint zero_bytes (n : nat) : list Z := match n with O => [] | S n => 48 :: zero_bytes n end.

(** The values of [float64]: the finite ones have 53 bits of mantissa. *)
Definition float64_ok (m : positive) (e : Z) : bool := (Z.pos m <? 2 ^ 53) && (-1074 <=? e) && (e <=? 971).

(** The decimals of [nd] digits around [m * 2 ^ e], whose first digit counts
    [10 ^ (k - 1)]: the one below, and whether it and the next one are read back
    as this float.  Both sides are scaled by the same integer, a quarter of the
    last mantissa bit counting [b] and the last digit [a]. *)
Record decimal_choice := mkChoice { dc_down : Z; dc_down_ok : bool; dc_up_ok : bool; dc_nearest : Z }.
Definition choose (m : positive) (e k : Z) (nd : Z) : decimal_choice :=
  let p := k - nd in
  let a := 10 ^ Z.max p 0 * 2 ^ Z.max (2 - e) 0 in
  let b := 2 ^ Z.max (e - 2) 0 * 10 ^ Z.max (- p) 0 in
  let v := 4 * Z.pos m * b in
  let lower := (if (Z.pos m =? 2 ^ 52) && (-1074 <? e) then 4 * Z.pos m - 1 else 4 * Z.pos m - 2) * b in
  let upper := (4 * Z.pos m + 2) * b in
  let reads x := if Z.even (Z.pos m) then (lower <=? x) && (x <=? upper) else (lower <? x) && (x <? upper) in
  let c := v / a in
  let rest := 2 * (v - c * a) in
  mkChoice c (reads (c * a)) (reads ((c + 1) * a))
    (if rest <? a then c else if a <? rest then c + 1 else if Z.even c then c else c + 1).

(** The shortest decimal that is read back as the float, the nearest one if there
    are two: its digits and the power of ten of its last digit.  Seventeen digits
    are always enough. *)
Fixpoint shortest (fuel : nat) (m : positive) (e k : Z) (nd : Z) : Z * Z :=
  let o := choose m e k nd in
  match fuel with
  | O => (dc_down o, k - nd)
  | S fuel =>
    if dc_down_ok o && dc_up_ok o then (dc_nearest o, k - nd)
    else if dc_down_ok o then (dc_down o, k - nd)
    else if dc_up_ok o then (dc_down o + 1, k - nd)
    else shortest fuel m e k (nd + 1)
  end.

(** The number of digits before the point, from those of the float times
    [10 ^ 400]. *)
Definition magnitude (m : positive) (e : Z) : Z :=
  let scaled := Z.pos m * 2 ^ Z.max e 0 * 10 ^ 400 / 2 ^ Z.max (- e) 0 in
  Z.of_nat (length (fmtInt scaled)) - 400.

(** The digits without trailing zeros, and the place of the point before them. *)
Definition shortest_digits (m : positive) (e : Z) : list Z * Z :=
  let '(c, p) := shortest 17 m e (magnitude m e) 1 in
  let l := fmtInt c in
  (trim_zeros l, Z.of_nat (length l) + p).

(** Format [f] below [10 ^ 21] and from [10 ^ -6] on, format [e] with the exponent
    in its shortest form outside. *)
Definition float_digits (l : list Z) (dp : Z) : list Z :=
  if (-5 <=? dp) && (dp <=? 21) then
    if dp <=? 0 then ([48; 46] ++ zero_bytes (Z.to_nat (- dp)) ++ l)%list
    else if Z.of_nat (length l) <=? dp then (l ++ zero_bytes (Z.to_nat dp - length l))%list
    else (take (Z.to_nat dp) l ++ 46 :: drop (Z.to_nat dp) l)%list
  else
    (take 1 l ++ (if (length l <=? 1)%nat then [] else 46 :: drop 1 l) ++
     [101; if dp - 1 <? 0 then 45 else 43] ++ fmtInt (Z.abs (dp - 1)))%list.
Definition float_text (f : spec_float) : string :=
  match f with
  | S754_zero s => if s then "-0" else "0"
  | S754_finite s m e =>
    if float64_ok m e then
      of_bytes ((if s then [45] else []) ++ (let '(l, dp) := shortest_digits m e in float_digits l dp))%list
    else "null"
  | _ => "null"
  end.

(** * Facts: decimal digits *)

Definition digit_byte (b : Z) : Prop := 48 <= b <= 57.

(** The number a list of digits continues. *)
Definition decimal_value (n : Z) (l : list Z) : Z := foldl (fun n b => 10 * n + (b - 48)) n l.

Lemma value_app n l l' : decimal_value n (l ++ l') = decimal_value (decimal_value n l) l'.
Proof. apply foldl_app. Qed.
Lemma value_shift n l : decimal_value n l = n * 10 ^ Z.of_nat (length l) + decimal_value 0 l.
Proof.
  induction l as [|b l IH] using rev_ind; [cbn; lia|]. rewrite !value_app, length_app, IH. cbn.
  rewrite Nat2Z.inj_add, Z.pow_add_r by lia. lia.
Qed.
Lemma value_digits w z : decimal_value 0 (digits w z) = z mod 10 ^ Z.of_nat w.
Proof.
  revert z. induction w as [|w IH]; intros z; [cbn; by rewrite Z.mod_1_r|].
  cbn [digits]. rewrite value_app, IH. cbn [decimal_value foldl]. rewrite Nat2Z.inj_succ, Z.pow_succ_r by lia.
  rewrite Z.rem_mul_r by lia. lia.
Qed.

Lemma uint_digits u : Forall digit_byte (bytes (NilEmpty.string_of_uint u)).
Proof.
  induction u; cbn [NilEmpty.string_of_uint bytes]; [constructor|..];
    (apply Forall_cons_2; [vm_compute; split; discriminate|assumption]).
Qed.
Lemma uint_value u p : decimal_value (Z.pos p) (bytes (NilEmpty.string_of_uint u)) = Z.pos (Pos.of_uint_acc u p).
Proof.
  revert p. induction u as [|u IH|u IH|u IH|u IH|u IH|u IH|u IH|u IH|u IH|u IH]; intros p; [done|..];
    cbn [NilEmpty.string_of_uint bytes decimal_value foldl Pos.of_uint_acc];
    match goal with |- foldl _ ?z ?l = Z.pos (Pos.of_uint_acc _ ?q) =>
      change (decimal_value z l = Z.pos (Pos.of_uint_acc u q)); rewrite <- IH; f_equal end;
    match goal with |- context [byte_of ?c] => let n := eval vm_compute in (byte_of c) in change (byte_of c) with n end; lia.
Qed.
Lemma uint_value_zero u : decimal_value 0 (bytes (NilEmpty.string_of_uint u)) = Z.of_N (Pos.of_uint u).
Proof.
  induction u; cbn [NilEmpty.string_of_uint bytes decimal_value foldl Pos.of_uint Z.of_N]; [done|..];
    match goal with |- context [byte_of ?c] => let n := eval vm_compute in (byte_of c) in change (byte_of c) with n end;
    [exact IHu|..]; apply uint_value.
Qed.

Lemma itoa_digits n : 0 <= n -> Forall (fun b => 48 <= b <= 57) (bytes (itoa n)) /\ itoa n <> "".
Proof.
  intros Hn. split.
  - unfold itoa. destruct n as [|p|p]; [|cbn [Z.to_int NilZero.string_of_int]|lia].
    + cbn. constructor; [|constructor]. vm_compute. split; discriminate.
    + unfold NilZero.string_of_uint. destruct (Pos.to_uint p) eqn:E; [|rewrite <- E; apply uint_digits..].
      cbn. constructor; [|constructor]. vm_compute. split; discriminate.
  - intros He. pose proof (atoi_itoa n) as Ha. by rewrite He in Ha.
Qed.
Lemma fmtInt_value n : 0 <= n -> decimal_value 0 (fmtInt n) = n.
Proof.
  intros Hn. unfold fmtInt, itoa. destruct n as [|p|p]; [reflexivity|cbn [Z.to_int NilZero.string_of_int]|lia].
  assert (NilZero.string_of_uint (Pos.to_uint p) = NilEmpty.string_of_uint (Pos.to_uint p)) as ->.
  { unfold NilZero.string_of_uint. destruct (Pos.to_uint p) eqn:E; [|done..]. by apply DecimalPos.Unsigned.to_uint_nonnil in E. }
  rewrite uint_value_zero. by rewrite DecimalPos.Unsigned.of_to.
Qed.
Lemma value_bound l : Forall digit_byte l -> 0 <= decimal_value 0 l < 10 ^ Z.of_nat (length l).
Proof.
  induction l as [|b l IH] using rev_ind; intros Hd; [cbn; lia|]. apply Forall_app in Hd as [Hl Hb].
  apply Forall_cons in Hb as [Hb _]. rewrite value_app, length_app. cbn [decimal_value foldl length]. unfold digit_byte in Hb.
  rewrite Nat2Z.inj_add, Z.pow_add_r by lia. specialize (IH Hl). unfold decimal_value in *. lia.
Qed.

(** * Facts: the text of a duration

    Reading the text back, as [time.ParseDuration] does: a number with its
    fraction counts the unit behind it. *)
Fixpoint read_units (l : list Z) (n scale : Z) (point : bool) : Z :=
  match l with
  | [] => 0
  | c :: l' =>
    if (48 <=? c) && (c <=? 57) then read_units l' (10 * n + (c - 48)) (if point then 10 * scale else scale) point
    else if c =? 46 then read_units l' n 1 true
    else if c =? 104 then n * hour / scale + read_units l' 0 1 false
    else if c =? 115 then n * second / scale
    else if c =? 110 then n / scale
    else if c =? 109 then
      match l' with
      | c' :: _ => if c' =? 115 then n * millisecond / scale else n * minute / scale + read_units l' 0 1 false
      | [] => 0
      end
    else n * 1000 / scale
  end.
Definition read_duration (s : string) : duration :=
  match bytes s with
  | [] => 0
  | c :: l => if c =? 45 then - read_units l 0 1 false else read_units (c :: l) 0 1 false
  end.

Lemma read_digits l rest n scale point :
  Forall digit_byte l ->
  read_units (l ++ rest) n scale point =
    read_units rest (decimal_value n l) (if point then scale * 10 ^ Z.of_nat (length l) else scale) point.
Proof.
  intros Hl. revert n scale. induction Hl as [|b l Hb Hl IH]; intros n scale.
  - cbn [app length decimal_value foldl]. f_equal. destruct point; [|done]. cbn. lia.
  - cbn [app read_units]. unfold digit_byte in Hb. rewrite (proj2 (Z.leb_le 48 b)), (proj2 (Z.leb_le b 57)) by lia. cbn [andb].
    rewrite IH. f_equal. destruct point; [|done]. cbn [length]. rewrite Nat2Z.inj_succ, Z.pow_succ_r by lia. lia.
Qed.
Lemma read_fmtInt z rest : 0 <= z -> read_units (fmtInt z ++ rest) 0 1 false = read_units rest z 1 false.
Proof. intros Hz. rewrite read_digits by (by apply itoa_digits). by rewrite fmtInt_value. Qed.

Lemma trim_zeros_split l : exists k, l = (trim_zeros l ++ replicate k 48)%list.
Proof.
  destruct (strip_zeros_split (reverse l)) as [k Hk]. exists k. unfold trim_zeros.
  apply (f_equal reverse) in Hk. rewrite reverse_involutive, reverse_app, reverse_replicate in Hk. exact Hk.
Qed.
Lemma value_zeros n k : decimal_value n (replicate k 48) = n * 10 ^ Z.of_nat k.
Proof.
  revert n. induction k as [|k IH]; intros n; [cbn; lia|]. cbn [replicate decimal_value foldl].
  change (foldl _ ?z ?l) with (decimal_value z l). rewrite IH, Nat2Z.inj_succ, Z.pow_succ_r by lia. lia.
Qed.

(** An integer part and a fraction of [prec] digits say the number they were cut
    from. *)
Lemma read_frac prec v n rest :
  exists m scale point, read_units (fmtFrac prec v ++ rest) n 1 false = read_units rest m scale point /\ 0 < scale /\
    m * 10 ^ Z.of_nat prec = (n * 10 ^ Z.of_nat prec + v mod 10 ^ Z.of_nat prec) * scale.
Proof.
  destruct (trim_zeros_split (digits prec v)) as [k Hk]. pose proof (value_digits prec v) as Hv.
  pose proof (trim_zeros_range prec v) as Hr. pose proof (length_digits prec v) as Hl.
  unfold fmtFrac. set (l := trim_zeros (digits prec v)) in *. clearbody l.
  rewrite Hk, value_app, value_zeros in Hv.
  rewrite Hk, length_app, length_replicate in Hl. destruct l as [|b l'] eqn:El.
  - exists n, 1, false. split; [done|]. cbn in Hv. lia.
  - rewrite <- El in *. exists (decimal_value n l), (10 ^ Z.of_nat (length l)), true. split; [|split; [lia|]].
    + transitivity (read_units (l ++ rest) n 1 true); [by rewrite El|]. rewrite read_digits by exact Hr. f_equal. lia.
    + rewrite value_shift, <- Hv, <- Hl, Nat2Z.inj_add, Z.pow_add_r by lia. lia.
Qed.

Lemma exact_div a b c : 0 < b -> a = c * b -> a / b = c.
Proof. intros Hb ->. by rewrite Z.div_mul by lia. Qed.

Ltac read_unit := cbn [read_units]; repeat match goal with
  | |- context [if (?a <=? ?b) && (?c <=? ?d) then _ else _] => change ((a <=? b) && (c <=? d)) with false
  | |- context [if ?a =? ?b then _ else _] => first [change (a =? b) with true | change (a =? b) with false]
  end; cbn iota.

Lemma read_seconds u n rest :
  0 <= u -> 0 <= n -> read_units (fmtInt n ++ fmtFrac 9 u ++ 115 :: rest) 0 1 false = n * second + u mod second.
Proof.
  intros Hu Hn. rewrite read_fmtInt by done. destruct (read_frac 9 u n (115 :: rest)) as (m & scale & point & -> & Hs & Hm).
  read_unit. apply exact_div; [done|]. unfold second in *. change (10 ^ Z.of_nat 9) with 1000000000 in Hm. lia.
Qed.

Lemma duration_bytes_value u : 0 <= u -> read_units (duration_bytes u) 0 1 false = u.
Proof.
  intros Hu. unfold duration_bytes. destruct (Z.ltb_spec u second) as [Hlt|Hge].
  - destruct (Z.eqb_spec u 0) as [->|Hz]; [reflexivity|]. destruct (Z.ltb_spec u 1000) as [H3|H3].
    { rewrite read_fmtInt by done. read_unit. by rewrite Z.div_1_r. }
    destruct (Z.ltb_spec u millisecond) as [H6|H6]; rewrite read_fmtInt by (apply Z.div_pos; unfold millisecond; lia).
    + destruct (read_frac 3 u (u / 1000) [194; 181; 115]) as (m & scale & point & -> & Hs & Hm). read_unit.
      apply exact_div; [done|]. change (10 ^ Z.of_nat 3) with 1000 in Hm. pose proof (Z.div_mod u 1000). lia.
    + destruct (read_frac 6 u (u / millisecond) [109; 115]) as (m & scale & point & -> & Hs & Hm). read_unit.
      apply exact_div; [done|]. unfold millisecond in *. change (10 ^ Z.of_nat 6) with 1000000 in Hm.
      pose proof (Z.div_mod u 1000000). lia.
  - cbv zeta. set (s := u / second). assert (Hs : 0 <= s) by (apply Z.div_pos; unfold second; lia).
    assert (Hus : u = s * second + u mod second) by (pose proof (Z.div_mod u second); unfold second in *; lia).
    pose proof (Z.div_mod s 60). pose proof (Z.mod_pos_bound s 60).
    assert (Hm : 0 <= s / 60) by (apply Z.div_pos; lia). destruct (Z.eqb_spec (s / 60) 0) as [E|E].
    { cbn [app]. rewrite read_seconds by lia. lia. }
    pose proof (Z.div_mod (s / 60) 60). pose proof (Z.mod_pos_bound (s / 60) 60).
    assert (Hminutes : forall rest, read_units (fmtInt (s / 60 mod 60) ++ 109 :: fmtInt (s mod 60) ++ rest) 0 1 false =
      s / 60 mod 60 * minute + read_units (fmtInt (s mod 60) ++ rest) 0 1 false).
    { intros rest. rewrite read_fmtInt by lia. destruct (itoa_digits (s mod 60)) as [Hd Hne]; [lia|]. fold (fmtInt (s mod 60)) in Hd.
      destruct (fmtInt (s mod 60)) as [|c l] eqn:El; [by exfalso; apply Hne, bytes_inj|]. apply Forall_cons in Hd as [Hc _].
      cbn [app]. cbn [read_units]. read_unit. unfold digit_byte in Hc. destruct (Z.eqb_spec c 115); [lia|]. by rewrite Z.div_1_r. }
    rewrite <- !app_assoc. cbn [app]. destruct (Z.eqb_spec (s / 60 / 60) 0) as [E'|E'].
    + cbn [app]. rewrite Hminutes, read_seconds by lia. unfold minute. lia.
    + rewrite <- !app_assoc. cbn [app]. rewrite read_fmtInt by (apply Z.div_pos; lia). read_unit.
      rewrite Hminutes, read_seconds, Z.div_1_r by lia. unfold hour, minute. lia.
Qed.

(** Its characters. *)
Definition ascii_byte (b : Z) : Prop := digit_byte b \/ b = 46 \/ b = 104 \/ b = 109 \/ b = 110 \/ b = 115.
Lemma fmtInt_ascii z : 0 <= z -> Forall ascii_byte (fmtInt z).
Proof. intros Hz. eapply Forall_impl; [by apply itoa_digits|]. by left. Qed.
Lemma fmtFrac_ascii prec v : Forall ascii_byte (fmtFrac prec v).
Proof.
  unfold fmtFrac. pose proof (trim_zeros_range prec v) as Hr. destruct (trim_zeros _) as [|b l]; [constructor|].
  constructor; [by right; left|]. eapply Forall_impl; [exact Hr|]. by left.
Qed.
Lemma duration_bytes_shape u : 0 <= u ->
  Forall ascii_byte (duration_bytes u) \/
  exists l, duration_bytes u = (l ++ [194; 181; 115])%list /\ Forall ascii_byte l /\ u < millisecond.
Proof.
  intros Hu. assert (Hunit : forall l, forallb (fun b => (b =? 46) || (b =? 104) || (b =? 109) || (b =? 110) || (b =? 115)) l = true ->
    Forall ascii_byte l).
  { intros l Hl. apply Forall_forall. intros b Hb. rewrite forallb_forall in Hl. apply list_elem_of_In, Hl in Hb.
    rewrite !orb_true_iff, !Z.eqb_eq in Hb. unfold ascii_byte. tauto. }
  assert (Hi : forall z, 0 <= z -> Forall ascii_byte (fmtInt z)) by apply fmtInt_ascii.
  pose proof fmtFrac_ascii as Hf. unfold duration_bytes. destruct (Z.ltb_spec u second).
  - destruct (u =? 0); [left; repeat constructor; unfold digit_byte; tauto || lia|].
    destruct (u <? 1000); [left; apply Forall_app; split; [by apply Hi|by apply Hunit]|].
    destruct (Z.ltb_spec u millisecond).
    + right. exists (fmtInt (u / 1000) ++ fmtFrac 3 u)%list. rewrite <- app_assoc. split_and!; [done| |done].
      apply Forall_app. split; [apply Hi, Z.div_pos; lia|apply Hf].
    + left. rewrite !Forall_app. split_and!; [apply Hi, Z.div_pos; unfold millisecond; lia|apply Hf|by apply Hunit].
  - left. cbv zeta. assert (Hs : 0 <= u / second) by (apply Z.div_pos; unfold second; lia).
    assert (Hm : 0 <= u / second / 60) by (apply Z.div_pos; lia).
    rewrite !Forall_app. split_and!; [|apply Hi, Z.mod_pos_bound; lia|apply Hf|by apply Hunit].
    destruct (_ =? 0); [constructor|]. rewrite !Forall_app. split_and!; [|apply Hi, Z.mod_pos_bound; lia|by apply Hunit].
    destruct (_ =? 0); [constructor|]. apply Forall_app. split; [apply Hi, Z.div_pos; lia|by apply Hunit].
Qed.
Lemma duration_bytes_range u : 0 <= u -> Forall (fun b => 46 <= b < 256) (duration_bytes u).
Proof.
  intros Hu. assert (Ha : forall l, Forall ascii_byte l -> Forall (fun b => 46 <= b < 256) l)
    by (intros l Hl; eapply Forall_impl; [exact Hl|]; unfold ascii_byte, digit_byte; lia).
  destruct (duration_bytes_shape u Hu) as [Hl|(l & -> & Hl & _)]; [by apply Ha|].
  apply Forall_app. split; [by apply Ha|]. repeat constructor; lia.
Qed.

Definition sign_bytes (d : Z) : list Z := if d <? 0 then [45] else [].
Lemma duration_text_bytes d : bytes (duration_text d) = (sign_bytes d ++ duration_bytes (Z.abs d))%list.
Proof.
  unfold duration_text. fold (sign_bytes d). apply bytes_of_bytes, Forall_app. split.
  - unfold sign_bytes. destruct (d <? 0); [repeat constructor; lia|constructor].
  - eapply Forall_impl; [apply duration_bytes_range; lia|]. cbn. lia.
Qed.

(** The text of a duration is read back as the duration. *)
Lemma duration_roundtrip d : read_duration (duration_text d) = d.
Proof.
  unfold read_duration. rewrite duration_text_bytes. unfold sign_bytes.
  pose proof (duration_bytes_value (Z.abs d) ltac:(lia)) as Hv. destruct (Z.ltb_spec d 0).
  - cbn [app]. change (45 =? 45) with true. cbn iota. rewrite Hv. lia.
  - cbn [app]. pose proof (duration_bytes_range (Z.abs d) ltac:(lia)) as Hr. destruct (duration_bytes (Z.abs d)) as [|c l]; [cbn in Hv; lia|].
    apply Forall_cons in Hr as [Hc _]. destruct (Z.eqb_spec c 45); [lia|]. rewrite Hv. lia.
Qed.
Lemma duration_text_inj d d' : duration_text d = duration_text d' -> d = d'.
Proof. intros He. by rewrite <- (duration_roundtrip d), <- (duration_roundtrip d'), He. Qed.

(** It is valid UTF-8 without control characters, quotes or backslashes. *)
Lemma ascii_prefix_runes l rest fuel :
  (length l + length rest <= fuel)%nat -> forallb (fun b => b <? 128) l = true ->
  exists fuel', (length rest <= fuel')%nat /\ runes_fuel fuel (l ++ rest) = (map (fun b => (b, 1%nat)) l ++ runes_fuel fuel' rest)%list.
Proof.
  revert fuel. induction l as [|b l IH]; intros fuel Hf Ha; [by exists fuel|].
  destruct fuel as [|fuel]; [cbn in Hf; lia|]. cbn [forallb] in Ha. apply andb_true_iff in Ha as [Hb Ha].
  destruct (IH fuel ltac:(cbn in Hf; lia) Ha) as (fuel' & Hf' & He). exists fuel'. split; [done|].
  cbn [app runes_fuel map]. unfold decode_rune. rewrite Hb. cbn [snd]. change (drop 1 (b :: l ++ rest)) with (l ++ rest)%list.
  by rewrite He.
Qed.
Lemma duration_runes d : exists l, Forall (fun b => 45 <= b < 128 /\ b <> 92) l /\
  (runes (duration_text d) = map (fun b => (b, 1%nat)) l \/
   runes (duration_text d) = (map (fun b => (b, 1%nat)) l ++ [(181, 2%nat); (115, 1%nat)])%list).
Proof.
  unfold runes. rewrite <- length_bytes, duration_text_bytes.
  assert (Hs : Forall (fun b => 45 <= b < 128 /\ b <> 92) (sign_bytes d)).
  { unfold sign_bytes. destruct (d <? 0); [repeat constructor; lia|constructor]. }
  assert (Hl : forall l, Forall ascii_byte l -> Forall (fun b => 45 <= b < 128 /\ b <> 92) l)
    by (intros l Hl; eapply Forall_impl; [exact Hl|]; unfold ascii_byte, digit_byte; lia).
  assert (Hb : forall l, Forall (fun b => 45 <= b < 128 /\ b <> 92) l -> forallb (fun b => b <? 128) l = true).
  { intros l Hf. apply forallb_forall. intros b Hb%list_elem_of_In. rewrite Forall_forall in Hf. apply Hf in Hb. apply Z.ltb_lt. lia. }
  destruct (duration_bytes_shape (Z.abs d) ltac:(lia)) as [Ha|(l & -> & Ha & _)].
  - exists (sign_bytes d ++ duration_bytes (Z.abs d))%list. split; [apply Forall_app; auto|]. left.
    apply ascii_runes; [done|]. apply Hb, Forall_app. auto.
  - exists (sign_bytes d ++ l)%list. split; [apply Forall_app; auto|]. right. rewrite app_assoc.
    destruct (ascii_prefix_runes (sign_bytes d ++ l) [194; 181; 115] (length ((sign_bytes d ++ l) ++ [194; 181; 115]))) as (fuel & Hf & ->).
    + rewrite !length_app. lia.
    + apply Hb, Forall_app. auto.
    + f_equal. destruct fuel as [|[|[|fuel]]]; cbn in Hf; try lia. by destruct fuel.
Qed.
Lemma duration_utf8 d : valid_utf8 (duration_text d) = true.
Proof.
  assert (Hl : forall l, Forall (fun b => 45 <= b < 128 /\ b <> 92) l ->
    forallb (fun rw => negb ((fst rw =? runeError) && (snd rw =? 1)%nat)) (map (fun b => (b, 1%nat)) l) = true).
  { induction 1 as [|b l [Hb _] _ IH]; [done|]. cbn [map forallb fst snd]. rewrite IH, (proj2 (Z.eqb_neq b runeError)); [done|].
    unfold runeError. lia. }
  unfold valid_utf8. destruct (duration_runes d) as (l & Hf & [-> | ->]); [by apply Hl|].
  rewrite forallb_app, Hl by done. reflexivity.
Qed.

(** * Facts: lengths *)

(** Doubling a decimal number adds at most one digit. *)
Lemma double_digits (u : Decimal.uint) :
  (Decimal.nb_digits (Decimal.Little.double u) <= S (Decimal.nb_digits u))%nat /\
  (Decimal.nb_digits (Decimal.Little.succ_double u) <= S (Decimal.nb_digits u))%nat.
Proof. induction u as [|u IH|u IH|u IH|u IH|u IH|u IH|u IH|u IH|u IH|u IH]; cbn; lia. Qed.

Lemma little_digits p : (Decimal.nb_digits (Pos.to_little_uint p) <= Pos.size_nat p)%nat.
Proof.
  induction p as [p IH|p IH|]; cbn [Pos.to_little_uint Pos.size_nat]; [| |done].
  - destruct (double_digits (Pos.to_little_uint p)) as [_ ?]. lia.
  - destruct (double_digits (Pos.to_little_uint p)) as [? _]. lia.
Qed.

Lemma revapp_digits u v : Decimal.nb_digits (Decimal.revapp u v) = (Decimal.nb_digits u + Decimal.nb_digits v)%nat.
Proof. revert v. induction u as [|u IH|u IH|u IH|u IH|u IH|u IH|u IH|u IH|u IH|u IH]; intros v; cbn; rewrite ?IH; cbn; lia. Qed.

Lemma string_of_uint_len u : (String.length (NilZero.string_of_uint u) <= Nat.max 1 (Decimal.nb_digits u))%nat.
Proof.
  assert (H : forall u, String.length (NilEmpty.string_of_uint u) = Decimal.nb_digits u).
  { clear u. induction u as [|u IH|u IH|u IH|u IH|u IH|u IH|u IH|u IH|u IH|u IH]; cbn; congruence. }
  destruct u; cbn [NilZero.string_of_uint]; rewrite ?H; cbn; lia.
Qed.

Lemma size_nat_bound p n : Z.pos p < 2 ^ Z.of_nat n -> (Pos.size_nat p <= n)%nat.
Proof.
  revert n. induction p as [p IH|p IH|]; intros n Hp; cbn [Pos.size_nat];
    (destruct n as [|n]; [cbn in Hp; lia|]); rewrite Nat2Z.inj_succ, Z.pow_succ_r in Hp by lia;
    [specialize (IH n)|specialize (IH n)|]; lia.
Qed.

(** The decimal text of a number below [2^n] has at most [n] digits. *)
Lemma itoa_len z n : 0 <= z < 2 ^ Z.of_nat n -> (0 < n)%nat -> go_len (itoa z) <= Z.of_nat n.
Proof.
  intros Hz Hn. unfold itoa, go_len. destruct z as [|p|p]; [cbn; lia| |lia].
  cbn [Z.to_int NilZero.string_of_int]. unfold Pos.to_uint, Decimal.rev.
  pose proof (string_of_uint_len (Decimal.revapp (Pos.to_little_uint p) Decimal.Nil)) as Hl.
  rewrite revapp_digits in Hl. cbn [Decimal.nb_digits] in Hl. pose proof (little_digits p).
  pose proof (size_nat_bound p n ltac:(lia)). lia.
Qed.


Lemma fmtInt_len z n : 0 <= z < 2 ^ Z.of_nat n -> (0 < n)%nat -> (length (fmtInt z) <= n)%nat.
Proof. intros Hz Hn. unfold fmtInt. rewrite length_bytes. pose proof (itoa_len z n Hz Hn) as Hl. unfold go_len in Hl. lia. Qed.
Lemma trim_zeros_length l : (length (trim_zeros l) <= length l)%nat.
Proof. destruct (trim_zeros_split l) as [k Hk]. rewrite Hk at 2. rewrite length_app. lia. Qed.
Lemma fmtFrac_len prec v : (length (fmtFrac prec v) <= S prec)%nat.
Proof.
  unfold fmtFrac. pose proof (trim_zeros_length (digits prec v)) as Hl. rewrite length_digits in Hl.
  destruct (trim_zeros _); cbn [length] in *; lia.
Qed.

(** The text of a duration below [2 ^ (41 + n)] nanoseconds: less than [2 ^ n]
    hours. *)
Lemma duration_bytes_len u n :
  0 <= u < 2 ^ Z.of_nat (41 + n) -> (0 < n)%nat -> (length (duration_bytes u) <= n + 25)%nat.
Proof.
  intros Hu Hn. unfold duration_bytes. destruct (Z.ltb_spec u second) as [Hs|Hs].
  - destruct (Z.eqb_spec u 0); [cbn; lia|]. destruct (Z.ltb_spec u 1000).
    { rewrite length_app. pose proof (fmtInt_len u 10 ltac:(cbn; lia) ltac:(lia)). cbn [length]. lia. }
    destruct (Z.ltb_spec u millisecond) as [Hm|Hm]; rewrite !length_app; cbn [length].
    + pose proof (fmtFrac_len 3 u). pose proof (fmtInt_len (u / 1000) 10) as Hi.
      specialize (Hi ltac:(split; [apply Z.div_pos; lia|apply Z.div_lt_upper_bound; unfold millisecond in *; cbn; lia]) ltac:(lia)). lia.
    + pose proof (fmtFrac_len 6 u). pose proof (fmtInt_len (u / millisecond) 10) as Hi.
      specialize (Hi ltac:(split; [apply Z.div_pos; unfold millisecond; lia|apply Z.div_lt_upper_bound; unfold millisecond, second in *; cbn; lia]) ltac:(lia)). lia.
  - cbv zeta. set (s := u / second). assert (0 <= s) by (apply Z.div_pos; unfold second; lia).
    pose proof (Z.mod_pos_bound s 60). pose proof (Z.mod_pos_bound (s / 60) 60).
    pose proof (fmtInt_len (s mod 60) 6 ltac:(cbn; lia) ltac:(lia)). pose proof (fmtInt_len (s / 60 mod 60) 6 ltac:(cbn; lia) ltac:(lia)).
    pose proof (fmtFrac_len 9 u). pose proof (fmtInt_len (s / 60 / 60) n) as Hh.
    assert (Hb : 0 <= s / 60 / 60 < 2 ^ Z.of_nat n).
    { split; [apply Z.div_pos; [apply Z.div_pos|]; lia|]. rewrite Z.div_div by lia. apply Z.div_lt_upper_bound; [lia|].
      apply Z.div_lt_upper_bound; [unfold second; lia|]. rewrite Nat2Z.inj_add, Z.pow_add_r in Hu by lia. unfold second.
      change (2 ^ Z.of_nat 41) with 2199023255552 in Hu. lia. }
    specialize (Hh Hb Hn). rewrite !length_app. cbn [length].
    destruct (_ =? 0); [cbn [length]; lia|]. rewrite !length_app. cbn [length]. destruct (_ =? 0); rewrite ?length_app; cbn [length]; lia.
Qed.

(** ** Floats *)

#[local] Arguments choose : simpl never.
Lemma choose_nearest m e k nd : 0 <= dc_nearest (choose m e k nd) - dc_down (choose m e k nd) <= 1.
Proof.
  unfold choose. cbn [dc_down dc_nearest]. set (c := _ / _). destruct (_ <? _); [lia|]. destruct (_ <? _); [lia|].
  destruct (Z.even _); lia.
Qed.
Lemma shortest_bound fuel m e k nd c p :
  shortest fuel m e k nd = (c, p) ->
  exists nd', nd <= nd' <= nd + Z.of_nat fuel /\ p = k - nd' /\ 0 <= c - dc_down (choose m e k nd') <= 1.
Proof.
  revert nd. induction fuel as [|fuel IH]; intros nd; cbn [shortest].
  - intros [<- <-]%pair_equal_spec. exists nd. lia.
  - destruct (_ && _).
    { intros [<- <-]%pair_equal_spec. exists nd. split; [lia|]. split; [done|]. apply choose_nearest. }
    destruct (dc_down_ok _); [intros [<- <-]%pair_equal_spec; exists nd; lia|]. destruct (dc_up_ok _); [intros [<- <-]%pair_equal_spec; exists nd; lia|].
    intros (nd' & Hn & Hp & Hc)%IH. exists nd'. lia.
Qed.

(** A float is below the power of ten of its magnitude. *)
Lemma magnitude_above m e : exists len, magnitude m e = len - 400 /\ 0 <= len /\
  Z.pos m * 2 ^ Z.max e 0 * 10 ^ 400 < 10 ^ len * 2 ^ Z.max (- e) 0.
Proof.
  unfold magnitude. set (num := Z.pos m * 2 ^ Z.max e 0 * 10 ^ 400). set (den := 2 ^ Z.max (- e) 0).
  assert (Hn : 0 <= num) by (apply Z.mul_nonneg_nonneg; [apply Z.mul_nonneg_nonneg|]; [lia|apply Z.pow_nonneg; lia..]).
  assert (Hd : 0 < den) by (apply Z.pow_pos_nonneg; lia). clearbody num den.
  exists (Z.of_nat (length (fmtInt (num / den)))). split; [done|]. split; [lia|].
  assert (H0 : 0 <= num / den) by (apply Z.div_pos; lia).
  destruct (itoa_digits (num / den) H0) as [Hf _]. apply value_bound in Hf. fold (fmtInt (num / den)) in Hf.
  rewrite fmtInt_value in Hf by done. pose proof (Z.mul_succ_div_gt num den Hd). nia.
Qed.

Lemma scale_below m x y ten b2 b10 a2 a10 below bound :
  0 < y -> 0 < ten -> 0 < b10 -> 0 < a2 -> 4 * b2 * y = x * a2 -> below * b10 = bound * a10 * ten ->
  m * x * ten < below * y -> 4 * m * (b2 * b10) < a10 * a2 * bound.
Proof.
  intros Hy Ht Hb Ha E2 E10 Hm. apply (Z.mul_lt_mono_pos_r (y * ten)); [nia|].
  replace (4 * m * (b2 * b10) * (y * ten)) with (m * (4 * b2 * y) * ten * b10) by ring. rewrite E2.
  replace (a10 * a2 * bound * (y * ten)) with (bound * a10 * ten * (a2 * y)) by ring. rewrite <- E10.
  replace (m * (x * a2) * ten * b10) with (m * x * ten * (a2 * b10)) by ring.
  replace (below * b10 * (a2 * y)) with (below * y * (a2 * b10)) by ring. apply Z.mul_lt_mono_pos_r; [nia|done].
Qed.

(** The decimals below the float have as many digits as they should. *)
Lemma choose_down m e nd : 0 <= nd -> 0 <= dc_down (choose m e (magnitude m e) nd) < 10 ^ nd.
Proof.
  intros Hnd. unfold choose. cbn [dc_down]. destruct (magnitude_above m e) as (len & -> & Hlen & Hv).
  set (p := len - 400 - nd).
  assert (H10 : forall z, 0 < 10 ^ Z.max z 0) by (intros; apply Z.pow_pos_nonneg; lia).
  assert (H2 : forall z, 0 < 2 ^ Z.max z 0) by (intros; apply Z.pow_pos_nonneg; lia).
  assert (Hpos : 0 < 10 ^ Z.max p 0 * 2 ^ Z.max (2 - e) 0) by (apply Z.mul_pos_pos; auto).
  split.
  - apply Z.div_pos; [|done]. apply Z.mul_nonneg_nonneg; [lia|]. apply Z.lt_le_incl, Z.mul_pos_pos; auto.
  - apply Z.div_lt_upper_bound; [done|].
    apply (scale_below _ (2 ^ Z.max e 0) (2 ^ Z.max (- e) 0) (10 ^ 400) _ _ _ _ (10 ^ len)); auto.
    + apply Z.pow_pos_nonneg; lia.
    + change 4 with (2 ^ 2). rewrite <- !Z.pow_add_r by lia. f_equal. lia.
    + rewrite <- !Z.pow_add_r by lia. f_equal. lia.
Qed.

Lemma quotient_bound m x y ten a b c :
  0 < m < a -> 0 < x <= b -> 0 < ten < c -> 0 < y -> 0 <= m * x * ten / y < a * b * c.
Proof.
  intros Hm Hx Ht Hy. assert (H1 : 0 < m * x < a * b) by nia.
  assert (H2 : m * x * ten < a * b * c) by (apply Z.mul_lt_mono_nonneg; nia).
  split; [apply Z.div_pos; [nia|done]|]. apply Z.div_lt_upper_bound; [done|]. nia.
Qed.
Lemma magnitude_range m e : float64_ok m e = true -> -400 <= magnitude m e <= 2000.
Proof.
  unfold float64_ok. intros Hok. apply andb_true_iff in Hok as [[Hm He]%andb_true_iff He'].
  apply Z.ltb_lt in Hm. apply Z.leb_le in He, He'. unfold magnitude.
  assert (Hb : 0 <= Z.pos m * 2 ^ Z.max e 0 * 10 ^ 400 / 2 ^ Z.max (- e) 0 < 2 ^ Z.of_nat 2353).
  { change (2 ^ Z.of_nat 2353) with (2 ^ (53 + 971 + 1329)). rewrite !Z.pow_add_r by lia. apply quotient_bound; [lia| | |].
    - split; [apply Z.pow_pos_nonneg; lia|apply Z.pow_le_mono_r; lia].
    - split; vm_compute; reflexivity.
    - apply Z.pow_pos_nonneg; lia. }
  pose proof (fmtInt_len _ 2353 Hb ltac:(lia)). lia.
Qed.

Lemma shortest_digits_ok m e l dp :
  float64_ok m e = true -> shortest_digits m e = (l, dp) ->
  (length l <= 60)%nat /\ Forall digit_byte l /\ -500 <= dp <= 2100.
Proof.
  intros Hok. unfold shortest_digits. destruct (shortest _ _ _ _ _) as [c p] eqn:Es. intros [= <- <-].
  apply shortest_bound in Es as (nd & Hnd & -> & Hc). pose proof (choose_down m e nd ltac:(lia)) as Hd.
  pose proof (Z.pow_le_mono_r 10 nd 18 ltac:(lia) ltac:(lia)) as Hp.
  assert (H0 : 0 <= c) by lia. assert (Hl : (length (fmtInt c) <= 60)%nat).
  { apply fmtInt_len; [|lia]. change (2 ^ Z.of_nat 60) with 1152921504606846976. change (10 ^ 18) with 1000000000000000000 in Hp. lia. }
  pose proof (trim_zeros_length (fmtInt c)). pose proof (magnitude_range m e Hok). split_and!; [lia| |lia|lia].
  destruct (trim_zeros_split (fmtInt c)) as [k Hk]. destruct (itoa_digits c H0) as [Hf _]. fold (fmtInt c) in Hf.
  rewrite Hk in Hf. by apply Forall_app in Hf as [Hf _].
Qed.

Lemma zero_bytes_length n : length (zero_bytes n) = n.
Proof. induction n; cbn; congruence. Qed.

(** A float is written in at most 90 bytes, digits, signs, a point and an [e], and
    at least one. *)
Definition number_text_byte (b : Z) : Prop := 43 <= b <= 57 \/ b = 101 \/ 108 <= b <= 117.
Lemma float_digits_ok l dp : Forall digit_byte l -> -500 <= dp <= 2100 -> (length l <= 60)%nat ->
  (1 <= length (float_digits l dp) <= 85)%nat /\ Forall number_text_byte (float_digits l dp).
Proof.
  intros Hf Hd Hl. assert (Hn : Forall number_text_byte l) by (eapply Forall_impl; [exact Hf|]; unfold digit_byte, number_text_byte; lia).
  assert (Hz : forall n, Forall number_text_byte (zero_bytes n))
    by (induction n; cbn; constructor; [unfold number_text_byte; lia|done]).
  unfold float_digits. destruct ((-5 <=? dp) && (dp <=? 21)) eqn:Er.
  - apply andb_true_iff in Er as [E1%Z.leb_le E2%Z.leb_le]. destruct (Z.leb_spec dp 0).
    { rewrite !length_app, zero_bytes_length. cbn [length]. split; [lia|]. rewrite !Forall_app. split_and!; [|apply Hz|done].
      repeat constructor; unfold number_text_byte; lia. }
    destruct (Z.leb_spec (Z.of_nat (length l)) dp).
    + rewrite length_app, zero_bytes_length. split; [lia|]. apply Forall_app. auto.
    + rewrite length_app. cbn [length]. rewrite length_take, length_drop. split; [lia|].
      apply Forall_app. split; [by apply Forall_take|]. constructor; [unfold number_text_byte; lia|by apply Forall_drop].
  - pose proof (fmtInt_len (Z.abs (dp - 1)) 12 ltac:(cbn; lia) ltac:(lia)). rewrite !length_app, length_take.
    assert (Hi : Forall number_text_byte (fmtInt (Z.abs (dp - 1)))).
    { eapply Forall_impl; [apply itoa_digits; lia|]. unfold digit_byte, number_text_byte. lia. }
    destruct (length l <=? 1)%nat; cbn [length]; rewrite ?length_drop; (split; [lia|]); rewrite !Forall_app;
      (split_and!; [by apply Forall_take| |repeat constructor; unfold number_text_byte; case_match; lia|done]).
    + constructor.
    + constructor; [unfold number_text_byte; lia|by apply Forall_drop].
Qed.
Lemma float_text_ok f :
  1 <= go_len (float_text f) <= 90 /\ Forall number_text_byte (bytes (float_text f)).
Proof.
  assert (Hc : forall s, (1 <=? go_len s) && (go_len s <=? 90) && forallb (fun b => (43 <=? b) && (b <=? 57) || (108 <=? b) && (b <=? 117)) (bytes s) = true ->
    1 <= go_len s <= 90 /\ Forall number_text_byte (bytes s)).
  { intros s Hs. rewrite !andb_true_iff, !Z.leb_le, forallb_forall in Hs. split; [lia|]. apply Forall_forall. intros b Hb.
    destruct Hs as [_ Hs]. apply list_elem_of_In, Hs in Hb. rewrite orb_true_iff, !andb_true_iff, !Z.leb_le in Hb. unfold number_text_byte. lia. }
  destruct f as [[]|s| |s m e]; try by apply Hc. cbn [float_text]. destruct (float64_ok m e) eqn:Hok; [|by apply Hc].
  destruct (shortest_digits m e) as [l dp] eqn:Es. destruct (shortest_digits_ok m e l dp Hok Es) as (Hl & Hf & Hd).
  destruct (float_digits_ok l dp Hf Hd Hl) as [Hlen Hn].
  assert (Hs : Forall number_text_byte (if s then [45] else [])) by (destruct s; repeat constructor; unfold number_text_byte; lia).
  rewrite bytes_of_bytes.
  - split; [|by apply Forall_app]. unfold go_len. rewrite <- length_bytes, bytes_of_bytes, length_app.
    + destruct s; cbn [length]; lia.
    + apply Forall_app; split; (eapply Forall_impl; [eassumption|]); unfold number_text_byte; lia.
  - apply Forall_app; split; (eapply Forall_impl; [eassumption|]); unfold number_text_byte; lia.
Qed.
