(* ===== verification/Sha256.v ===== *)
(** [crypto/sha256.Sum256] (FIPS 180-4) on byte strings and
    [encoding/hex.EncodeToString]; the recovery journal, the correlator, the
    audit chain and the delivery queue derive their keys and digests from
    them. *)
From S2P Require Import Prelude GoLib.
From stdpp Require Import options.
Local Open Scope Z_scope.

Definition mask32 (z : Z) : Z := z mod 4294967296.
Definition add32 (a b : Z) : Z := mask32 (a + b).
Definition rotr (n x : Z) : Z := mask32 (Z.lor (Z.shiftr x n) (Z.shiftl x (32 - n))).
Definition shr (n x : Z) : Z := Z.shiftr x n.

Definition ch (x y z : Z) : Z := Z.lxor (Z.land x y) (Z.land (4294967295 - x) z).
Definition maj (x y z : Z) : Z := Z.lxor (Z.lxor (Z.land x y) (Z.land x z)) (Z.land y z).
Definition bsig0 (x : Z) : Z := Z.lxor (Z.lxor (rotr 2 x) (rotr 13 x)) (rotr 22 x).
Definition bsig1 (x : Z) : Z := Z.lxor (Z.lxor (rotr 6 x) (rotr 11 x)) (rotr 25 x).
Definition ssig0 (x : Z) : Z := Z.lxor (Z.lxor (rotr 7 x) (rotr 18 x)) (shr 3 x).
Definition ssig1 (x : Z) : Z := Z.lxor (Z.lxor (rotr 17 x) (rotr 19 x)) (shr 10 x).

Definition round_constants : list Z :=
  [1116352408; 1899447441; 3049323471; 3921009573; 961987163; 1508970993; 2453635748;
   2870763221; 3624381080; 310598401; 607225278; 1426881987; 1925078388; 2162078206;
   2614888103; 3248222580; 3835390401; 4022224774; 264347078; 604807628; 770255983;
   1249150122; 1555081692; 1996064986; 2554220882; 2821834349; 2952996808; 3210313671;
   3336571891; 3584528711; 113926993; 338241895; 666307205; 773529912; 1294757372;
   1396182291; 1695183700; 1986661051; 2177026350; 2456956037; 2730485921; 2820302411;
   3259730800; 3345764771; 3516065817; 3600352804; 4094571909; 275423344; 430227734;
   506948616; 659060556; 883997877; 958139571; 1322822218; 1537002063; 1747873779;
   1955562222; 2024104815; 2227730452; 2361852424; 2428436474; 2756734187; 3204031479;
   3329325298].

Definition initial_state : list Z :=
  [1779033703; 3144134277; 1013904242; 2773480762; 1359893119; 2600822924; 528734635;
   1541459225].

(** Big-endian bytes of a [w]-byte word. *)
Fixpoint be_bytes (w : nat) (z : Z) : list Z :=
  match w with
  | O => []
  | S w' => (be_bytes w' (z / 256) ++ [z mod 256])%list
  end.

(** The message with its padding: 0x80, zeros, the bit length in 64 bits. *)
Definition padded (l : list Z) : list Z :=
  let n := Z.of_nat (length l) in
  (l ++ [128] ++ replicate (Z.to_nat ((55 - n) mod 64)) 0 ++ be_bytes 8 (8 * n))%list.

(** Big-endian 32-bit words of a block. *)
Fixpoint words (l : list Z) : list Z :=
  match l with
  | a :: b :: c :: d :: l' => ((a * 256 + b) * 256 + c) * 256 + d :: words l'
  | _ => []
  end.

(** The message schedule, most recent word first. *)
Fixpoint extend (n : nat) (w : list Z) : list Z :=
  match n with
  | O => w
  | S n' =>
    let x := add32 (add32 (ssig1 (nth 1 w 0)) (nth 6 w 0))
                   (add32 (ssig0 (nth 14 w 0)) (nth 15 w 0)) in
    extend n' (x :: w)
  end.
Definition schedule (block : list Z) : list Z := reverse (extend 48 (reverse (words block))).

Definition round (s : list Z) (kw : Z * Z) : list Z :=
  match s with
  | [a; b; c; d; e; f; g; h] =>
    let t1 := add32 (add32 (add32 h (bsig1 e)) (ch e f g)) (add32 (fst kw) (snd kw)) in
    let t2 := add32 (bsig0 a) (maj a b c) in
    [add32 t1 t2; a; b; c; add32 d t1; e; f; g]
  | _ => s
  end.

Definition compress (s block : list Z) : list Z :=
  zip_with add32 s (fold_left round (zip round_constants (schedule block)) s).

(** The blocks of 64 bytes; the padded length bounds their number. *)
Fixpoint blocks (fuel : nat) (s : list Z) (l : list Z) : list Z :=
  match fuel, l with
  | S fuel', _ :: _ => blocks fuel' (compress s (take 64 l)) (drop 64 l)
  | _, _ => s
  end.

Definition sum256 (l : list Z) : list Z :=
  let p := padded l in
  concat (map (be_bytes 4) (blocks (length p) initial_state p)).

Definition hex_digit (n : Z) : Z := if n <? 10 then 48 + n else 87 + n.
Definition hex_bytes (l : list Z) : list Z :=
  concat (map (fun b => [hex_digit (b / 16); hex_digit (b mod 16)]) l).

(** [hex.EncodeToString(sha256.Sum256([]byte(s))[:])]. *)
Definition sha256_hex (s : string) : string := of_bytes (hex_bytes (sum256 (bytes s))).

(** [hex.DecodeString] succeeds: an even number of hexadecimal digits. *)
Definition is_hex (b : Z) : bool :=
  ((48 <=? b) && (b <=? 57)) || ((97 <=? b) && (b <=? 102)) || ((65 <=? b) && (b <=? 70)).
Definition hex_decodable (s : string) : bool :=
  Nat.even (String.length s) && forallb is_hex (bytes s).

Lemma sha256_abc :
  sha256_hex "abc" = "ba7816bf8f01cfea414140de5dae2223b00361a396177a9cb410ff61f20015ad".
Proof. vm_compute. reflexivity. Qed.

Lemma sha256_empty :
  sha256_hex "" = "e3b0c44298fc1c149afbf4c8996fb92427ae41e4649b934ca495991b7852b855".
Proof. vm_compute. reflexivity. Qed.

Lemma length_be_bytes w z : length (be_bytes w z) = w.
Proof. revert z. induction w; simpl; intros; [done|]. rewrite length_app, IHw; simpl; lia. Qed.

Lemma length_compress s block : length s = 8%nat -> length (compress s block) = 8%nat.
Proof.
  intros H. unfold compress. rewrite length_zip_with, H.
  assert (forall kws s', length s' = 8%nat -> length (fold_left round kws s') = 8%nat) as ->; [|done..].
  induction kws as [|kw kws IH]; simpl; intros s' H'; [done|]. apply IH.
  do 9 (destruct s' as [|? s']; try done).
Qed.

Lemma length_blocks fuel s l : length s = 8%nat -> length (blocks fuel s l) = 8%nat.
Proof.
  revert s l. induction fuel as [|fuel IH]; intros s [|b l] H; simpl; try done.
  by apply IH, length_compress.
Qed.

Lemma length_sum256 l : length (sum256 l) = 32%nat.
Proof.
  unfold sum256. assert (H := length_blocks (length (padded l)) initial_state (padded l) eq_refl).
  revert H. generalize (blocks (length (padded l)) initial_state (padded l)).
  intros q Hq. by do 9 (destruct q as [|? q]; try done).
Qed.

Lemma be_bytes_range w z : Forall (fun b => 0 <= b < 256) (be_bytes w z).
Proof.
  revert z. induction w as [|w IH]; simpl; intros z; [constructor|].
  apply Forall_app; split; [apply IH|]. constructor; [|constructor].
  apply Z.mod_pos_bound; lia.
Qed.

Lemma sum256_range l : Forall (fun b => 0 <= b < 256) (sum256 l).
Proof.
  unfold sum256. apply Forall_concat, Forall_map, Forall_forall. intros; apply be_bytes_range.
Qed.

Lemma hex_digit_is_hex n : 0 <= n < 16 -> is_hex (hex_digit n) = true /\ 48 <= hex_digit n <= 102.
Proof.
  unfold is_hex, hex_digit. intros H. destruct (Z.ltb_spec n 10); split; try lia;
    rewrite ?orb_true_iff, ?andb_true_iff, ?Z.leb_le; lia.
Qed.

Lemma hex_bytes_ok l :
  Forall (fun b => 0 <= b < 256) l ->
  Forall (fun b => is_hex b = true /\ 48 <= b <= 102) (hex_bytes l).
Proof.
  unfold hex_bytes. intros H. apply Forall_concat, Forall_map.
  eapply Forall_impl; [exact H|]. intros b Hb. simpl in *.
  pose proof (Z.mod_pos_bound b 16 ltac:(lia)).
  assert (0 <= b / 16 < 16) by (split; [apply Z.div_pos|apply Z.div_lt_upper_bound]; lia).
  rewrite !Forall_cons. auto using hex_digit_is_hex.
Qed.

Lemma length_hex_bytes l : length (hex_bytes l) = (2 * length l)%nat.
Proof. unfold hex_bytes. induction l; simpl; [done|]. rewrite IHl. lia. Qed.

Lemma bytes_sha256_hex s : bytes (sha256_hex s) = hex_bytes (sum256 (bytes s)).
Proof.
  unfold sha256_hex. apply bytes_of_bytes.
  eapply Forall_impl; [apply hex_bytes_ok, sum256_range|]. simpl. lia.
Qed.

(** A hexadecimal digest has 64 characters and decodes. *)
Lemma length_sha256_hex s : String.length (sha256_hex s) = 64%nat.
Proof. by rewrite <- length_bytes, bytes_sha256_hex, length_hex_bytes, length_sum256. Qed.

Lemma sha256_hex_decodable s : hex_decodable (sha256_hex s) = true.
Proof.
  unfold hex_decodable. rewrite length_sha256_hex, bytes_sha256_hex; simpl.
  apply forallb_forall. intros b Hb. apply list_elem_of_In in Hb.
  pose proof (hex_bytes_ok _ (sum256_range (bytes s))) as H.
  rewrite Forall_forall in H. by apply H.
Qed.
