(* ===== verification/Base64.v ===== *)
(** The parts of [encoding/base64] and [crypto/hmac] the webhook signer uses:
    the standard padded alphabet, its strict decoder and HMAC-SHA256, on byte
    lists. *)
From S2P Require Import Prelude GoLib Sha256.
From stdpp Require Import options.
Local Open Scope Z_scope.

(** * The alphabet *)

Definition sextet_char (n : Z) : Z :=
  if n <? 26 then 65 + n else if n <? 52 then 97 + (n - 26) else if n <? 62 then 48 + (n - 52)
  else if n =? 62 then 43 else 47.

Definition char_sextet (c : Z) : option Z :=
  if (65 <=? c) && (c <=? 90) then Some (c - 65)
  else if (97 <=? c) && (c <=? 122) then Some (c - 97 + 26)
  else if (48 <=? c) && (c <=? 57) then Some (c - 48 + 52)
  else if c =? 43 then Some 62 else if c =? 47 then Some 63 else None.

(** * Encoding *)

Definition padding : Z := 61.

Fixpoint base64_encode (l : list Z) : list Z :=
  match l with
  | a :: b :: c :: rest =>
    let n := a * 65536 + b * 256 + c in
    sextet_char (n / 262144) :: sextet_char (n / 4096 mod 64) :: sextet_char (n / 64 mod 64) ::
    sextet_char (n mod 64) :: base64_encode rest
  | [a; b] =>
    let n := a * 1024 + b * 4 in
    [sextet_char (n / 4096); sextet_char (n / 64 mod 64); sextet_char (n mod 64); padding]
  | [a] => [sextet_char (a * 16 / 64); sextet_char (a * 16 mod 64); padding; padding]
  | [] => []
  end.

(** * Strict decoding *)

(** The quanta of four characters; padding only ends the text, and the unused
    bits before it must be zero. *)
Fixpoint decode_quanta (l : list Z) : option (list Z) :=
  match l with
  | [] => Some []
  | c1 :: c2 :: c3 :: c4 :: rest =>
    s1 ← char_sextet c1; s2 ← char_sextet c2;
    if c3 =? padding then
      if (c4 =? padding) && (s2 mod 16 =? 0) && bool_decide (rest = []) then Some [s1 * 4 + s2 / 16] else None
    else
      s3 ← char_sextet c3;
      if c4 =? padding then
        if (s3 mod 4 =? 0) && bool_decide (rest = [])
        then Some [s1 * 4 + s2 / 16; s2 mod 16 * 16 + s3 / 4] else None
      else
        s4 ← char_sextet c4;
        decoded ← decode_quanta rest;
        Some (s1 * 4 + s2 / 16 :: s2 mod 16 * 16 + s3 / 4 :: s3 mod 4 * 64 + s4 :: decoded)
  | _ => None
  end.

(** [base64.StdEncoding.Strict().DecodeString]: line breaks are skipped. *)
Definition base64_decode (l : list Z) : option (list Z) :=
  decode_quanta (filter (fun c => c <> 10 /\ c <> 13) l).

(** * HMAC *)

Definition hmac_block : nat := 64.
Definition hmac_key (secret : list Z) : list Z :=
  let key := if (hmac_block <? length secret)%nat then sum256 secret else secret in
  (key ++ replicate (hmac_block - length key) 0)%list.
Definition hmac_sha256 (secret content : list Z) : list Z :=
  let key := hmac_key secret in
  sum256 (map (Z.lxor 92) key ++ sum256 (map (Z.lxor 54) key ++ content)).

Example hmac_rfc4231_case2 :
  hex_bytes (hmac_sha256 (bytes "Jefe") (bytes "what do ya want for nothing?")) =
  bytes "5bdcc146bf60754e6a042426089575c75a003f089d2739839dec58b964ec3843".
Proof. vm_compute. reflexivity. Qed.
Example base64_padding :
  map (fun s => of_bytes (base64_encode (bytes s))) ["f"; "fo"; "foo"; "foob"] = ["Zg=="; "Zm8="; "Zm9v"; "Zm9vYg=="].
Proof. vm_compute. reflexivity. Qed.
Example base64_strict : base64_decode (bytes "Zh==") = None.
Proof. vm_compute. reflexivity. Qed.

(** * Facts *)

Lemma char_sextet_char n : 0 <= n < 64 -> char_sextet (sextet_char n) = Some n.
Proof.
  intros H. unfold sextet_char.
  destruct (Z.ltb_spec n 26); [|destruct (Z.ltb_spec n 52); [|destruct (Z.ltb_spec n 62); [|destruct (Z.eqb_spec n 62)]]];
    unfold char_sextet;
    repeat match goal with
    | |- context [ Z.leb ?a ?b ] => destruct (Z.leb_spec a b); try lia; cbn [andb]
    | |- context [ Z.eqb ?a ?b ] => destruct (Z.eqb_spec a b); try lia
    end; f_equal; lia.
Qed.

(** The characters a sextet is written with. *)
Definition base64_char (c : Z) : Prop :=
  65 <= c <= 90 \/ 97 <= c <= 122 \/ 48 <= c <= 57 \/ c = 43 \/ c = 47 \/ c = 61.

Lemma sextet_base64 n : 0 <= n < 64 -> base64_char (sextet_char n).
Proof.
  intros H. unfold sextet_char, base64_char.
  destruct (Z.ltb_spec n 26); [lia|]. destruct (Z.ltb_spec n 52); [lia|]. destruct (Z.ltb_spec n 62); [lia|].
  destruct (Z.eqb_spec n 62); lia.
Qed.

Lemma sextet_not_padding n : 0 <= n < 64 -> sextet_char n <> 61.
Proof.
  intros H. unfold sextet_char.
  destruct (Z.ltb_spec n 26); [lia|]. destruct (Z.ltb_spec n 52); [lia|]. destruct (Z.ltb_spec n 62); [lia|].
  destruct (Z.eqb_spec n 62); lia.
Qed.

(** Induction three bytes at a time. *)
Lemma triple_ind (P : list Z -> Prop) :
  P [] -> (forall a, P [a]) -> (forall a b, P [a; b]) ->
  (forall a b c l, P l -> P (a :: b :: c :: l)) -> forall l, P l.
Proof.
  intros H0 H1 H2 H3 l. enough (P l /\ (forall a, P (a :: l)) /\ (forall a b, P (a :: b :: l))) by tauto.
  induction l as [|x l (Ha & Hb & Hc)]; [auto|]. auto.
Qed.

Definition is_byte (b : Z) : Prop := 0 <= b < 256.

(** The sextets of a group of three bytes and of the two short groups. *)
Lemma group_sextets a b c :
  is_byte a -> is_byte b -> is_byte c -> let n := a * 65536 + b * 256 + c in
  (0 <= n / 262144 < 64 /\ 0 <= n / 4096 mod 64 < 64 /\ 0 <= n / 64 mod 64 < 64 /\ 0 <= n mod 64 < 64) /\
  n / 262144 * 4 + n / 4096 mod 64 / 16 = a /\
  n / 4096 mod 64 mod 16 * 16 + n / 64 mod 64 / 4 = b /\ n / 64 mod 64 mod 4 * 64 + n mod 64 = c.
Proof. unfold is_byte. cbv zeta. intros. Z.div_mod_to_equations. lia. Qed.

Lemma pair_sextets a b :
  is_byte a -> is_byte b -> let n := a * 1024 + b * 4 in
  (0 <= n / 4096 < 64 /\ 0 <= n / 64 mod 64 < 64 /\ 0 <= n mod 64 < 64) /\ n mod 64 mod 4 = 0 /\
  n / 4096 * 4 + n / 64 mod 64 / 16 = a /\ n / 64 mod 64 mod 16 * 16 + n mod 64 / 4 = b.
Proof. unfold is_byte. cbv zeta. intros. Z.div_mod_to_equations. lia. Qed.

Lemma single_sextets a :
  is_byte a -> (0 <= a * 16 / 64 < 64 /\ 0 <= a * 16 mod 64 < 64) /\ a * 16 mod 64 mod 16 = 0 /\
  a * 16 / 64 * 4 + a * 16 mod 64 / 16 = a.
Proof. unfold is_byte. intros. Z.div_mod_to_equations. lia. Qed.

Lemma base64_encode_chars l : Forall is_byte l -> Forall base64_char (base64_encode l).
Proof.
  assert (Hpad : base64_char padding) by (unfold base64_char, padding; lia).
  induction l as [|a|a b|a b c l IH] using triple_ind; cbn [base64_encode]; rewrite ?Forall_cons; intros Hl.
  - done.
  - destruct Hl as [((? & ?) & _)%single_sextets _]. split_and!; auto using sextet_base64.
  - destruct Hl as (Ha & Hb & _). destruct (pair_sextets a b Ha Hb) as ((? & ? & ?) & _).
    split_and!; auto using sextet_base64.
  - destruct Hl as (Ha & Hb & Hc & Hl). destruct (group_sextets a b c Ha Hb Hc) as ((? & ? & ? & ?) & _).
    split_and!; auto using sextet_base64.
Qed.

Lemma decode_quanta_encode l : Forall is_byte l -> decode_quanta (base64_encode l) = Some l.
Proof.
  assert (Hp : forall n, 0 <= n < 64 -> (sextet_char n =? padding) = false).
  { intros n Hn. apply Z.eqb_neq. by apply sextet_not_padding. }
  induction l as [|a|a b|a b c l IH] using triple_ind; cbn [base64_encode decode_quanta];
    rewrite ?Forall_cons; intros Hl.
  - done.
  - destruct Hl as [((? & ?) & Hz & Ha)%single_sextets _]. rewrite !char_sextet_char by done.
    cbn [mbind option_bind]. rewrite Hz, Ha. done.
  - destruct Hl as (Ha & Hb & _). destruct (pair_sextets a b Ha Hb) as ((? & ? & ?) & Hz & Ea & Eb).
    rewrite !char_sextet_char by done. cbn [mbind option_bind].
    rewrite Hp by done. cbn [mbind option_bind]. rewrite Hz, Ea, Eb. done.
  - destruct Hl as (Ha & Hb & Hc & Hl). destruct (group_sextets a b c Ha Hb Hc) as ((? & ? & ? & ?) & Ea & Eb & Ec).
    rewrite !char_sextet_char by done. cbn [mbind option_bind].
    rewrite !Hp, IH by done. cbn [mbind option_bind]. by rewrite Ea, Eb, Ec.
Qed.

Lemma filter_all {A} (P : A -> Prop) `{!forall x, Decision (P x)} l : Forall P l -> filter P l = l.
Proof. induction 1 as [|x l Hx _ IH]; [done|]. by rewrite filter_cons_True, IH. Qed.

(** The round trip through the padded text. *)
Lemma base64_roundtrip l : Forall is_byte l -> base64_decode (base64_encode l) = Some l.
Proof.
  intros Hl. unfold base64_decode. rewrite filter_all; [by apply decode_quanta_encode|].
  eapply Forall_impl; [by apply base64_encode_chars|]. unfold base64_char. intros c Hc. cbn in Hc. lia.
Qed.

Lemma length_hmac secret content : length (hmac_sha256 secret content) = 32%nat.
Proof. apply length_sum256. Qed.
Lemma hmac_bytes secret content : Forall is_byte (hmac_sha256 secret content).
Proof. apply sum256_range. Qed.
