(* ===== verification/Webhook.v ===== *)
(** The Standard Webhooks signer and verifier of
    src/internal/webhook/standard.go.

    Secrets, digests and bodies are byte lists, the headers are strings.  An
    instant's Unix seconds are computed without wrap-around: the program's
    clocks stay within the range of [int64] seconds. *)
From S2P Require Import Prelude GoLib GoNumber Sha256 Base64.
From Stdlib Require Import DecimalString.
From stdpp Require Import options.
Local Open Scope Z_scope.

Definition SignatureVersionV1 : string := "v1".
Definition DefaultTolerance : duration := 5 * minute.
Definition secretPrefix : string := "whsec_".
Definition minimumSecretBytes : nat := 24.
Definition maximumSecretBytes : nat := 64.
Definition maximumMessageID : Z := 256.

Definition webhook_error := mkError "webhook".
Definition ErrInvalidSecret := webhook_error "invalid webhook secret".
Definition ErrInvalidHeaders := webhook_error "invalid webhook headers".
Definition ErrUnsupportedSignatureVersion := webhook_error "unsupported webhook signature version".
Definition ErrTimestampOutsideTolerance := webhook_error "webhook timestamp outside tolerance".
Definition ErrInvalidTolerance := webhook_error "invalid webhook timestamp tolerance".
Definition ErrSignatureMismatch := webhook_error "webhook signature mismatch".

Record Headers := mkHeaders { hd_ID : string; hd_Timestamp : string; hd_Signature : string }.
Record Keyring := mkKeyring { kr_secrets : list (list Z) }.

(** * Text helpers *)

(** [time.Time.Unix]. *)
Definition unix (t : time) : Z := (t - unixEpoch) / 1000000000.

(** [strings.Split] on one byte; never empty. *)
Fixpoint split_on (sep : Z) (l : list Z) : list (list Z) :=
  match l with
  | [] => [[]]
  | b :: rest =>
    if b =? sep then [] :: split_on sep rest
    else match split_on sep rest with
         | part :: parts => (b :: part) :: parts
         | [] => [[b]]
         end
  end.

(** [strings.Cut] on one byte. *)
Fixpoint cut_on (sep : Z) (l : list Z) : option (list Z * list Z) :=
  match l with
  | [] => None
  | b :: rest =>
    if b =? sep then Some ([], rest)
    else match cut_on sep rest with Some (before, after) => Some (b :: before, after) | None => None end
  end.

(** [strings.Join] with one byte between the parts. *)
Fixpoint join_with (sep : Z) (parts : list (list Z)) : list Z :=
  match parts with
  | [] => []
  | [part] => part
  | part :: rest => (part ++ sep :: join_with sep rest)%list
  end.

(** * Parsing *)

Definition parseSecret (serialized : string) : result (list Z) :=
  if negb (has_prefix secretPrefix serialized) then Fail ErrInvalidSecret
  else
    match base64_decode (bytes (drop_bytes (String.length secretPrefix) serialized)) with
    | None => Fail ErrInvalidSecret
    | Some secret =>
      if (length secret <? minimumSecretBytes)%nat || (maximumSecretBytes <? length secret)%nat
      then Fail ErrInvalidSecret else Ok secret
    end.

Fixpoint parse_secrets (l : list string) : result (list (list Z)) :=
  match l with
  | [] => Ok []
  | serialized :: rest =>
    parseSecret serialized ≫= fun secret => parse_secrets rest ≫= fun secrets => Ok (secret :: secrets)
  end.

Definition NewKeyring (serializedSecrets : list string) : result Keyring :=
  if (length serializedSecrets =? 0)%nat || (2 <? length serializedSecrets)%nat then Fail ErrInvalidSecret
  else parse_secrets serializedSecrets ≫= fun secrets => Ok (mkKeyring secrets).

Definition validMessageID (id : string) : bool :=
  if String.eqb id "" || (maximumMessageID <? go_len id) || contains_byte id 46 then false
  else forallb (fun value => negb ((value <=? 32) || (value =? 127))) (map fst (runes id)).

Definition parseTimestamp (value : string) : result Z :=
  if String.eqb value "" then Fail ErrInvalidHeaders
  else if existsb (fun character => (character <? 48) || (57 <? character)) (map fst (runes value))
  then Fail ErrInvalidHeaders
  else match atoi value with
       | None => Fail ErrInvalidHeaders
       | Some timestamp =>
         if negb (int64_ok timestamp) || (timestamp <? 0) then Fail ErrInvalidHeaders else Ok timestamp
       end.

Definition withinTolerance (timestamp now toleranceSeconds : Z) : bool :=
  if timestamp <=? now then wrap64 (now - timestamp) <=? toleranceSeconds
  else wrap64 (timestamp - now) <=? toleranceSeconds.

(** One part of the signature header. *)
Definition parse_signature (part : list Z) : result (list Z) :=
  match cut_on 44 part with
  | None => Fail ErrInvalidHeaders
  | Some (version, encoded) =>
    if bool_decide (version = []) || bool_decide (encoded = []) || existsb (Z.eqb 44) encoded
    then Fail ErrInvalidHeaders
    else if negb (bool_decide (version = bytes SignatureVersionV1)) then Fail ErrUnsupportedSignatureVersion
    else match base64_decode encoded with
         | None => Fail ErrInvalidHeaders
         | Some signature => if negb (length signature =? 32)%nat then Fail ErrInvalidHeaders else Ok signature
         end
  end.

Fixpoint parse_parts (parts : list (list Z)) : result (list (list Z)) :=
  match parts with
  | [] => Ok []
  | part :: rest =>
    parse_signature part ≫= fun signature => parse_parts rest ≫= fun signatures => Ok (signature :: signatures)
  end.

(** [strings.Trim(value, " ") != value]: a space at either end. *)
Definition space_at_ends (l : list Z) : bool :=
  bool_decide (head l = Some 32) || bool_decide (last l = Some 32).

Definition parseSignatures (value : string) : result (list (list Z)) :=
  if String.eqb value "" || space_at_ends (bytes value) ||
     contains_byte value 9 || contains_byte value 13 || contains_byte value 10
  then Fail ErrInvalidHeaders
  else parse_parts (split_on 32 (bytes value)).

(** * Signing *)

Definition signingContent (id timestamp : string) (rawBody : list Z) : list Z :=
  (bytes id ++ 46 :: bytes timestamp ++ 46 :: rawBody)%list.

Definition hmacDigest (secret content : list Z) : list Z := hmac_sha256 secret content.

Definition signatureValue (secret content : list Z) : list Z :=
  (bytes SignatureVersionV1 ++ 44 :: base64_encode (hmacDigest secret content))%list.

Definition Sign (k : Keyring) (id : string) (timestamp : time) (rawBody : list Z) : result Headers :=
  if bool_decide (kr_secrets k = []) || negb (validMessageID id) || (unix timestamp <? 0)
  then Fail ErrInvalidHeaders
  else
    let timestampValue := itoa (unix timestamp) in
    let content := signingContent id timestampValue rawBody in
    Ok (mkHeaders id timestampValue
          (of_bytes (join_with 32 (map (fun secret => signatureValue secret content) (kr_secrets k))))).

(** * Verification *)

(** [subtle.ConstantTimeCompare]. *)
Definition ConstantTimeCompare (x y : list Z) : Z := if bool_decide (x = y) then 1 else 0.

(** The two loops that set [matched]. *)
Definition match_signatures (secrets : list (list Z)) (content : list Z) (signatures : list (list Z)) : Z :=
  fold_left (fun matched secret =>
    let expected := hmacDigest secret content in
    fold_left (fun matched signature => Z.lor matched (ConstantTimeCompare expected signature)) signatures matched)
    secrets 0.

Definition VerifyWithTolerance (k : Keyring) (headers : Headers) (rawBody : list Z) (now : time)
    (tolerance : duration) : result unit :=
  if bool_decide (kr_secrets k = []) || negb (validMessageID (hd_ID headers)) then Fail ErrInvalidHeaders
  else if (tolerance <? second) || (unix now <? 0) then Fail ErrInvalidTolerance
  else
    parseTimestamp (hd_Timestamp headers) ≫= fun timestamp =>
    if negb (withinTolerance timestamp (unix now) (tolerance / second)) then Fail ErrTimestampOutsideTolerance
    else
      parseSignatures (hd_Signature headers) ≫= fun signatures =>
      let content := signingContent (hd_ID headers) (hd_Timestamp headers) rawBody in
      if negb (match_signatures (kr_secrets k) content signatures =? 1) then Fail ErrSignatureMismatch else Ok tt.

Definition Verify (k : Keyring) (headers : Headers) (rawBody : list Z) (now : time) : result unit :=
  VerifyWithTolerance k headers rawBody now DefaultTolerance.

(** * Facts *)

Lemma split_on_part sep part :
  Forall (fun b => b <> sep) part -> split_on sep part = [part].
Proof.
  induction 1 as [|b part Hb _ IH]; [done|]. cbn. rewrite (proj2 (Z.eqb_neq b sep) Hb), IH. done.
Qed.

Lemma split_on_app sep part rest :
  Forall (fun b => b <> sep) part -> split_on sep (part ++ sep :: rest)%list = part :: split_on sep rest.
Proof.
  induction 1 as [|b part Hb _ IH]; cbn; [by rewrite Z.eqb_refl|].
  by rewrite (proj2 (Z.eqb_neq b sep) Hb), IH.
Qed.

(** [strings.Split] undoes [strings.Join]. *)
Lemma split_join sep parts :
  parts <> [] -> Forall (Forall (fun b => b <> sep)) parts -> split_on sep (join_with sep parts) = parts.
Proof.
  intros Hne Hall. induction Hall as [|part parts Hp Hall IH]; [done|]. destruct parts as [|part' parts].
  - by apply split_on_part.
  - cbn [join_with]. rewrite split_on_app by done. f_equal. by apply IH.
Qed.

Lemma cut_on_app sep before after :
  Forall (fun b => b <> sep) before -> cut_on sep (before ++ sep :: after)%list = Some (before, after).
Proof.
  induction 1 as [|b before Hb _ IH]; cbn; [by rewrite Z.eqb_refl|].
  by rewrite (proj2 (Z.eqb_neq b sep) Hb), IH.
Qed.

Lemma join_forall (P : Z -> Prop) sep parts :
  P sep -> Forall (Forall P) parts -> Forall P (join_with sep parts).
Proof.
  intros Hs. induction 1 as [|part parts Hp _ IH]; [constructor|]. destruct parts as [|part' parts]; [done|].
  cbn [join_with]. apply Forall_app. split; [done|]. by constructor.
Qed.

(** A join of non-empty parts ends as its last part and starts as its first. *)
Lemma join_ends sep parts :
  parts <> [] -> Forall (fun part => part <> [] /\ head part <> Some sep /\ last part <> Some sep) parts ->
  join_with sep parts <> [] /\ head (join_with sep parts) <> Some sep /\ last (join_with sep parts) <> Some sep.
Proof.
  intros Hne Hall. induction Hall as [|part parts Hp Hall IH]; [done|]. destruct parts as [|part' parts]; [done|].
  destruct IH as (Jn & _ & Jl); [done|]. destruct Hp as (Pn & Ph & Pl).
  change (join_with sep (part :: part' :: parts)) with (part ++ sep :: join_with sep (part' :: parts))%list.
  split_and!.
  - by destruct part.
  - by destruct part.
  - rewrite last_app_cons, last_cons. destruct (last (join_with sep (part' :: parts))) eqn:E; [done|].
    by apply last_None in E.
Qed.

Lemma digest_length secret content : length (hmacDigest secret content) = 32%nat.
Proof. apply length_hmac. Qed.
Lemma digest_bytes secret content : Forall is_byte (hmacDigest secret content).
Proof. apply hmac_bytes. Qed.
#[local] Opaque hmacDigest.

(** What the loops of [VerifyWithTolerance] decide. *)
Lemma match_inner secret content signatures m :
  m = 0 \/ m = 1 ->
  let r := fold_left (fun matched signature =>
             Z.lor matched (ConstantTimeCompare (hmacDigest secret content) signature)) signatures m in
  (r = 0 \/ r = 1) /\ (r = 1 <-> m = 1 \/ hmacDigest secret content ∈ signatures).
Proof.
  revert m. induction signatures as [|s l IH]; cbn; intros m Hm; [split; [done|]; set_solver|].
  destruct (IH (Z.lor m (ConstantTimeCompare (hmacDigest secret content) s))) as [Hr Hi].
  - unfold ConstantTimeCompare. destruct Hm as [->| ->], (bool_decide _); auto.
  - split; [done|]. rewrite Hi, elem_of_cons. unfold ConstantTimeCompare.
    destruct (bool_decide_reflect (hmacDigest secret content = s)); destruct Hm as [->| ->]; cbn; naive_solver.
Qed.

Lemma match_spec secrets content signatures :
  match_signatures secrets content signatures = 1 <->
  exists secret, secret ∈ secrets /\ hmacDigest secret content ∈ signatures.
Proof.
  unfold match_signatures.
  enough (H : forall m, m = 0 \/ m = 1 ->
    let r := fold_left (fun matched secret =>
      let expected := hmacDigest secret content in
      fold_left (fun matched signature => Z.lor matched (ConstantTimeCompare expected signature)) signatures matched)
      secrets m in
    r = 1 <-> m = 1 \/ exists secret, secret ∈ secrets /\ hmacDigest secret content ∈ signatures).
  { specialize (H 0 (or_introl eq_refl)). cbv zeta in H. rewrite H. naive_solver. }
  induction secrets as [|s l IH]; cbn; intros m Hm; [set_solver|].
  destruct (match_inner s content signatures m Hm) as [Hr Hi]. specialize (IH _ Hr). cbv zeta in IH.
  rewrite IH, Hi. setoid_rewrite elem_of_cons. naive_solver.
Qed.

(** * Timestamps *)

Lemma digits_runes s : Forall (fun b => 48 <= b <= 57) (bytes s) -> map fst (runes s) = bytes s.
Proof.
  intros Hd. apply ascii_rune_values. unfold ascii_only. apply forallb_forall. intros b Hb%list_elem_of_In.
  rewrite Forall_forall in Hd. apply Hd in Hb. apply Z.ltb_lt. lia.
Qed.

Lemma parseTimestamp_itoa n : 0 <= n <= maxInt64 -> parseTimestamp (itoa n) = Ok n.
Proof.
  intros Hn. destruct (itoa_digits n) as [Hd Hne]; [lia|]. unfold parseTimestamp.
  destruct (String.eqb_spec (itoa n) ""); [done|]. rewrite digits_runes by done.
  destruct (existsb _ _) eqn:E.
  { apply existsb_exists in E as (b & Hb%list_elem_of_In & Hc). rewrite Forall_forall in Hd. apply Hd in Hb.
    apply orb_true_iff in Hc as [Hc|Hc]; apply Z.ltb_lt in Hc; lia. }
  rewrite atoi_itoa. unfold int64_ok, minInt64, maxInt64 in *.
  destruct (Z.leb_spec (-9223372036854775808) n); [|lia]. destruct (Z.leb_spec n 9223372036854775807); [|lia].
  destruct (Z.ltb_spec n 0); [lia|done].
Qed.

(** What a parsed timestamp is: a number of digits in range. *)
Lemma parseTimestamp_ok s n :
  parseTimestamp s = Ok n -> 0 <= n <= maxInt64 /\ Forall (fun b => 48 <= b <= 57) (bytes s).
Proof.
  unfold parseTimestamp. pass_guard E0. destruct (existsb _ (map fst (runes s))) eqn:E; [done|].
  destruct (atoi s) as [t|]; [|done]. pass_guard E2. intros [= ->]. bool_prop. unfold int64_ok in *. bool_prop.
  split; [lia|].
  assert (Hd : Forall (fun r => 48 <= r <= 57) (map fst (runes s))).
  { apply Forall_forall. intros r Hr%list_elem_of_In. destruct ((r <? 48) || (57 <? r)) eqn:Er; [|bool_prop; lia].
    exfalso. assert (existsb (fun character => (character <? 48) || (57 <? character)) (map fst (runes s)) = true);
      [apply existsb_exists; eauto|congruence]. }
  rewrite <- small_rune_values; [done|]. eapply Forall_impl; [exact Hd|]. cbn. lia.
Qed.

(** * Signatures *)

Lemma signature_plain secret content :
  let part := signatureValue secret content in
  Forall (fun b => b <> 32 /\ b <> 9 /\ b <> 10 /\ b <> 13) part /\ 0 < Z.of_nat (length part) /\
  head part <> Some 32 /\ last part <> Some 32.
Proof.
  cbv zeta. unfold signatureValue.
  assert (Hall : Forall (fun b => b <> 32 /\ b <> 9 /\ b <> 10 /\ b <> 13)
                   (bytes SignatureVersionV1 ++ 44 :: base64_encode (hmacDigest secret content))).
  { apply Forall_app. split; [repeat constructor; discriminate|]. constructor; [lia|].
    eapply Forall_impl; [apply base64_encode_chars, digest_bytes|]. unfold base64_char. cbn. lia. }
  split_and!; [exact Hall|cbn; lia|discriminate|].
  intros Hl. apply last_Some in Hl as [l Hl]. rewrite Hl in Hall. apply Forall_app in Hall as [_ Hl'].
  apply Forall_cons in Hl' as [? _]. tauto.
Qed.

Lemma parse_signature_value secret content :
  parse_signature (signatureValue secret content) = Ok (hmacDigest secret content).
Proof.
  unfold parse_signature, signatureValue. rewrite cut_on_app by (repeat constructor; discriminate).
  assert (Hc : Forall base64_char (base64_encode (hmacDigest secret content))) by apply base64_encode_chars, digest_bytes.
  assert (Hne : base64_encode (hmacDigest secret content) <> []).
  { intros He. pose proof (base64_roundtrip _ (digest_bytes secret content)) as Hr. rewrite He in Hr.
    apply (f_equal (fun o => length <$> o)) in Hr. cbn in Hr. rewrite digest_length in Hr. discriminate. }
  rewrite (bool_decide_eq_false_2 (_ = [])) by discriminate.
  rewrite (bool_decide_eq_false_2 (base64_encode _ = [])) by done. cbn [orb].
  destruct (existsb _ _) eqn:E.
  { apply existsb_exists in E as (b & Hb%list_elem_of_In & <-%Z.eqb_eq). rewrite Forall_forall in Hc.
    apply Hc in Hb. unfold base64_char in Hb. lia. }
  rewrite bool_decide_eq_true_2 by done. cbn [negb].
  rewrite (base64_roundtrip _ (digest_bytes secret content)). by rewrite digest_length.
Qed.

Lemma parse_parts_values secrets content :
  parse_parts (map (fun secret => signatureValue secret content) secrets) =
    Ok (map (fun secret => hmacDigest secret content) secrets).
Proof.
  induction secrets as [|s l IH]; [done|]. cbn [map parse_parts].
  rewrite parse_signature_value. cbn [mbind result_bind]. by rewrite IH.
Qed.

(** The signature header of [Sign] parses to the digests it was made of. *)
Lemma parse_signed secrets content :
  secrets <> [] ->
  parseSignatures (of_bytes (join_with 32 (map (fun secret => signatureValue secret content) secrets))) =
    Ok (map (fun secret => hmacDigest secret content) secrets).
Proof.
  intros Hne. set (parts := map _ secrets). rewrite <- parse_parts_values. fold parts.
  assert (Hparts : parts <> []) by (by destruct secrets).
  assert (Hplain : Forall (fun part => Forall (fun b => b <> 32 /\ b <> 9 /\ b <> 10 /\ b <> 13) part /\
                     0 < Z.of_nat (length part) /\ head part <> Some 32 /\ last part <> Some 32) parts).
  { apply Forall_map, Forall_forall. intros secret _. apply signature_plain. }
  assert (Hbyte : Forall (fun b => 0 <= b < 256) (join_with 32 parts)).
  { apply join_forall; [lia|]. apply Forall_map, Forall_forall. intros secret _. unfold signatureValue.
    apply Forall_app. split; [apply bytes_range|]. constructor; [lia|].
    eapply Forall_impl; [apply base64_encode_chars, digest_bytes|]. unfold base64_char. cbn. lia. }
  assert (Hcontrol : Forall (fun b => b <> 9 /\ b <> 10 /\ b <> 13) (join_with 32 parts)).
  { apply join_forall; [lia|]. eapply Forall_impl; [exact Hplain|]. cbn. intros part [Hp _].
    eapply Forall_impl; [exact Hp|]. cbn. tauto. }
  destruct (join_ends 32 parts Hparts) as (Jn & Jh & Jl).
  { eapply Forall_impl; [exact Hplain|]. cbn. intros part (_ & Hl & ?). split; [|done]. by intros ->. }
  unfold parseSignatures. rewrite bytes_of_bytes by done.
  destruct (String.eqb_spec (of_bytes (join_with 32 parts)) "") as [He|_].
  { apply (f_equal bytes) in He. rewrite bytes_of_bytes in He by done. done. }
  unfold space_at_ends. rewrite !bool_decide_eq_false_2 by done. cbn [orb].
  assert (Hno : forall b, b = 9 \/ b = 10 \/ b = 13 -> contains_byte (of_bytes (join_with 32 parts)) b = false).
  { intros b Hb. unfold contains_byte. rewrite bytes_of_bytes by done. destruct (existsb _ _) eqn:E; [|done].
    apply existsb_exists in E as (c & Hc%list_elem_of_In & <-%Z.eqb_eq). rewrite Forall_forall in Hcontrol.
    apply Hcontrol in Hc. lia. }
  rewrite !Hno by auto. cbn [orb]. f_equal. apply split_join; [done|].
  eapply Forall_impl; [exact Hplain|]. cbn. intros part [Hp _]. eapply Forall_impl; [exact Hp|]. cbn. tauto.
Qed.

Lemma withinTolerance_spec timestamp now tolerance :
  0 <= timestamp <= maxInt64 -> 0 <= now <= maxInt64 ->
  withinTolerance timestamp now tolerance = true <-> Z.abs (now - timestamp) <= tolerance.
Proof.
  intros Ht Hn. unfold withinTolerance.
  assert (W : forall z, 0 <= z <= maxInt64 -> wrap64 z = z).
  { intros z Hz. apply wrap64_id. unfold int64_ok, minInt64. bool_prop; lia. }
  destruct (Z.leb_spec timestamp now); rewrite W by lia; rewrite Z.leb_le; lia.
Qed.

(** The message IDs [Sign] accepts are bounded. *)
Lemma sign_id_len k id timestamp body headers :
  Sign k id timestamp body = Ok headers -> go_len id <= maximumMessageID.
Proof.
  unfold Sign. pass_guard E. intros _. bool_prop. unfold validMessageID in *.
  match goal with X : (if ?b then false else _) = true |- _ => destruct b eqn:Eb; [done|] end. bool_prop. done.
Qed.

(** * Properties *)

(** C11: whatever a keyring signs, every keyring that holds one of its secrets
    verifies, for exactly the body and headers signed, as long as the two clocks
    differ by no more than the tolerance: during a rotation old and new
    receivers accept the same headers. *)
Theorem Sign_Verify k k' id timestamp body headers now tolerance secret :
  Sign k id timestamp body = Ok headers -> secret ∈ kr_secrets k -> secret ∈ kr_secrets k' ->
  unix timestamp <= maxInt64 -> 0 <= unix now <= maxInt64 -> second <= tolerance ->
  Z.abs (unix now - unix timestamp) <= tolerance / second ->
  VerifyWithTolerance k' headers body now tolerance = Ok tt.
Proof.
  unfold Sign. pass_guard E. intros [= <-] Hk Hk' Ht Hn Htol Hd. bool_prop.
  unfold VerifyWithTolerance. cbn [hd_ID hd_Timestamp hd_Signature].
  rewrite bool_decide_eq_false_2 by (by intros He; rewrite He in Hk'; apply not_elem_of_nil in Hk').
  match goal with X : validMessageID id = true |- _ => rewrite X end. cbn [negb orb].
  destruct (Z.ltb_spec tolerance second); [lia|]. destruct (Z.ltb_spec (unix now) 0); [lia|]. cbn [orb].
  rewrite parseTimestamp_itoa by lia. cbn [mbind result_bind].
  rewrite (proj2 (withinTolerance_spec (unix timestamp) (unix now) (tolerance / second) ltac:(lia) ltac:(lia)) Hd).
  cbn [negb]. rewrite parse_signed by done. cbn [mbind result_bind].
  destruct (Z.eqb_spec (match_signatures (kr_secrets k') (signingContent id (itoa (unix timestamp)) body)
    (map (fun secret => hmacDigest secret (signingContent id (itoa (unix timestamp)) body)) (kr_secrets k))) 1)
    as [_|Hm]; [done|].
  exfalso. apply Hm, match_spec. exists secret. split; [done|]. by apply (list_elem_of_fmap_2 (fun s => hmacDigest s _)).
Qed.

(** What the verifier accepts. *)
Lemma verified_iff k headers body now tolerance :
  0 <= unix now <= maxInt64 -> second <= tolerance ->
  VerifyWithTolerance k headers body now tolerance = Ok tt <->
  validMessageID (hd_ID headers) = true /\
  exists timestamp signatures secret,
    parseTimestamp (hd_Timestamp headers) = Ok timestamp /\
    Z.abs (unix now - timestamp) <= tolerance / second /\
    parseSignatures (hd_Signature headers) = Ok signatures /\ secret ∈ kr_secrets k /\
    hmacDigest secret (signingContent (hd_ID headers) (hd_Timestamp headers) body) ∈ signatures.
Proof.
  intros Hn Htol. unfold VerifyWithTolerance.
  destruct (bool_decide_reflect (kr_secrets k = [])) as [->|Hne]; cbn [orb].
  { split; [done|]. intros (_ & t & l & s & _ & _ & _ & Hs & _). by apply not_elem_of_nil in Hs. }
  destruct (validMessageID (hd_ID headers)); cbn [negb]; [|naive_solver].
  destruct (Z.ltb_spec tolerance second); [lia|]. destruct (Z.ltb_spec (unix now) 0); [lia|]. cbn [orb].
  destruct (parseTimestamp (hd_Timestamp headers)) as [t|] eqn:Et; cbn [mbind result_bind]; [|naive_solver].
  apply parseTimestamp_ok in Et as Hr. destruct Hr as [Hr _].
  pose proof (withinTolerance_spec t (unix now) (tolerance / second) Hr Hn) as Hw.
  destruct (withinTolerance _ _ _); cbn [negb].
  2:{ split; [done|]. intros (_ & t' & l & s & [= <-] & Hd & _). apply Hw in Hd. done. }
  destruct (parseSignatures (hd_Signature headers)) as [l|]; cbn [mbind result_bind]; [|naive_solver].
  pose proof (match_spec (kr_secrets k) (signingContent (hd_ID headers) (hd_Timestamp headers) body) l) as Hm.
  destruct (Z.eqb_spec (match_signatures (kr_secrets k)
    (signingContent (hd_ID headers) (hd_Timestamp headers) body) l) 1) as [Hm1|Hm1]; cbn [negb].
  - split; [|done]. intros _. split; [done|]. apply Hm in Hm1 as (s & Hs & Hin). exists t, l, s.
    split_and!; [done|by apply Hw|done..].
  - split; [done|]. intros (_ & t' & l' & s & _ & _ & [= <-] & Hs & Hin). exfalso. apply Hm1, Hm. eauto.
Qed.

(** The verifier accepts exactly the requests with a valid message ID, a
    numeric timestamp within the tolerance of its clock and, among well-formed
    v1 signatures, one that is the HMAC of this very ID, timestamp and body
    under a configured secret. *)
Lemma Verify_accepts_iff k headers body now tolerance :
  0 <= unix now <= maxInt64 -> second <= tolerance ->
  VerifyWithTolerance k headers body now tolerance = Ok tt <->
  validMessageID (hd_ID headers) = true /\
  exists timestamp signatures secret,
    parseTimestamp (hd_Timestamp headers) = Ok timestamp /\
    Z.abs (unix now - timestamp) <= tolerance / second /\
    parseSignatures (hd_Signature headers) = Ok signatures /\ secret ∈ kr_secrets k /\
    hmacDigest secret (signingContent (hd_ID headers) (hd_Timestamp headers) body) ∈ signatures.
Proof. apply verified_iff. Qed.

(** The signed content determines the message: no two acceptable triples of
    message ID, timestamp and body share one, so a signature cannot be moved to
    another message. *)
Theorem signingContent_injective id id' timestamp timestamp' body body' n n' :
  validMessageID id = true -> validMessageID id' = true ->
  parseTimestamp timestamp = Ok n -> parseTimestamp timestamp' = Ok n' ->
  signingContent id timestamp body = signingContent id' timestamp' body' ->
  id = id' /\ timestamp = timestamp' /\ body = body'.
Proof.
  intros Hid Hid' [_ Hd]%parseTimestamp_ok [_ Hd']%parseTimestamp_ok Heq.
  assert (Hno : forall s, validMessageID s = true -> Forall (fun b => b <> 46) (bytes s)).
  { intros s Hs. unfold validMessageID in Hs. destruct (_ || _) eqn:E in Hs; [done|]. bool_prop.
    apply Forall_forall. intros b Hb ->. unfold contains_byte in *.
    assert (existsb (Z.eqb 46) (bytes s) = true); [|congruence].
    apply existsb_exists. exists 46. split; [by apply list_elem_of_In|done]. }
  unfold signingContent in Heq. apply sep_split in Heq as [H1 Heq]; [|by apply Hno..].
  apply sep_split in Heq as [H2 ->]; [|eapply Forall_impl; [eassumption|]; cbn; lia..].
  split_and!; [by apply bytes_inj..|done].
Qed.

(** * Examples *)

Definition demo_secret : list Z := replicate 24 7.
Definition old_secret : list Z := replicate 32 9.
Definition demo_keyring : Keyring := mkKeyring [demo_secret; old_secret].
Definition demo_time : time := unixEpoch + 1000 * second.
Definition demo_headers : Headers :=
  match Sign demo_keyring "msg-1" demo_time (bytes "{}") with Ok h => h | Fail _ => mkHeaders "" "" "" end.

Example demo_keyring_parses :
  NewKeyring [of_bytes (bytes secretPrefix ++ base64_encode demo_secret);
              of_bytes (bytes secretPrefix ++ base64_encode old_secret)] = Ok demo_keyring.
Proof. vm_compute. reflexivity. Qed.
Example demo_short_secret :
  NewKeyring [of_bytes (bytes secretPrefix ++ base64_encode (replicate 23 7))] = Fail ErrInvalidSecret.
Proof. vm_compute. reflexivity. Qed.
Example demo_altered_body :
  Verify demo_keyring demo_headers (bytes "[]") demo_time = Fail ErrSignatureMismatch.
Proof. vm_compute. reflexivity. Qed.

Lemma Sign_Verify_witness :
  VerifyWithTolerance (mkKeyring [old_secret]) demo_headers (bytes "{}") (demo_time + 299 * second) DefaultTolerance = Ok tt.
Proof.
  apply (Sign_Verify demo_keyring _ "msg-1" demo_time (bytes "{}") demo_headers _ _ old_secret).
  - unfold demo_headers. destruct (Sign demo_keyring "msg-1" demo_time (bytes "{}")) as [h|e] eqn:E; [reflexivity|].
    apply (f_equal is_ok) in E. vm_compute in E. discriminate E.
  - apply list_elem_of_further, list_elem_of_here.
  - apply list_elem_of_here.
  - discriminate.
  - split; discriminate.
  - discriminate.
  - discriminate.
Defined.

Lemma Verify_accepts_iff_witness :
  VerifyWithTolerance demo_keyring demo_headers (bytes "{}") demo_time second = Ok tt <->
  validMessageID (hd_ID demo_headers) = true /\
  exists timestamp signatures secret,
    parseTimestamp (hd_Timestamp demo_headers) = Ok timestamp /\
    Z.abs (unix demo_time - timestamp) <= second / second /\
    parseSignatures (hd_Signature demo_headers) = Ok signatures /\ secret ∈ kr_secrets demo_keyring /\
    hmacDigest secret (signingContent (hd_ID demo_headers) (hd_Timestamp demo_headers) (bytes "{}")) ∈ signatures.
Proof.
  apply (Verify_accepts_iff demo_keyring demo_headers (bytes "{}") demo_time second).
  - split; discriminate.
  - discriminate.
Defined.

Lemma signingContent_injective_witness : "msg-1" = "msg-1" /\ "17" = "17" /\ bytes "a" = bytes "a".
Proof.
  apply (signingContent_injective "msg-1" "msg-1" "17" "17" (bytes "a") (bytes "a") 17 17);
    vm_compute; reflexivity.
Defined.
