(* ===== verification/Json.v ===== *)
(** [encoding/json] on parsed documents and the strict decoder
    [contract.Decode] of src/internal/contract/decode.go.

    A stored JSON text is kept as the tree it parses to: members in document
    order, repeated names kept.  String leaves whose text is an RFC 3339
    instant or a Go duration carry that value, and number leaves their value,
    so that scanning the characters of a text is the only part left out.  A string
    with invalid UTF-8 is a leaf of its own bytes: it is written, and read back,
    with U+FFFD in their place.
    Structs are described field by field, as Go's reflection does. *)
From S2P Require Import Prelude GoLib GoTime GoNumber.
From Stdlib Require Import SpecFloat.
From stdpp Require Import options.
Local Open Scope Z_scope.

Notation float64 := spec_float (only parsing).

(** * Documents *)

Inductive json :=
| JNull
| JBool (b : bool)
| JInt (z : Z)
| JFloat (f : float64)
| JStr (s : string)
| JTime (t : time)
| JDur (d : duration)
| JArr (l : list json)
| JObj (l : list (string * json)).

(** A stored value: the text of one JSON value, followed by further content or
    not, or bytes that are not JSON text. *)
Inductive document :=
| Text (j : json) (trailing : bool)
| Bytes (s : string).

(** ** Text *)

Definition quote : string := of_bytes [34].

(** One rune of a string as [json.Marshal] writes it (HTML escaping on). *)
Definition hex4 (r : Z) : list Z :=
  let h := fun n => if n <? 10 then 48 + n else 87 + n in
  [92; 117; h (r / 4096 mod 16); h (r / 256 mod 16); h (r / 16 mod 16); h (r mod 16)].
Definition escape_rune (r : Z) : list Z :=
  if r =? 34 then [92; 34] else if r =? 92 then [92; 92]
  else if r =? 8 then [92; 98] else if r =? 12 then [92; 102]
  else if r =? 10 then [92; 110] else if r =? 13 then [92; 114] else if r =? 9 then [92; 116]
  else if (r <? 32) || (r =? 60) || (r =? 62) || (r =? 38) || (r =? 8232) || (r =? 8233)
  then hex4 r
  else encode_rune r.
(** An invalid byte is written as an escaped U+FFFD. *)
Definition escape_unit (rw : Z * nat) : list Z :=
  if (fst rw =? runeError) && (snd rw =? 1)%nat then [92; 117; 102; 102; 102; 100] else escape_rune (fst rw).
Definition string_text (s : string) : string :=
  String.append quote (String.append (of_bytes (concat (map escape_unit (runes s)))) quote).

Fixpoint sep_concat (l : list string) : string :=
  match l with
  | [] => ""
  | [x] => x
  | x :: l' => String.append x (String.append "," (sep_concat l'))
  end.

(** The compact text of a tree. *)
Fixpoint render (j : json) : string :=
  match j with
  | JNull => "null"
  | JBool b => if b then "true" else "false"
  | JInt z => itoa z
  | JFloat f => float_text f
  | JStr s => string_text s
  | JTime t => String.append quote (String.append (rfc3339 t) quote)
  | JDur d => string_text (duration_text d)
  | JArr l => String.append "[" (String.append (sep_concat (map render l)) "]")
  | JObj l =>
    String.append "{" (String.append
      (sep_concat (map (fun m => String.append (string_text (fst m))
                                  (String.append ":" (render (snd m)))) l)) "}")
  end.

(** The bytes of a stored value: [string(document)], [len(document)]. *)
Definition doc_bytes (d : document) : string :=
  match d with
  | Text j _ => render j
  | Bytes s => s
  end.
Definition doc_len (d : document) : Z := go_len (doc_bytes d).

(** * Decoding values *)

Inductive decode_error := DUnknownField | DType.

(** Decoding into a value: the value reached with the first error saved on the
    way, or an error that stops at once (an [UnmarshalJSON] method failed). *)
Inductive decoded (T : Type) :=
| Value (v : T) (saved : option decode_error)
| Stopped.
Arguments Value {T} v saved.
Arguments Stopped {T}.

Definition first_error (a b : option decode_error) : option decode_error :=
  match a with Some e => Some e | None => b end.

(** Go's reflection on one type: its zero value, [Marshal] (which refuses some
    values) and decoding over a previous value. *)
Class GoJson (T : Type) := {
  go_zero : T;
  to_json : T -> option json;
  of_json : bool -> T -> json -> decoded T;
}.

(** A decoder that leaves the previous value on a type mismatch. *)
Definition type_error {T} (v : T) : decoded T := Value v (Some DType).

#[export] Instance string_json : GoJson string := {|
  go_zero := "";
  to_json s := Some (JStr s);
  of_json _ v j := match j with
    | JStr s => Value (utf8_coerce s) None
    | JTime t => Value (rfc3339 t) None
    | JDur d => Value (duration_text d) None
    | JNull => Value v None
    | _ => type_error v
    end;
|}.
#[export] Instance bool_json : GoJson bool := {|
  go_zero := false;
  to_json b := Some (JBool b);
  of_json _ v j := match j with JBool b => Value b None | JNull => Value v None | _ => type_error v end;
|}.
(** [int]: an integer literal in range. *)
#[export] Instance int_json : GoJson Z := {|
  go_zero := 0;
  to_json z := Some (JInt z);
  of_json _ v j := match j with
    | JInt z => if int64_ok z then Value z None else type_error v
    | JNull => Value v None
    | _ => type_error v
    end;
|}.
#[export] Instance float_json : GoJson float64 := {|
  go_zero := S754_zero false;
  to_json f := match f with S754_nan | S754_infinity _ => None | _ => Some (JFloat f) end;
  of_json _ v j := match j with
    | JFloat f => Value f None
    | JInt z => Value (binary_normalize 53 1024 z 0 false) None
    | JNull => Value v None
    | _ => type_error v
    end;
|}.

(** Instants and durations are integers too, so their codecs are named at the
    fields that hold them. *)
Definition time_json : GoJson time := {|
  go_zero := 0;
  to_json t := if time_printable t then Some (JTime t) else None;
  of_json _ v j := match j with JTime t => Value t None | JNull => Value v None | _ => Stopped end;
|}.
(** [contract.Duration.UnmarshalJSON] parses a duration string and nothing
    else; [null] is the empty string there. *)
Definition dur_json : GoJson duration := {|
  go_zero := 0;
  to_json d := Some (JDur d);
  of_json _ v j := match j with JDur d => Value d None | _ => Stopped end;
|}.

Section Slices.
Context {T : Type} `{GoJson T}.

Fixpoint decode_elems (strict : bool) (l : list json) : decoded (list T) :=
  match l with
  | [] => Value [] None
  | j :: l' =>
    match of_json strict go_zero j with
    | Value v e =>
      match decode_elems strict l' with
      | Value vs e' => Value (v :: vs) (first_error e e')
      | Stopped => Stopped
      end
    | Stopped => Stopped
    end
  end.

(** A slice; the empty one is nil and written [null]. *)
#[export] Instance slice_json : GoJson (list T) := {|
  go_zero := [];
  to_json l := match l with
    | [] => Some JNull
    | _ => JArr <$> mapM to_json l
    end;
  of_json strict v j := match j with
    | JArr l => decode_elems strict l
    | JNull => Value [] None
    | _ => type_error v
    end;
|}.

(** A pointer: nil is [null]; a nil pointer decodes into a fresh value. *)
#[export] Instance pointer_json : GoJson (option T) := {|
  go_zero := None;
  to_json o := match o with None => Some JNull | Some x => to_json x end;
  of_json strict v j := match j with
    | JNull => Value None None
    | _ => match of_json strict (default go_zero v) j with
           | Value x e => Value (Some x) e
           | Stopped => Stopped
           end
    end;
|}.
End Slices.

(** ** Structs *)

(** One exported field with its [json] tag: how it is written (nothing under
    [omitempty]) and how a member sets it. *)
Record field (T : Type) := Field {
  fname : string;
  fget : T -> option (option json);
  fset : bool -> json -> T -> decoded T;
}.
Arguments Field {T}.
Arguments fname {T}.
Arguments fget {T}.
Arguments fset {T}.

Definition field_of {T A} `{GoJson A} (name : string) (proj : T -> A) `{!Setter proj}
    (omit : A -> bool) : field T :=
  Field name
    (fun r => if omit (proj r) then Some None else Some <$> to_json (proj r))
    (fun strict j r => match of_json strict (proj r) j with
                       | Value v e => Value (r <| proj := v |>) e
                       | Stopped => Stopped
                       end).

Definition field_time {T} (name : string) (proj : T -> time) `{!Setter proj} : field T :=
  @field_of T time time_json name proj _ (fun _ => false).
Definition field_dur {T} (name : string) (proj : T -> duration) `{!Setter proj} : field T :=
  @field_of T duration dur_json name proj _ (fun _ => false).

Definition never {A} (_ : A) : bool := false.
Definition empty_string (s : string) : bool := String.eqb s "".
Definition nil_pointer {A} (o : option A) : bool := match o with None => true | _ => false end.

(** Field names are matched exactly first, then after Unicode folding. *)
Definition fold_rune (r : Z) : Z :=
  if (97 <=? r) && (r <=? 122) then r - 32
  else if r =? 383 then 83 else if r =? 8490 then 75 else r.
Definition fold_name (s : string) : list Z := map (fun rw => fold_rune (fst rw)) (runes s).

Fixpoint Zlist_eqb (a b : list Z) : bool :=
  match a, b with
  | [], [] => true
  | x :: a', y :: b' => (x =? y) && Zlist_eqb a' b'
  | _, _ => false
  end.

Definition field_for {T} (fs : list (field T)) (key : string) : option (field T) :=
  match find_first (fun f => String.eqb (fname f) key) fs with
  | Some f => Some f
  | None => find_first (fun f => Zlist_eqb (fold_name (fname f)) (fold_name key)) fs
  end.

Fixpoint decode_members {T} (strict : bool) (fs : list (field T)) (v : T)
    (saved : option decode_error) (ms : list (string * json)) : decoded T :=
  match ms with
  | [] => Value v saved
  | (key, j) :: ms' =>
    match field_for fs key with
    | None => decode_members strict fs v
                (first_error saved (if strict then Some DUnknownField else None)) ms'
    | Some f =>
      match fset f strict j v with
      | Value v' e => decode_members strict fs v' (first_error saved e) ms'
      | Stopped => Stopped
      end
    end
  end.

Fixpoint encode_fields {T} (fs : list (field T)) (r : T) : option (list (string * json)) :=
  match fs with
  | [] => Some []
  | f :: fs' =>
    match fget f r, encode_fields fs' r with
    | Some None, Some ms => Some ms
    | Some (Some j), Some ms => Some ((fname f, j) :: ms)
    | _, _ => None
    end
  end.

Definition struct_json {T} (zero : T) (fs : list (field T)) : GoJson T := {|
  go_zero := zero;
  to_json r := JObj <$> encode_fields fs r;
  of_json strict v j := match j with
    | JObj ms => decode_members strict fs v None ms
    | JNull => Value v None
    | _ => type_error v
    end;
|}.

(** * contract.Decode *)

Definition contract_error := mkError "contract".
Definition ErrDocumentTooLarge := contract_error "JSON document exceeds size limit".
Definition ErrDuplicateField := contract_error "duplicate JSON field".
Definition ErrUnknownField := contract_error "unknown JSON field".
Definition ErrTrailingData := contract_error "trailing JSON data".
Definition ErrUnsupportedSchemaVersion := contract_error "unsupported schema version".
Definition ErrInvalidJSON := contract_error "invalid JSON document".
Definition ErrInvalidDecodeOptions := contract_error "invalid JSON decoder options".

Definition MaxDocumentBytes : Z := 64 * 1024.

Record DecodeOptions (T : Type) := {
  MaxBytes : Z;
  SchemaVersion : string;
  Validate : option (T -> result unit);
}.
Arguments MaxBytes {T}.
Arguments SchemaVersion {T}.
Arguments Validate {T}.

(** The recursive token scan: every object of the document, its own names
    first against those seen, each value after its name. *)
Fixpoint scanValue (j : json) : result unit :=
  match j with
  | JObj ms =>
    (fix scan_members (seen : gset string) (ms : list (string * json)) : result unit :=
       match ms with
       | [] => Ok tt
       | (key, v) :: ms' =>
         if decide (key ∈ seen) then Fail ErrDuplicateField
         else match scanValue v with
              | Fail e => Fail e
              | Ok _ => scan_members ({[key]} ∪ seen) ms'
              end
       end) ∅ ms
  | JArr l =>
    (fix scan_elems (l : list json) : result unit :=
       match l with
       | [] => Ok tt
       | v :: l' => match scanValue v with Fail e => Fail e | Ok _ => scan_elems l' end
       end) l
  | _ => Ok tt
  end.

Definition scanDocument (d : document) : result unit :=
  match d with
  | Bytes _ => Fail ErrInvalidJSON
  | Text j trailing =>
    match scanValue j with
    | Fail e => Fail e
    | Ok _ => if trailing then Fail ErrTrailingData else Ok tt
    end
  end.

Record header := mkHeader { header_version : string }.
#[export] Instance header_eta : Updatable header := fun r => mkHeader (header_version r).
#[export] Instance header_json : GoJson header :=
  struct_json (mkHeader "") [field_of "schema_version" header_version never].

Definition Decode {T} `{GoJson T} (doc : document) (options : DecodeOptions T) : result T :=
  let maxBytes := if MaxBytes options =? 0 then MaxDocumentBytes else MaxBytes options in
  match Validate options with
  | None => Fail ErrInvalidDecodeOptions
  | Some validate =>
    if (maxBytes <? 0) || String.eqb (SchemaVersion options) "" then Fail ErrInvalidDecodeOptions
    else if maxBytes <? doc_len doc then Fail ErrDocumentTooLarge
    else
      scanDocument doc ≫= fun _ =>
      match doc with
      | Bytes _ => Fail ErrInvalidJSON
      | Text j trailing =>
        match of_json false go_zero j : decoded header with
        | Stopped | Value _ (Some _) => Fail ErrInvalidJSON
        | Value h None =>
          if negb (String.eqb (header_version h) (SchemaVersion options))
          then Fail ErrUnsupportedSchemaVersion
          else
            match of_json true go_zero j with
            | Stopped | Value _ (Some DType) => Fail ErrInvalidJSON
            | Value _ (Some DUnknownField) => Fail ErrUnknownField
            | Value v None =>
              (if trailing then Fail ErrTrailingData else Ok tt) ≫= fun _ =>
              validate v ≫= fun _ => Ok v
            end
        end
      end
  end.

(** [json.Marshal] as a document of its own. *)
Definition Marshal {T} `{GoJson T} (x : T) : option document :=
  (fun j => Text j false) <$> to_json x.

(** * Round trips *)

(** A value whose text decodes to it again, and whose objects have distinct
    names. *)
Definition json_rt {T} (G : GoJson T) (x : T) : Prop :=
  exists j, to_json x = Some j /\ scanValue j = Ok tt /\
            forall strict, of_json strict go_zero j = Value x None.

Lemma scanValue_obj ms :
  NoDup (map fst ms) -> Forall (fun m => scanValue m.2 = Ok tt) ms ->
  scanValue (JObj ms) = Ok tt.
Proof.
  intros Hnd Hs. simpl.
  assert (Hseen : forall x, x ∈ map fst ms -> x ∉ (∅ : gset string)) by set_solver.
  revert Hseen. generalize (∅ : gset string).
  induction ms as [|[k v] ms IH]; intros seen Hseen; [done|].
  simpl in *. apply NoDup_cons in Hnd as [Hk Hnd]. apply Forall_cons in Hs as [Hv Hs].
  rewrite decide_False by (apply Hseen; set_solver). simpl in Hv. rewrite Hv.
  apply IH; [done|done|]. intros x Hx. assert (x <> k) by naive_solver.
  specialize (Hseen x). set_solver.
Qed.

(** Conversely, a scanned object has distinct names, at every depth. *)
Lemma scanValue_obj_inv ms :
  scanValue (JObj ms) = Ok tt -> NoDup (map fst ms) /\ Forall (fun m => scanValue m.2 = Ok tt) ms.
Proof.
  simpl. intros H.
  cut ((NoDup (map fst ms) /\ Forall (fun m => scanValue m.2 = Ok tt) ms) /\
       forall x, x ∈ map fst ms -> x ∉ (∅ : gset string)); [tauto|].
  revert H. generalize (∅ : gset string).
  induction ms as [|[k v] ms IH]; intros seen H; simpl in *.
  { repeat split; try constructor. set_solver. }
  case_decide as Hk; [done|]. destruct (scanValue v) as [[]|] eqn:Ev; [|done].
  apply IH in H as [[Hnd Hs] Hseen].
  repeat split.
  - constructor; [|done]. intros Hx. apply (Hseen _ Hx). set_solver.
  - by constructor.
  - intros x [->|Hx]%elem_of_cons; [done|]. specialize (Hseen x Hx). set_solver.
Qed.

Lemma scanValue_arr l :
  Forall (fun j => scanValue j = Ok tt) l -> scanValue (JArr l) = Ok tt.
Proof. simpl. induction 1 as [|j l Hj _ IH]; [done|]. by rewrite Hj. Qed.

Lemma string_rt s : valid_utf8 s = true -> json_rt string_json s.
Proof. intros H. eexists; repeat split. intros strict. simpl. by rewrite utf8_coerce_valid. Qed.
Lemma bool_rt b : json_rt bool_json b.
Proof. by eexists. Qed.
Lemma int_rt z : int64_ok z = true -> json_rt int_json z.
Proof. intros H. eexists; repeat split. simpl. by rewrite H. Qed.
Lemma time_rt t : time_printable t = true -> json_rt time_json t.
Proof. intros H. exists (JTime t); repeat split. simpl. by rewrite H. Qed.
Lemma dur_rt d : json_rt dur_json d.
Proof. by eexists. Qed.

Definition is_finite (f : float64) : bool :=
  match f with S754_nan | S754_infinity _ => false | _ => true end.
Lemma float_rt f : is_finite f = true -> json_rt float_json f.
Proof. intros H. exists (JFloat f). destruct f; done. Qed.

Lemma elems_rt {T} `{G : GoJson T} (l : list T) :
  Forall (json_rt G) l ->
  exists js, mapM to_json l = Some js /\ Forall (fun j => scanValue j = Ok tt) js /\
    forall strict, decode_elems strict js = Value l None.
Proof.
  induction 1 as [|x l (j & Hj & Hsj & Hdj) _ (js & Hm & Hs & Hd)]; [by exists []|].
  exists (j :: js). repeat split.
  - simpl. by rewrite Hj, Hm.
  - by constructor.
  - intros strict. simpl. by rewrite Hdj, Hd.
Qed.
Lemma slice_rt {T} `{G : GoJson T} (l : list T) :
  Forall (json_rt G) l -> json_rt slice_json l.
Proof.
  intros (js & Hm & Hs & Hd)%elems_rt. destruct l as [|x l]; [by exists JNull|].
  exists (JArr js). repeat split.
  - unfold to_json. cbn [slice_json]. by rewrite Hm.
  - by apply scanValue_arr.
  - apply Hd.
Qed.

Lemma pointer_none_rt {T} `{G : GoJson T} : json_rt (pointer_json (T := T)) None.
Proof. by exists JNull. Qed.

(** The round trip of a struct is the round trip of its fields: one step of
    the generated encoder and of the member loop at a time. *)
Ltac rt_destruct :=
  repeat match goal with
  | H : json_rt _ _ |- _ =>
    let j := fresh "j" in let E := fresh "E" in let S := fresh "S" in let D := fresh "D" in
    destruct H as (j & E & S & D)
  end.

(** The size limit in force: 0 asks for the default. *)
Definition max_bytes {T} (o : DecodeOptions T) : Z :=
  if MaxBytes o =? 0 then MaxDocumentBytes else MaxBytes o.

(** Decode of a marshalled value. *)
Lemma Decode_Marshal {T} `{G : GoJson T} (x : T) (o : DecodeOptions T) validate j :
  to_json x = Some j -> scanValue j = Ok tt ->
  of_json true go_zero j = Value x None ->
  of_json false (go_zero : header) j = Value (mkHeader (SchemaVersion o)) None ->
  Validate o = Some validate -> validate x = Ok tt ->
  0 <= MaxBytes o -> SchemaVersion o <> "" -> go_len (render j) <= max_bytes o ->
  Decode (Text j false) o = Ok x.
Proof.
  intros Hj Hs Hd Hh Hv Hvx Hm Hsv Hl. unfold Decode. rewrite Hv. fold (max_bytes o).
  assert (0 <= max_bytes o) by (unfold max_bytes, MaxDocumentBytes; destruct (_ =? 0); lia).
  replace (String.eqb (SchemaVersion o) "") with false by (symmetry; by apply String.eqb_neq).
  destruct (Z.ltb_spec (max_bytes o) 0); [lia|]. cbn [orb].
  unfold doc_len; cbn [doc_bytes scanDocument]. destruct (Z.ltb_spec (max_bytes o) (go_len (render j))); [lia|].
  rewrite Hs. cbn [mbind result_bind]. rewrite Hh. cbn [header_version].
  rewrite String.eqb_refl. cbn [negb]. rewrite Hd. cbn [mbind result_bind].
  by rewrite Hvx.
Qed.

(** What a successful [Decode] guarantees. *)
Lemma Decode_ok {T} `{G : GoJson T} d (o : DecodeOptions T) x :
  Decode d o = Ok x ->
  exists j validate, d = Text j false /\ Validate o = Some validate /\ validate x = Ok tt /\
    scanValue j = Ok tt /\ of_json true go_zero j = Value x None /\
    of_json false (go_zero : header) j = Value (mkHeader (SchemaVersion o)) None /\
    doc_len d <= max_bytes o.
Proof.
  unfold Decode. destruct (Validate o) as [validate|]; [|done].
  fold (max_bytes o). destruct (_ || _); [done|]. destruct (Z.ltb_spec (max_bytes o) (doc_len d)); [done|].
  destruct d as [j trailing|]; [|done]. cbn [scanDocument].
  destruct (scanValue j) as [[]|] eqn:Es; [|done]. destruct trailing; [done|].
  cbn [mbind result_bind].
  destruct (of_json false _ j) as [[h] [e|]|] eqn:Eh; try done.
  destruct (negb _) eqn:En; [done|]. apply negb_false_iff, String.eqb_eq in En; simpl in En; subst h.
  destruct (of_json true go_zero j) as [v [[]|]|] eqn:Ev; try done.
  cbn [mbind result_bind]. destruct (validate v) as [[]|] eqn:Evv; [|done].
  intros [= ->]. by exists j, validate.
Qed.
