(* ===== verification/Contract.v ===== *)
(** The versioned data contracts of src/internal/contract/contracts.go: the
    records the components exchange and persist, their [Validate] methods and
    the lifecycle state machines of incidents and recovery commands.

    Go's string-typed enumerations can hold any string, so they stay strings
    here, with the constants the source declares. *)
From S2P Require Import Prelude GoLib GoTime Json.
From Stdlib Require Import SpecFloat.
From stdpp Require Import options.
Local Open Scope Z_scope.

Definition SchemaVersionV1 : string := "v1".
Definition maxReferenceCount : Z := 64.

Definition ErrInvalidContract := contract_error "invalid contract".
Definition ErrInvalidStateTransition := contract_error "invalid state transition".

(** * Constants *)

Definition SeverityInfo : string := "info".
Definition SeverityWarning : string := "warning".
Definition SeverityCritical : string := "critical".

Definition StateHealthy : string := "healthy".
Definition StateUnhealthy : string := "unhealthy".
Definition StateUnknown : string := "unknown".

Definition RiskLow : string := "low".
Definition RiskMedium : string := "medium".
Definition RiskHigh : string := "high".

Definition ActionDockerContainerRestart : string := "docker.container.restart".
Definition ActionDockerComposeServiceRestart : string := "docker.compose_service.restart".

Definition ApprovalGranted : string := "grant".
Definition ApprovalDenied : string := "deny".

Definition NotificationNone : string := "none".
Definition NotificationNotify : string := "notify".
Definition NotificationPage : string := "page".

Definition IncidentOpen : string := "open".
Definition IncidentAnalyzing : string := "analyzing".
Definition IncidentAwaitingApproval : string := "awaiting_approval".
Definition IncidentRecovering : string := "recovering".
Definition IncidentStabilizing : string := "stabilizing".
Definition IncidentClosed : string := "closed".
Definition IncidentFailed : string := "failed".

Definition RecoveryPending : string := "pending".
Definition RecoveryApproved : string := "approved".
Definition RecoveryExecuting : string := "executing".
Definition RecoveryStabilizing : string := "stabilizing".
Definition RecoverySucceeded : string := "succeeded".
Definition RecoveryFailed : string := "failed".
Definition RecoveryDenied : string := "denied".
Definition RecoveryExpired : string := "expired".

Definition DeliveryPayloadLifecycleEvent : string := "lifecycle_event".
Definition DeliveryPayloadIncidentReport : string := "incident_report".

Definition DeliveryPending : string := "pending".
Definition DeliveryDelivered : string := "delivered".
Definition DeliveryExpired : string := "expired".
Definition DeliveryFailed : string := "failed".

Definition ConfidenceLow : string := "low".
Definition ConfidenceMedium : string := "medium".
Definition ConfidenceHigh : string := "high".

Definition LifecycleIncidentConfirmed : string := "incident.confirmed".
Definition LifecycleAnalysisUnavailable : string := "analysis.unavailable".
Definition LifecyclePolicyDenied : string := "policy.denied".
Definition LifecycleApprovalRequested : string := "approval.requested".
Definition LifecycleRecoveryStarted : string := "recovery.started".
Definition LifecycleIncidentClosed : string := "incident.closed".
Definition LifecycleIncidentFailed : string := "incident.failed".

(** * Records *)

(** Constrains locally retained evidence. *)
Record EvidencePolicy := mkEvidencePolicy {
  ep_RedactionProfile : string;
  ep_MaxBytes : Z;
}.
#[export] Instance EvidencePolicy_eta : Updatable EvidencePolicy :=
  fun r => mkEvidencePolicy (ep_RedactionProfile r) (ep_MaxBytes r).
Definition EvidencePolicy_zero : EvidencePolicy := mkEvidencePolicy "" 0.
#[export] Instance EvidencePolicy_json : GoJson EvidencePolicy := struct_json EvidencePolicy_zero [
  field_of "redaction_profile" ep_RedactionProfile never;
  field_of "max_bytes" ep_MaxBytes never].

(** Bounded post-recovery verification. *)
Record StabilizationPolicy := mkStabilizationPolicy {
  sp_RecoverySamples : Z;
  sp_Window : duration;
}.
#[export] Instance StabilizationPolicy_eta : Updatable StabilizationPolicy :=
  fun r => mkStabilizationPolicy (sp_RecoverySamples r) (sp_Window r).
Definition StabilizationPolicy_zero : StabilizationPolicy := mkStabilizationPolicy 0 0.
#[export] Instance StabilizationPolicy_json : GoJson StabilizationPolicy := struct_json StabilizationPolicy_zero [
  field_of "recovery_samples" sp_RecoverySamples never;
  field_dur "window" sp_Window].

(** A deterministic health signal evaluation. *)
Record ProbeRule := mkProbeRule {
  pr_RuleID : string;
  pr_SignalType : string;
  pr_Interval : duration;
  pr_Timeout : duration;
  pr_Threshold : float64;
  pr_ConsecutiveFailures : Z;
  pr_RecoverySamples : Z;
  pr_SLOWindow : duration;
  pr_Severity : string;
}.
#[export] Instance ProbeRule_eta : Updatable ProbeRule :=
  fun r => mkProbeRule (pr_RuleID r) (pr_SignalType r) (pr_Interval r) (pr_Timeout r) (pr_Threshold r) (pr_ConsecutiveFailures r) (pr_RecoverySamples r) (pr_SLOWindow r) (pr_Severity r).
Definition ProbeRule_zero : ProbeRule := mkProbeRule "" "" 0 0 (S754_zero false) 0 0 0 "".
#[export] Instance ProbeRule_json : GoJson ProbeRule := struct_json ProbeRule_zero [
  field_of "rule_id" pr_RuleID never;
  field_of "signal_type" pr_SignalType never;
  field_dur "interval" pr_Interval;
  field_dur "timeout" pr_Timeout;
  field_of "threshold" pr_Threshold never;
  field_of "consecutive_failures" pr_ConsecutiveFailures never;
  field_of "recovery_samples" pr_RecoverySamples never;
  field_dur "slo_window" pr_SLOWindow;
  field_of "severity" pr_Severity never].

(** One monitored local service. *)
Record ServiceTarget := mkServiceTarget {
  tgt_SchemaVersion : string;
  tgt_TargetID : string;
  tgt_AdapterType : string;
  tgt_Selector : string;
  tgt_ProbeRules : list ProbeRule;
  tgt_EvidencePolicy : EvidencePolicy;
  tgt_StabilizationPolicy : StabilizationPolicy;
  tgt_Enabled : bool;
}.
#[export] Instance ServiceTarget_eta : Updatable ServiceTarget :=
  fun r => mkServiceTarget (tgt_SchemaVersion r) (tgt_TargetID r) (tgt_AdapterType r) (tgt_Selector r) (tgt_ProbeRules r) (tgt_EvidencePolicy r) (tgt_StabilizationPolicy r) (tgt_Enabled r).
Definition ServiceTarget_zero : ServiceTarget := mkServiceTarget "" "" "" "" [] EvidencePolicy_zero StabilizationPolicy_zero false.
#[export] Instance ServiceTarget_json : GoJson ServiceTarget := struct_json ServiceTarget_zero [
  field_of "schema_version" tgt_SchemaVersion never;
  field_of "target_id" tgt_TargetID never;
  field_of "adapter_type" tgt_AdapterType never;
  field_of "selector" tgt_Selector never;
  field_of "probe_rules" tgt_ProbeRules never;
  field_of "evidence_policy" tgt_EvidencePolicy never;
  field_of "stabilization_policy" tgt_StabilizationPolicy never;
  field_of "enabled" tgt_Enabled never].

(** A normalized observation. *)
Record HealthObservation := mkHealthObservation {
  obs_SchemaVersion : string;
  obs_ObservationID : string;
  obs_TargetID : string;
  obs_RuleID : string;
  obs_TargetSnapshotVersion : Z;
  obs_ObservedAt : time;
  obs_NormalizedState : string;
  obs_BoundedValues : gmap string float64;
  obs_EvidenceRefs : list string;
  obs_Sequence : Z;
}.
#[export] Instance HealthObservation_eta : Updatable HealthObservation :=
  fun r => mkHealthObservation (obs_SchemaVersion r) (obs_ObservationID r) (obs_TargetID r) (obs_RuleID r) (obs_TargetSnapshotVersion r) (obs_ObservedAt r) (obs_NormalizedState r) (obs_BoundedValues r) (obs_EvidenceRefs r) (obs_Sequence r).
Definition HealthObservation_zero : HealthObservation := mkHealthObservation "" "" "" "" 0 0 "" ∅ [] 0.

(** The durable record of one deduplicated service failure. *)
Record Incident := mkIncident {
  inc_SchemaVersion : string;
  inc_IncidentID : string;
  inc_DedupeKey : string;
  inc_TargetID : string;
  inc_RuleIDs : list string;
  inc_State : string;
  inc_Severity : string;
  inc_OpenedAt : time;
  inc_AnalysisRef : string;
  inc_SelectedRunbookID : string;
  inc_TerminalAt : time;
}.
#[export] Instance Incident_eta : Updatable Incident :=
  fun r => mkIncident (inc_SchemaVersion r) (inc_IncidentID r) (inc_DedupeKey r) (inc_TargetID r) (inc_RuleIDs r) (inc_State r) (inc_Severity r) (inc_OpenedAt r) (inc_AnalysisRef r) (inc_SelectedRunbookID r) (inc_TerminalAt r).
Definition Incident_zero : Incident := mkIncident "" "" "" "" [] "" "" 0 "" "" 0.
#[export] Instance Incident_json : GoJson Incident := struct_json Incident_zero [
  field_of "schema_version" inc_SchemaVersion never;
  field_of "incident_id" inc_IncidentID never;
  field_of "dedupe_key" inc_DedupeKey never;
  field_of "target_id" inc_TargetID never;
  field_of "rule_ids" inc_RuleIDs never;
  field_of "state" inc_State never;
  field_of "severity" inc_Severity never;
  field_time "opened_at" inc_OpenedAt;
  field_of "analysis_ref" inc_AnalysisRef empty_string;
  field_of "selected_runbook_id" inc_SelectedRunbookID empty_string;
  field_time "terminal_at" inc_TerminalAt].

(** Restricts a runbook to an approved target. *)
Record TargetConstraint := mkTargetConstraint {
  tc_Field : string;
  tc_Value : string;
}.
#[export] Instance TargetConstraint_eta : Updatable TargetConstraint :=
  fun r => mkTargetConstraint (tc_Field r) (tc_Value r).
Definition TargetConstraint_zero : TargetConstraint := mkTargetConstraint "" "".
#[export] Instance TargetConstraint_json : GoJson TargetConstraint := struct_json TargetConstraint_zero [
  field_of "field" tc_Field never;
  field_of "value" tc_Value never].

(** A registered action; it has no raw command, argv, shell or script. *)
Record TypedAction := mkTypedAction {
  act_ActionType : string;
  act_TargetSelector : string;
  act_StopTimeout : duration;
  act_Cooldown : duration;
}.
#[export] Instance TypedAction_eta : Updatable TypedAction :=
  fun r => mkTypedAction (act_ActionType r) (act_TargetSelector r) (act_StopTimeout r) (act_Cooldown r).
Definition TypedAction_zero : TypedAction := mkTypedAction "" "" 0 0.
#[export] Instance TypedAction_json : GoJson TypedAction := struct_json TypedAction_zero [
  field_of "action_type" act_ActionType never;
  field_of "target_selector" act_TargetSelector never;
  field_dur "stop_timeout" act_StopTimeout;
  field_dur "cooldown" act_Cooldown].

(** Whether a typed action requires human approval. *)
Record ApprovalPolicy := mkApprovalPolicy {
  ap_Required : bool;
}.
#[export] Instance ApprovalPolicy_eta : Updatable ApprovalPolicy :=
  fun r => mkApprovalPolicy (ap_Required r).
Definition ApprovalPolicy_zero : ApprovalPolicy := mkApprovalPolicy false.
#[export] Instance ApprovalPolicy_json : GoJson ApprovalPolicy := struct_json ApprovalPolicy_zero [
  field_of "required" ap_Required never].

(** A bounded number of action attempts. *)
Record RetryPolicy := mkRetryPolicy {
  rp_MaxAttempts : Z;
}.
#[export] Instance RetryPolicy_eta : Updatable RetryPolicy :=
  fun r => mkRetryPolicy (rp_MaxAttempts r).
Definition RetryPolicy_zero : RetryPolicy := mkRetryPolicy 0.
#[export] Instance RetryPolicy_json : GoJson RetryPolicy := struct_json RetryPolicy_zero [
  field_of "max_attempts" rp_MaxAttempts never].

(** The strict, executable member of a runbook pair. *)
Record Runbook := mkRunbook {
  rb_SchemaVersion : string;
  rb_RunbookID : string;
  rb_Version : string;
  rb_Digest : string;
  rb_AdapterType : string;
  rb_TargetConstraints : list TargetConstraint;
  rb_TypedActions : list TypedAction;
  rb_RiskTier : string;
  rb_AutoExecute : bool;
  rb_ApprovalPolicy : ApprovalPolicy;
  rb_Preconditions : list string;
  rb_RetryPolicy : RetryPolicy;
  rb_StabilizationPolicy : StabilizationPolicy;
}.
#[export] Instance Runbook_eta : Updatable Runbook :=
  fun r => mkRunbook (rb_SchemaVersion r) (rb_RunbookID r) (rb_Version r) (rb_Digest r) (rb_AdapterType r) (rb_TargetConstraints r) (rb_TypedActions r) (rb_RiskTier r) (rb_AutoExecute r) (rb_ApprovalPolicy r) (rb_Preconditions r) (rb_RetryPolicy r) (rb_StabilizationPolicy r).
Definition Runbook_zero : Runbook := mkRunbook "" "" "" "" "" [] [] "" false ApprovalPolicy_zero [] RetryPolicy_zero StabilizationPolicy_zero.
#[export] Instance Runbook_json : GoJson Runbook := struct_json Runbook_zero [
  field_of "schema_version" rb_SchemaVersion never;
  field_of "runbook_id" rb_RunbookID never;
  field_of "version" rb_Version never;
  field_of "digest" rb_Digest never;
  field_of "adapter_type" rb_AdapterType never;
  field_of "target_constraints" rb_TargetConstraints never;
  field_of "typed_actions" rb_TypedActions never;
  field_of "risk_tier" rb_RiskTier never;
  field_of "auto_execute" rb_AutoExecute never;
  field_of "approval_policy" rb_ApprovalPolicy never;
  field_of "preconditions" rb_Preconditions never;
  field_of "retry_policy" rb_RetryPolicy never;
  field_of "stabilization_policy" rb_StabilizationPolicy never].

(** An evidence-referenced analysis statement. *)
Record HypothesisRec := mkHypothesisRec {
  hyp_Summary : string;
  hyp_EvidenceRefs : list string;
}.
#[export] Instance HypothesisRec_eta : Updatable HypothesisRec :=
  fun r => mkHypothesisRec (hyp_Summary r) (hyp_EvidenceRefs r).
Definition HypothesisRec_zero : HypothesisRec := mkHypothesisRec "" [].
#[export] Instance HypothesisRec_json : GoJson HypothesisRec := struct_json HypothesisRec_zero [
  field_of "summary" hyp_Summary never;
  field_of "evidence_refs" hyp_EvidenceRefs never].

(** A model output; it names runbooks but carries no command. *)
Record AnalysisResult := mkAnalysisResult {
  ar_SchemaVersion : string;
  ar_IncidentID : string;
  ar_Hypotheses : list HypothesisRec;
  ar_EvidenceRefs : list string;
  ar_ConfidenceLabels : list string;
  ar_NotificationRecommendation : string;
  ar_CandidateRunbookIDs : list string;
  ar_MissingEvidence : list string;
}.
#[export] Instance AnalysisResult_eta : Updatable AnalysisResult :=
  fun r => mkAnalysisResult (ar_SchemaVersion r) (ar_IncidentID r) (ar_Hypotheses r) (ar_EvidenceRefs r) (ar_ConfidenceLabels r) (ar_NotificationRecommendation r) (ar_CandidateRunbookIDs r) (ar_MissingEvidence r).
Definition AnalysisResult_zero : AnalysisResult := mkAnalysisResult "" "" [] [] [] "" [] [].
#[export] Instance AnalysisResult_json : GoJson AnalysisResult := struct_json AnalysisResult_zero [
  field_of "schema_version" ar_SchemaVersion never;
  field_of "incident_id" ar_IncidentID never;
  field_of "hypotheses" ar_Hypotheses never;
  field_of "evidence_refs" ar_EvidenceRefs never;
  field_of "confidence_labels" ar_ConfidenceLabels never;
  field_of "notification_recommendation" ar_NotificationRecommendation never;
  field_of "candidate_runbook_ids" ar_CandidateRunbookIDs never;
  field_of "missing_evidence" ar_MissingEvidence never].

(** A durable request to execute one typed runbook action. *)
Record RecoveryCommand := mkRecoveryCommand {
  cmd_SchemaVersion : string;
  cmd_CommandID : string;
  cmd_IncidentID : string;
  cmd_RunbookID : string;
  cmd_RunbookDigest : string;
  cmd_TargetID : string;
  cmd_ActionIndex : Z;
  cmd_RiskTier : string;
  cmd_ApprovalID : string;
  cmd_IssuedAt : time;
  cmd_ExpiresAt : time;
  cmd_IdempotencyKey : string;
  cmd_State : string;
}.
#[export] Instance RecoveryCommand_eta : Updatable RecoveryCommand :=
  fun r => mkRecoveryCommand (cmd_SchemaVersion r) (cmd_CommandID r) (cmd_IncidentID r) (cmd_RunbookID r) (cmd_RunbookDigest r) (cmd_TargetID r) (cmd_ActionIndex r) (cmd_RiskTier r) (cmd_ApprovalID r) (cmd_IssuedAt r) (cmd_ExpiresAt r) (cmd_IdempotencyKey r) (cmd_State r).
Definition RecoveryCommand_zero : RecoveryCommand := mkRecoveryCommand "" "" "" "" "" "" 0 "" "" 0 0 "" "".
#[export] Instance RecoveryCommand_json : GoJson RecoveryCommand := struct_json RecoveryCommand_zero [
  field_of "schema_version" cmd_SchemaVersion never;
  field_of "command_id" cmd_CommandID never;
  field_of "incident_id" cmd_IncidentID never;
  field_of "runbook_id" cmd_RunbookID never;
  field_of "runbook_digest" cmd_RunbookDigest never;
  field_of "target_id" cmd_TargetID never;
  field_of "action_index" cmd_ActionIndex never;
  field_of "risk_tier" cmd_RiskTier never;
  field_of "approval_id" cmd_ApprovalID empty_string;
  field_time "issued_at" cmd_IssuedAt;
  field_time "expires_at" cmd_ExpiresAt;
  field_of "idempotency_key" cmd_IdempotencyKey never;
  field_of "state" cmd_State never].

(** A human decision for exactly one recovery command. *)
Record Approval := mkApproval {
  apr_SchemaVersion : string;
  apr_ApprovalID : string;
  apr_CommandID : string;
  apr_Decision : string;
  apr_ApproverIdentity : string;
  apr_Reason : string;
  apr_CreatedAt : time;
  apr_ExpiresAt : time;
}.
#[export] Instance Approval_eta : Updatable Approval :=
  fun r => mkApproval (apr_SchemaVersion r) (apr_ApprovalID r) (apr_CommandID r) (apr_Decision r) (apr_ApproverIdentity r) (apr_Reason r) (apr_CreatedAt r) (apr_ExpiresAt r).
Definition Approval_zero : Approval := mkApproval "" "" "" "" "" "" 0 0.
#[export] Instance Approval_json : GoJson Approval := struct_json Approval_zero [
  field_of "schema_version" apr_SchemaVersion never;
  field_of "approval_id" apr_ApprovalID never;
  field_of "command_id" apr_CommandID never;
  field_of "decision" apr_Decision never;
  field_of "approver_identity" apr_ApproverIdentity never;
  field_of "reason" apr_Reason never;
  field_time "created_at" apr_CreatedAt;
  field_time "expires_at" apr_ExpiresAt].

(** An append-only, digest-linked record. *)
Record AuditEvent := mkAuditEvent {
  ev_SchemaVersion : string;
  ev_EventID : string;
  ev_AggregateType : string;
  ev_AggregateID : string;
  ev_ActorIdentity : string;
  ev_Action : string;
  ev_Result : string;
  ev_ReasonCode : string;
  ev_OccurredAt : time;
  ev_PreviousDigest : string;
  ev_Digest : string;
}.
#[export] Instance AuditEvent_eta : Updatable AuditEvent :=
  fun r => mkAuditEvent (ev_SchemaVersion r) (ev_EventID r) (ev_AggregateType r) (ev_AggregateID r) (ev_ActorIdentity r) (ev_Action r) (ev_Result r) (ev_ReasonCode r) (ev_OccurredAt r) (ev_PreviousDigest r) (ev_Digest r).
Definition AuditEvent_zero : AuditEvent := mkAuditEvent "" "" "" "" "" "" "" "" 0 "" "".
#[export] Instance AuditEvent_json : GoJson AuditEvent := struct_json AuditEvent_zero [
  field_of "schema_version" ev_SchemaVersion never;
  field_of "event_id" ev_EventID never;
  field_of "aggregate_type" ev_AggregateType never;
  field_of "aggregate_id" ev_AggregateID never;
  field_of "actor_identity" ev_ActorIdentity never;
  field_of "action" ev_Action never;
  field_of "result" ev_Result never;
  field_of "reason_code" ev_ReasonCode never;
  field_time "occurred_at" ev_OccurredAt;
  field_of "previous_digest" ev_PreviousDigest empty_string;
  field_of "digest" ev_Digest never].

(** A safe summary of a recovery action. *)
Record ReportAction := mkReportAction {
  ra_CommandID : string;
  ra_ActionType : string;
  ra_Result : string;
}.
#[export] Instance ReportAction_eta : Updatable ReportAction :=
  fun r => mkReportAction (ra_CommandID r) (ra_ActionType r) (ra_Result r).
Definition ReportAction_zero : ReportAction := mkReportAction "" "" "".
#[export] Instance ReportAction_json : GoJson ReportAction := struct_json ReportAction_zero [
  field_of "command_id" ra_CommandID never;
  field_of "action_type" ra_ActionType never;
  field_of "result" ra_Result never].

(** A secret-free incident summary for delivery. *)
Record IncidentReport := mkIncidentReport {
  rep_SchemaVersion : string;
  rep_ReportID : string;
  rep_IncidentID : string;
  rep_Hypotheses : list HypothesisRec;
  rep_EvidenceRefs : list string;
  rep_Actions : list ReportAction;
  rep_Approvals : list string;
  rep_VerificationResult : string;
  rep_PreventionRecommendations : list string;
  rep_PostmortemDraft : string;
  rep_RunbookImprovementSuggestions : list string;
  rep_DeliveryStatus : string;
}.
#[export] Instance IncidentReport_eta : Updatable IncidentReport :=
  fun r => mkIncidentReport (rep_SchemaVersion r) (rep_ReportID r) (rep_IncidentID r) (rep_Hypotheses r) (rep_EvidenceRefs r) (rep_Actions r) (rep_Approvals r) (rep_VerificationResult r) (rep_PreventionRecommendations r) (rep_PostmortemDraft r) (rep_RunbookImprovementSuggestions r) (rep_DeliveryStatus r).
Definition IncidentReport_zero : IncidentReport := mkIncidentReport "" "" "" [] [] [] [] "" [] "" [] "".
#[export] Instance IncidentReport_json : GoJson IncidentReport := struct_json IncidentReport_zero [
  field_of "schema_version" rep_SchemaVersion never;
  field_of "report_id" rep_ReportID never;
  field_of "incident_id" rep_IncidentID never;
  field_of "hypotheses" rep_Hypotheses never;
  field_of "evidence_refs" rep_EvidenceRefs never;
  field_of "actions" rep_Actions never;
  field_of "approvals" rep_Approvals never;
  field_of "verification_result" rep_VerificationResult never;
  field_of "prevention_recommendations" rep_PreventionRecommendations never;
  field_of "postmortem_draft" rep_PostmortemDraft never;
  field_of "runbook_improvement_suggestions" rep_RunbookImprovementSuggestions never;
  field_of "delivery_status" rep_DeliveryStatus never].

(** One entry of the shared delivery queue. *)
Record DeliveryQueueItem := mkDeliveryQueueItem {
  itm_SchemaVersion : string;
  itm_DeliveryID : string;
  itm_PayloadType : string;
  itm_PayloadRef : string;
  itm_WebhookID : string;
  itm_DestinationRef : string;
  itm_AttemptCount : Z;
  itm_NextAttemptAt : time;
  itm_ExpiresAt : time;
  itm_State : string;
}.
#[export] Instance DeliveryQueueItem_eta : Updatable DeliveryQueueItem :=
  fun r => mkDeliveryQueueItem (itm_SchemaVersion r) (itm_DeliveryID r) (itm_PayloadType r) (itm_PayloadRef r) (itm_WebhookID r) (itm_DestinationRef r) (itm_AttemptCount r) (itm_NextAttemptAt r) (itm_ExpiresAt r) (itm_State r).
Definition DeliveryQueueItem_zero : DeliveryQueueItem := mkDeliveryQueueItem "" "" "" "" "" "" 0 0 0 "".
#[export] Instance DeliveryQueueItem_json : GoJson DeliveryQueueItem := struct_json DeliveryQueueItem_zero [
  field_of "schema_version" itm_SchemaVersion never;
  field_of "delivery_id" itm_DeliveryID never;
  field_of "payload_type" itm_PayloadType never;
  field_of "payload_ref" itm_PayloadRef never;
  field_of "webhook_id" itm_WebhookID never;
  field_of "destination_ref" itm_DestinationRef never;
  field_of "attempt_count" itm_AttemptCount never;
  field_time "next_attempt_at" itm_NextAttemptAt;
  field_time "expires_at" itm_ExpiresAt;
  field_of "state" itm_State never].

(** A secret-free lifecycle payload. *)
Record LifecycleEvent := mkLifecycleEvent {
  le_SchemaVersion : string;
  le_EventID : string;
  le_EventType : string;
  le_IncidentID : string;
  le_OccurredAt : time;
  le_ReasonCode : string;
  le_EvidenceRefs : list string;
}.
#[export] Instance LifecycleEvent_eta : Updatable LifecycleEvent :=
  fun r => mkLifecycleEvent (le_SchemaVersion r) (le_EventID r) (le_EventType r) (le_IncidentID r) (le_OccurredAt r) (le_ReasonCode r) (le_EvidenceRefs r).
Definition LifecycleEvent_zero : LifecycleEvent := mkLifecycleEvent "" "" "" "" 0 "" [].
#[export] Instance LifecycleEvent_json : GoJson LifecycleEvent := struct_json LifecycleEvent_zero [
  field_of "schema_version" le_SchemaVersion never;
  field_of "event_id" le_EventID never;
  field_of "event_type" le_EventType never;
  field_of "incident_id" le_IncidentID never;
  field_time "occurred_at" le_OccurredAt;
  field_of "reason_code" le_ReasonCode never;
  field_of "evidence_refs" le_EvidenceRefs never].

(** The payload envelope. *)
Record WebhookEnvelope := mkWebhookEnvelope {
  we_SchemaVersion : string;
  we_EventID : string;
  we_EventType : string;
  we_OccurredAt : time;
  we_PayloadRef : string;
}.
#[export] Instance WebhookEnvelope_eta : Updatable WebhookEnvelope :=
  fun r => mkWebhookEnvelope (we_SchemaVersion r) (we_EventID r) (we_EventType r) (we_OccurredAt r) (we_PayloadRef r).
Definition WebhookEnvelope_zero : WebhookEnvelope := mkWebhookEnvelope "" "" "" 0 "".
#[export] Instance WebhookEnvelope_json : GoJson WebhookEnvelope := struct_json WebhookEnvelope_zero [
  field_of "schema_version" we_SchemaVersion never;
  field_of "event_id" we_EventID never;
  field_of "event_type" we_EventType never;
  field_time "occurred_at" we_OccurredAt;
  field_of "payload_ref" we_PayloadRef never].


(** * Validation helpers *)

Definition go_count {A} (l : list A) : Z := Z.of_nat (length l).

Definition invalid : result unit := Fail ErrInvalidContract.

Definition validateVersion (version : string) : result unit :=
  if String.eqb version SchemaVersionV1 then Ok tt else invalid.

Definition required (value : string) : result unit :=
  if String.eqb value "" then Fail ErrInvalidContract else Ok tt.

Fixpoint oneOf (value : string) (values : list string) : bool :=
  match values with
  | [] => false
  | candidate :: rest => if String.eqb value candidate then true else oneOf value rest
  end.

Definition validIncidentState (state : string) : bool :=
  oneOf state [IncidentOpen; IncidentAnalyzing; IncidentAwaitingApproval; IncidentRecovering;
               IncidentStabilizing; IncidentClosed; IncidentFailed].

Definition terminalIncident (state : string) : bool :=
  String.eqb state IncidentClosed || String.eqb state IncidentFailed.

Definition validRecoveryState (state : string) : bool :=
  oneOf state [RecoveryPending; RecoveryApproved; RecoveryExecuting; RecoveryStabilizing;
               RecoverySucceeded; RecoveryFailed; RecoveryDenied; RecoveryExpired].

Definition validDeliveryState (state : string) : bool :=
  oneOf state [DeliveryPending; DeliveryDelivered; DeliveryExpired; DeliveryFailed].

Definition validLifecycleEvent (eventType : string) : bool :=
  oneOf eventType [LifecycleIncidentConfirmed; LifecycleAnalysisUnavailable; LifecyclePolicyDenied;
                   LifecycleApprovalRequested; LifecycleRecoveryStarted; LifecycleIncidentClosed;
                   LifecycleIncidentFailed].

(** * Validate methods *)

Definition Incident_Validate (i : Incident) : result unit :=
  validateVersion (inc_SchemaVersion i) ≫= fun _ =>
  required (inc_IncidentID i) ≫= fun _ =>
  required (inc_TargetID i) ≫= fun _ =>
  if negb (validIncidentState (inc_State i)) || is_zero (inc_OpenedAt i) ||
     (go_count (inc_RuleIDs i) =? 0) || (maxReferenceCount <? go_count (inc_RuleIDs i))
  then invalid
  else if negb (Bool.eqb (terminalIncident (inc_State i)) (negb (is_zero (inc_TerminalAt i))))
  then invalid
  else Ok tt.

Definition AnalysisResult_Validate (a : AnalysisResult) : result unit :=
  validateVersion (ar_SchemaVersion a) ≫= fun _ =>
  required (ar_IncidentID a) ≫= fun _ =>
  if (go_count (ar_Hypotheses a) =? 0) || (maxReferenceCount <? go_count (ar_Hypotheses a)) ||
     (maxReferenceCount <? go_count (ar_EvidenceRefs a)) ||
     (maxReferenceCount <? go_count (ar_ConfidenceLabels a)) ||
     (maxReferenceCount <? go_count (ar_CandidateRunbookIDs a)) ||
     (maxReferenceCount <? go_count (ar_MissingEvidence a)) ||
     negb (oneOf (ar_NotificationRecommendation a)
             [NotificationNone; NotificationNotify; NotificationPage])
  then invalid
  else
    for_each (fun hypothesis =>
      required (hyp_Summary hypothesis) ≫= fun _ =>
      if maxReferenceCount <? go_count (hyp_EvidenceRefs hypothesis) then invalid else Ok tt)
      (ar_Hypotheses a) ≫= fun _ =>
    for_each (fun label =>
      if negb (oneOf label [ConfidenceLow; ConfidenceMedium; ConfidenceHigh]) then invalid else Ok tt)
      (ar_ConfidenceLabels a).

Definition RecoveryCommand_Validate (r : RecoveryCommand) : result unit :=
  validateVersion (cmd_SchemaVersion r) ≫= fun _ =>
  required (cmd_CommandID r) ≫= fun _ =>
  if negb (validRecoveryState (cmd_State r)) || (cmd_ActionIndex r <? 0) ||
     is_zero (cmd_IssuedAt r) || is_zero (cmd_ExpiresAt r) ||
     negb (after (cmd_ExpiresAt r) (cmd_IssuedAt r))
  then invalid else Ok tt.

Definition IncidentReport_Validate (r : IncidentReport) : result unit :=
  validateVersion (rep_SchemaVersion r) ≫= fun _ =>
  required (rep_ReportID r) ≫= fun _ =>
  required (rep_IncidentID r) ≫= fun _ =>
  if (go_count (rep_Hypotheses r) =? 0) || (maxReferenceCount <? go_count (rep_Hypotheses r)) ||
     (maxReferenceCount <? go_count (rep_EvidenceRefs r)) ||
     (maxReferenceCount <? go_count (rep_Actions r)) ||
     (maxReferenceCount <? go_count (rep_Approvals r)) ||
     (go_count (rep_PreventionRecommendations r) =? 0) ||
     (maxReferenceCount <? go_count (rep_PreventionRecommendations r)) ||
     (go_count (rep_RunbookImprovementSuggestions r) =? 0) ||
     (maxReferenceCount <? go_count (rep_RunbookImprovementSuggestions r)) ||
     negb (validDeliveryState (rep_DeliveryStatus r))
  then invalid
  else
    required (rep_VerificationResult r) ≫= fun _ =>
    required (rep_PostmortemDraft r) ≫= fun _ =>
    for_each (fun hypothesis =>
      match required (hyp_Summary hypothesis) with
      | Fail _ => invalid
      | Ok _ => if maxReferenceCount <? go_count (hyp_EvidenceRefs hypothesis) then invalid
                else for_each required (hyp_EvidenceRefs hypothesis)
      end) (rep_Hypotheses r) ≫= fun _ =>
    for_each required (rep_EvidenceRefs r) ≫= fun _ =>
    for_each (fun action =>
      required (ra_CommandID action) ≫= fun _ =>
      if negb (oneOf (ra_ActionType action)
                 [ActionDockerContainerRestart; ActionDockerComposeServiceRestart])
      then invalid
      else required (ra_Result action)) (rep_Actions r) ≫= fun _ =>
    for_each required (rep_Approvals r) ≫= fun _ =>
    for_each required (rep_PreventionRecommendations r) ≫= fun _ =>
    for_each required (rep_RunbookImprovementSuggestions r).

Definition DeliveryQueueItem_Validate (d : DeliveryQueueItem) : result unit :=
  validateVersion (itm_SchemaVersion d) ≫= fun _ =>
  required (itm_DeliveryID d) ≫= fun _ =>
  required (itm_PayloadRef d) ≫= fun _ =>
  required (itm_WebhookID d) ≫= fun _ =>
  required (itm_DestinationRef d) ≫= fun _ =>
  if (negb (String.eqb (itm_PayloadType d) DeliveryPayloadLifecycleEvent) &&
      negb (String.eqb (itm_PayloadType d) DeliveryPayloadIncidentReport)) ||
     (itm_AttemptCount d <? 0) || is_zero (itm_NextAttemptAt d) || is_zero (itm_ExpiresAt d) ||
     negb (after (itm_ExpiresAt d) (itm_NextAttemptAt d)) || negb (validDeliveryState (itm_State d))
  then invalid else Ok tt.

Definition LifecycleEvent_Validate (l : LifecycleEvent) : result unit :=
  validateVersion (le_SchemaVersion l) ≫= fun _ =>
  required (le_EventID l) ≫= fun _ =>
  required (le_IncidentID l) ≫= fun _ =>
  if negb (validLifecycleEvent (le_EventType l)) || is_zero (le_OccurredAt l) ||
     (maxReferenceCount <? go_count (le_EvidenceRefs l))
  then invalid
  else for_each required (le_EvidenceRefs l).

Definition WebhookEnvelope_Validate (w : WebhookEnvelope) : result unit :=
  validateVersion (we_SchemaVersion w) ≫= fun _ =>
  required (we_EventID w) ≫= fun _ =>
  required (we_PayloadRef w) ≫= fun _ =>
  if negb (validLifecycleEvent (we_EventType w)) || is_zero (we_OccurredAt w)
  then invalid else Ok tt.

(** * Lifecycles *)

Definition Incident_CanTransitionTo (i next : string) : bool :=
  if String.eqb i IncidentOpen then
    String.eqb next IncidentAnalyzing || String.eqb next IncidentClosed || String.eqb next IncidentFailed
  else if String.eqb i IncidentAnalyzing then
    String.eqb next IncidentAwaitingApproval || String.eqb next IncidentRecovering ||
    String.eqb next IncidentClosed || String.eqb next IncidentFailed
  else if String.eqb i IncidentAwaitingApproval then
    String.eqb next IncidentRecovering || String.eqb next IncidentClosed || String.eqb next IncidentFailed
  else if String.eqb i IncidentRecovering then
    String.eqb next IncidentStabilizing || String.eqb next IncidentFailed
  else if String.eqb i IncidentStabilizing then
    String.eqb next IncidentClosed || String.eqb next IncidentFailed
  else false.

Definition Incident_ValidateTransition (i next : string) : result unit :=
  if negb (Incident_CanTransitionTo i next) then Fail ErrInvalidStateTransition else Ok tt.

Definition Recovery_CanTransitionTo (r next : string) : bool :=
  if String.eqb r RecoveryPending then
    String.eqb next RecoveryApproved || String.eqb next RecoveryDenied || String.eqb next RecoveryExpired
  else if String.eqb r RecoveryApproved then
    String.eqb next RecoveryExecuting || String.eqb next RecoveryExpired
  else if String.eqb r RecoveryExecuting then
    String.eqb next RecoveryStabilizing || String.eqb next RecoveryFailed
  else if String.eqb r RecoveryStabilizing then
    String.eqb next RecoverySucceeded || String.eqb next RecoveryFailed
  else false.

Definition Recovery_ValidateTransition (r next : string) : result unit :=
  if negb (Recovery_CanTransitionTo r next) then Fail ErrInvalidStateTransition else Ok tt.
