(* ===== verification/ContractFacts.v ===== *)
(** Facts about the contracts: the round trip of every persisted record
    through [json.Marshal] and the strict decoder, and the lifecycles. *)
From S2P Require Import Prelude GoLib GoTime Json Contract.
From Stdlib Require Import SpecFloat.
From stdpp Require Import options.
Local Open Scope Z_scope.

(** * Round trips

    [R_ok r] says that the strings of [r] are valid UTF-8, its integers 64-bit
    and its instants printable: what [json.Marshal] writes without loss. *)

(** What the round-trip tactics do not unfold. *)
Arguments utf8_coerce : simpl never.
Arguments valid_utf8 : simpl never.
Arguments time_printable : simpl never.
Arguments int64_ok : simpl never.
Arguments is_finite : simpl never.
Arguments slice_json : simpl never.
Arguments float_json : simpl never.
Arguments empty_string : simpl never.

Lemma strings_rt l : forallb valid_utf8 l = true -> json_rt slice_json l.
Proof.
  intros H. apply slice_rt, Forall_forall. intros s Hs. apply string_rt.
  rewrite forallb_forall in H. apply H. by apply list_elem_of_In.
Qed.

Lemma structs_rt {T} `{G : GoJson T} (ok : T -> bool) (l : list T) :
  (forall x, ok x = true -> json_rt G x) -> forallb ok l = true -> json_rt slice_json l.
Proof.
  intros Hx H. apply slice_rt, Forall_forall. intros s Hs. apply Hx.
  rewrite forallb_forall in H. apply H. by apply list_elem_of_In.
Qed.
#[export] Hint Resolve strings_rt float_rt : go.
#[export] Hint Extern 2 (json_rt slice_json _) => eapply structs_rt; [|eassumption] : go.

(** The round trip of a versioned record: its header decodes to its version. *)
Definition json_rtv {T} (G : GoJson T) (x : T) (version : string) : Prop :=
  exists j, to_json x = Some j /\ scanValue j = Ok tt /\
            (forall strict, of_json strict go_zero j = Value x None) /\
            of_json false (go_zero : header) j = Value (mkHeader version) None.

Lemma json_rtv_rt {T} (G : GoJson T) x v : json_rtv G x v -> json_rt G x.
Proof. intros (j & ? & ? & ? & _). by exists j. Qed.

Definition header_fields : list (field header) :=
  [field_of "schema_version" header_version never].
Definition other_key (key : string) : bool :=
  match field_for header_fields key with None => true | Some _ => false end.

Lemma header_decode v ms :
  valid_utf8 v = true -> forallb other_key (map fst ms) = true ->
  of_json false (go_zero : header) (JObj (("schema_version", JStr v) :: ms)) = Value (mkHeader v) None.
Proof.
  intros Hv H. transitivity (decode_members false header_fields (mkHeader (utf8_coerce v)) None ms); [done|].
  rewrite (utf8_coerce_valid v Hv).
  induction ms as [|[k j] ms IH]; [done|]. cbn [map forallb fst] in H. unfold other_key at 1 in H.
  cbn [decode_members]. destruct (field_for header_fields k); [done|]. by apply IH.
Qed.

(** A member's round trip, from the hypothesis on the field. *)
Ltac rt_member H :=
  let j := fresh "j" in let E := fresh "E" in let S := fresh "S" in let D := fresh "D" in
  destruct H as (j & E & S & D).

Ltac struct_prepare :=
  cbn; intros; bool_prop;
  repeat match goal with
  | H : forallb _ ?l = true |- _ =>
    let R := fresh "R" in assert (R : json_rt slice_json l) by eauto with go; clear H; rt_member R
  | H : is_finite ?l = true |- _ =>
    let R := fresh "R" in assert (R : json_rt float_json l) by eauto with go; clear H; rt_member R
  | H : _ ?l = true |- _ =>
    let R := fresh "R" in
    lazymatch type of l with
    | string => fail
    | Z => fail
    | bool => fail
    | _ => assert (R : json_rt _ l) by eauto with go; clear H; rt_member R
    end
  end;
  unfold json_rt, json_rtv; cbn -[header_json];
  repeat match goal with
  | H : time_printable ?t = true |- _ => rewrite ?H; revert H
  | E : to_json _ = Some _ |- _ => cbn in E; rewrite ?E; revert E
  end; intros; cbn -[header_json];
  repeat match goal with
  | |- context [ empty_string ?s ] =>
    let E := fresh "E" in destruct (empty_string s) eqn:E;
      [apply String.eqb_eq in E; try subst s|]; cbn -[header_json]
  end.

Ltac struct_scan :=
  apply scanValue_obj; [cbn; apply (bool_decide_unpack _); vm_compute; exact I|];
  repeat (apply Forall_cons; split); auto using Forall_nil.

Ltac struct_decode :=
  intros strict; cbn;
  repeat match goal with
  | H : int64_ok _ = true |- _ => rewrite ?H; revert H
  | H : valid_utf8 ?s = true |- _ => rewrite ?(utf8_coerce_valid s H); revert H
  end; intros; cbn;
  repeat match goal with
  | D : (forall s, @of_json ?T ?G s ?z0 ?j = _) |- context [ @of_json ?T ?G ?b ?z ?j ] =>
    change (@of_json T G b z j) with (@of_json T G b z0 j); rewrite (D b); cbn
  end; reflexivity.

Ltac struct_rt :=
  struct_prepare; (eexists; split; [reflexivity|]; split; [struct_scan|struct_decode]).

Ltac struct_rtv :=
  struct_prepare; (eexists; split; [reflexivity|]; split; [struct_scan|]; split;
    [struct_decode|apply header_decode; [assumption|vm_compute; reflexivity]]).

Definition EvidencePolicy_ok (r : EvidencePolicy) : bool :=
  valid_utf8 (ep_RedactionProfile r) && int64_ok (ep_MaxBytes r).
Lemma EvidencePolicy_rt r : EvidencePolicy_ok r = true -> json_rt EvidencePolicy_json r.
Proof. destruct r. unfold EvidencePolicy_ok, EvidencePolicy_json. struct_rt. Qed.
#[export] Hint Resolve EvidencePolicy_rt : go.
Arguments EvidencePolicy_json : simpl never.

Definition StabilizationPolicy_ok (r : StabilizationPolicy) : bool :=
  int64_ok (sp_RecoverySamples r).
Lemma StabilizationPolicy_rt r : StabilizationPolicy_ok r = true -> json_rt StabilizationPolicy_json r.
Proof. destruct r. unfold StabilizationPolicy_ok, StabilizationPolicy_json. struct_rt. Qed.
#[export] Hint Resolve StabilizationPolicy_rt : go.
Arguments StabilizationPolicy_json : simpl never.

Definition ProbeRule_ok (r : ProbeRule) : bool :=
  valid_utf8 (pr_RuleID r) && valid_utf8 (pr_SignalType r) && is_finite (pr_Threshold r)
   && int64_ok (pr_ConsecutiveFailures r) && int64_ok (pr_RecoverySamples r)
   && valid_utf8 (pr_Severity r).
Lemma ProbeRule_rt r : ProbeRule_ok r = true -> json_rt ProbeRule_json r.
Proof. destruct r. unfold ProbeRule_ok, ProbeRule_json. struct_rt. Qed.
#[export] Hint Resolve ProbeRule_rt : go.
Arguments ProbeRule_json : simpl never.

Definition ServiceTarget_ok (r : ServiceTarget) : bool :=
  valid_utf8 (tgt_SchemaVersion r) && valid_utf8 (tgt_TargetID r)
   && valid_utf8 (tgt_AdapterType r) && valid_utf8 (tgt_Selector r)
   && forallb ProbeRule_ok (tgt_ProbeRules r) && EvidencePolicy_ok (tgt_EvidencePolicy r)
   && StabilizationPolicy_ok (tgt_StabilizationPolicy r).
Lemma ServiceTarget_rtv r : ServiceTarget_ok r = true -> json_rtv ServiceTarget_json r (tgt_SchemaVersion r).
Proof. destruct r. unfold ServiceTarget_ok, ServiceTarget_json. struct_rtv. Qed.
Lemma ServiceTarget_rt r : ServiceTarget_ok r = true -> json_rt ServiceTarget_json r.
Proof. intros. by eapply json_rtv_rt, ServiceTarget_rtv. Qed.
#[export] Hint Resolve ServiceTarget_rt : go.
Arguments ServiceTarget_json : simpl never.

Definition Incident_ok (r : Incident) : bool :=
  valid_utf8 (inc_SchemaVersion r) && valid_utf8 (inc_IncidentID r)
   && valid_utf8 (inc_DedupeKey r) && valid_utf8 (inc_TargetID r)
   && forallb valid_utf8 (inc_RuleIDs r) && valid_utf8 (inc_State r)
   && valid_utf8 (inc_Severity r) && time_printable (inc_OpenedAt r)
   && valid_utf8 (inc_AnalysisRef r) && valid_utf8 (inc_SelectedRunbookID r)
   && time_printable (inc_TerminalAt r).
Lemma Incident_rtv r : Incident_ok r = true -> json_rtv Incident_json r (inc_SchemaVersion r).
Proof. destruct r. unfold Incident_ok, Incident_json. struct_rtv. Qed.
Lemma Incident_rt r : Incident_ok r = true -> json_rt Incident_json r.
Proof. intros. by eapply json_rtv_rt, Incident_rtv. Qed.
#[export] Hint Resolve Incident_rt : go.
Arguments Incident_json : simpl never.

Definition TargetConstraint_ok (r : TargetConstraint) : bool :=
  valid_utf8 (tc_Field r) && valid_utf8 (tc_Value r).
Lemma TargetConstraint_rt r : TargetConstraint_ok r = true -> json_rt TargetConstraint_json r.
Proof. destruct r. unfold TargetConstraint_ok, TargetConstraint_json. struct_rt. Qed.
#[export] Hint Resolve TargetConstraint_rt : go.
Arguments TargetConstraint_json : simpl never.

Definition TypedAction_ok (r : TypedAction) : bool :=
  valid_utf8 (act_ActionType r) && valid_utf8 (act_TargetSelector r).
Lemma TypedAction_rt r : TypedAction_ok r = true -> json_rt TypedAction_json r.
Proof. destruct r. unfold TypedAction_ok, TypedAction_json. struct_rt. Qed.
#[export] Hint Resolve TypedAction_rt : go.
Arguments TypedAction_json : simpl never.

Definition ApprovalPolicy_ok (r : ApprovalPolicy) : bool :=
  true.
Lemma ApprovalPolicy_rt r : ApprovalPolicy_ok r = true -> json_rt ApprovalPolicy_json r.
Proof. destruct r. unfold ApprovalPolicy_ok, ApprovalPolicy_json. struct_rt. Qed.
#[export] Hint Resolve ApprovalPolicy_rt : go.
Arguments ApprovalPolicy_json : simpl never.

Definition RetryPolicy_ok (r : RetryPolicy) : bool :=
  int64_ok (rp_MaxAttempts r).
Lemma RetryPolicy_rt r : RetryPolicy_ok r = true -> json_rt RetryPolicy_json r.
Proof. destruct r. unfold RetryPolicy_ok, RetryPolicy_json. struct_rt. Qed.
#[export] Hint Resolve RetryPolicy_rt : go.
Arguments RetryPolicy_json : simpl never.

Definition Runbook_ok (r : Runbook) : bool :=
  valid_utf8 (rb_SchemaVersion r) && valid_utf8 (rb_RunbookID r) && valid_utf8 (rb_Version r)
   && valid_utf8 (rb_Digest r) && valid_utf8 (rb_AdapterType r)
   && forallb TargetConstraint_ok (rb_TargetConstraints r)
   && forallb TypedAction_ok (rb_TypedActions r) && valid_utf8 (rb_RiskTier r)
   && ApprovalPolicy_ok (rb_ApprovalPolicy r) && forallb valid_utf8 (rb_Preconditions r)
   && RetryPolicy_ok (rb_RetryPolicy r) && StabilizationPolicy_ok (rb_StabilizationPolicy r).
Lemma Runbook_rtv r : Runbook_ok r = true -> json_rtv Runbook_json r (rb_SchemaVersion r).
Proof. destruct r. unfold Runbook_ok, Runbook_json. struct_rtv. Qed.
Lemma Runbook_rt r : Runbook_ok r = true -> json_rt Runbook_json r.
Proof. intros. by eapply json_rtv_rt, Runbook_rtv. Qed.
#[export] Hint Resolve Runbook_rt : go.
Arguments Runbook_json : simpl never.

Definition HypothesisRec_ok (r : HypothesisRec) : bool :=
  valid_utf8 (hyp_Summary r) && forallb valid_utf8 (hyp_EvidenceRefs r).
Lemma HypothesisRec_rt r : HypothesisRec_ok r = true -> json_rt HypothesisRec_json r.
Proof. destruct r. unfold HypothesisRec_ok, HypothesisRec_json. struct_rt. Qed.
#[export] Hint Resolve HypothesisRec_rt : go.
Arguments HypothesisRec_json : simpl never.

Definition AnalysisResult_ok (r : AnalysisResult) : bool :=
  valid_utf8 (ar_SchemaVersion r) && valid_utf8 (ar_IncidentID r)
   && forallb HypothesisRec_ok (ar_Hypotheses r) && forallb valid_utf8 (ar_EvidenceRefs r)
   && forallb valid_utf8 (ar_ConfidenceLabels r)
   && valid_utf8 (ar_NotificationRecommendation r)
   && forallb valid_utf8 (ar_CandidateRunbookIDs r)
   && forallb valid_utf8 (ar_MissingEvidence r).
Lemma AnalysisResult_rtv r : AnalysisResult_ok r = true -> json_rtv AnalysisResult_json r (ar_SchemaVersion r).
Proof. destruct r. unfold AnalysisResult_ok, AnalysisResult_json. struct_rtv. Qed.
Lemma AnalysisResult_rt r : AnalysisResult_ok r = true -> json_rt AnalysisResult_json r.
Proof. intros. by eapply json_rtv_rt, AnalysisResult_rtv. Qed.
#[export] Hint Resolve AnalysisResult_rt : go.
Arguments AnalysisResult_json : simpl never.

Definition RecoveryCommand_ok (r : RecoveryCommand) : bool :=
  valid_utf8 (cmd_SchemaVersion r) && valid_utf8 (cmd_CommandID r)
   && valid_utf8 (cmd_IncidentID r) && valid_utf8 (cmd_RunbookID r)
   && valid_utf8 (cmd_RunbookDigest r) && valid_utf8 (cmd_TargetID r)
   && int64_ok (cmd_ActionIndex r) && valid_utf8 (cmd_RiskTier r)
   && valid_utf8 (cmd_ApprovalID r) && time_printable (cmd_IssuedAt r)
   && time_printable (cmd_ExpiresAt r) && valid_utf8 (cmd_IdempotencyKey r)
   && valid_utf8 (cmd_State r).
Lemma RecoveryCommand_rtv r : RecoveryCommand_ok r = true -> json_rtv RecoveryCommand_json r (cmd_SchemaVersion r).
Proof. destruct r. unfold RecoveryCommand_ok, RecoveryCommand_json. struct_rtv. Qed.
Lemma RecoveryCommand_rt r : RecoveryCommand_ok r = true -> json_rt RecoveryCommand_json r.
Proof. intros. by eapply json_rtv_rt, RecoveryCommand_rtv. Qed.
#[export] Hint Resolve RecoveryCommand_rt : go.
Arguments RecoveryCommand_json : simpl never.

Definition Approval_ok (r : Approval) : bool :=
  valid_utf8 (apr_SchemaVersion r) && valid_utf8 (apr_ApprovalID r)
   && valid_utf8 (apr_CommandID r) && valid_utf8 (apr_Decision r)
   && valid_utf8 (apr_ApproverIdentity r) && valid_utf8 (apr_Reason r)
   && time_printable (apr_CreatedAt r) && time_printable (apr_ExpiresAt r).
Lemma Approval_rtv r : Approval_ok r = true -> json_rtv Approval_json r (apr_SchemaVersion r).
Proof. destruct r. unfold Approval_ok, Approval_json. struct_rtv. Qed.
Lemma Approval_rt r : Approval_ok r = true -> json_rt Approval_json r.
Proof. intros. by eapply json_rtv_rt, Approval_rtv. Qed.
#[export] Hint Resolve Approval_rt : go.
Arguments Approval_json : simpl never.

Definition AuditEvent_ok (r : AuditEvent) : bool :=
  valid_utf8 (ev_SchemaVersion r) && valid_utf8 (ev_EventID r)
   && valid_utf8 (ev_AggregateType r) && valid_utf8 (ev_AggregateID r)
   && valid_utf8 (ev_ActorIdentity r) && valid_utf8 (ev_Action r) && valid_utf8 (ev_Result r)
   && valid_utf8 (ev_ReasonCode r) && time_printable (ev_OccurredAt r)
   && valid_utf8 (ev_PreviousDigest r) && valid_utf8 (ev_Digest r).
Lemma AuditEvent_rtv r : AuditEvent_ok r = true -> json_rtv AuditEvent_json r (ev_SchemaVersion r).
Proof. destruct r. unfold AuditEvent_ok, AuditEvent_json. struct_rtv. Qed.
Lemma AuditEvent_rt r : AuditEvent_ok r = true -> json_rt AuditEvent_json r.
Proof. intros. by eapply json_rtv_rt, AuditEvent_rtv. Qed.
#[export] Hint Resolve AuditEvent_rt : go.
Arguments AuditEvent_json : simpl never.

Definition ReportAction_ok (r : ReportAction) : bool :=
  valid_utf8 (ra_CommandID r) && valid_utf8 (ra_ActionType r) && valid_utf8 (ra_Result r).
Lemma ReportAction_rt r : ReportAction_ok r = true -> json_rt ReportAction_json r.
Proof. destruct r. unfold ReportAction_ok, ReportAction_json. struct_rt. Qed.
#[export] Hint Resolve ReportAction_rt : go.
Arguments ReportAction_json : simpl never.

Definition IncidentReport_ok (r : IncidentReport) : bool :=
  valid_utf8 (rep_SchemaVersion r) && valid_utf8 (rep_ReportID r)
   && valid_utf8 (rep_IncidentID r) && forallb HypothesisRec_ok (rep_Hypotheses r)
   && forallb valid_utf8 (rep_EvidenceRefs r) && forallb ReportAction_ok (rep_Actions r)
   && forallb valid_utf8 (rep_Approvals r) && valid_utf8 (rep_VerificationResult r)
   && forallb valid_utf8 (rep_PreventionRecommendations r)
   && valid_utf8 (rep_PostmortemDraft r)
   && forallb valid_utf8 (rep_RunbookImprovementSuggestions r)
   && valid_utf8 (rep_DeliveryStatus r).
Lemma IncidentReport_rtv r : IncidentReport_ok r = true -> json_rtv IncidentReport_json r (rep_SchemaVersion r).
Proof. destruct r. unfold IncidentReport_ok, IncidentReport_json. struct_rtv. Qed.
Lemma IncidentReport_rt r : IncidentReport_ok r = true -> json_rt IncidentReport_json r.
Proof. intros. by eapply json_rtv_rt, IncidentReport_rtv. Qed.
#[export] Hint Resolve IncidentReport_rt : go.
Arguments IncidentReport_json : simpl never.

Definition DeliveryQueueItem_ok (r : DeliveryQueueItem) : bool :=
  valid_utf8 (itm_SchemaVersion r) && valid_utf8 (itm_DeliveryID r)
   && valid_utf8 (itm_PayloadType r) && valid_utf8 (itm_PayloadRef r)
   && valid_utf8 (itm_WebhookID r) && valid_utf8 (itm_DestinationRef r)
   && int64_ok (itm_AttemptCount r) && time_printable (itm_NextAttemptAt r)
   && time_printable (itm_ExpiresAt r) && valid_utf8 (itm_State r).
Lemma DeliveryQueueItem_rtv r : DeliveryQueueItem_ok r = true -> json_rtv DeliveryQueueItem_json r (itm_SchemaVersion r).
Proof. destruct r. unfold DeliveryQueueItem_ok, DeliveryQueueItem_json. struct_rtv. Qed.
Lemma DeliveryQueueItem_rt r : DeliveryQueueItem_ok r = true -> json_rt DeliveryQueueItem_json r.
Proof. intros. by eapply json_rtv_rt, DeliveryQueueItem_rtv. Qed.
#[export] Hint Resolve DeliveryQueueItem_rt : go.
Arguments DeliveryQueueItem_json : simpl never.

Definition LifecycleEvent_ok (r : LifecycleEvent) : bool :=
  valid_utf8 (le_SchemaVersion r) && valid_utf8 (le_EventID r) && valid_utf8 (le_EventType r)
   && valid_utf8 (le_IncidentID r) && time_printable (le_OccurredAt r)
   && valid_utf8 (le_ReasonCode r) && forallb valid_utf8 (le_EvidenceRefs r).
Lemma LifecycleEvent_rtv r : LifecycleEvent_ok r = true -> json_rtv LifecycleEvent_json r (le_SchemaVersion r).
Proof. destruct r. unfold LifecycleEvent_ok, LifecycleEvent_json. struct_rtv. Qed.
Lemma LifecycleEvent_rt r : LifecycleEvent_ok r = true -> json_rt LifecycleEvent_json r.
Proof. intros. by eapply json_rtv_rt, LifecycleEvent_rtv. Qed.
#[export] Hint Resolve LifecycleEvent_rt : go.
Arguments LifecycleEvent_json : simpl never.

Definition WebhookEnvelope_ok (r : WebhookEnvelope) : bool :=
  valid_utf8 (we_SchemaVersion r) && valid_utf8 (we_EventID r) && valid_utf8 (we_EventType r)
   && time_printable (we_OccurredAt r) && valid_utf8 (we_PayloadRef r).
Lemma WebhookEnvelope_rtv r : WebhookEnvelope_ok r = true -> json_rtv WebhookEnvelope_json r (we_SchemaVersion r).
Proof. destruct r. unfold WebhookEnvelope_ok, WebhookEnvelope_json. struct_rtv. Qed.
Lemma WebhookEnvelope_rt r : WebhookEnvelope_ok r = true -> json_rt WebhookEnvelope_json r.
Proof. intros. by eapply json_rtv_rt, WebhookEnvelope_rtv. Qed.
#[export] Hint Resolve WebhookEnvelope_rt : go.
Arguments WebhookEnvelope_json : simpl never.


Lemma validateVersion_ok v : validateVersion v = Ok tt <-> v = SchemaVersionV1.
Proof. unfold validateVersion. destruct (String.eqb_spec v SchemaVersionV1); simpl; naive_solver. Qed.

(** A marshalled record that fits its size limit decodes to itself. *)
Lemma Decode_rtv {T} `{G : GoJson T} (x : T) (o : DecodeOptions T) validate :
  json_rtv G x (SchemaVersion o) -> SchemaVersion o <> "" ->
  Validate o = Some validate -> validate x = Ok tt -> 0 <= MaxBytes o ->
  exists doc, Marshal x = Some doc /\
    (doc_len doc <= max_bytes o -> Decode doc o = Ok x).
Proof.
  intros (j & Hj & Hs & Hd & Hh) Hv Hval Hx Hm. exists (Text j false). split.
  - unfold Marshal. by rewrite Hj.
  - intros Hl. by eapply Decode_Marshal.
Qed.

(** * Lifecycles *)

(** How far a recovery command is: every transition moves strictly forward. *)
Definition recovery_rank (state : string) : nat :=
  if String.eqb state RecoveryPending then 0
  else if String.eqb state RecoveryApproved then 1
  else if String.eqb state RecoveryExecuting then 2
  else if String.eqb state RecoveryStabilizing then 3
  else 4.

Definition recovery_terminal (state : string) : bool :=
  oneOf state [RecoverySucceeded; RecoveryFailed; RecoveryDenied; RecoveryExpired].

Definition incident_rank (state : string) : nat :=
  if String.eqb state IncidentOpen then 0
  else if String.eqb state IncidentAnalyzing then 1
  else if String.eqb state IncidentAwaitingApproval then 2
  else if String.eqb state IncidentRecovering then 3
  else if String.eqb state IncidentStabilizing then 4
  else 5.

(** A run of a lifecycle: successive states, each an allowed transition. *)
Inductive run (can : string -> string -> bool) : string -> list string -> string -> Prop :=
| run_nil s : run can s [] s
| run_cons s s' l s'' : can s s' = true -> run can s' l s'' -> run can s (s' :: l) s''.

Ltac string_cases :=
  repeat match goal with
  | H : context [ String.eqb ?a ?b ] |- _ =>
    is_var a; destruct (String.eqb_spec a b); [subst a|]; cbn in H |- *; try discriminate
  | H : oneOf ?a (?b :: _) = true |- _ =>
    is_var a; cbn [oneOf] in H
  end.

Lemma recovery_step_rank s s' :
  Recovery_CanTransitionTo s s' = true ->
  (recovery_rank s < recovery_rank s')%nat /\ (recovery_rank s' <= 4)%nat /\
  validRecoveryState s = true /\ validRecoveryState s' = true.
Proof.
  unfold Recovery_CanTransitionTo. intros H. string_cases; cbn; repeat split; try lia; done.
Qed.

Lemma incident_step_rank s s' :
  Incident_CanTransitionTo s s' = true ->
  (incident_rank s < incident_rank s')%nat /\ (incident_rank s' <= 5)%nat /\
  validIncidentState s = true /\ validIncidentState s' = true.
Proof.
  unfold Incident_CanTransitionTo. intros H. string_cases; cbn; repeat split; try lia; done.
Qed.

(** Runs are bounded by the ranks they climb. *)
Lemma run_bounded can (rank : string -> nat) bound s l s' :
  (forall a b, can a b = true -> (rank a < rank b)%nat /\ (rank b <= bound)%nat) ->
  run can s l s' -> (rank s <= bound)%nat -> (rank s + length l <= rank s')%nat /\ (rank s' <= bound)%nat.
Proof.
  intros Hstep Hrun. induction Hrun as [s|s s' l s'' Hc _ IH]; intros Hb; simpl; [lia|].
  destruct (Hstep _ _ Hc). specialize (IH ltac:(lia)). lia.
Qed.

(** The last step of a run. *)
Lemma run_last can s l s' :
  run can s l s' -> (l = [] /\ s = s') \/
  exists l' m, l = (l' ++ [s'])%list /\ run can s l' m /\ can m s' = true.
Proof.
  induction 1 as [s|s s1 l s' Hc Hrun IH]; [by left|]. right.
  destruct IH as [[-> ->]|(l' & m & -> & Hr & Hm)].
  - exists [], s. repeat split; [constructor|done].
  - exists (s1 :: l'), m. repeat split; [by econstructor|done].
Qed.

(** The states of the success path have one predecessor each. *)
Lemma recovery_pred s p :
  (s, p) ∈ [(RecoverySucceeded, RecoveryStabilizing); (RecoveryStabilizing, RecoveryExecuting);
            (RecoveryExecuting, RecoveryApproved); (RecoveryApproved, RecoveryPending)] ->
  forall m, Recovery_CanTransitionTo m s = true -> m = p.
Proof.
  intros Hin m. rewrite !elem_of_cons, elem_of_nil in Hin. unfold Recovery_CanTransitionTo.
  destruct Hin as [[= -> ->]|[[= -> ->]|[[= -> ->]|[[= -> ->]|[]]]]]; intros H; string_cases; reflexivity.
Qed.

(** One step back along a run whose end has a single predecessor. *)
Ltac run_back H pred :=
  let l := fresh "l" in let m := fresh "m" in let Hc := fresh "Hc" in
  apply run_last in H as [[_ H]|(l & m & -> & H & Hc)]; [discriminate H|];
  apply pred in Hc; [subst m|rewrite !elem_of_cons; tauto].

(** Terminal states have no way out. *)
Lemma recovery_terminal_stuck s s' :
  recovery_terminal s = true -> Recovery_CanTransitionTo s s' = false.
Proof.
  unfold recovery_terminal. cbn [oneOf]. intros H. string_cases; reflexivity.
Qed.

Lemma incident_terminal_stuck s s' :
  terminalIncident s = true -> Incident_CanTransitionTo s s' = false.
Proof.
  unfold terminalIncident. intros H. string_cases; reflexivity.
Qed.

(** * Properties *)

(** Every object of a document, at any depth, has distinct member names. *)
Inductive distinct_names : json -> Prop :=
| dn_obj ms : NoDup (map fst ms) -> Forall (fun m => distinct_names m.2) ms -> distinct_names (JObj ms)
| dn_arr l : Forall distinct_names l -> distinct_names (JArr l)
| dn_leaf j : match j with JObj _ | JArr _ => False | _ => True end -> distinct_names j.

Lemma scanValue_arr_inv l : scanValue (JArr l) = Ok tt -> Forall (fun j => scanValue j = Ok tt) l.
Proof.
  simpl. induction l as [|j l IH]; [constructor|]. destruct (scanValue j) as [[]|] eqn:E; [|done].
  intros H. constructor; [done|by apply IH].
Qed.

Lemma scanValue_distinct : forall j, scanValue j = Ok tt -> distinct_names j.
Proof.
  fix IH 1. intros [ | | | | | | |l|ms] Hs; try (by apply dn_leaf).
  - apply dn_arr. apply scanValue_arr_inv in Hs. induction l as [|j l IHl]; [constructor|].
    apply Forall_cons in Hs as [Hj Hl]. constructor; [by apply IH|by apply IHl].
  - apply scanValue_obj_inv in Hs as [Hnd Hs]. apply dn_obj; [done|]. clear Hnd.
    induction ms as [|[k j] ms IHms]; [constructor|].
    apply Forall_cons in Hs as [Hj Hms]. constructor; [by apply IH|by apply IHms].
Qed.

(** What the strict decoder returns was one JSON value within the size
    limit and with nothing after it, with distinct member names in every
    object at every depth, of the schema version asked for, with no unknown
    field, and it passed the caller's validation. *)
Lemma Decode_strict {T} `{G : GoJson T} doc (o : DecodeOptions T) x :
  Decode doc o = Ok x ->
  exists j validate, doc = Text j false /\ doc_len doc <= max_bytes o /\ distinct_names j /\
    of_json false (go_zero : header) j = Value (mkHeader (SchemaVersion o)) None /\
    of_json true go_zero j = Value x None /\ Validate o = Some validate /\ validate x = Ok tt.
Proof.
  intros (j & validate & -> & Hv & Hx & Hs & Hd & Hh & Hl)%Decode_ok.
  exists j, validate. split_and!; try done. by apply scanValue_distinct.
Qed.

Definition approval_options : DecodeOptions Approval :=
  {| MaxBytes := 0; SchemaVersion := SchemaVersionV1; Validate := Some (fun _ => Ok tt) |}.
Definition approval_members (decision : string) : list (string * json) :=
  [("schema_version", JStr SchemaVersionV1); ("approval_id", JStr "apr-1"); ("command_id", JStr "cmd-1");
   ("decision", JStr decision); ("approver_identity", JStr "local:uid:1000"); ("reason", JStr "checked");
   ("created_at", JTime unixEpoch); ("expires_at", JTime (unixEpoch + minute))].

Lemma Decode_strict_witness :
  exists j validate, Text (JObj (approval_members ApprovalDenied)) false = Text j false /\
    doc_len (Text (JObj (approval_members ApprovalDenied)) false) <= max_bytes approval_options /\
    distinct_names j /\
    of_json false (go_zero : header) j = Value (mkHeader SchemaVersionV1) None /\
    of_json true go_zero j = Value (mkApproval SchemaVersionV1 "apr-1" "cmd-1" ApprovalDenied
      "local:uid:1000" "checked" unixEpoch (unixEpoch + minute)) None /\
    Validate approval_options = Some validate /\
    validate (mkApproval SchemaVersionV1 "apr-1" "cmd-1" ApprovalDenied
      "local:uid:1000" "checked" unixEpoch (unixEpoch + minute)) = Ok tt.
Proof. apply (Decode_strict _ approval_options). vm_compute. reflexivity. Defined.

(** The duplicate check compares names byte for byte while the decoder
    matches them to struct fields regardless of case: a document that says
    both [decision] and [Decision] is not rejected as ambiguous, and the later
    member wins. *)
Lemma Decode_accepts_case_variant_duplicate :
  exists doc a, Decode doc approval_options = Ok a /\ apr_Decision a = ApprovalGranted /\
    exists ms, doc = Text (JObj ms) false /\
      ("decision", JStr ApprovalDenied) ∈ ms /\ ("Decision", JStr ApprovalGranted) ∈ ms.
Proof.
  exists (Text (JObj (approval_members ApprovalDenied ++ [("Decision", JStr ApprovalGranted)])) false).
  eexists. split; [vm_compute; reflexivity|]. split; [reflexivity|].
  eexists. split; [reflexivity|]. split.
  - do 3 apply list_elem_of_further. apply list_elem_of_here.
  - apply elem_of_app. right. apply list_elem_of_here.
Qed.

(** Every persisted command that fits the size limit is read back by the
    strict decoder as the command that was marshalled. *)
Lemma RecoveryCommand_persisted_roundtrip c maxBytes :
  RecoveryCommand_ok c = true -> RecoveryCommand_Validate c = Ok tt -> 0 <= maxBytes ->
  exists doc, Marshal c = Some doc /\
    let o := {| MaxBytes := maxBytes; SchemaVersion := SchemaVersionV1; Validate := Some RecoveryCommand_Validate |} in
    (doc_len doc <= max_bytes o -> Decode doc o = Ok c).
Proof.
  intros Hok Hv Hm.
  assert (Hver : cmd_SchemaVersion c = SchemaVersionV1).
  { apply result_bind_ok in Hv as ([] & Hv & _). by apply validateVersion_ok. }
  eapply Decode_rtv; try done. simpl. rewrite <- Hver. by apply RecoveryCommand_rtv.
Qed.

(** A command reaches [succeeded] from [pending] in exactly one way:
    approved, executing, stabilizing, succeeded. *)
Lemma recovery_success_path l :
  run Recovery_CanTransitionTo RecoveryPending l RecoverySucceeded <->
  l = [RecoveryApproved; RecoveryExecuting; RecoveryStabilizing; RecoverySucceeded].
Proof.
  split.
  - intros H.
    run_back H (recovery_pred RecoverySucceeded RecoveryStabilizing).
    run_back H (recovery_pred RecoveryStabilizing RecoveryExecuting).
    run_back H (recovery_pred RecoveryExecuting RecoveryApproved).
    run_back H (recovery_pred RecoveryApproved RecoveryPending).
    apply run_last in H as [[-> _]|(l' & m & _ & _ & Hc)]; [reflexivity|].
    apply recovery_step_rank in Hc as [Hc _]. change (recovery_rank RecoveryPending) with 0%nat in Hc. lia.
  - intros ->. repeat (econstructor; [reflexivity|]). constructor.
Qed.

(** Both lifecycles are finite: a command makes at most four transitions
    and an incident at most five, and a terminal state is never left. *)
Lemma lifecycles_bounded s l s' :
  (run Recovery_CanTransitionTo s l s' -> (length l <= 4)%nat /\ (recovery_terminal s = true -> l = [])) /\
  (run Incident_CanTransitionTo s l s' -> (length l <= 5)%nat /\ (terminalIncident s = true -> l = [])).
Proof.
  split; intros Hrun; split.
  - destruct (run_bounded _ recovery_rank 4 _ _ _ (fun a b Hc => match recovery_step_rank a b Hc with conj x (conj y _) => conj x y end) Hrun).
    + unfold recovery_rank. repeat case_match; lia.
    + lia.
  - intros Ht. destruct Hrun as [|s s1 l s' Hc]; [done|]. by rewrite recovery_terminal_stuck in Hc.
  - destruct (run_bounded _ incident_rank 5 _ _ _ (fun a b Hc => match incident_step_rank a b Hc with conj x (conj y _) => conj x y end) Hrun).
    + unfold incident_rank. repeat case_match; lia.
    + lia.
  - intros Ht. destruct Hrun as [|s s1 l s' Hc]; [done|]. by rewrite incident_terminal_stuck in Hc.
Qed.

Definition sample_command : RecoveryCommand :=
  RecoveryCommand_zero <| cmd_SchemaVersion := SchemaVersionV1 |> <| cmd_CommandID := "cmd-1" |>
    <| cmd_IncidentID := "inc-1" |> <| cmd_RunbookID := "restart" |> <| cmd_RunbookDigest := "d" |>
    <| cmd_TargetID := "web" |> <| cmd_RiskTier := RiskLow |> <| cmd_IssuedAt := unixEpoch |>
    <| cmd_ExpiresAt := unixEpoch + minute |> <| cmd_IdempotencyKey := "k" |> <| cmd_State := RecoveryPending |>.

Lemma RecoveryCommand_persisted_roundtrip_witness :
  exists doc, Marshal sample_command = Some doc /\
    let o := {| MaxBytes := 0; SchemaVersion := SchemaVersionV1; Validate := Some RecoveryCommand_Validate |} in
    (doc_len doc <= max_bytes o -> Decode doc o = Ok sample_command).
Proof.
  apply (RecoveryCommand_persisted_roundtrip sample_command 0); [reflexivity|vm_compute; reflexivity|lia].
Defined.
