(* ===== verification/Policy.v ===== *)
(** The recovery policy engine of src/internal/policy/policy.go: a pure
    decision over a registry snapshot and the dynamic facts of one request. *)
From S2P Require Import Prelude GoLib GoTime Json Contract.
From stdpp Require Import options.
Local Open Scope Z_scope.

Definition VerdictAllow : string := "allow".
Definition VerdictAwaitApproval : string := "await_approval".
Definition VerdictDeny : string := "deny".

Definition ReasonAllowed : string := "allowed".
Definition ReasonApprovalRequired : string := "approval_required".
Definition ReasonUnregisteredRunbook : string := "unregistered_runbook".
Definition ReasonForgedDigest : string := "forged_digest".
Definition ReasonTargetMismatch : string := "target_mismatch".
Definition ReasonActionInvalid : string := "action_invalid".
Definition ReasonAnalysisUnavailable : string := "analysis_unavailable".
Definition ReasonAnalysisMismatch : string := "analysis_runbook_mismatch".
Definition ReasonPreconditionFailed : string := "precondition_failed".
Definition ReasonCooldownActive : string := "cooldown_active".
Definition ReasonRetryExhausted : string := "retry_exhausted".
Definition ReasonStabilizationInvalid : string := "stabilization_invalid".
Definition ReasonApprovalExpired : string := "approval_expired".
Definition ReasonApprovalRevoked : string := "approval_revoked".
Definition ReasonApprovalDenied : string := "approval_denied".
Definition ReasonInvalidPolicy : string := "invalid_policy".

(** One immutable registration. *)
Record RegisteredRunbook := mkRegisteredRunbook {
  rr_Runbook : Runbook;
  rr_TargetID : string;
  rr_AnalysisRequired : bool;
}.

(** The registry's view. *)
Record Snapshot := mkSnapshot {
  sn_Runbooks : list RegisteredRunbook;
  sn_AuthorizedApprovers : list string;
}.

(** The dynamic context of one requested action. *)
Record Input := mkInput {
  in_RunbookID : string;
  in_RunbookDigest : string;
  in_TargetID : string;
  in_ActionIndex : Z;
  in_CommandID : string;
  in_AnalysisAvailable : bool;
  in_AnalysisCandidateIDs : list string;
  in_AnalysisConfidence : list string;
  in_NotificationSuggestion : string;
  in_Preconditions : gmap string bool;
  in_LastAttemptAt : time;
  in_Now : time;
  in_AttemptCount : Z;
  in_Approval : option Approval;
  in_ApprovalRevoked : bool;
}.
#[export] Instance Input_eta : Updatable Input :=
  fun r => mkInput (in_RunbookID r) (in_RunbookDigest r) (in_TargetID r) (in_ActionIndex r)
    (in_CommandID r) (in_AnalysisAvailable r) (in_AnalysisCandidateIDs r) (in_AnalysisConfidence r)
    (in_NotificationSuggestion r) (in_Preconditions r) (in_LastAttemptAt r) (in_Now r)
    (in_AttemptCount r) (in_Approval r) (in_ApprovalRevoked r).

Record Decision := mkDecision { Verdict : string; ReasonCode : string }.
Definition Decision_zero : Decision := mkDecision "" "".

Definition deny (reason : string) : Decision := mkDecision VerdictDeny reason.

(** * Helpers *)

(** [sort.Search] over [n] elements: the loop halves [j - i] each time, so
    [n + 1] rounds are enough. *)
Fixpoint search_loop (fuel : nat) (f : nat -> bool) (i j : nat) : nat :=
  match fuel with
  | O => i
  | S fuel' =>
    if (i <? j)%nat then
      let h := Nat.div2 (i + j) in
      if f h then search_loop fuel' f i h else search_loop fuel' f (S h) j
    else i
  end.

(** [sort.SearchStrings]: the first index whose element is not below [want]. *)
Definition search_strings (values : list string) (want : string) : nat :=
  search_loop (S (length values))
    (fun h => String.leb want (default "" (values !! h))) 0 (length values).

Definition contains (values : list string) (want : string) : bool :=
  let values := merge_sort String.le values in
  let index := search_strings values want in
  match values !! index with
  | Some v => String.eqb v want
  | None => false
  end.

(** The loop with [seen], from the first value on. *)
Fixpoint unique_from (seen : gset string) (values : list string) : bool :=
  match values with
  | [] => true
  | value :: rest =>
    if String.eqb value "" then false
    else if decide (value ∈ seen) then false
    else unique_from ({[value]} ∪ seen) rest
  end.
Definition uniqueNonEmpty (values : list string) : bool := unique_from ∅ values.

Definition needsApproval (runbook : Runbook) : bool :=
  negb (String.eqb (rb_RiskTier runbook) RiskLow) ||
  ap_Required (rb_ApprovalPolicy runbook) || negb (rb_AutoExecute runbook).

Definition approval (authorized : list string) (input : Input) : Decision :=
  match in_Approval input with
  | None => Decision_zero
  | Some approval =>
    if in_ApprovalRevoked input || negb (contains authorized (apr_ApproverIdentity approval))
    then deny ReasonApprovalRevoked
    else if String.eqb (apr_Decision approval) ApprovalDenied then deny ReasonApprovalDenied
    else if negb (String.eqb (apr_SchemaVersion approval) SchemaVersionV1) ||
            String.eqb (apr_ApprovalID approval) "" ||
            negb (String.eqb (apr_Decision approval) ApprovalGranted) ||
            negb (String.eqb (apr_CommandID approval) (in_CommandID input)) ||
            is_zero (apr_CreatedAt approval) || is_zero (apr_ExpiresAt approval) ||
            negb (after (apr_ExpiresAt approval) (apr_CreatedAt approval)) ||
            is_zero (in_Now input) || negb (before (in_Now input) (apr_ExpiresAt approval))
    then deny ReasonApprovalExpired
    else mkDecision VerdictAllow ReasonAllowed
  end.

Definition cooldownElapsed (cooldown : duration) (previous now : time) : bool :=
  if (cooldown <? 0) || is_zero previous then 0 <=? cooldown
  else negb (is_zero now) && negb (before now previous) && (cooldown <=? time_sub now previous).

Fixpoint conditions_met (required : list string) (observed : gmap string bool) : bool :=
  match required with
  | [] => true
  | condition :: rest =>
    if negb (default false (observed !! condition)) then false else conditions_met rest observed
  end.
Definition preconditionsMet (required : list string) (observed : gmap string bool) : bool :=
  if negb (uniqueNonEmpty required) then false else conditions_met required observed.

(** The checks on one registration, before its ID is compared with those
    seen. *)
Definition valid_registration (registered : RegisteredRunbook) : bool :=
  let runbook := rr_Runbook registered in
  if String.eqb (rr_TargetID registered) "" ||
     negb (String.eqb (rb_SchemaVersion runbook) SchemaVersionV1) ||
     String.eqb (rb_RunbookID runbook) "" || String.eqb (rb_Digest runbook) "" ||
     (go_count (rb_TypedActions runbook) =? 0) ||
     (rp_MaxAttempts (rb_RetryPolicy runbook) <? 1) ||
     (negb (String.eqb (rb_RiskTier runbook) RiskLow) &&
      negb (String.eqb (rb_RiskTier runbook) RiskMedium) &&
      negb (String.eqb (rb_RiskTier runbook) RiskHigh))
  then false
  else
    forallb (fun action =>
      negb ((negb (String.eqb (act_ActionType action) ActionDockerContainerRestart) &&
             negb (String.eqb (act_ActionType action) ActionDockerComposeServiceRestart)) ||
            String.eqb (act_TargetSelector action) "" || (act_StopTimeout action <=? 0) ||
            (act_Cooldown action <? 0)))
      (rb_TypedActions runbook).

Fixpoint registrations_ok (seen : gset string) (l : list RegisteredRunbook) : bool :=
  match l with
  | [] => true
  | registered :: rest =>
    if negb (valid_registration registered) then false
    else if decide (rb_RunbookID (rr_Runbook registered) ∈ seen) then false
    else registrations_ok ({[rb_RunbookID (rr_Runbook registered)]} ∪ seen) rest
  end.

Definition validSnapshot (snapshot : Snapshot) : bool :=
  if go_count (sn_Runbooks snapshot) =? 0 then false
  else if registrations_ok ∅ (sn_Runbooks snapshot)
  then uniqueNonEmpty (sn_AuthorizedApprovers snapshot)
  else false.

(** The registration for the requested ID, or the reason there is none. *)
Definition registeredRunbook (snapshot : Snapshot) (input : Input) : RegisteredRunbook + string :=
  if negb (validSnapshot snapshot) || String.eqb (in_RunbookID input) "" ||
     String.eqb (in_RunbookDigest input) "" || String.eqb (in_TargetID input) "" ||
     String.eqb (in_CommandID input) ""
  then inr ReasonInvalidPolicy
  else
    match find_first (fun registered =>
            String.eqb (rb_RunbookID (rr_Runbook registered)) (in_RunbookID input))
            (sn_Runbooks snapshot) with
    | Some registered => inl registered
    | None => inr ReasonUnregisteredRunbook
    end.

(** * The decision *)

Definition Evaluate (snapshot : Snapshot) (input : Input) : Decision :=
  match registeredRunbook snapshot input with
  | inr reason => deny reason
  | inl registered =>
    let runbook := rr_Runbook registered in
    if negb (String.eqb (in_RunbookDigest input) (rb_Digest runbook)) then deny ReasonForgedDigest
    else if negb (String.eqb (in_TargetID input) (rr_TargetID registered)) then deny ReasonTargetMismatch
    else
      match (if in_ActionIndex input <? 0 then None
             else rb_TypedActions runbook !! Z.to_nat (in_ActionIndex input)) with
      | None => deny ReasonActionInvalid
      | Some action =>
        if rr_AnalysisRequired registered && negb (in_AnalysisAvailable input)
        then deny ReasonAnalysisUnavailable
        else if rr_AnalysisRequired registered &&
                negb (contains (in_AnalysisCandidateIDs input) (rb_RunbookID runbook))
        then deny ReasonAnalysisMismatch
        else if negb (preconditionsMet (rb_Preconditions runbook) (in_Preconditions input))
        then deny ReasonPreconditionFailed
        else if negb (cooldownElapsed (act_Cooldown action) (in_LastAttemptAt input) (in_Now input))
        then deny ReasonCooldownActive
        else if (in_AttemptCount input <? 0) ||
                (rp_MaxAttempts (rb_RetryPolicy runbook) <=? in_AttemptCount input)
        then deny ReasonRetryExhausted
        else if (sp_RecoverySamples (rb_StabilizationPolicy runbook) <? 1) ||
                (sp_Window (rb_StabilizationPolicy runbook) <=? 0)
        then deny ReasonStabilizationInvalid
        else
          let approvalDecision := approval (sn_AuthorizedApprovers snapshot) input in
          if negb (String.eqb (ReasonCode approvalDecision) "") then approvalDecision
          else if needsApproval runbook
          then mkDecision VerdictAwaitApproval ReasonApprovalRequired
          else mkDecision VerdictAllow ReasonAllowed
      end
  end.

(** * Membership by sorting and binary search *)

Lemma leb_le a b : String.leb a b = true <-> String.le a b.
Proof. unfold String.le. by rewrite Is_true_true. Qed.

(** The search keeps the answer between its two bounds. *)
Lemma search_loop_spec fuel (f : nat -> bool) i j n :
  (j - i < fuel)%nat -> (i <= j <= n)%nat ->
  (forall h h', (h <= h')%nat -> (h' < n)%nat -> f h = true -> f h' = true) ->
  (forall h, (h < i)%nat -> f h = false) -> (forall h, (j <= h < n)%nat -> f h = true) ->
  let r := search_loop fuel f i j in
  (r <= n)%nat /\ (forall h, (h < r)%nat -> f h = false) /\ (forall h, (r <= h < n)%nat -> f h = true).
Proof.
  revert i j. induction fuel as [|fuel IH]; intros i j Hf Hij Hmono Hlo Hhi; [lia|]. simpl.
  destruct (Nat.ltb_spec i j) as [Hlt|Hge].
  - rewrite Nat.div2_div. assert (i <= (i + j) / 2 < j)%nat as [Hh1 Hh2].
    { split; [apply Nat.div_le_lower_bound; lia|apply Nat.Div0.div_lt_upper_bound; lia]. }
    destruct (f ((i + j) / 2)%nat) eqn:E.
    + apply IH; [lia|lia|done|done|]. intros h [? ?]. by apply (Hmono ((i + j) / 2)%nat).
    + apply IH; [lia|lia|done| |done]. intros h Hh.
      destruct (f h) eqn:Eh; [|done]. rewrite (Hmono h ((i + j) / 2)%nat) in E; [done|lia|lia|done].
  - repeat split; [lia|done|]. intros h [? ?]. apply Hhi. lia.
Qed.

Lemma sorted_lookup_le l i j x y :
  StronglySorted String.le l -> l !! i = Some x -> l !! j = Some y -> (i <= j)%nat -> String.le x y.
Proof.
  intros Hs. revert i j. induction Hs as [|z l Hs IH Hall]; intros i j Hx Hy Hij; [done|].
  destruct i as [|i], j as [|j]; simpl in *; simplify_eq; [done| |lia|].
  - rewrite Forall_forall in Hall. by apply Hall, list_elem_of_lookup_2 with j.
  - apply (IH i j); [done|done|lia].
Qed.

Lemma contains_spec values want : contains values want = true <-> want ∈ values.
Proof.
  unfold contains, search_strings.
  assert (Hs : StronglySorted String.le (merge_sort String.le values)).
  { apply Sorted_StronglySorted; [apply _|]. apply Sorted_merge_sort, _. }
  assert (Hp : want ∈ values <-> want ∈ merge_sort String.le values).
  { by rewrite merge_sort_Permutation. }
  rewrite Hp. clear Hp. generalize dependent (merge_sort String.le values).
  intros l Hs. set (f := fun h => String.leb want (default "" (l !! h))).
  assert (Hmono : forall h h', (h <= h')%nat -> (h' < length l)%nat -> f h = true -> f h' = true).
  { intros h h' Hh Hl Hf. unfold f in *.
    destruct (lookup_lt_is_Some_2 l h' Hl) as [y Hy].
    destruct (lookup_lt_is_Some_2 l h ltac:(lia)) as [x Hx]. rewrite Hx in Hf. rewrite Hy. simpl in *.
    apply leb_le. apply leb_le in Hf. etrans; [exact Hf|]. by eapply sorted_lookup_le. }
  destruct (search_loop_spec (S (length l)) f 0 (length l) (length l)) as (Hr & Hlo & Hhi);
    [lia|lia|done|lia|lia|].
  set (r := search_loop _ f 0 _) in *. fold r. split.
  - destruct (l !! r) as [v|] eqn:E; [|done]. intros ->%String.eqb_eq.
    by eapply list_elem_of_lookup_2.
  - intros [i Hi]%list_elem_of_lookup_1.
    assert (Hfi : f i = true) by (unfold f; rewrite Hi; simpl; by apply leb_le).
    assert (r <= i)%nat.
    { destruct (le_lt_dec r i); [done|]. by rewrite Hlo in Hfi. }
    assert (Hil : (i < length l)%nat) by by eapply lookup_lt_Some.
    destruct (lookup_lt_is_Some_2 l r ltac:(lia)) as [v Hv]. rewrite Hv.
    specialize (Hhi r ltac:(lia)). unfold f in Hhi. rewrite Hv in Hhi. simpl in Hhi.
    apply String.eqb_eq. apply leb_le in Hhi.
    apply (anti_symm String.le); [|done]. by eapply sorted_lookup_le.
Qed.

Lemma unique_from_spec seen l :
  unique_from seen l = true <-> (forall x, x ∈ l -> x <> "" /\ x ∉ seen) /\ NoDup l.
Proof.
  revert seen. induction l as [|x l IH]; intros seen; simpl.
  { split; [|done]. split; [set_solver|constructor]. }
  destruct (String.eqb_spec x "") as [->|Hne].
  { split; [done|]. intros [H _]. by destruct (H ""); [set_solver|]. }
  case_decide as Hin.
  { split; [done|]. intros [H _]. by destruct (H x); [set_solver|]. }
  rewrite IH, NoDup_cons. split.
  - intros [H Hnd]. repeat split; try done.
    + apply elem_of_cons in H0 as [->|Hx]; [done|]. by apply H.
    + apply elem_of_cons in H0 as [->|Hx]; [done|]. specialize (H _ Hx). set_solver.
    + intros Hx. destruct (H _ Hx). set_solver.
  - intros [H [Hx Hnd]]. split; [|done]. intros y Hy. destruct (H y); [set_solver|].
    split; [done|]. assert (y <> x) by naive_solver. set_solver.
Qed.

Lemma uniqueNonEmpty_spec l : uniqueNonEmpty l = true <-> "" ∉ l /\ NoDup l.
Proof.
  unfold uniqueNonEmpty. rewrite unique_from_spec. split.
  - intros [H ?]. split; [|done]. intros Hx. by destruct (H _ Hx).
  - intros [H ?]. split; [|done]. intros x Hx. split; [|set_solver]. by intros ->.
Qed.

Lemma conditions_met_spec l m :
  conditions_met l m = true <-> forall c, c ∈ l -> m !! c = Some true.
Proof.
  induction l as [|c l IH]; simpl; [split; [set_solver|done]|].
  destruct (m !! c) as [[]|] eqn:E; simpl; rewrite ?IH; split; try done.
  - intros H d [->|Hd]%elem_of_cons; auto.
  - intros H d Hd. apply H. set_solver.
  - intros H. specialize (H c ltac:(set_solver)). congruence.
  - intros H. specialize (H c ltac:(set_solver)). congruence.
Qed.

(** * What the decision means *)

(** The facts every executable request satisfies, whoever approves it. *)
Record recoverable (s : Snapshot) (i : Input) (reg : RegisteredRunbook) (action : TypedAction) : Prop := {
  rec_snapshot : validSnapshot s = true;
  rec_named : in_RunbookID i <> "" /\ in_RunbookDigest i <> "" /\ in_TargetID i <> "" /\ in_CommandID i <> "";
  rec_registered : reg ∈ sn_Runbooks s;
  rec_id : rb_RunbookID (rr_Runbook reg) = in_RunbookID i;
  rec_digest : rb_Digest (rr_Runbook reg) = in_RunbookDigest i;
  rec_target : rr_TargetID reg = in_TargetID i;
  rec_index : 0 <= in_ActionIndex i;
  rec_action : rb_TypedActions (rr_Runbook reg) !! Z.to_nat (in_ActionIndex i) = Some action;
  rec_analysis : rr_AnalysisRequired reg = true ->
    in_AnalysisAvailable i = true /\ in_RunbookID i ∈ in_AnalysisCandidateIDs i;
  rec_conditions : uniqueNonEmpty (rb_Preconditions (rr_Runbook reg)) = true /\
    forall c, c ∈ rb_Preconditions (rr_Runbook reg) -> in_Preconditions i !! c = Some true;
  rec_cooldown : in_LastAttemptAt i <> 0 ->
    in_Now i <> 0 /\ in_LastAttemptAt i <= in_Now i /\
    act_Cooldown action <= Z.min maxInt64 (in_Now i - in_LastAttemptAt i);
  rec_attempts : 0 <= in_AttemptCount i < rp_MaxAttempts (rb_RetryPolicy (rr_Runbook reg));
  rec_stabilization : 1 <= sp_RecoverySamples (rb_StabilizationPolicy (rr_Runbook reg)) /\
    0 < sp_Window (rb_StabilizationPolicy (rr_Runbook reg));
}.

(** A human grant of this very command, by an approver authorized now, not
    revoked and not expired. *)
Record granted (s : Snapshot) (i : Input) (a : Approval) : Prop := {
  gr_present : in_Approval i = Some a;
  gr_live : in_ApprovalRevoked i = false;
  gr_authorized : apr_ApproverIdentity a ∈ sn_AuthorizedApprovers s;
  gr_version : apr_SchemaVersion a = SchemaVersionV1;
  gr_id : apr_ApprovalID a <> "";
  gr_grant : apr_Decision a = ApprovalGranted;
  gr_command : apr_CommandID a = in_CommandID i;
  gr_times : apr_CreatedAt a <> 0 /\ apr_ExpiresAt a <> 0 /\ apr_CreatedAt a < apr_ExpiresAt a;
  gr_now : in_Now i <> 0 /\ in_Now i < apr_ExpiresAt a;
}.

Lemma approval_allow s i :
  (exists a, granted s i a) <->
  approval (sn_AuthorizedApprovers s) i = mkDecision VerdictAllow ReasonAllowed.
Proof.
  unfold approval. split.
  - intros [a []]. rewrite gr_present0, gr_live0. simpl.
    apply contains_spec in gr_authorized0. rewrite gr_authorized0. simpl.
    rewrite gr_grant0, gr_version0, gr_command0. cbn. rewrite String.eqb_refl.
    destruct (String.eqb_spec (apr_ApprovalID a) ""); [done|].
    unfold is_zero, after, before.
    destruct (Z.eqb_spec (apr_CreatedAt a) 0), (Z.eqb_spec (apr_ExpiresAt a) 0),
      (Z.eqb_spec (in_Now i) 0); try tauto.
    destruct (Z.ltb_spec (apr_CreatedAt a) (apr_ExpiresAt a)); [|lia].
    destruct (Z.ltb_spec (in_Now i) (apr_ExpiresAt a)); [done|lia].
  - destruct (in_Approval i) as [a|] eqn:Ea; [|done].
    destruct (in_ApprovalRevoked i || _) eqn:E1; [done|].
    destruct (String.eqb (apr_Decision a) ApprovalDenied); [done|].
    match goal with |- (if ?b then _ else _) = _ -> _ => destruct b eqn:E2; [done|] end.
    intros _. exists a.
    unfold is_zero, after, before in *. bool_prop.
    repeat match goal with
    | H : String.eqb _ _ = true |- _ => apply String.eqb_eq in H
    | H : String.eqb _ _ = false |- _ => apply String.eqb_neq in H
    end.
    split; try done; try lia. by apply contains_spec.
Qed.

(** Without a grant the approval step denies or has nothing to say. *)
Lemma approval_cases authorized i :
  (in_Approval i = None /\ approval authorized i = Decision_zero) \/
  approval authorized i = mkDecision VerdictAllow ReasonAllowed \/
  exists r, r <> "" /\ approval authorized i = deny r.
Proof.
  unfold approval. destruct (in_Approval i); [|by left]. right.
  repeat case_match; first [by left | right; eexists; by split; [|reflexivity]].
Qed.

Lemma cooldown_spec cooldown previous now :
  0 <= cooldown ->
  cooldownElapsed cooldown previous now = true <->
  (previous <> 0 -> now <> 0 /\ previous <= now /\ cooldown <= Z.min maxInt64 (now - previous)).
Proof.
  intros Hc. unfold cooldownElapsed, is_zero, before, time_sub, minInt64, maxInt64.
  destruct (Z.ltb_spec cooldown 0); [lia|].
  destruct (Z.eqb_spec previous 0); cbn [orb].
  { split; [lia|]. intros _. by apply Z.leb_le. }
  rewrite !andb_true_iff, !negb_true_iff, Z.eqb_neq, Z.ltb_ge, Z.leb_le. lia.
Qed.

Lemma registration_action reg action :
  valid_registration reg = true -> action ∈ rb_TypedActions (rr_Runbook reg) ->
  0 <= act_Cooldown action /\ 0 < act_StopTimeout action.
Proof.
  unfold valid_registration. destruct (_ || _); [done|]. rewrite forallb_forall.
  intros H Hin%list_elem_of_In. specialize (H _ Hin). bool_prop. lia.
Qed.

Lemma registrations_ok_spec seen l :
  registrations_ok seen l = true <->
  Forall (fun r => valid_registration r = true) l /\
  NoDup (map (fun r => rb_RunbookID (rr_Runbook r)) l) /\
  forall r, r ∈ l -> rb_RunbookID (rr_Runbook r) ∉ seen.
Proof.
  revert seen. induction l as [|r l IH]; intros seen; simpl.
  { repeat split; try constructor. set_solver. }
  destruct (valid_registration r) eqn:Ev; simpl; [|rewrite Forall_cons; naive_solver].
  case_decide as Hin.
  { split; [done|]. intros (_ & _ & H). by destruct (H r); [set_solver|]. }
  rewrite IH, Forall_cons, NoDup_cons. split.
  - intros (Ha & Hnd & Hs). repeat split; try done.
    + intros [r' [Heq Hr']]%list_elem_of_fmap. apply (Hs r' Hr'). set_solver.
    + intros r' [->|Hr']%elem_of_cons; [done|]. specialize (Hs _ Hr'). set_solver.
  - intros ([_ Ha] & [Hr Hnd] & Hs). repeat split; try done.
    intros r' Hr'. specialize (Hs r' ltac:(set_solver)).
    assert (rb_RunbookID (rr_Runbook r') <> rb_RunbookID (rr_Runbook r)); [|set_solver].
    intros Heq. apply Hr. apply list_elem_of_fmap. by exists r'.
Qed.

Lemma validSnapshot_spec s :
  validSnapshot s = true <->
  sn_Runbooks s <> [] /\ Forall (fun r => valid_registration r = true) (sn_Runbooks s) /\
  NoDup (map (fun r => rb_RunbookID (rr_Runbook r)) (sn_Runbooks s)) /\
  uniqueNonEmpty (sn_AuthorizedApprovers s) = true.
Proof.
  unfold validSnapshot, go_count.
  destruct (Z.eqb_spec (Z.of_nat (length (sn_Runbooks s))) 0) as [Hz|Hz].
  { destruct (sn_Runbooks s); [|simpl in Hz; lia]. naive_solver. }
  destruct (registrations_ok ∅ (sn_Runbooks s)) eqn:E.
  - apply registrations_ok_spec in E as (? & ? & _). split; [|tauto].
    intros ?. repeat split; try done. intros Hnil. by rewrite Hnil in Hz.
  - split; [done|]. intros (? & ? & ? & ?). exfalso.
    assert (registrations_ok ∅ (sn_Runbooks s) = true); [|congruence].
    apply registrations_ok_spec. done.
Qed.

(** The registration found is the only one with the requested ID. *)
Lemma registeredRunbook_spec s i reg :
  registeredRunbook s i = inl reg <->
  validSnapshot s = true /\
  (in_RunbookID i <> "" /\ in_RunbookDigest i <> "" /\ in_TargetID i <> "" /\ in_CommandID i <> "") /\
  reg ∈ sn_Runbooks s /\ rb_RunbookID (rr_Runbook reg) = in_RunbookID i.
Proof.
  unfold registeredRunbook.
  destruct (validSnapshot s) eqn:Ev; simpl; [|naive_solver].
  repeat match goal with
  | |- context [ String.eqb ?x "" ] => destruct (String.eqb_spec x ""); simpl; [naive_solver|]
  end.
  apply validSnapshot_spec in Ev as (_ & _ & Hnd & _).
  destruct (find_first _ _) as [reg'|] eqn:Ef.
  - apply find_first_some in Ef as [Hin Hid%String.eqb_eq]. split.
    + intros [= ->]. done.
    + intros (_ & _ & Hin' & Hid'). f_equal. eapply fmap_NoDup_inj; try done. simpl. congruence.
  - split; [done|]. intros (_ & _ & Hin & Hid).
    rewrite find_first_none in Ef. specialize (Ef _ Hin). by apply String.eqb_neq in Ef.
Qed.

#[local] Ltac deny_case := right; eexists; split; [|split; [reflexivity|]]; [done|].

(** Every path of [Evaluate] past its checks, and the ones that deny. *)
Lemma Evaluate_paths s i :
  (exists reg action, recoverable s i reg action /\
     Evaluate s i =
       (let d := approval (sn_AuthorizedApprovers s) i in
        if negb (String.eqb (ReasonCode d) "") then d
        else if needsApproval (rr_Runbook reg)
        then mkDecision VerdictAwaitApproval ReasonApprovalRequired
        else mkDecision VerdictAllow ReasonAllowed)) \/
  (exists r, r <> "" /\ Evaluate s i = deny r /\ forall reg action, ~ recoverable s i reg action).
Proof.
  unfold Evaluate.
  destruct (registeredRunbook s i) as [reg|r] eqn:Er.
  2:{ right. exists r. repeat split.
      - intros ->. unfold registeredRunbook in Er. repeat case_match; done.
      - intros reg action []. assert (registeredRunbook s i = inl reg); [|congruence].
        by apply registeredRunbook_spec. }
  apply registeredRunbook_spec in Er as Hreg. destruct Hreg as (Hv & Hnamed & Hin & Hid).
  assert (Huniq : forall reg' action', recoverable s i reg' action' -> reg' = reg).
  { intros reg' action' []. assert (registeredRunbook s i = inl reg') by by apply registeredRunbook_spec.
    congruence. }
  destruct (String.eqb_spec (in_RunbookDigest i) (rb_Digest (rr_Runbook reg))) as [Hd|Hd]; simpl.
  2:{ deny_case. intros reg' a' H. pose proof (Huniq _ _ H). subst. by destruct H. }
  destruct (String.eqb_spec (in_TargetID i) (rr_TargetID reg)) as [Ht|Ht]; simpl.
  2:{ deny_case. intros reg' a' H. pose proof (Huniq _ _ H). subst. by destruct H. }
  destruct (if in_ActionIndex i <? 0 then None else _) as [action|] eqn:Eact.
  2:{ deny_case. intros reg' a' H. pose proof (Huniq _ _ H). subst.
      destruct H. destruct (Z.ltb_spec (in_ActionIndex i) 0); [lia|congruence]. }
  destruct (Z.ltb_spec (in_ActionIndex i) 0) as [|Hidx]; [done|].
  assert (Haction : forall reg' action', recoverable s i reg' action' -> action' = action).
  { intros reg' a' H. pose proof (Huniq _ _ H). subst. destruct H. congruence. }
  assert (Hcool : 0 <= act_Cooldown action).
  { apply validSnapshot_spec in Hv as (_ & Hall & _). rewrite Forall_forall in Hall.
    eapply registration_action; [by apply Hall|]. by eapply list_elem_of_lookup_2. }
  destruct (rr_AnalysisRequired reg && negb (in_AnalysisAvailable i)) eqn:Ea1.
  { deny_case. intros reg' a' H. pose proof (Huniq _ _ H). subst.
    destruct H. bool_prop. naive_solver congruence. }
  destruct (rr_AnalysisRequired reg && negb (contains _ _)) eqn:Ea2.
  { deny_case. intros reg' a' H. pose proof (Huniq _ _ H). subst.
    bool_prop. destruct (rec_analysis _ _ _ _ H ltac:(done)) as [_ Han].
    rewrite <- Hid in Han. apply contains_spec in Han. congruence. }
  destruct (preconditionsMet _ _) eqn:Ep; simpl.
  2:{ deny_case. intros reg' a' H. pose proof (Huniq _ _ H). subst.
      destruct (rec_conditions _ _ _ _ H) as [Hu Hc]. unfold preconditionsMet in Ep. rewrite Hu in Ep. simpl in Ep.
      apply conditions_met_spec in Hc. congruence. }
  destruct (cooldownElapsed _ _ _) eqn:Ec; simpl.
  2:{ deny_case. intros reg' a' H. pose proof (Huniq _ _ H).
      pose proof (Haction _ _ H). subst. pose proof (rec_cooldown _ _ _ _ H) as Hcd.
      apply cooldown_spec in Hcd; [congruence|done]. }
  destruct (_ || (_ <=? _)) eqn:En.
  { deny_case. intros reg' a' H. pose proof (Huniq _ _ H). subst.
    destruct H. apply orb_true_iff in En as [En|En]; bool_prop; lia. }
  destruct (_ || (_ <=? 0)) eqn:Es.
  { deny_case. intros reg' a' H. pose proof (Huniq _ _ H). subst.
    destruct H. apply orb_true_iff in Es as [Es|Es]; bool_prop; lia. }
  left. exists reg, action. split; [|done].
  unfold preconditionsMet in Ep. destruct (uniqueNonEmpty _) eqn:Eu; [|done]. simpl in Ep.
  bool_prop. split; try done; try lia.
  - intros Hreq. rewrite Hreq in *. simpl in *. destruct Ea1 as [|Ea1]; [done|].
    destruct Ea2 as [|Ea2]; [done|]. bool_prop. split; [done|].
    rewrite <- Hid. by apply contains_spec.
  - split; [done|]. by apply conditions_met_spec.
  - by apply cooldown_spec.
Qed.

(** What an allowed request has: the declarative policy, and a live grant
    unless the runbook runs on its own. *)
Lemma allow_recoverable s i :
  Verdict (Evaluate s i) = VerdictAllow ->
  exists reg action, recoverable s i reg action /\
    ((exists a, granted s i a) \/ (in_Approval i = None /\ needsApproval (rr_Runbook reg) = false)).
Proof.
  destruct (Evaluate_paths s i) as [(reg & action & Hrec & HE)|(r & Hr & HE & Hno)]; rewrite HE; [|done].
  cbv zeta. intros H. exists reg, action. split; [done|].
  destruct (approval_cases (sn_AuthorizedApprovers s) i) as [[Hn Ha]|[Ha|(r & Hr & Ha)]].
  - right. split; [done|]. rewrite Ha in H. simpl in H. by destruct (needsApproval _).
  - left. by apply approval_allow.
  - rewrite Ha in H. simpl in H. destruct (String.eqb_spec r ""); done.
Qed.

Lemma allow_reason s i :
  Verdict (Evaluate s i) = VerdictAllow -> ReasonCode (Evaluate s i) = ReasonAllowed.
Proof.
  destruct (Evaluate_paths s i) as [(reg & action & Hrec & HE)|(r & Hr & HE & Hno)]; rewrite HE; [|done].
  cbv zeta.
  destruct (approval_cases (sn_AuthorizedApprovers s) i) as [[Hn Ha]|[Ha|(r & Hr & Ha)]]; rewrite Ha.
  - simpl. by destruct (needsApproval _).
  - done.
  - simpl. by destruct (String.eqb_spec r "").
Qed.

(** Every reason is one of the constants above. *)
Lemma Evaluate_reason_utf8 s i : valid_utf8 (ReasonCode (Evaluate s i)) = true.
Proof.
  assert (Ha : valid_utf8 (ReasonCode (approval (sn_AuthorizedApprovers s) i)) = true).
  { unfold approval. repeat case_match; reflexivity. }
  unfold Evaluate. destruct (registeredRunbook s i) as [reg|r] eqn:Er.
  - cbv zeta. destruct (if in_ActionIndex i <? 0 then _ else _); repeat case_match; first [reflexivity|exact Ha].
  - unfold registeredRunbook in Er. repeat case_match; simplify_eq; reflexivity.
Qed.

(** The registration a request names is unique. *)
Lemma recoverable_unique s i reg action reg' action' :
  recoverable s i reg action -> recoverable s i reg' action' -> reg' = reg.
Proof.
  intros Hr Hr'.
  assert (registeredRunbook s i = inl reg') by (destruct Hr'; by apply registeredRunbook_spec).
  assert (registeredRunbook s i = inl reg) by (destruct Hr; by apply registeredRunbook_spec).
  congruence.
Qed.

(** * Properties *)

(** C4: a request is allowed exactly when the declarative policy holds: the
    snapshot is well formed, the runbook is registered with that digest and
    target, the action exists, required analysis recommends it, every
    precondition was observed, cooldown, retry budget and stabilization policy
    allow it, and either an authorized human granted this very command or the
    runbook needs no approval and none was attached. *)
Theorem Evaluate_allow_iff s i :
  Evaluate s i = mkDecision VerdictAllow ReasonAllowed <->
  exists reg action, recoverable s i reg action /\
    ((exists a, granted s i a) \/ (in_Approval i = None /\ needsApproval (rr_Runbook reg) = false)).
Proof.
  split; [intros H; apply allow_recoverable; by rewrite H|].
  intros (reg & action & Hrec & Hgr).
  destruct (Evaluate_paths s i) as [(reg' & action' & Hrec' & HE)|(r & Hr & HE & Hno)]; rewrite HE.
  2:{ by destruct (Hno reg action). }
  rewrite (recoverable_unique _ _ _ _ _ _ Hrec Hrec'). cbv zeta.
  destruct Hgr as [Hg%approval_allow|[Hn Hneed]]; [by rewrite Hg|].
  unfold approval. rewrite Hn. simpl. by rewrite Hneed.
Qed.

(** The engine waits for a human exactly when every other condition holds,
    the runbook needs approval and no approval is attached; whatever happens,
    the verdict is one of the three verdicts. *)
Lemma Evaluate_await_iff s i :
  (Verdict (Evaluate s i) = VerdictAwaitApproval <->
   exists reg action, recoverable s i reg action /\ in_Approval i = None /\
     needsApproval (rr_Runbook reg) = true) /\
  (Verdict (Evaluate s i) = VerdictAllow \/ Verdict (Evaluate s i) = VerdictAwaitApproval \/
   Verdict (Evaluate s i) = VerdictDeny).
Proof.
  destruct (Evaluate_paths s i) as [(reg & action & Hrec & HE)|(r & Hr & HE & Hno)]; rewrite HE.
  2:{ split; [|by right; right]. split; [done|]. intros (reg & action & Hrec & _).
      by destruct (Hno reg action). }
  pose proof (fun reg' action' => recoverable_unique s i reg action reg' action' Hrec) as Huniq.
  cbv zeta.
  destruct (approval_cases (sn_AuthorizedApprovers s) i) as [[Hn Ha]|[Ha|(r & Hr & Ha)]]; rewrite Ha.
  - cbn. destruct (needsApproval (rr_Runbook reg)) eqn:En; simpl.
    + split; [|by auto]. split; [|done]. by eauto 10.
    + split; [|by auto]. split; [done|]. intros (reg' & action' & Hrec' & _ & Hneed).
      rewrite (Huniq _ _ Hrec') in Hneed. congruence.
  - cbn. split; [|by auto]. split; [done|]. intros (reg' & action' & Hrec' & Hnone & _).
    assert (exists a, granted s i a) as [a []] by by apply approval_allow. congruence.
  - simpl. destruct (String.eqb_spec r ""); [done|]. simpl. split; [|by auto]. split; [done|].
    intros (reg' & action' & _ & Hnone & _). unfold approval in Ha. by rewrite Hnone in Ha.
Qed.

(** No runbook above the low risk tier, with a required approval or
    without automatic execution runs without a live human grant of that
    command. *)
Theorem Evaluate_needs_grant s i reg :
  Verdict (Evaluate s i) = VerdictAllow -> reg ∈ sn_Runbooks s ->
  rb_RunbookID (rr_Runbook reg) = in_RunbookID i ->
  rb_RiskTier (rr_Runbook reg) <> RiskLow \/ ap_Required (rb_ApprovalPolicy (rr_Runbook reg)) = true \/
    rb_AutoExecute (rr_Runbook reg) = false ->
  exists a, granted s i a.
Proof.
  intros Hv Hin Hid Hrisk.
  destruct (allow_recoverable s i Hv) as (reg' & action & Hrec & [Hg|[_ Hneed]]); [done|].
  assert (reg' = reg) as ->.
  { assert (registeredRunbook s i = inl reg') by (destruct Hrec; by apply registeredRunbook_spec).
    assert (registeredRunbook s i = inl reg) by (destruct Hrec; by apply registeredRunbook_spec).
    congruence. }
  exfalso. unfold needsApproval in Hneed. rewrite !orb_false_iff, !negb_false_iff, String.eqb_eq in Hneed.
  destruct Hneed as [[? ?] ?], Hrisk as [|[|]]; congruence.
Qed.

Definition demo_runbook (id tier : string) : Runbook :=
  mkRunbook SchemaVersionV1 id "1" "sha256:aa" "docker" [] [mkTypedAction ActionDockerContainerRestart "web" 10 0]
    tier true (mkApprovalPolicy false) [] (mkRetryPolicy 3) (mkStabilizationPolicy 2 60).
Definition demo_registration (id tier : string) : RegisteredRunbook :=
  mkRegisteredRunbook (demo_runbook id tier) "target-1" false.
Definition demo_input : Input :=
  mkInput "restart" "sha256:aa" "target-1" 0 "command-1" true [] [] "" ∅ 0 100 0
    (Some (mkApproval SchemaVersionV1 "approval-1" "command-1" ApprovalGranted "alice" "ok" 50 200)) false.

Lemma Evaluate_needs_grant_witness :
  let s := mkSnapshot [demo_registration "restart" RiskHigh] ["alice"] in
  Verdict (Evaluate s demo_input) = VerdictAllow /\ exists a, granted s demo_input a.
Proof.
  split; [vm_compute; reflexivity|].
  apply (Evaluate_needs_grant _ demo_input (demo_registration "restart" RiskHigh)).
  - vm_compute; reflexivity.
  - left.
  - reflexivity.
  - left. discriminate.
Defined.

(** The model's confidence labels and its notification suggestion never change
    a decision. *)
Lemma Evaluate_ignores_model_signals s i confidence suggestion :
  Evaluate s (i <| in_AnalysisConfidence := confidence |> <| in_NotificationSuggestion := suggestion |>)
  = Evaluate s i.
Proof. by destruct i. Qed.

(** The sorted binary search of [contains] decides plain membership, so the
    order and repetition of approvers and candidates do not matter. *)
Lemma contains_membership values want :
  contains values want = existsb (String.eqb want) values.
Proof.
  apply eq_true_iff_eq. rewrite contains_spec, existsb_exists. split.
  - intros H. exists want. split; [by apply list_elem_of_In|apply String.eqb_refl].
  - intros (x & Hx & ->%String.eqb_eq). by apply list_elem_of_In.
Qed.

(** The decision does not depend on the order in which the registry lists
    its runbooks. *)
Theorem Evaluate_order_independent rs rs' approvers i :
  Permutation rs rs' ->
  Evaluate (mkSnapshot rs approvers) i = Evaluate (mkSnapshot rs' approvers) i.
Proof.
  intros Hp.
  assert (Hv : validSnapshot (mkSnapshot rs approvers) = validSnapshot (mkSnapshot rs' approvers)).
  { apply eq_true_iff_eq. rewrite !validSnapshot_spec. simpl.
    rewrite (Permutation_map (fun r => rb_RunbookID (rr_Runbook r)) Hp).
    assert (rs <> [] <-> rs' <> []).
    { split; intros Hne ->; apply Hne; [by apply Permutation_nil_r|by apply Permutation_nil_r; symmetry]. }
    assert (forall P, Forall P rs <-> Forall P rs') by (intros; by rewrite Hp).
    naive_solver. }
  assert (Hr : forall reg, registeredRunbook (mkSnapshot rs approvers) i = inl reg <->
                           registeredRunbook (mkSnapshot rs' approvers) i = inl reg).
  { intros reg. rewrite !registeredRunbook_spec, Hv. simpl. by rewrite Hp. }
  assert (Hreg : registeredRunbook (mkSnapshot rs approvers) i = registeredRunbook (mkSnapshot rs' approvers) i).
  { destruct (registeredRunbook (mkSnapshot rs approvers) i) as [reg|r] eqn:E1.
    { symmetry. by apply Hr. }
    destruct (registeredRunbook (mkSnapshot rs' approvers) i) as [reg|r'] eqn:E2.
    { by destruct (proj2 (Hr reg) eq_refl). }
    unfold registeredRunbook in E1, E2. rewrite Hv in E1. repeat case_match; congruence. }
  unfold Evaluate. by rewrite Hreg.
Qed.

Lemma Evaluate_order_independent_witness :
  let a := demo_registration "restart" RiskHigh in
  let b := demo_registration "other" RiskLow in
  Evaluate (mkSnapshot [a; b] ["alice"]) demo_input = Evaluate (mkSnapshot [b; a] ["alice"]) demo_input.
Proof. apply (Evaluate_order_independent _ _ ["alice"] demo_input). constructor. Defined.
