(* ===== verification/Store.v ===== *)
(** The daemon-owned local state store of src/internal/store/store.go: the
    closed set of buckets, the managed transactions with the append-only audit
    bucket, and the schema migrations.

    The embedded database go.etcd.io/bbolt is a parameter: [Bolt] lists the
    calls the store makes on it, [BoltLaws] what its documentation says of
    them, [BoltRoom] that the file has room; [gmapBolt] is an instance. *)
From S2P Require Import Prelude GoLib GoTime Json.
From stdpp Require Import options.
Local Open Scope Z_scope.

(** * bbolt *)

Class Bolt := {
  db : Type;
  has_bucket : db -> string -> bool;
  bucket_names : db -> list string;
  kv_get : db -> string -> string -> option document;
  kv_put : db -> string -> string -> document -> result db;
  kv_delete : db -> string -> string -> result db;
  kv_entries : db -> string -> list (string * document);
  create_bucket : db -> string -> result db;
  consistent : db -> bool;
  commit : db -> option error;
}.

(** The documented behaviour: a bucket is a map whose iteration is in byte
    order of the keys, and a change touches nothing else. *)
Class BoltLaws `{Bolt} := {
  get_put_eq d d' b k v : kv_put d b k v = Ok d' -> kv_get d' b k = Some v;
  get_put_ne d d' b k v b' k' :
    kv_put d b k v = Ok d' -> (b, k) <> (b', k') -> kv_get d' b' k' = kv_get d b' k';
  put_buckets d d' b k v b' : kv_put d b k v = Ok d' -> has_bucket d' b' = has_bucket d b';
  get_delete_eq d d' b k : kv_delete d b k = Ok d' -> kv_get d' b k = None;
  get_delete_ne d d' b k b' k' :
    kv_delete d b k = Ok d' -> (b, k) <> (b', k') -> kv_get d' b' k' = kv_get d b' k';
  delete_buckets d d' b k b' : kv_delete d b k = Ok d' -> has_bucket d' b' = has_bucket d b';
  entries_get d b k v : (k, v) ∈ kv_entries d b <-> kv_get d b k = Some v;
  entries_sorted d b : StronglySorted String.le (map fst (kv_entries d b));
  entries_distinct d b : NoDup (map fst (kv_entries d b));
  create_has d d' b : create_bucket d b = Ok d' -> has_bucket d' b = true;
  create_other d d' b b' :
    create_bucket d b = Ok d' -> b <> b' -> has_bucket d' b' = has_bucket d b';
  create_get d d' b b' k : create_bucket d b = Ok d' -> kv_get d' b' k = kv_get d b' k;
  names_has d b : b ∈ bucket_names d <-> has_bucket d b = true;
  get_has d b k v : kv_get d b k = Some v -> has_bucket d b = true;
}.

(** The limits of bbolt: [MaxKeySize], of keys and bucket names, and
    [MaxValueSize]. *)
Definition maxKeySize : Z := 32768.
Definition maxValueSize : Z := 2 ^ 31 - 2.
Definition key_fits (k : string) : bool := negb (String.eqb k "") && (go_len k <=? maxKeySize).

(** The file has room and the disk works: a writable transaction then puts a
    key and a value within the limits into an existing bucket, deletes, creates a
    bucket with a name within the limits and commits. *)
Class BoltRoom `{Bolt} := {
  put_room d b k v :
    has_bucket d b = true -> key_fits k = true -> doc_len v <= maxValueSize -> is_ok (kv_put d b k v) = true;
  delete_room d b k : has_bucket d b = true -> is_ok (kv_delete d b k) = true;
  create_room d b : key_fits b = true -> is_ok (create_bucket d b) = true;
  commit_room d : commit d = None;
}.

(** * Errors *)

Definition store_error := mkError "store".
Definition ErrInvalidTransaction := store_error "invalid local store transaction".
Definition ErrUnsupportedSchema := store_error "unsupported local store schema".
Definition ErrIntegrity := store_error "local store integrity check failed".
Definition ErrUnknownBucket := store_error "unknown local store bucket".
Definition ErrInvalidKey := store_error "invalid local store key".
Definition ErrAuditAppendOnly := store_error "audit records are append-only".
Definition ErrStoreFull := store_error "local store is full".
Definition ErrLockTimeout := store_error "local store lock timeout".
Definition ErrMaxSizeReached := mkError "bbolt" "database reached maximum size".
Definition ENOSPC := mkError "syscall" "no space left on device".

Definition normalizeError (e : error) : error :=
  if decide (e = ErrStoreFull \/ e = ErrLockTimeout) then e
  else if decide (e = ErrMaxSizeReached \/ e = ENOSPC) then ErrStoreFull
  else e.

Definition normalized {A} (r : result A) : result A :=
  match r with Ok a => Ok a | Fail e => Fail (normalizeError e) end.

(** * Buckets *)

Definition BucketConfigurationVersions : string := "configuration_versions".
Definition BucketIncidents : string := "incidents".
Definition BucketAnalysisReferences : string := "analysis_references".
Definition BucketApprovals : string := "approvals".
Definition BucketCommandJournal : string := "command_journal".
Definition BucketAudit : string := "audit".
Definition BucketStabilizationResults : string := "stabilization_results".
Definition BucketDeliveryQueue : string := "delivery_queue".
Definition BucketServiceTargets : string := "service_targets".
Definition BucketRunbooks : string := "runbooks".
Definition BucketIngressReceipts : string := "ingress_receipts".
Definition BucketLifecycleEvents : string := "lifecycle_events".
Definition BucketIncidentReports : string := "incident_reports".

Definition initialDataBuckets : list string :=
  [BucketConfigurationVersions; BucketIncidents; BucketAnalysisReferences; BucketApprovals;
   BucketCommandJournal; BucketAudit; BucketStabilizationResults; BucketDeliveryQueue].
Definition dataBuckets : list string :=
  (initialDataBuckets ++ [BucketServiceTargets; BucketRunbooks; BucketIngressReceipts;
                          BucketLifecycleEvents; BucketIncidentReports])%list.
Definition allowedBucket (b : string) : bool := existsb (String.eqb b) dataBuckets.

Definition metadataBucket : string := "metadata".
Definition schemaVersionKey : string := "schema_version".
Definition CurrentSchemaVersion : Z := 6.

Section Store.
Context `{Bolt}.

(** * Transactions *)

Definition tx_bucket (b : string) : st db unit := fun d =>
  if negb (allowedBucket b) then Fail ErrUnknownBucket
  else if negb (has_bucket d b) then Fail ErrIntegrity
  else Ok (tt, d).

Definition st_update (f : db -> result db) : st db unit := fun d =>
  match f d with Ok d' => Ok (tt, d') | Fail e => Fail (normalizeError e) end.

Definition Put (b key : string) (value : document) : st db unit :=
  tx_bucket b ≫= fun _ =>
  if String.eqb b BucketAudit then st_fail ErrAuditAppendOnly
  else if String.eqb key "" then st_fail ErrInvalidKey
  else st_update (fun d => kv_put d b key value).

Definition Get (b key : string) : st db (option document) :=
  tx_bucket b ≫= fun _ =>
  if String.eqb key "" then st_fail ErrInvalidKey
  else fun d => Ok (kv_get d b key, d).

Definition Delete (b key : string) : st db unit :=
  tx_bucket b ≫= fun _ =>
  if String.eqb b BucketAudit then st_fail ErrAuditAppendOnly
  else if String.eqb key "" then st_fail ErrInvalidKey
  else st_update (fun d => kv_delete d b key).

Definition AppendAudit (key : string) (value : document) : st db unit :=
  tx_bucket BucketAudit ≫= fun _ =>
  if String.eqb key "" then st_fail ErrInvalidKey
  else fun d =>
    match kv_get d BucketAudit key with
    | Some _ => Fail ErrAuditAppendOnly
    | None => st_update (fun d => kv_put d BucketAudit key value) d
    end.

(** The callback folded over the entries, its captured variables as the
    accumulator; it stops at the first error. *)
Fixpoint fold_entries {A} (fn : A -> string -> document -> result A) (acc : A)
    (l : list (string * document)) : result A :=
  match l with
  | [] => Ok acc
  | (key, value) :: l' =>
    match fn acc key value with Ok acc' => fold_entries fn acc' l' | Fail e => Fail e end
  end.
Definition ForEach {A} (b : string) (acc : A) (fn : A -> string -> document -> result A) : st db A :=
  tx_bucket b ≫= fun _ => fun d =>
    match fold_entries fn acc (kv_entries d b) with Ok a => Ok (a, d) | Fail e => Fail e end.

(** A managed read-write transaction: an error of the body or of the commit
    rolls every write back. *)
Definition Update {A} (fn : st db A) (d : db) : result A * db :=
  match fn d with
  | Fail e => (Fail (normalizeError e), d)
  | Ok (a, d') =>
    match commit d' with
    | Some e => (Fail (normalizeError e), d)
    | None => (Ok a, d')
    end
  end.

(** A managed read-only transaction. *)
Definition View {A} (fn : st db A) (d : db) : result A :=
  match fn d with Fail e => Fail (normalizeError e) | Ok (a, _) => Ok a end.

(** * Schema versions *)

(** The four big-endian bytes of a [uint32]. *)
Definition version_bytes (version : Z) : list Z :=
  [version / 16777216 mod 256; version / 65536 mod 256; version / 256 mod 256; version mod 256].

Definition readSchemaVersion (d : db) : result Z :=
  if negb (has_bucket d metadataBucket) then
    match bucket_names d with
    | [] => Ok 0
    | _ :: _ => Fail ErrIntegrity
    end
  else
    match bytes (default "" (doc_bytes <$> kv_get d metadataBucket schemaVersionKey)) with
    | [b0; b1; b2; b3] =>
      Ok (Z.lor (Z.lor (Z.lor (Z.shiftl b0 24) (Z.shiftl b1 16)) (Z.shiftl b2 8)) b3)
    | _ => Fail ErrIntegrity
    end.

Definition writeSchemaVersion (version : Z) : st db unit := fun d =>
  if negb (has_bucket d metadataBucket) || (version =? 0) then Fail ErrIntegrity
  else
    match kv_put d metadataBucket schemaVersionKey (Bytes (of_bytes (version_bytes version))) with
    | Ok d' => Ok (tt, d')
    | Fail e => Fail e
    end.

Definition ensureDataBuckets (d : db) : result unit :=
  if forallb (has_bucket d) dataBuckets then Ok tt else Fail ErrIntegrity.

(** * Migrations *)

Record migration := mkMigration {
  mg_from : Z;
  mg_to : Z;
  mg_apply : option (st db unit);
}.

Definition create (b : string) : st db unit := fun d =>
  match create_bucket d b with Ok d' => Ok (tt, d') | Fail e => Fail e end.

Fixpoint create_all (l : list string) : st db unit :=
  match l with
  | [] => mret tt
  | b :: l' => create b ≫= fun _ => create_all l'
  end.

Definition applyInitialMigration : st db unit :=
  create metadataBucket ≫= fun _ => create_all initialDataBuckets.
Definition applyServiceTargetMigration : st db unit := create BucketServiceTargets.
Definition applyRunbookMigration : st db unit := create BucketRunbooks.
Definition applyIngressReceiptMigration : st db unit := create BucketIngressReceipts.
Definition applyLifecycleEventMigration : st db unit := create BucketLifecycleEvents.
Definition applyIncidentReportMigration : st db unit := create BucketIncidentReports.

Definition defaultMigrations : list migration :=
  [mkMigration 0 1 (Some applyInitialMigration);
   mkMigration 1 2 (Some applyServiceTargetMigration);
   mkMigration 2 3 (Some applyRunbookMigration);
   mkMigration 3 4 (Some applyIngressReceiptMigration);
   mkMigration 4 5 (Some applyLifecycleEventMigration);
   mkMigration 5 CurrentSchemaVersion (Some applyIncidentReportMigration)].

Fixpoint target_loop (target : Z) (l : list migration) : result Z :=
  match l with
  | [] => Ok target
  | candidate :: l' =>
    match mg_apply candidate with
    | None => Fail ErrUnsupportedSchema
    | Some _ =>
      if mg_to candidate <=? mg_from candidate then Fail ErrUnsupportedSchema
      else target_loop (if target <? mg_to candidate then mg_to candidate else target) l'
    end
  end.
Definition migrationTarget (l : list migration) : result Z :=
  match l with
  | [] => Fail ErrUnsupportedSchema
  | _ => target_loop 0 l
  end.

Fixpoint next_loop (version : Z) (found : option migration) (l : list migration) :
    result (option migration) :=
  match l with
  | [] => Ok found
  | candidate :: l' =>
    if negb (mg_from candidate =? version) then next_loop version found l'
    else
      match found with
      | Some _ => Fail ErrUnsupportedSchema
      | None => next_loop version (Some candidate) l'
      end
  end.
Definition nextMigration (l : list migration) (version : Z) : result migration :=
  match next_loop version None l with
  | Fail e => Fail e
  | Ok None => Fail ErrUnsupportedSchema
  | Ok (Some next) =>
    if (mg_to next <=? version) then Fail ErrUnsupportedSchema
    else match mg_apply next with None => Fail ErrUnsupportedSchema | Some _ => Ok next end
  end.

(** The loop [for version < target]: a step raises the version, so the
    distance to the target is enough fuel. *)
Fixpoint migrate_loop (fuel : nat) (l : list migration) (target version : Z) : st db unit :=
  match fuel with
  | O => mret tt
  | S fuel' =>
    if version <? target then
      st_lift (nextMigration l version) ≫= fun next =>
      default (st_fail ErrUnsupportedSchema) (mg_apply next) ≫= fun _ =>
      writeSchemaVersion (mg_to next) ≫= fun _ =>
      migrate_loop fuel' l target (mg_to next)
    else mret tt
  end.

Definition migrate_body (l : list migration) (target : Z) : st db unit :=
  st_get ≫= fun d =>
  st_lift (readSchemaVersion d) ≫= fun version =>
  if target <? version then st_fail ErrUnsupportedSchema
  else
    migrate_loop (Z.to_nat (target - version)) l target version ≫= fun _ =>
    st_get ≫= fun d => st_lift (ensureDataBuckets d).

Definition migrate (l : list migration) (d : db) : result unit * db :=
  match migrationTarget l with
  | Fail e => (Fail e, d)
  | Ok target => Update (migrate_body l target) d
  end.

Definition CheckIntegrity (d : db) : result unit :=
  match readSchemaVersion d with
  | Fail e => Fail ErrIntegrity
  | Ok version =>
    if negb (version =? CurrentSchemaVersion) then Fail ErrUnsupportedSchema
    else match ensureDataBuckets d with
         | Fail _ => Fail ErrIntegrity
         | Ok _ => if consistent d then Ok tt else Fail ErrIntegrity
         end
  end.

(** The database part of [Open]: migrate, then check. *)
Definition open_database (d : db) : result unit * db :=
  match migrate defaultMigrations d with
  | (Fail e, d') => (Fail e, d')
  | (Ok _, d') => (CheckIntegrity d', d')
  end.
End Store.
Arguments migration {_}.

(** * The finite-map instance *)

Definition key_le (a b : string * document) : Prop := String.le a.1 b.1.
#[export] Instance key_le_dec : RelDecision key_le.
Proof. intros a b. unfold key_le. apply _. Defined.
#[export] Instance key_le_trans : Transitive key_le.
Proof. intros a b c. unfold key_le. apply transitivity. Qed.
#[export] Instance key_le_total : Total key_le.
Proof. intros a b. apply String.le_total. Qed.

#[export] Instance gmapBolt : Bolt := {|
  db := gmap string (gmap string document);
  has_bucket d b := bool_decide (is_Some (d !! b));
  bucket_names d := (map_to_list d).*1;
  kv_get d b k := d !! b ≫= fun m => m !! k;
  kv_put d b k v := match d !! b with
    | None => Fail ErrIntegrity
    | Some m => if String.eqb k "" then Fail ErrInvalidKey else Ok (<[b := <[k := v]> m]> d)
    end;
  kv_delete d b k := match d !! b with
    | None => Fail ErrIntegrity
    | Some m => Ok (<[b := delete k m]> d)
    end;
  kv_entries d b := merge_sort key_le (map_to_list (default ∅ (d !! b)));
  create_bucket d b := match d !! b with Some _ => Ok d | None => Ok (<[b := ∅]> d) end;
  consistent _ := true;
  commit _ := None;
|}.

Lemma sorted_map_fst l : StronglySorted key_le l -> StronglySorted String.le (map fst l).
Proof.
  induction 1 as [|x l _ IH Hall]; simpl; constructor; [done|].
  apply Forall_map. eapply Forall_impl; [exact Hall|]. done.
Qed.

#[export] Instance gmapBolt_laws : @BoltLaws gmapBolt.
Proof.
  split; simpl.
  - intros d d' b k v. destruct (d !! b) as [m|] eqn:E; [|done].
    destruct (String.eqb k ""); [done|]. intros [= <-]. by rewrite lookup_insert_eq; simpl; rewrite lookup_insert_eq.
  - intros d d' b k v b' k'. destruct (d !! b) as [m|] eqn:E; [|done].
    destruct (String.eqb k ""); [done|]. intros [= <-] Hne.
    destruct (decide (b = b')) as [<-|]; [|by rewrite lookup_insert_ne].
    rewrite lookup_insert_eq, E; simpl. apply lookup_insert_ne. congruence.
  - intros d d' b k v b'. destruct (d !! b) as [m|] eqn:E; [|done].
    destruct (String.eqb k ""); [done|]. intros [= <-]. apply bool_decide_ext.
    destruct (decide (b = b')) as [<-|]; [|by rewrite lookup_insert_ne].
    rewrite lookup_insert_eq, E. split; eauto.
  - intros d d' b k. destruct (d !! b) as [m|] eqn:E; [|done]. intros [= <-].
    by rewrite lookup_insert_eq; simpl; rewrite lookup_delete_eq.
  - intros d d' b k b' k'. destruct (d !! b) as [m|] eqn:E; [|done]. intros [= <-] Hne.
    destruct (decide (b = b')) as [<-|]; [|by rewrite lookup_insert_ne].
    rewrite lookup_insert_eq, E; simpl. apply lookup_delete_ne. congruence.
  - intros d d' b k b'. destruct (d !! b) as [m|] eqn:E; [|done]. intros [= <-]. apply bool_decide_ext.
    destruct (decide (b = b')) as [<-|]; [|by rewrite lookup_insert_ne].
    rewrite lookup_insert_eq, E. split; eauto.
  - intros d b k v. rewrite merge_sort_Permutation, elem_of_map_to_list.
    destruct (d !! b); simpl; [done|]. by rewrite lookup_empty.
  - intros d b. apply sorted_map_fst, Sorted_StronglySorted; [apply _|]. apply Sorted_merge_sort, _.
  - intros d b. rewrite (Permutation_map fst (merge_sort_Permutation key_le _)).
    apply NoDup_fst_map_to_list.
  - intros d d' b. destruct (d !! b) eqn:E; intros [= <-]; apply bool_decide_eq_true; [by rewrite E; eauto|].
    rewrite lookup_insert_eq; eauto.
  - intros d d' b b'. destruct (d !! b) eqn:E; intros [= <-] Hne; [done|]. by rewrite lookup_insert_ne.
  - intros d d' b b' k. destruct (d !! b) eqn:E; intros [= <-]; [done|].
    destruct (decide (b = b')) as [<-|]; [|by rewrite lookup_insert_ne].
    rewrite lookup_insert_eq, E. simpl. apply lookup_empty.
  - intros d b. rewrite bool_decide_eq_true, list_elem_of_fmap. split.
    + intros [[k v] [-> Hin%elem_of_map_to_list]]. eauto.
    + intros [v Hv]. exists (b, v). split; [done|]. by apply elem_of_map_to_list.
  - intros d b k v. destruct (d !! b) eqn:E; [|done]. intros _. apply bool_decide_eq_true. eauto.
Qed.

#[export] Instance gmapBolt_room : @BoltRoom gmapBolt.
Proof.
  split; simpl.
  - intros d b k v [m ->]%bool_decide_eq_true Hk _. unfold key_fits in Hk. by destruct (String.eqb k "").
  - intros d b k [m ->]%bool_decide_eq_true. done.
  - intros d b _. by destruct (d !! b).
  - done.
Qed.

(** * Facts *)

#[local] Set Default Proof Using "Type*".

Lemma sorted_fst_map l : StronglySorted String.le (map fst l) -> StronglySorted key_le l.
Proof.
  induction l as [|x l IH]; simpl; intros H; [constructor|].
  apply StronglySorted_inv in H as [Hs Hall]. constructor; [by apply IH|].
  apply Forall_forall. intros y Hy. refine (proj1 (Forall_forall _ _) Hall _ _).
  by apply list_elem_of_fmap_2.
Qed.

(** A list sorted by distinct keys is determined by its elements. *)
Lemma keyed_unique (l1 l2 : list (string * document)) :
  StronglySorted String.le (map fst l1) -> StronglySorted String.le (map fst l2) ->
  NoDup (map fst l1) -> NoDup (map fst l2) -> (forall p, p ∈ l1 <-> p ∈ l2) -> l1 = l2.
Proof.
  intros Hs1 Hs2 Hn1 Hn2 Hin.
  apply (StronglySorted_unique_strong key_le).
  - intros [k1 v1] [k2 v2] H1 H2 Hle1 Hle2. unfold key_le in *; simpl in *.
    assert (k1 = k2) as <- by by apply (anti_symm String.le).
    apply Hin in H2. apply list_elem_of_lookup in H1 as [i1 E1]. apply list_elem_of_lookup in H2 as [i2 E2].
    assert (i1 = i2) as ->; [|congruence].
    eapply NoDup_lookup; [exact Hn1|by rewrite list_lookup_fmap, E1|by rewrite list_lookup_fmap, E2].
  - by apply sorted_fst_map.
  - by apply sorted_fst_map.
  - apply NoDup_Permutation; [by eapply NoDup_fmap_1|by eapply NoDup_fmap_1|done].
Qed.

(** The outcome of an [Update]: the body's state when body and commit succeed,
    and otherwise the state it started from. *)
Lemma Update_cases `{Bolt} {A} (fn : st db A) d :
  (exists a d', fn d = Ok (a, d') /\ Update fn d = (Ok a, d')) \/
  (exists e, Update fn d = (Fail e, d)).
Proof.
  unfold Update. destruct (fn d) as [[a d']|e]; [|by eauto].
  destruct (commit d'); [right|left]; eauto.
Qed.

Lemma Update_ok `{Bolt} {A} (fn : st db A) d a d' :
  Update fn d = (Ok a, d') -> fn d = Ok (a, d').
Proof.
  destruct (Update_cases fn d) as [(a' & d'' & Hf & ->)|(e & ->)]; [|done]. congruence.
Qed.

Lemma Update_fail `{Bolt} {A} (fn : st db A) d e d' :
  Update fn d = (Fail e, d') -> d' = d.
Proof.
  destruct (Update_cases fn d) as [(a' & d'' & Hf & ->)|(e' & ->)]; [done|]. congruence.
Qed.

Lemma Update_room `{Bolt} `{!BoltRoom} {A} (fn : st db A) d a d' :
  fn d = Ok (a, d') -> Update fn d = (Ok a, d').
Proof. intros Hf. unfold Update. by rewrite Hf, commit_room. Qed.

Section Facts.
Context `{BoltLaws}.

(** Two states hold the same records in bucket [b]. *)
Definition same_bucket (b : string) (d d' : db) : Prop :=
  forall k, kv_get d' b k = kv_get d b k.

#[export] Instance same_bucket_equiv b : Equivalence (same_bucket b).
Proof.
  split.
  - by intros d k.
  - intros d d' Hs k. by rewrite Hs.
  - intros d1 d2 d3 H1 H2 k. by rewrite H2, H1.
Qed.

Lemma entries_ext b d d' : same_bucket b d d' -> kv_entries d' b = kv_entries d b.
Proof.
  intros Hs. apply keyed_unique; auto using entries_sorted, entries_distinct.
  intros [k v]. by rewrite !entries_get, Hs.
Qed.

#[export] Instance entries_proper b : Proper (same_bucket b ==> eq) (fun d => kv_entries d b).
Proof. intros d d' Hs. symmetry. by apply entries_ext. Qed.

(** A new greatest key goes to the end of the iteration. *)
Lemma entries_append b k v d d' :
  kv_put d b k v = Ok d' ->
  (forall k', k' ∈ map fst (kv_entries d b) -> String.le k' k /\ k' <> k) ->
  kv_entries d' b = (kv_entries d b ++ [(k, v)])%list.
Proof.
  intros Hp Hmax. apply keyed_unique; auto using entries_sorted, entries_distinct.
  - rewrite map_app. simpl. apply StronglySorted_app. repeat split; [|apply entries_sorted|repeat constructor].
    intros x1 x2 Hx1 ->%list_elem_of_singleton. by apply Hmax.
  - rewrite map_app. apply NoDup_app. repeat split; [apply entries_distinct| |repeat constructor; set_solver].
    intros x Hx ->%list_elem_of_singleton. by destruct (Hmax _ Hx).
  - intros [k' v']. rewrite elem_of_app, list_elem_of_singleton, !entries_get.
    destruct (decide (k' = k)) as [->|Hne].
    + rewrite (get_put_eq _ _ _ _ _ Hp). split; [naive_solver|].
      intros [Hg|[= <-]]; [|done]. exfalso.
      apply entries_get in Hg. destruct (Hmax k) as [_ []]; [|done].
      apply list_elem_of_fmap. by exists (k, v').
    + rewrite (get_put_ne _ _ _ _ _ _ _ Hp) by congruence. naive_solver.
Qed.

Lemma tx_bucket_ok b d a d' :
  tx_bucket b d = Ok (a, d') <-> allowedBucket b = true /\ has_bucket d b = true /\ d' = d.
Proof.
  unfold tx_bucket. destruct a.
  destruct (allowedBucket b), (has_bucket d b); simpl; naive_solver.
Qed.

(** [Get] reads: what it returns is what is stored. *)
Lemma Get_ok b k d o d' :
  Get b k d = Ok (o, d') <->
  allowedBucket b = true /\ has_bucket d b = true /\ k <> "" /\ o = kv_get d b k /\ d' = d.
Proof.
  unfold Get. rewrite st_bind_ok. setoid_rewrite tx_bucket_ok.
  destruct (String.eqb_spec k ""); unfold st_fail; naive_solver.
Qed.

Lemma st_update_ok f d a d' : st_update f d = Ok (a, d') <-> f d = Ok d'.
Proof. unfold st_update. destruct a, (f d); naive_solver. Qed.

(** [Put] writes one record of one bucket, never of the audit bucket. *)
Lemma Put_ok b k v d a d' :
  Put b k v d = Ok (a, d') <->
  allowedBucket b = true /\ has_bucket d b = true /\ b <> BucketAudit /\ k <> "" /\
  kv_put d b k v = Ok d'.
Proof.
  unfold Put. rewrite st_bind_ok. setoid_rewrite tx_bucket_ok.
  destruct (String.eqb_spec b BucketAudit); unfold st_fail; [naive_solver|].
  destruct (String.eqb_spec k ""); [naive_solver|].
  setoid_rewrite st_update_ok. naive_solver.
Qed.

Lemma Delete_ok b k d a d' :
  Delete b k d = Ok (a, d') <->
  allowedBucket b = true /\ has_bucket d b = true /\ b <> BucketAudit /\ k <> "" /\
  kv_delete d b k = Ok d'.
Proof.
  unfold Delete. rewrite st_bind_ok. setoid_rewrite tx_bucket_ok.
  destruct (String.eqb_spec b BucketAudit); unfold st_fail; [naive_solver|].
  destruct (String.eqb_spec k ""); [naive_solver|].
  setoid_rewrite st_update_ok. naive_solver.
Qed.

Lemma AppendAudit_ok k v d a d' :
  AppendAudit k v d = Ok (a, d') <->
  has_bucket d BucketAudit = true /\ k <> "" /\ kv_get d BucketAudit k = None /\
  kv_put d BucketAudit k v = Ok d'.
Proof.
  unfold AppendAudit. rewrite st_bind_ok. setoid_rewrite tx_bucket_ok.
  destruct (String.eqb_spec k ""); unfold st_fail; [naive_solver|].
  split.
  - intros (? & ? & (_ & ? & ->) & Hp). destruct (kv_get d BucketAudit k); [done|].
    apply st_update_ok in Hp. naive_solver.
  - intros (? & _ & Hg & Hp). exists tt, d. repeat split; try done. rewrite Hg. by apply st_update_ok.
Qed.

Lemma ForEach_ok {A} b acc (fn : A -> string -> document -> result A) d a d' :
  ForEach b acc fn d = Ok (a, d') <->
  allowedBucket b = true /\ has_bucket d b = true /\ d' = d /\
  fold_entries fn acc (kv_entries d b) = Ok a.
Proof.
  unfold ForEach. rewrite st_bind_ok. setoid_rewrite tx_bucket_ok.
  split.
  - intros (? & ? & (? & ? & ->) & Hf). destruct (fold_entries _ _ _) eqn:E; naive_solver.
  - intros (? & ? & -> & Hf). exists tt, d. by rewrite Hf.
Qed.

(** Other buckets are left alone by a [Put]. *)
Lemma Put_same b k v d a d' b' : Put b k v d = Ok (a, d') -> b' <> b -> same_bucket b' d d'.
Proof.
  intros (_ & _ & _ & _ & Hp)%Put_ok Hne k'. eapply get_put_ne; [exact Hp|]. congruence.
Qed.
Lemma Put_has b k v d a d' b' : Put b k v d = Ok (a, d') -> has_bucket d' b' = has_bucket d b'.
Proof. intros (_ & _ & _ & _ & Hp)%Put_ok. by eapply put_buckets. Qed.
Lemma Put_get b k v d a d' : Put b k v d = Ok (a, d') -> kv_get d' b k = Some v.
Proof. intros (_ & _ & _ & _ & Hp)%Put_ok. by eapply get_put_eq. Qed.
Lemma Put_get_ne b k v d a d' k' :
  Put b k v d = Ok (a, d') -> k' <> k -> kv_get d' b k' = kv_get d b k'.
Proof. intros (_ & _ & _ & _ & Hp)%Put_ok ?. eapply get_put_ne; [exact Hp|congruence]. Qed.
End Facts.

Lemma fold_entries_app {A} (fn : A -> string -> document -> result A) acc l1 l2 :
  fold_entries fn acc (l1 ++ l2)%list =
  match fold_entries fn acc l1 with Ok a => fold_entries fn a l2 | Fail e => Fail e end.
Proof.
  revert acc. induction l1 as [|[k v] l1 IH]; intros acc; simpl; [done|].
  destruct (fn acc k v); [apply IH|done].
Qed.

(** * Properties *)

(** The calls a transaction body can make on its [Tx]. *)
Inductive tx_op `{Bolt} : db -> db -> Prop :=
| op_put d b k v d' : Put b k v d = Ok (tt, d') -> tx_op d d'
| op_delete d b k d' : Delete b k d = Ok (tt, d') -> tx_op d d'
| op_append d k v d' : AppendAudit k v d = Ok (tt, d') -> tx_op d d'
| op_get d b k o d' : Get b k d = Ok (o, d') -> tx_op d d'.

(** Audit records survive every call. *)
Lemma audit_kept `{BoltLaws} d d' k v :
  rtc tx_op d d' -> kv_get d BucketAudit k = Some v -> kv_get d' BucketAudit k = Some v.
Proof.
  induction 1 as [d|d d1 d2 Hop _ IH]; [done|]. intros Hg. apply IH.
  destruct Hop as [d b k' v' d1 Hp|d b k' d1 Hp|d k' v' d1 Hp|d b k' o d1 Hp].
  - rewrite <- Hg. eapply Put_same; [exact Hp|]. apply Put_ok in Hp. naive_solver.
  - apply Delete_ok in Hp as (_ & _ & Hb & _ & Hp). rewrite <- Hg.
    eapply get_delete_ne; [exact Hp|congruence].
  - apply AppendAudit_ok in Hp as (_ & _ & Hn & Hp). rewrite <- Hg.
    eapply get_put_ne; [exact Hp|]. intros [= ->]. congruence.
  - apply Get_ok in Hp as (_ & _ & _ & _ & ->). done.
Qed.

(** C8: the audit bucket is append-only: whatever sequence of calls a
    transaction makes on it, every audit record stored before is still there
    with the same bytes. *)
Theorem audit_append_only `{BoltLaws} d d' k v :
  rtc tx_op d d' -> kv_get d BucketAudit k = Some v -> kv_get d' BucketAudit k = Some v.
Proof. apply audit_kept. Qed.

Lemma audit_append_only_witness :
  exists d d' : db, rtc tx_op d d' /\ kv_get d' BucketAudit "0" = Some (Bytes "a") /\ d <> d'.
Proof.
  pose (d0 := {[BucketAudit := {["0" := Bytes "a"]}]} : gmap string (gmap string document)).
  exists d0, (<[BucketAudit := <["1" := Bytes "b"]> {["0" := Bytes "a"]}]> d0).
  assert (rtc tx_op d0 (<[BucketAudit := <["1" := Bytes "b"]> {["0" := Bytes "a"]}]> d0)) as Hr.
  { eapply rtc_once, (op_append _ "1" (Bytes "b")). reflexivity. }
  split; [exact Hr|]. split.
  - apply (audit_append_only (H := gmapBolt) d0 _ "0" (Bytes "a") Hr). reflexivity.
  - intros Heq. apply (f_equal (fun d => kv_get d BucketAudit "1")) in Heq. vm_compute in Heq. discriminate.
Defined.

Section Schema.
#[local] Ltac Zify.zify_post_hook ::= Z.to_euclidean_division_equations.

Lemma shiftl_lor_add a b n : 0 <= n -> 0 <= b < 2 ^ n -> Z.lor (Z.shiftl a n) b = a * 2 ^ n + b.
Proof.
  intros Hn Hb. rewrite Z.shiftl_mul_pow2 by done.
  assert (Hl : Z.land (a * 2 ^ n) b = 0).
  { apply Z.bits_inj'. intros m Hm. rewrite Z.land_spec, Z.bits_0.
    destruct (Z.lt_ge_cases m n) as [Hlt|Hge]; [by rewrite Z.mul_pow2_bits_low|].
    destruct (Z.eq_dec b 0) as [->|]; [by rewrite Z.bits_0, andb_false_r|].
    rewrite (Z.bits_above_log2 b m), andb_false_r; [done|lia|].
    apply Z.log2_lt_pow2; [lia|]. apply Z.lt_le_trans with (2 ^ n); [lia|].
    apply Z.pow_le_mono_r; lia. }
  by rewrite Z.add_nocarry_lxor, Z.lxor_lor.
Qed.

(** The bytes of a version put together again. *)
Lemma version_bytes_value v :
  0 <= v < 2 ^ 32 ->
  let b0 := v / 16777216 mod 256 in let b1 := v / 65536 mod 256 in
  let b2 := v / 256 mod 256 in let b3 := v mod 256 in
  Z.lor (Z.lor (Z.lor (Z.shiftl b0 24) (Z.shiftl b1 16)) (Z.shiftl b2 8)) b3 = v.
Proof.
  intros Hv b0 b1 b2 b3.
  assert (H0 : 0 <= b0 < 256) by (apply Z.mod_pos_bound; lia).
  assert (H1 : 0 <= b1 < 256) by (apply Z.mod_pos_bound; lia).
  assert (H2 : 0 <= b2 < 256) by (apply Z.mod_pos_bound; lia).
  assert (H3 : 0 <= b3 < 256) by (apply Z.mod_pos_bound; lia).
  rewrite <- !Z.lor_assoc.
  replace (Z.lor (Z.shiftl b2 8) b3) with (b2 * 256 + b3) by (symmetry; apply shiftl_lor_add; lia).
  replace (Z.lor (Z.shiftl b1 16) (b2 * 256 + b3)) with (b1 * 65536 + (b2 * 256 + b3))
    by (symmetry; apply shiftl_lor_add; lia).
  rewrite shiftl_lor_add by lia. subst b0 b1 b2 b3. lia.
Qed.
End Schema.

Section Versions.
Context `{BoltLaws}.

Lemma schema_version_value v d d' :
  0 < v < 2 ^ 32 -> writeSchemaVersion v d = Ok (tt, d') -> readSchemaVersion d' = Ok v.
Proof.
  intros Hv. unfold writeSchemaVersion. destruct (has_bucket d metadataBucket) eqn:Hm; [|done].
  destruct (Z.eqb_spec v 0); [lia|]. cbn [negb orb].
  destruct (kv_put _ _ _ _) as [d1|] eqn:Hp; [|done]. intros [= <-].
  unfold readSchemaVersion. rewrite (put_buckets _ _ _ _ _ _ Hp), Hm. cbn [negb].
  rewrite (get_put_eq _ _ _ _ _ Hp).
  change (default "" (doc_bytes <$> Some (Bytes (of_bytes (version_bytes v)))))
    with (of_bytes (version_bytes v)).
  assert (Forall (fun b => 0 <= b < 256) (version_bytes v)) as Hr.
  { unfold version_bytes. repeat constructor; apply Z.mod_pos_bound; lia. }
  rewrite bytes_of_bytes by done. unfold version_bytes.
  rewrite version_bytes_value by lia. done.
Qed.

(** A schema version written is the version read back, for every 32-bit
    version but the reserved 0. *)
Theorem schema_version_roundtrip v d d' :
  0 < v < 2 ^ 32 -> writeSchemaVersion v d = Ok (tt, d') -> readSchemaVersion d' = Ok v.
Proof. apply schema_version_value. Qed.
End Versions.

Lemma schema_version_roundtrip_witness :
  exists d' : @db gmapBolt, readSchemaVersion d' = Ok 6.
Proof.
  eexists. apply (schema_version_roundtrip (H := gmapBolt) 6 {[metadataBucket := ∅]});
    [lia|reflexivity].
Defined.

(** * Migrations *)

Section Migrations.
Context `{BoltLaws} `{!BoltRoom}.

(** [d'] has the buckets of [d] and those of [l], and the same records. *)
Definition extended (l : list string) (d d' : db) : Prop :=
  (forall b, has_bucket d' b = true <-> has_bucket d b = true \/ b ∈ l) /\
  (forall b k, kv_get d' b k = kv_get d b k).

Lemma create_ok b d : key_fits b = true -> exists d', create b d = Ok (tt, d') /\ extended [b] d d'.
Proof.
  intros Hb. unfold create. pose proof (create_room d b Hb) as Hr.
  destruct (create_bucket d b) as [d'|] eqn:E; [|done]. exists d'. split; [done|]. split.
  - intros b'. rewrite list_elem_of_singleton. destruct (decide (b' = b)) as [->|Hne].
    + rewrite (create_has _ _ _ E). tauto.
    + rewrite (create_other _ _ _ _ E) by congruence. naive_solver.
  - intros. by eapply create_get.
Qed.

Lemma create_all_ok l d : forallb key_fits l = true -> exists d', create_all l d = Ok (tt, d') /\ extended l d d'.
Proof.
  intros Hl. revert d. induction l as [|b l IH]; intros d; simpl in *.
  { exists d. split; [done|]. split; [set_solver|done]. }
  apply andb_true_iff in Hl as [Hb Hl].
  destruct (create_ok b d Hb) as (d1 & E1 & Hb1 & Hg1). destruct (IH Hl d1) as (d2 & E2 & Hb2 & Hg2).
  exists d2. split.
  - unfold mbind, st_bind. by rewrite E1.
  - split; [|intros; by rewrite Hg2, Hg1]. intros b'. rewrite Hb2, Hb1. set_solver.
Qed.

(** The buckets a database of version [v] has. *)
Definition buckets_at (v : Z) : list string :=
  if v =? 0 then [] else metadataBucket :: take (Z.to_nat (7 + v)) dataBuckets.
Definition at_version (v : Z) (d : db) : Prop :=
  readSchemaVersion d = Ok v /\ forall b, b ∈ buckets_at v -> has_bucket d b = true.

(** Records other than the schema version are the same. *)
Definition data_kept (d d' : db) : Prop :=
  forall b k, (b, k) <> (metadataBucket, schemaVersionKey) -> kv_get d' b k = kv_get d b k.

Lemma write_version_ok v d :
  0 < v < 2 ^ 32 -> has_bucket d metadataBucket = true ->
  exists d', writeSchemaVersion v d = Ok (tt, d') /\ readSchemaVersion d' = Ok v /\
    data_kept d d' /\ forall b, has_bucket d' b = has_bucket d b.
Proof.
  intros Hv Hm.
  pose proof (put_room d metadataBucket schemaVersionKey (Bytes (of_bytes (version_bytes v))) Hm eq_refl) as Hr.
  assert (Hlen : doc_len (Bytes (of_bytes (version_bytes v))) = 4) by reflexivity.
  specialize (Hr ltac:(rewrite Hlen; done)).
  destruct (kv_put d _ _ _) as [d'|] eqn:E; [|done].
  assert (Hw : writeSchemaVersion v d = Ok (tt, d')).
  { unfold writeSchemaVersion. rewrite Hm, E. destruct (Z.eqb_spec v 0); [lia|done]. }
  exists d'. repeat split; [done|by eapply schema_version_value| |].
  - intros b k Hne. eapply get_put_ne; [exact E|congruence].
  - intros b. by eapply put_buckets.
Qed.

(** What each registered migration creates. *)
Definition created_by (v : Z) : list string :=
  if v =? 0 then metadataBucket :: initialDataBuckets
  else match dataBuckets !! Z.to_nat (7 + v) with Some b => [b] | None => [] end.

Lemma next_default v :
  0 <= v < 6 -> exists apply, nextMigration defaultMigrations v = Ok (mkMigration v (v + 1) (Some apply)) /\
    (forall d, exists d', apply d = Ok (tt, d') /\ extended (created_by v) d d') /\
    buckets_at (v + 1) = (buckets_at v ++ created_by v)%list.
Proof.
  intros Hv. assert (v = 0 \/ v = 1 \/ v = 2 \/ v = 3 \/ v = 4 \/ v = 5) as Hc by lia.
  destruct Hc as [->|[->|[->|[->|[->| ->]]]]]; (eexists; split; [reflexivity|]; split;
    [intros d|reflexivity]);
    try by apply create_ok.
  destruct (create_ok metadataBucket d eq_refl) as (d1 & E1 & Hb1 & Hg1).
  destruct (create_all_ok initialDataBuckets d1 eq_refl) as (d2 & E2 & Hb2 & Hg2).
  exists d2. split; [unfold applyInitialMigration, mbind, st_bind; by rewrite E1|].
  split; [|intros; by rewrite Hg2, Hg1]. intros b. rewrite Hb2, Hb1.
  change (created_by 0) with (metadataBucket :: initialDataBuckets).
  rewrite !elem_of_cons, elem_of_nil. tauto.
Qed.

(** One turn of the migration loop. *)
Lemma migrate_step v fuel d :
  0 <= v < 6 -> at_version v d ->
  exists d', at_version (v + 1) d' /\ data_kept d d' /\
    migrate_loop (S fuel) defaultMigrations 6 v d = migrate_loop fuel defaultMigrations 6 (v + 1) d'.
Proof.
  intros Hv [Hread Hb]. destruct (next_default v Hv) as (apply & Hn & Ha & Hbs).
  destruct (Ha d) as (d1 & E1 & Hb1 & Hg1).
  assert (Hm : has_bucket d1 metadataBucket = true).
  { apply Hb1. destruct (Z.eq_dec v 0) as [->|Hne]; [right; vm_compute; constructor|].
    left. apply Hb. unfold buckets_at. destruct (Z.eqb_spec v 0); [done|]. constructor. }
  destruct (write_version_ok (v + 1) d1 ltac:(lia) Hm) as (d2 & E2 & Hr2 & Hk2 & Hb2).
  exists d2. repeat split; [done| | |].
  - intros b. rewrite Hbs, elem_of_app. intros [Hin|Hin]; rewrite Hb2; apply Hb1; auto.
  - intros b k Hne. by rewrite Hk2, Hg1.
  - cbn [migrate_loop]. destruct (Z.ltb_spec v 6); [|lia].
    unfold st_lift, mbind, st_bind. rewrite Hn. cbn [mg_apply mg_to default from_option id].
    by rewrite E1, E2.
Qed.

Lemma migrate_loop_ok n v d :
  v = 6 - Z.of_nat n -> 0 <= v -> at_version v d ->
  exists d', migrate_loop n defaultMigrations 6 v d = Ok (tt, d') /\ at_version 6 d' /\ data_kept d d'.
Proof.
  revert v d. induction n as [|n IH]; intros v d Hn Hv Hat.
  { exists d. replace v with 6 in Hat by lia. split; [done|]. by split. }
  destruct (migrate_step v n d ltac:(lia) Hat) as (d1 & Hat1 & Hk1 & Hl).
  destruct (IH (v + 1) d1 ltac:(lia) ltac:(lia) Hat1) as (d2 & Hl2 & Hat2 & Hk2).
  exists d2. rewrite Hl. repeat split; try done; [apply Hat2|apply Hat2|].
  intros b k Hne. by rewrite Hk2, Hk1.
Qed.

Lemma at_current_ensured d : at_version 6 d -> ensureDataBuckets d = Ok tt.
Proof.
  intros [_ Hb]. unfold ensureDataBuckets.
  assert (forallb (has_bucket d) dataBuckets = true) as ->; [|done].
  apply forallb_forall. intros b Hin. apply Hb, list_elem_of_In. by right.
Qed.

(** Opening a database of any supported schema version, an empty file
    included, brings it to the current version with every bucket of the
    contract present and every record it held unchanged. *)
Lemma migrate_reaches_current v d :
  0 <= v <= CurrentSchemaVersion -> at_version v d ->
  exists d', migrate defaultMigrations d = (Ok tt, d') /\
    readSchemaVersion d' = Ok CurrentSchemaVersion /\
    (forall b, b ∈ dataBuckets -> has_bucket d' b = true) /\ data_kept d d'.
Proof.
  unfold CurrentSchemaVersion. intros Hv Hat. pose proof (proj1 Hat) as Hread.
  destruct (migrate_loop_ok (Z.to_nat (6 - v)) v d ltac:(lia) ltac:(lia) Hat) as (d' & Hl & Hat' & Hk).
  exists d'. repeat split; [|apply Hat'| |done].
  - change (migrate defaultMigrations d) with (Update (migrate_body defaultMigrations 6) d).
    apply Update_room. unfold migrate_body, st_get, st_lift, mbind, st_bind. rewrite Hread.
    destruct (Z.ltb_spec 6 v); [lia|]. by rewrite Hl, at_current_ensured.
  - intros b Hin. apply Hat'. by right.
Qed.

(** A database written by a newer binary is refused and left as it is. *)
Theorem migrate_refuses_newer v d :
  CurrentSchemaVersion < v -> readSchemaVersion d = Ok v ->
  migrate defaultMigrations d = (Fail ErrUnsupportedSchema, d).
Proof.
  unfold CurrentSchemaVersion. intros Hv Hread.
  change (migrate defaultMigrations d) with (Update (migrate_body defaultMigrations 6) d).
  unfold Update, migrate_body, st_get, st_lift, mbind, st_bind. rewrite Hread.
  by destruct (Z.ltb_spec 6 v); [|lia].
Qed.
End Migrations.

Definition empty_database : @db gmapBolt := ∅.
Definition newer_database : @db gmapBolt :=
  {[metadataBucket := {[schemaVersionKey := Bytes (of_bytes (version_bytes 7))]}]}.

Lemma migrate_reaches_current_witness :
  exists d', migrate defaultMigrations empty_database = (Ok tt, d') /\
    readSchemaVersion d' = Ok CurrentSchemaVersion.
Proof.
  destruct (migrate_reaches_current (H := gmapBolt) 0 empty_database) as (d' & Hm & Hr & _).
  - unfold CurrentSchemaVersion. lia.
  - split; [reflexivity|]. intros b Hin. vm_compute in Hin. inversion Hin.
  - exists d'. exact (conj Hm Hr).
Defined.

Lemma migrate_refuses_newer_witness :
  migrate defaultMigrations newer_database = (Fail ErrUnsupportedSchema, newer_database).
Proof.
  apply (migrate_refuses_newer (H := gmapBolt) 7); [reflexivity|reflexivity].
Defined.
