(* ===== verification/Redaction.v ===== *)
(** Secret and PII detection of src/internal/redaction/redaction.go, over a
    small model of Go's [regexp]: leftmost-first matching of patterns whose
    repetitions are over character classes, which is all the package uses. *)
From S2P Require Import Prelude GoLib.
From stdpp Require Import options.
Local Open Scope Z_scope.

(** * Regular expressions on runes *)

Inductive regex :=
| Class (p : Z -> bool)
| Rep (greedy : bool) (p : Z -> bool) (min : nat) (max : option nat)
| Seq (r1 r2 : regex)
| Alt (r1 r2 : regex)
| Empty
| Group (n : nat) (r : regex)
| WordBoundary
| EndText.

(** A successful match so far: the end position and the groups captured. *)
Definition captures := list (nat * (nat * nat)).

Definition is_digit (r : Z) : bool := (48 <=? r) && (r <=? 57).
Definition is_upper (r : Z) : bool := (65 <=? r) && (r <=? 90).
Definition is_lower (r : Z) : bool := (97 <=? r) && (r <=? 122).
Definition is_word (r : Z) : bool := is_digit r || is_upper r || is_lower r || (r =? 95).
Definition is_space (r : Z) : bool := (r =? 9) || (r =? 10) || (r =? 12) || (r =? 13) || (r =? 32).

Definition word_at (s : list Z) (i : nat) : bool :=
  match s !! i with Some r => is_word r | None => false end.
Definition at_boundary (s : list Z) (i : nat) : bool :=
  xorb (match i with O => false | S j => word_at s j end) (word_at s i).

(** How many runes from [l] on are in the class, [limit] at most. *)
Fixpoint run_length (p : Z -> bool) (limit : nat) (l : list Z) : nat :=
  match limit, l with
  | S limit', r :: l' => if p r then S (run_length p limit' l') else O
  | _, _ => O
  end.

(** The ways a pattern matches at a position, the preferred ones first. *)
Fixpoint matches (r : regex) (s : list Z) (i : nat) (c : captures) : list (nat * captures) :=
  match r with
  | Class p => match s !! i with Some x => if p x then [(S i, c)] else [] | None => [] end
  | Rep greedy p min max =>
    let n := run_length p (default (length s) max) (drop i s) in
    if (n <? min)%nat then []
    else
      let ends := map (fun k => ((i + k)%nat, c)) (seq min (S n - min)) in
      if greedy then reverse ends else ends
  | Seq r1 r2 => flat_map (fun jc => matches r2 s (fst jc) (snd jc)) (matches r1 s i c)
  | Alt r1 r2 => (matches r1 s i c ++ matches r2 s i c)%list
  | Empty => [(i, c)]
  | Group n r1 => map (fun jc => (fst jc, (n, (i, fst jc)) :: snd jc)) (matches r1 s i c)
  | WordBoundary => if at_boundary s i then [(i, c)] else []
  | EndText => if (i =? length s)%nat then [(i, c)] else []
  end.

(** The leftmost match from position [i] on. *)
Fixpoint find_from (fuel : nat) (r : regex) (s : list Z) (i : nat) : option (nat * nat * captures) :=
  match fuel with
  | O => None
  | S fuel' =>
    match matches r s i [] with
    | (j, c) :: _ => Some (i, j, c)
    | [] => find_from fuel' r s (S i)
    end
  end.

(** [MatchString]. *)
Definition match_string (r : regex) (s : list Z) : bool :=
  match find_from (S (length s)) r s 0 with Some _ => true | None => false end.

(** [FindAll...(s, -1)]: successive matches, none of which is empty. *)
Fixpoint find_all (fuel : nat) (r : regex) (s : list Z) (i : nat) : list (nat * nat * captures) :=
  match fuel with
  | O => []
  | S fuel' =>
    match find_from (S (length s - i)) r s i with
    | Some (a, b, c) => (a, b, c) :: find_all fuel' r s (if (b =? a)%nat then S b else b)
    | None => []
    end
  end.

Definition substring (s : list Z) (a b : nat) : list Z := take (b - a) (drop a s).
Definition group (s : list Z) (c : captures) (n : nat) : list Z :=
  match find_first (fun p => (fst p =? n)%nat) c with
  | Some (_, (a, b)) => substring s a b
  | None => []
  end.

(** [ReplaceAllString] with the template as a function of the groups. *)
Fixpoint replace_from (s : list Z) (i : nat) (ms : list (nat * nat * captures))
    (template : captures -> list Z) : list Z :=
  match ms with
  | [] => drop i s
  | (a, b, c) :: ms' => (substring s i a ++ template c ++ replace_from s b ms' template)%list
  end.
Definition replace_all (r : regex) (s : list Z) (template : captures -> list Z) : list Z :=
  replace_from s 0 (find_all (S (length s)) r s 0) template.

(** ** Pattern notation *)

Definition seqs (l : list regex) : regex := foldr Seq Empty l.
Fixpoint alts (l : list regex) : regex :=
  match l with
  | [] => Class (fun _ => false)
  | [r] => r
  | r :: l' => Alt r (alts l')
  end.
Definition opt (r : regex) : regex := Alt r Empty.
Definition star (p : Z -> bool) : regex := Rep true p 0 None.
Definition lazy_star (p : Z -> bool) : regex := Rep false p 0 None.
Definition plus (p : Z -> bool) : regex := Rep true p 1 None.
Definition at_least (n : nat) (p : Z -> bool) : regex := Rep true p n None.
Definition between (n m : nat) (p : Z -> bool) : regex := Rep true p n (Some m).

Definition any_of (s : string) (r : Z) : bool := existsb (Z.eqb r) (bytes s).

(** The case folding of [(?i)]: letters and the two non-ASCII runes that fold
    to ASCII letters. *)
Definition letter_i (r : Z) : bool := is_upper r || is_lower r || (r =? 383) || (r =? 8490).
Definition fold_i (r : Z) : Z :=
  if is_upper r then r + 32 else if r =? 383 then 115 else if r =? 8490 then 107 else r.
Definition lit_i (s : string) : regex :=
  seqs (map (fun b => Class (fun r => fold_i r =? fold_i b)) (bytes s)).

Definition alnum_i (extra : string) (r : Z) : bool := letter_i r || is_digit r || any_of extra r.

(** * The patterns *)

Definition sensitiveLabel : regex :=
  Alt (seqs [lazy_star (alnum_i "_-");
             alts [seqs [lit_i "api"; opt (Class (any_of "_-")); lit_i "key"];
                   lit_i "token"; lit_i "password"; lit_i "secret"; lit_i "credential";
                   seqs [lit_i "private"; opt (Class (any_of "_-")); lit_i "key"]]])
      (seqs [lit_i "customer"; opt (Class (any_of "_-"));
             alts [lit_i "id"; lit_i "name"; lit_i "email"; lit_i "phone"]]).

Definition value_rune (r : Z) : bool := negb (is_space r || any_of ",;" r).

Definition labeledValuePattern : regex :=
  seqs [WordBoundary; Group 1 sensitiveLabel; WordBoundary; star is_space;
        Group 2 (Class (any_of ":=")); star is_space; Group 3 (plus value_rune)].
Definition emptyLabelPattern : regex :=
  seqs [WordBoundary; sensitiveLabel; WordBoundary; star is_space; Class (any_of ":=");
        star is_space; Alt EndText (Class (any_of ",;"))].
Definition authorizationPattern : regex :=
  seqs [WordBoundary; lit_i "authorization"; star is_space; Class (any_of ":="); star is_space;
        Group 1 (opt (seqs [lit_i "bearer"; plus is_space])); Group 2 (plus value_rune)].
Definition emailPattern : regex :=
  seqs [WordBoundary; plus (alnum_i "._%+-"); lit_i "@"; plus (alnum_i ".-"); lit_i ".";
        at_least 2 letter_i; WordBoundary].
Definition phonePattern : regex :=
  seqs [WordBoundary;
        opt (seqs [opt (Class (any_of "+")); between 1 3 is_digit; opt (Class (any_of " -"))]);
        opt (seqs [between 2 4 is_digit; opt (Class (any_of " -"))]);
        between 3 4 is_digit; Class (any_of " -"); between 4 4 is_digit; WordBoundary].
Definition opaqueTokenPattern : regex :=
  seqs [WordBoundary;
        alts [seqs [lit_i "ghp_"; at_least 20 (alnum_i "")];
              seqs [lit_i "github_pat_"; at_least 20 (alnum_i "_")];
              seqs [lit_i "xox"; Class (fun r => any_of "baprs" (fold_i r)); lit_i "-"; at_least 10 (alnum_i "-")];
              seqs [lit_i "sk"; Class (any_of "-_"); at_least 8 (alnum_i "_-")];
              seqs [lit_i "AKIA"; between 16 16 (alnum_i "")];
              seqs [lit_i "AIza"; at_least 20 (alnum_i "_-")];
              seqs [lit_i "whsec_"; at_least 16 (alnum_i "_+/=-")]];
        WordBoundary].
Definition unknownTokenPattern : regex :=
  seqs [WordBoundary; Class letter_i; between 2 24 (alnum_i "_-"); Class (any_of ".~");
        at_least 20 (alnum_i "_-"); WordBoundary].

(** * Detection and redaction *)

Definition rune_list (s : string) : list Z := map fst (runes s).

Definition isMarker (value : list Z) : bool :=
  existsb (fun m => bool_decide (value = bytes m))
    ["[REDACTED]"; "[REDACTED_EMAIL]"; "[REDACTED_PHONE]"; "[REDACTED_TOKEN]"].

Definition malformed (value : string) : bool :=
  negb (valid_utf8 value) || contains_byte value 0 ||
  match_string emptyLabelPattern (rune_list value).

Definition ContainsSensitive (value : string) : bool :=
  if malformed value then true
  else
    let s := rune_list value in
    if existsb (fun m => negb (isMarker (group s (snd m) 3))) (find_all (S (length s)) labeledValuePattern s 0)
    then true
    else if existsb (fun m => negb (isMarker (group s (snd m) 2))) (find_all (S (length s)) authorizationPattern s 0)
    then true
    else match_string emailPattern s || match_string phonePattern s ||
         match_string opaqueTokenPattern s || match_string unknownTokenPattern s.

Definition of_runes (l : list Z) : string := of_bytes (concat (map encode_rune l)).

Definition Redact (value : string) : string * bool :=
  if malformed value then ("", false)
  else
    let s0 := rune_list value in
    let s1 := replace_all authorizationPattern s0
                (fun c => (bytes "Authorization: " ++ group s0 c 1 ++ bytes "[REDACTED]")%list) in
    let s2 := replace_all labeledValuePattern s1
                (fun c => (group s1 c 1 ++ group s1 c 2 ++ bytes "[REDACTED]")%list) in
    let s3 := replace_all emailPattern s2 (fun _ => bytes "[REDACTED_EMAIL]") in
    let s4 := replace_all phonePattern s3 (fun _ => bytes "[REDACTED_PHONE]") in
    let s5 := replace_all opaqueTokenPattern s4 (fun _ => bytes "[REDACTED_TOKEN]") in
    let redacted := of_runes s5 in
    if ContainsSensitive redacted then ("", false) else (redacted, true).

Lemma redact_password :
  Redact "password=hunter2, ok" = ("password=[REDACTED], ok", true).
Proof. vm_compute. reflexivity. Qed.

Lemma redact_bearer :
  Redact "Authorization: Bearer abc" = ("Authorization: Bearer [REDACTED]", true).
Proof. vm_compute. reflexivity. Qed.

Lemma sensitive_mail : ContainsSensitive "mail bob@example.com now" = true.
Proof. vm_compute. reflexivity. Qed.

Lemma sensitive_plain : ContainsSensitive "restart-checkout" = false.
Proof. vm_compute. reflexivity. Qed.

(** * Texts no pattern matches

    A pattern that needs a rune outside a text's alphabet matches nowhere in
    the text. *)
Fixpoint unmatched (alphabet : list Z) (r : regex) : bool :=
  match r with
  | Class p => forallb (fun x => negb (p x)) alphabet
  | Rep _ p min _ => (0 <? min)%nat && forallb (fun x => negb (p x)) alphabet
  | Seq r1 r2 => unmatched alphabet r1 || unmatched alphabet r2
  | Alt r1 r2 => unmatched alphabet r1 && unmatched alphabet r2
  | Group _ r1 => unmatched alphabet r1
  | Empty | WordBoundary | EndText => false
  end.

Definition no_match (r : regex) (s : list Z) : Prop := forall i c, matches r s i c = [].

Lemma no_match_seq_l r1 r2 s : no_match r1 s -> no_match (Seq r1 r2) s.
Proof. intros Hn i c. cbn. by rewrite Hn. Qed.
Lemma no_match_seq_r r1 r2 s : no_match r2 s -> no_match (Seq r1 r2) s.
Proof. intros Hn i c. cbn. induction (matches r1 s i c) as [|jc l IH]; [done|]. cbn. by rewrite Hn. Qed.

Lemma alphabet_lacks (alphabet s : list Z) (p : Z -> bool) i x :
  Forall (fun y => y ∈ alphabet) s -> forallb (fun y => negb (p y)) alphabet = true -> s !! i = Some x -> p x = false.
Proof.
  intros Ha Hp Hx. rewrite forallb_forall in Hp. apply negb_true_iff, Hp, list_elem_of_In.
  by eapply Forall_lookup_1 in Ha.
Qed.

Lemma unmatched_no_match alphabet r s :
  Forall (fun x => x ∈ alphabet) s -> unmatched alphabet r = true -> no_match r s.
Proof.
  intros Ha. induction r as [p|g p min max|r1 IH1 r2 IH2|r1 IH1 r2 IH2| |n r IH| |]; cbn [unmatched]; try done.
  - intros Hp i c. cbn. destruct (s !! i) as [x|] eqn:Ex; [|done]. by rewrite (alphabet_lacks _ _ _ _ _ Ha Hp Ex).
  - intros [Hm Hp]%andb_true_iff i c. cbn. apply Nat.ltb_lt in Hm.
    assert (Hz : run_length p (default (length s) max) (drop i s) = 0%nat).
    { destruct (default _ _); [done|]. cbn. destruct (drop i s) as [|x l] eqn:Ed; [done|].
      assert (Hx : s !! i = Some x) by (rewrite <- (Nat.add_0_r i), <- lookup_drop, Ed; done).
      by rewrite (alphabet_lacks _ _ _ _ _ Ha Hp Hx). }
    rewrite Hz. destruct min; [lia|done].
  - intros [H|H]%orb_true_iff; [by apply no_match_seq_l, IH1|by apply no_match_seq_r, IH2].
  - intros [H1 H2]%andb_true_iff i c. cbn. by rewrite (IH1 H1), (IH2 H2).
  - intros H i c. cbn. by rewrite (IH H).
Qed.

Lemma no_match_find r s fuel i : no_match r s -> find_from fuel r s i = None.
Proof. intros Hn. revert i. induction fuel as [|fuel IH]; intros i; cbn; [done|]. by rewrite Hn. Qed.
Lemma no_match_string r s : no_match r s -> match_string r s = false.
Proof. intros Hn. unfold match_string. by rewrite no_match_find. Qed.
Lemma no_match_all r s fuel i : no_match r s -> find_all fuel r s i = [].
Proof. intros Hn. destruct fuel; [done|]. cbn [find_all]. by rewrite no_match_find. Qed.

(** Runes of a run are of its class. *)
Lemma run_length_class p limit l k x : (k < run_length p limit l)%nat -> l !! k = Some x -> p x = true.
Proof.
  revert limit k. induction l as [|y l IH]; intros limit k; destruct limit; cbn; try lia.
  destruct (p y) eqn:Ep; [|lia]. destruct k; [by intros _ [= <-]|]. cbn. intros Hk. apply IH with limit. lia.
Qed.

(** A non-empty run, then a rune of another class, needs two neighbours. *)
Lemma no_match_after_run g p min max q rest s :
  (0 < min)%nat -> (forall i x y, s !! i = Some x -> s !! S i = Some y -> p x = true -> q y = false) ->
  no_match (Seq (Rep g p min max) (Seq (Class q) rest)) s.
Proof.
  intros Hmin Hs i c. cbn [matches]. cbv zeta. set (n := run_length _ _ _). destruct (n <? min)%nat eqn:En; [done|].
  assert (Hk : forall l, Forall (fun jc : nat * captures => exists k, (0 < k <= n)%nat /\ jc.1 = (i + k)%nat) l ->
    flat_map (fun jc => flat_map (fun jc0 => matches rest s jc0.1 jc0.2)
      match s !! jc.1 with Some x => if q x then [(S jc.1, jc.2)] else [] | None => [] end) l = []).
  { induction 1 as [|[j c'] l (k & Hk & Hj) _ IH]; [done|]. cbn [flat_map fst snd] in *. rewrite IH, app_nil_r.
    destruct (s !! j) as [y|] eqn:Ey; [|done]. subst j. destruct k as [|k]; [lia|]. rewrite Nat.add_succ_r in Ey.
    assert (is_Some (s !! (i + k)%nat)) as [x Ex] by (apply lookup_lt_is_Some; apply lookup_lt_Some in Ey; lia).
    rewrite (Hs _ _ _ Ex Ey); [done|]. eapply (run_length_class p _ (drop i s) k); [|by rewrite lookup_drop].
    unfold n in Hk. instantiate (1 := default (length s) max). lia. }
  apply Hk. assert (Hf : Forall (fun jc : nat * captures => exists k, (0 < k <= n)%nat /\ jc.1 = (i + k)%nat)
    (map (fun k => ((i + k)%nat, c)) (seq min (S n - min)))).
  { apply Forall_forall. intros [j c'] (k & [= -> _] & Hin%elem_of_seq)%list_elem_of_fmap. exists k. split; [lia|done]. }
  destruct g; [by apply Forall_reverse|done].
Qed.

(** Digests are such texts: their letters end before those the patterns need. *)
Lemma phone_no_match s :
  (forall i x y, s !! i = Some x -> s !! S i = Some y -> is_digit x = true -> any_of " -" y = false) ->
  match_string phonePattern s = false.
Proof.
  intros Hs. apply no_match_string. unfold phonePattern, seqs. cbn [foldr].
  do 3 apply no_match_seq_r. by apply no_match_after_run; [lia|].
Qed.
