(* ===== verification/AuditChain.v ===== *)
(** The digest-linked audit chain of src/internal/audit/chain.go, stored in
    the append-only audit bucket. *)
From S2P Require Import Prelude GoLib GoTime Sha256 Json Contract ContractFacts Store Redaction.
From stdpp Require Import options.
Local Open Scope Z_scope.

Definition maxFieldBytes : Z := 128.
Definition maxUint64 : Z := 18446744073709551615.

Definition audit_error := mkError "audit".
Definition ErrInvalidEvent := audit_error "invalid audit event".
Definition ErrChainInvalid := audit_error "audit chain invalid".
Definition ErrChainCapacity := audit_error "audit chain capacity exhausted".

Record chainState := mkChainState { nextIndex : Z; previousDigest : string }.
#[export] Instance chainState_eq_dec : EqDecision chainState.
Proof. solve_decision. Defined.

(** * Fields *)

Definition audit_rune (r : Z) : bool :=
  is_lower r || is_upper r || is_digit r || existsb (Z.eqb r) (bytes "._-:/@").

Definition validAuditField (value : string) : bool :=
  if String.eqb value "" || (maxFieldBytes <? go_len value) then false
  else if ContainsSensitive value then false
  else forallb audit_rune (map fst (runes value)).

Definition event_fields (event : AuditEvent) : list string :=
  [ev_EventID event; ev_AggregateType event; ev_AggregateID event; ev_ActorIdentity event;
   ev_Action event; ev_Result event; ev_ReasonCode event].

Definition validateEventFields (event : AuditEvent) : result unit :=
  if negb (String.eqb (ev_SchemaVersion event) SchemaVersionV1) || is_zero (ev_OccurredAt event)
  then Fail ErrInvalidEvent
  else for_each (fun value => if negb (validAuditField value) then Fail ErrInvalidEvent else Ok tt)
         (event_fields event).

Definition validDigest (value : string) : bool :=
  if negb (go_len value =? 64) then false else hex_decodable value.

Definition validateStoredEvent (event : AuditEvent) : result unit :=
  validateEventFields event ≫= fun _ =>
  if negb (validDigest (ev_Digest event)) ||
     (negb (String.eqb (ev_PreviousDigest event) "") && negb (validDigest (ev_PreviousDigest event)))
  then Fail ErrInvalidEvent else Ok tt.

(** * Digests *)

(** The canonical object: the immutable fields in a fixed order, the instant
    as text. *)
Definition canonical_json (event : AuditEvent) : json :=
  JObj [("schema_version", JStr (ev_SchemaVersion event));
        ("event_id", JStr (ev_EventID event));
        ("aggregate_type", JStr (ev_AggregateType event));
        ("aggregate_id", JStr (ev_AggregateID event));
        ("actor_identity", JStr (ev_ActorIdentity event));
        ("action", JStr (ev_Action event));
        ("result", JStr (ev_Result event));
        ("reason_code", JStr (ev_ReasonCode event));
        ("occurred_at", JStr (rfc3339 (utc (ev_OccurredAt event))));
        ("previous_digest", JStr (ev_PreviousDigest event))].

Definition canonicalBytes (event : AuditEvent) : result string :=
  validateEventFields event ≫= fun _ =>
  if negb (String.eqb (ev_PreviousDigest event) "") && negb (validDigest (ev_PreviousDigest event))
  then Fail ErrInvalidEvent
  else Ok (render (canonical_json event)).

Definition CanonicalDigest (event : AuditEvent) : result string :=
  canonicalBytes event ≫= fun canonical => Ok (sha256_hex canonical).

(** * The stored chain *)

(** [fmt.Sprintf("%020d", index)]: a [uint64] has at most twenty digits. *)
Definition eventKey (index : Z) : string := of_bytes (digits 20 index).

Definition event_options : DecodeOptions AuditEvent :=
  {| MaxBytes := 0; SchemaVersion := SchemaVersionV1; Validate := Some validateStoredEvent |}.

Definition decodeEvent (doc : document) : result AuditEvent :=
  match Decode doc event_options with
  | Fail _ => Fail ErrChainInvalid
  | Ok event =>
    match CanonicalDigest event with
    | Fail _ => Fail ErrChainInvalid
    | Ok expected =>
      if String.eqb (ev_Digest event) expected then Ok event else Fail ErrChainInvalid
    end
  end.

(** One step of the iteration: the state and the event IDs seen. *)
Definition chain_step (acc : chainState * gset string) (key : string) (doc : document) :
    result (chainState * gset string) :=
  let '(state, seen) := acc in
  if negb (String.eqb key (eventKey (nextIndex state))) then Fail ErrChainInvalid
  else
    decodeEvent doc ≫= fun event =>
    if negb (String.eqb (ev_PreviousDigest event) (previousDigest state)) then Fail ErrChainInvalid
    else if decide (ev_EventID event ∈ seen) then Fail ErrChainInvalid
    else if nextIndex state =? maxUint64 then Fail ErrChainCapacity
    else Ok (mkChainState (nextIndex state + 1) (ev_Digest event), {[ev_EventID event]} ∪ seen).

Section Audit.
Context `{Bolt}.

Definition readChain : st db chainState := fun d =>
  match ForEach BucketAudit (mkChainState 0 "", ∅) chain_step d with
  | Ok ((state, _), d') => Ok (state, d')
  | Fail e => if decide (e = ErrChainCapacity) then Fail ErrChainCapacity else Fail ErrChainInvalid
  end.

Definition ValidateChain : st db unit := readChain ≫= fun _ => mret tt.

Definition Append (event : AuditEvent) (change : option (st db unit)) : st db AuditEvent :=
  readChain ≫= fun state =>
  if negb (String.eqb (ev_PreviousDigest event) "") || negb (String.eqb (ev_Digest event) "")
  then st_fail ErrInvalidEvent
  else
    let event := event <| ev_OccurredAt := utc (ev_OccurredAt event) |> in
    st_lift (validateEventFields event) ≫= fun _ =>
    match change with
    | None => mret tt
    | Some change =>
      change ≫= fun _ =>
      readChain ≫= fun afterChange =>
      if decide (afterChange = state) then mret tt else st_fail ErrChainInvalid
    end ≫= fun _ =>
    if nextIndex state =? maxUint64 then st_fail ErrChainCapacity
    else
      let event := event <| ev_PreviousDigest := previousDigest state |> in
      st_lift (CanonicalDigest event) ≫= fun digest =>
      let event := event <| ev_Digest := digest |> in
      match Marshal event with
      | None => st_fail (mkError "json" "unsupported value")
      | Some document =>
        AppendAudit (eventKey (nextIndex state)) document ≫= fun _ => mret event
      end.
End Audit.

(** * Keys *)

Lemma of_bytes_le p x y s1 s2 :
  0 <= x < 256 -> 0 <= y < 256 -> x < y ->
  String.le (of_bytes (p ++ x :: s1)%list) (of_bytes (p ++ y :: s2)%list).
Proof.
  intros Hx Hy Hxy. unfold String.le. rewrite Is_true_true. unfold String.leb.
  induction p as [|b p IH]; simpl.
  - unfold Ascii.compare, of_byte. rewrite !Ascii.N_ascii_embedding by lia.
    assert ((Z.to_N x ?= Z.to_N y)%N = Lt) as -> by (apply N.compare_lt_iff; lia). done.
  - unfold Ascii.compare at 1. rewrite N.compare_refl. exact IH.
Qed.

(** Fixed-width digits of a smaller number differ at a smaller digit. *)
Lemma digits_split w a b :
  0 <= a < b -> b < 10 ^ Z.of_nat w ->
  exists p x y s1 s2, digits w a = (p ++ x :: s1)%list /\ digits w b = (p ++ y :: s2)%list /\
    48 <= x < y /\ y <= 57.
Proof.
  revert a b. induction w as [|w IH]; intros a b Hab Hb; [simpl in Hb; lia|].
  replace (Z.of_nat (S w)) with (Z.of_nat w + 1) in Hb by lia.
  rewrite Z.pow_add_r in Hb by lia. simpl.
  pose proof (Z.mod_pos_bound a 10 ltac:(lia)). pose proof (Z.mod_pos_bound b 10 ltac:(lia)).
  pose proof (Z.div_mod a 10 ltac:(lia)). pose proof (Z.div_mod b 10 ltac:(lia)).
  destruct (Z.lt_ge_cases (a / 10) (b / 10)) as [Hlt|Hge].
  - destruct (IH (a / 10) (b / 10)) as (p & x & y & s1 & s2 & -> & -> & Hxy & Hy).
    { split; [apply Z.div_pos; lia|done]. }
    { apply Z.div_lt_upper_bound; lia. }
    exists p, x, y, (s1 ++ [48 + a mod 10])%list, (s2 ++ [48 + b mod 10])%list.
    rewrite <- !app_assoc. split_and!; [done|done|lia..].
  - assert (a / 10 = b / 10) as Heq by (pose proof (Z.div_le_mono a b 10); lia).
    exists (digits w (b / 10)), (48 + a mod 10), (48 + b mod 10), [], []. rewrite Heq. split_and!; [done|done|lia..].
Qed.

(** Keys iterate in the order of their numbers. *)
Lemma eventKey_lt a b :
  0 <= a < b -> b <= maxUint64 -> String.le (eventKey a) (eventKey b) /\ eventKey a <> eventKey b.
Proof.
  unfold maxUint64. intros Hab Hb.
  destruct (digits_split 20 a b Hab ltac:(simpl; lia)) as (p & x & y & s1 & s2 & Ha & Hb' & Hxy & Hy).
  unfold eventKey. split.
  - rewrite Ha, Hb'. apply of_bytes_le; lia.
  - intros Heq. apply (f_equal bytes) in Heq.
    rewrite !bytes_of_bytes in Heq
      by (eapply Forall_impl; [apply digits_range|]; simpl; lia).
    apply (digits_inj 20) in Heq; simpl; lia.
Qed.

Lemma eventKey_length i : String.length (eventKey i) = 20%nat.
Proof.
  unfold eventKey. assert (Hl : forall l, String.length (of_bytes l) = length l) by (induction l; simpl; congruence).
  by rewrite Hl, length_digits.
Qed.
Lemma eventKey_nonempty i : eventKey i <> "".
Proof. intros H. apply (f_equal String.length) in H. by rewrite eventKey_length in H. Qed.
Lemma eventKey_fits i : key_fits (eventKey i) = true.
Proof.
  unfold key_fits, go_len, maxKeySize. rewrite eventKey_length.
  destruct (String.eqb_spec (eventKey i) ""); [by apply eventKey_nonempty in e|done].
Qed.

(** * Text without escapes *)

Definition clean_byte (b : Z) : bool :=
  (32 <=? b) && (b <? 127) && negb (existsb (Z.eqb b) [34; 92; 60; 62; 38]).
Definition clean (s : string) : bool := forallb clean_byte (bytes s).

Lemma clean_byte_escape b : clean_byte b = true -> escape_rune b = [b] /\ b <> 34 /\ 0 <= b < 128.
Proof.
  unfold clean_byte, escape_rune, encode_rune. intros Hc.
  apply andb_true_iff in Hc as [Hr Hc]. bool_prop.
  cbn [existsb] in Hc. rewrite !orb_false_iff, !Z.eqb_neq in Hc.
  repeat match goal with
  | |- context [ ?x =? ?y ] => destruct (Z.eqb_spec x y); [lia|]
  | |- context [ ?x <? ?y ] => destruct (Z.ltb_spec x y); try lia
  | |- context [ ?x <=? ?y ] => destruct (Z.leb_spec x y); try lia
  end; simpl; split; try done; lia.
Qed.

Lemma clean_ascii s : clean s = true -> ascii_only s = true.
Proof.
  unfold clean, ascii_only. rewrite !forallb_forall. intros Hc b Hb.
  destruct (clean_byte_escape b (Hc b Hb)) as (_ & _ & Hr). apply Z.ltb_lt. lia.
Qed.

Lemma clean_valid_utf8 s : clean s = true -> valid_utf8 s = true.
Proof. intros Hc. by apply ascii_valid_utf8, clean_ascii. Qed.

(** The text of a clean string is the string between quotes. *)
Lemma clean_text s :
  clean s = true -> bytes (string_text s) = (34 :: bytes s ++ [34])%list.
Proof.
  intros Hc. unfold string_text, quote. rewrite !bytes_app. simpl. f_equal. f_equal.
  unfold runes. rewrite <- length_bytes, ascii_runes; [|done|by apply clean_ascii].
  rewrite map_map. simpl. unfold clean in Hc. pose proof (bytes_range s) as Hr.
  assert (Hconc : concat (map (fun b => escape_unit (b, 1%nat)) (bytes s)) = bytes s).
  { induction (bytes s) as [|b l IH]; [done|]. cbn [map concat forallb] in *.
    apply andb_true_iff in Hc as [Hb Hc]. apply Forall_cons in Hr as [_ Hr].
    destruct (clean_byte_escape b Hb) as (He & _ & Hlt).
    assert (escape_unit (b, 1%nat) = [b]) as ->.
    { unfold escape_unit. cbn [fst snd]. by rewrite (proj2 (Z.eqb_neq b runeError)), He by (unfold runeError; lia). }
    cbn [app]. by rewrite IH. }
  rewrite Hconc. by apply bytes_of_bytes.
Qed.

Lemma clean_no_quote s : clean s = true -> Forall (fun b => b <> 34) (bytes s).
Proof.
  unfold clean. rewrite forallb_forall. intros Hc. apply Forall_forall. intros b Hb%list_elem_of_In.
  by destruct (clean_byte_escape b (Hc b Hb)) as (_ & ? & _).
Qed.

Lemma hex_clean s : hex_decodable s = true -> clean s = true.
Proof.
  unfold hex_decodable, clean. intros [_ Hh]%andb_true_iff. rewrite forallb_forall in Hh |- *.
  intros b Hb. specialize (Hh b Hb). unfold is_hex in Hh. unfold clean_byte.
  rewrite !orb_true_iff, !andb_true_iff, !Z.leb_le in Hh.
  rewrite !andb_true_iff, Z.leb_le, Z.ltb_lt, negb_true_iff. cbn [existsb].
  rewrite !orb_false_iff, !Z.eqb_neq. lia.
Qed.

Lemma rfc3339_clean t : clean (rfc3339 t) = true.
Proof.
  unfold clean, rfc3339.
  rewrite bytes_of_bytes by (eapply Forall_impl; [apply rfc3339_bytes_range|]; simpl; lia).
  apply forallb_forall. intros b Hb%list_elem_of_In.
  pose proof (rfc3339_bytes_strict t) as Hr. rewrite Forall_forall in Hr. specialize (Hr b Hb).
  unfold clean_byte. rewrite !andb_true_iff, Z.leb_le, Z.ltb_lt, negb_true_iff. cbn [existsb].
  rewrite !orb_false_iff, !Z.eqb_neq. simpl in Hr. lia.
Qed.

Lemma audit_rune_clean r : audit_rune r = true -> clean_byte r = true.
Proof.
  unfold audit_rune, clean_byte, is_lower, is_upper, is_digit.
  change (bytes "._-:/@") with [46; 95; 45; 58; 47; 64]. cbn [existsb].
  rewrite !orb_true_iff, !andb_true_iff, !Z.leb_le, !Z.eqb_eq, Z.ltb_lt, negb_true_iff, !orb_false_iff, !Z.eqb_neq.
  lia.
Qed.

Lemma audit_runes_clean fuel l :
  (length l <= fuel)%nat -> Forall (fun b => 0 <= b < 256) l ->
  forallb audit_rune (map fst (runes_fuel fuel l)) = true -> forallb clean_byte l = true.
Proof.
  revert l. induction fuel as [|fuel IH]; intros [|b l] Hf Hr Ha; try done; [simpl in Hf; lia|].
  cbn [runes_fuel map forallb] in Ha. apply andb_true_iff in Ha as [Hb Ha].
  apply Forall_cons in Hr as [Hb0 Hr].
  assert (fst (decode_rune (b :: l)) < 128) as Hlt.
  { destruct (clean_byte_escape _ (audit_rune_clean _ Hb)) as (_ & _ & ?). lia. }
  destruct (decode_rune_ascii b l Hb0 Hlt) as [_ Hd]. rewrite Hd in *. simpl in *.
  rewrite (audit_rune_clean b Hb). simpl. apply IH; [lia|done|done].
Qed.

(** Accepted audit fields need no escaping and are bounded. *)
Lemma validAuditField_clean s : validAuditField s = true -> clean s = true /\ go_len s <= 128.
Proof.
  unfold validAuditField. destruct (_ || _) eqn:E; [done|]. destruct (ContainsSensitive s); [done|].
  unfold runes, clean. rewrite <- length_bytes. intros Ha. unfold maxFieldBytes in E. bool_prop. split; [|done].
  eapply audit_runes_clean; [|apply bytes_range|exact Ha]. done.
Qed.

(** * Stored events decode to themselves *)

Definition event_json (e : AuditEvent) : json :=
  JObj (([("schema_version", JStr (ev_SchemaVersion e)); ("event_id", JStr (ev_EventID e));
         ("aggregate_type", JStr (ev_AggregateType e)); ("aggregate_id", JStr (ev_AggregateID e));
         ("actor_identity", JStr (ev_ActorIdentity e)); ("action", JStr (ev_Action e));
         ("result", JStr (ev_Result e)); ("reason_code", JStr (ev_ReasonCode e));
         ("occurred_at", JTime (ev_OccurredAt e))] ++
        (if String.eqb (ev_PreviousDigest e) "" then [] else [("previous_digest", JStr (ev_PreviousDigest e))]) ++
        [("digest", JStr (ev_Digest e))])%list).

Lemma event_to_json e : AuditEvent_ok e = true -> to_json e = Some (event_json e).
Proof.
  unfold AuditEvent_ok, event_json. intros. bool_prop.
  unfold AuditEvent_json. cbn -[utf8_coerce time_printable empty_string]. unfold empty_string.
  repeat match goal with H : time_printable _ = true |- _ => rewrite H end.
  cbn. destruct (String.eqb _ ""); reflexivity.
Qed.

Lemma go_len_app a b : go_len (String.append a b) = go_len a + go_len b.
Proof. unfold go_len. rewrite string_app_length. lia. Qed.

Lemma clean_text_len s : clean s = true -> go_len (string_text s) = go_len s + 2.
Proof.
  intros Hc. unfold go_len. rewrite <- !length_bytes, clean_text by done. simpl.
  rewrite length_app. simpl. lia.
Qed.

Lemma sep_concat_len l : go_len (sep_concat l) <= foldr (fun s n => go_len s + 1 + n) 0 l.
Proof.
  induction l as [|x l IH]; [done|]. destruct l as [|y l]; [simpl in *; lia|].
  change (sep_concat (x :: y :: l)) with (String.append x (String.append "," (sep_concat (y :: l)))).
  rewrite !go_len_app. cbn [foldr] in *. change (go_len ",") with 1. lia.
Qed.

(** The text of an object is at most its names and values with five bytes of
    punctuation each. *)
Lemma render_obj_len ms :
  Forall (fun m => clean m.1 = true) ms ->
  go_len (render (JObj ms)) <= 2 + foldr (fun m n => go_len m.1 + go_len (render m.2) + 4 + n) 0 ms.
Proof.
  intros Hc. cbn [render]. rewrite !go_len_app. change (go_len "{") with 1. change (go_len "}") with 1.
  etransitivity; [apply Z.add_le_mono_l, Z.add_le_mono_r, sep_concat_len|].
  cut (foldr (fun s n => go_len s + 1 + n) 0
        (map (fun m => String.append (string_text m.1) (String.append ":" (render m.2))) ms)
       <= foldr (fun m n => go_len m.1 + go_len (render m.2) + 4 + n) 0 ms); [lia|].
  induction Hc as [|[k v] ms Hk _ IH]; [done|]. cbn [map foldr fst snd] in *.
  rewrite !go_len_app, clean_text_len by done. change (go_len ":") with 1. lia.
Qed.

Lemma trim_zeros_len l : (length (trim_zeros l) <= length l)%nat.
Proof.
  unfold trim_zeros. rewrite length_reverse. rewrite <- (length_reverse l).
  destruct (strip_zeros_split (reverse l)) as [k E]. rewrite E at 2. rewrite length_app. lia.
Qed.

Lemma rfc3339_len t : go_len (rfc3339 t) <= 30.
Proof.
  unfold go_len, rfc3339. rewrite <- length_bytes, bytes_of_bytes
    by (eapply Forall_impl; [apply rfc3339_bytes_range|]; simpl; lia).
  unfold rfc3339_bytes. destruct (civil_of_days _) as [[y m] d].
  pose proof (trim_zeros_len (digits 9 (t mod 1000000000))) as Hl.
  rewrite !length_app, !length_digits in *. destruct (_ =? 0); cbn [length] in *; lia.
Qed.

Lemma validateEventFields_ok e :
  validateEventFields e = Ok tt <->
  ev_SchemaVersion e = SchemaVersionV1 /\ ev_OccurredAt e <> 0 /\
  Forall (fun s => validAuditField s = true) (event_fields e).
Proof.
  unfold validateEventFields, is_zero.
  destruct (String.eqb_spec (ev_SchemaVersion e) SchemaVersionV1); cbn [negb orb]; [|naive_solver].
  destruct (Z.eqb_spec (ev_OccurredAt e) 0); [naive_solver|]. rewrite for_each_ok.
  split.
  - intros Hf. repeat split; [done..|]. eapply Forall_impl; [exact Hf|]. intros s. simpl.
    by destruct (validAuditField s).
  - intros (_ & _ & Hf). eapply Forall_impl; [exact Hf|]. by intros s ->.
Qed.

Definition digest_or_empty (s : string) : Prop := s = "" \/ validDigest s = true.

Lemma digest_or_empty_clean s : digest_or_empty s -> clean s = true /\ go_len s <= 128.
Proof.
  intros [->|Hd]; [done|]. unfold validDigest in Hd.
  destruct (Z.eqb_spec (go_len s) 64); [|done]. split; [by apply hex_clean|lia].
Qed.

Lemma sha256_validDigest s : validDigest (sha256_hex s) = true.
Proof.
  unfold validDigest, go_len. rewrite length_sha256_hex. simpl. apply sha256_hex_decodable.
Qed.

(** What [CanonicalDigest] accepts and returns; the digest field is not read. *)
Lemma CanonicalDigest_ok e h :
  CanonicalDigest e = Ok h <->
  validateEventFields e = Ok tt /\ digest_or_empty (ev_PreviousDigest e) /\
  h = sha256_hex (render (canonical_json e)).
Proof.
  unfold CanonicalDigest, canonicalBytes, digest_or_empty.
  generalize (render (canonical_json e)). intros text. generalize sha256_hex. intros hash.
  destruct (validateEventFields e) as [[]|]; cbn [mbind result_bind]; [|naive_solver].
  destruct (String.eqb_spec (ev_PreviousDigest e) ""), (validDigest (ev_PreviousDigest e)) eqn:Ed;
    cbn [negb andb mbind result_bind]; naive_solver.
Qed.

Lemma event_strings_clean e :
  validateEventFields e = Ok tt ->
  Forall (fun s => clean s = true /\ go_len s <= 128) (ev_SchemaVersion e :: event_fields e).
Proof.
  intros (Hv & _ & Hf)%validateEventFields_ok. apply Forall_cons. split.
  { rewrite Hv. split; [vm_compute; reflexivity|unfold SchemaVersionV1, go_len; cbn; lia]. }
  eapply Forall_impl; [exact Hf|]. intros s. apply validAuditField_clean.
Qed.

(** A digested event is a record the strict decoder reads back. *)
Lemma event_record_ok e :
  CanonicalDigest e = Ok (ev_Digest e) -> time_printable (ev_OccurredAt e) = true ->
  AuditEvent_ok e = true /\ doc_len (Text (event_json e) false) <= MaxDocumentBytes /\
  validateStoredEvent e = Ok tt.
Proof.
  intros (Hv & Hp & Hd)%CanonicalDigest_ok Ht.
  pose proof (event_strings_clean e Hv) as Hc. unfold event_fields in Hc.
  pose proof (digest_or_empty_clean _ Hp) as Hpc.
  assert (Hdc : clean (ev_Digest e) = true /\ go_len (ev_Digest e) <= 128).
  { apply digest_or_empty_clean. right. rewrite Hd. apply sha256_validDigest. }
  rewrite !Forall_cons in Hc. destruct_and!. split_and!.
  - unfold AuditEvent_ok. bool_prop; auto using clean_valid_utf8.
  - unfold doc_len, doc_bytes, MaxDocumentBytes.
    etransitivity; [apply render_obj_len; destruct (String.eqb (ev_PreviousDigest e) ""); repeat constructor|].
    pose proof (rfc3339_len (ev_OccurredAt e)).
    destruct (String.eqb (ev_PreviousDigest e) ""); cbn [foldr app fst snd render];
      rewrite ?go_len_app, ?clean_text_len by done; unfold quote;
      repeat match goal with
      | |- context [ go_len (String ?c ?s) ] =>
        let n := eval vm_compute in (go_len (String c s)) in change (go_len (String c s)) with n
      | |- context [ go_len (of_bytes [34]) ] => change (go_len (of_bytes [34])) with 1
      end; lia.
  - unfold validateStoredEvent. rewrite Hv. cbn [mbind result_bind]. rewrite Hd at 1.
    rewrite sha256_validDigest. destruct Hp as [->| ->]; [done|]. by rewrite andb_false_r.
Qed.

Lemma decodeEvent_marshal e doc :
  CanonicalDigest e = Ok (ev_Digest e) -> Marshal e = Some doc -> 
  decodeEvent doc = Ok e.
Proof.
  intros Hc Hm.
  assert (Ht : time_printable (ev_OccurredAt e) = true).
  { revert Hm. unfold Marshal, AuditEvent_json. cbn -[utf8_coerce time_printable empty_string].
    by destruct (time_printable (ev_OccurredAt e)). }
  destruct (event_record_ok e Hc Ht) as (Hok & Hlen & Hst).
  destruct (AuditEvent_rtv e Hok) as (j & Hj & Hs & Hdec & Hh).
  unfold Marshal in Hm. rewrite Hj in Hm. injection Hm as <-.
  pose proof (event_to_json e Hok) as Hj'. rewrite Hj in Hj'. injection Hj' as ->.
  apply CanonicalDigest_ok in Hc as Hc'. destruct Hc' as (Hv & _). apply validateEventFields_ok in Hv as (Hsv & _).
  unfold decodeEvent. erewrite Decode_Marshal; try done.
  - rewrite Hc. by rewrite String.eqb_refl.
  - rewrite Hh, Hsv. done.
Qed.

(** * Canonical texts determine the event *)

Lemma text_split s s' r r' :
  clean s = true -> clean s' = true ->
  String.append (string_text s) r = String.append (string_text s') r' -> s = s' /\ r = r'.
Proof.
  intros Hs Hs' Heq. apply (f_equal bytes) in Heq. rewrite !bytes_app, !clean_text in Heq by done.
  simpl in Heq. injection Heq as Heq. rewrite <- !app_assoc in Heq. simpl in Heq.
  apply (sep_split 34) in Heq as [H1 H2]; auto using clean_no_quote, bytes_inj.
Qed.

Definition member_text (m : string * json) : string :=
  String.append (string_text m.1) (String.append ":" (render m.2)).

Lemma sep_concat_cons x y l :
  sep_concat (x :: y :: l) = String.append x (String.append "," (sep_concat (y :: l))).
Proof. done. Qed.

(** String members under the same names, with the same text. *)
Lemma members_inj (keys vs vs' : list string) r r' :
  length vs = length keys -> length vs' = length keys ->
  Forall (fun s => clean s = true) vs -> Forall (fun s => clean s = true) vs' ->
  String.append (sep_concat (map member_text (zip keys (JStr <$> vs)))) r =
  String.append (sep_concat (map member_text (zip keys (JStr <$> vs')))) r' -> vs = vs'.
Proof.
  revert vs vs'. induction keys as [|k keys IH]; intros [|v vs] [|v' vs']; try done.
  intros Hl Hl' [Hv Hvs]%Forall_cons [Hv' Hvs']%Forall_cons Heq. simpl in Hl, Hl'.
  destruct keys as [|k2 keys].
  - destruct vs, vs'; try done. cbn in Heq. unfold member_text in Heq. cbn [fst snd render] in Heq.
    rewrite !string_app_assoc in Heq. apply string_app_inj_l in Heq.
    apply string_app_inj_l, text_split in Heq as [-> _]; done.
  - destruct vs as [|v2 vs], vs' as [|v2' vs']; try done.
    cbn [fmap list_fmap zip zip_with map] in Heq. rewrite !sep_concat_cons in Heq.
    change (member_text (k, JStr ?s)) with (String.append (string_text k) (String.append ":" (string_text s))) in Heq.
    rewrite !string_app_assoc in Heq. apply string_app_inj_l, string_app_inj_l in Heq.
    apply text_split in Heq as [-> Heq]; [|done..]. apply string_app_inj_l in Heq.
    f_equal. apply IH; [simpl in *; lia..|done|done|exact Heq].
Qed.
Definition canonical_keys : list string :=
  ["schema_version"; "event_id"; "aggregate_type"; "aggregate_id"; "actor_identity"; "action";
   "result"; "reason_code"; "occurred_at"; "previous_digest"].
Definition canonical_values (e : AuditEvent) : list string :=
  (ev_SchemaVersion e :: event_fields e ++ [rfc3339 (ev_OccurredAt e); ev_PreviousDigest e])%list.

Lemma canonical_values_clean e h :
  CanonicalDigest e = Ok h -> Forall (fun s => clean s = true) (canonical_values e).
Proof.
  intros (Hv & Hp & _)%CanonicalDigest_ok. pose proof (event_strings_clean e Hv) as Hc.
  unfold canonical_values. rewrite app_comm_cons. apply Forall_app. split.
  - eapply Forall_impl; [exact Hc|]. by intros s [? _].
  - repeat constructor; [apply rfc3339_clean|by apply digest_or_empty_clean].
Qed.

(** Digested events with the same canonical text and the same digest are the
    same event. *)
Lemma canonical_inj e1 e2 :
  CanonicalDigest e1 = Ok (ev_Digest e1) -> CanonicalDigest e2 = Ok (ev_Digest e2) ->
  time_printable (ev_OccurredAt e1) = true -> time_printable (ev_OccurredAt e2) = true ->
  ev_Digest e1 = ev_Digest e2 -> render (canonical_json e1) = render (canonical_json e2) -> e1 = e2.
Proof.
  intros H1 H2 Ht1 Ht2 Hd Heq.
  assert (Hr : forall e, render (canonical_json e) = String.append "{" (String.append
    (sep_concat (map member_text (zip canonical_keys (JStr <$> canonical_values e)))) "}")) by done.
  rewrite !Hr in Heq. apply string_app_inj_l, members_inj in Heq;
    eauto using canonical_values_clean.
  unfold canonical_values, event_fields in Heq. cbn [app] in Heq.
  pose proof (rfc3339_inj _ _ Ht1 Ht2) as Hinj. revert Heq Hinj.
  generalize (rfc3339 (ev_OccurredAt e1)) (rfc3339 (ev_OccurredAt e2)). intros t1 t2 Heq Hinj.
  injection Heq as ???????? Ht ?. apply Hinj in Ht. clear Hinj H1 H2 Hr.
  destruct e1, e2; simpl in *; congruence.
Qed.

Definition sha256_collision : Prop := exists s t, s <> t /\ sha256_hex s = sha256_hex t.

(** * The abstract chain

    A document records an event when it is a strict encoding of it, its fields are
    valid, the digest it names before it is one or none, and its own digest is the
    SHA-256 of its canonical text. *)
Definition records (doc : document) (ev : AuditEvent) : Prop :=
  Decode doc event_options = Ok ev /\ validateEventFields ev = Ok tt /\ digest_or_empty (ev_PreviousDigest ev) /\
  ev_Digest ev = sha256_hex (render (canonical_json ev)).

Lemma decodeEvent_records doc ev : decodeEvent doc = Ok ev <-> records doc ev.
Proof.
  unfold decodeEvent, records. split.
  - destruct (Decode doc event_options) as [e'|]; [|done]. destruct (CanonicalDigest e') as [h|] eqn:Ec; [|done].
    destruct (String.eqb_spec (ev_Digest e') h) as [<-|]; [|done]. intros [= ->]. by apply CanonicalDigest_ok in Ec.
  - intros (-> & Hc). rewrite (proj2 (CanonicalDigest_ok ev (ev_Digest ev)) Hc). by rewrite String.eqb_refl.
Qed.
Lemma records_digest doc ev : records doc ev -> CanonicalDigest ev = Ok (ev_Digest ev).
Proof. intros (_ & Hc). by apply CanonicalDigest_ok. Qed.

(** [Chain es evs]: the stored entries [es], in key order, are the log [evs]:
    numbered from 0, each entry recording its event, linked to the digest of
    the one before, with an event ID of its own. *)

Definition last_digest (evs : list AuditEvent) : string := default "" (ev_Digest <$> last evs).

Inductive Chain : list (string * document) -> list AuditEvent -> Prop :=
| chain_nil : Chain [] []
| chain_snoc es evs doc ev :
    Chain es evs -> records doc ev -> ev_PreviousDigest ev = last_digest evs ->
    ev_EventID ev ∉ map ev_EventID evs ->
    Chain (es ++ [(eventKey (Z.of_nat (length evs)), doc)])%list (evs ++ [ev])%list.

Definition log_state (evs : list AuditEvent) : chainState :=
  mkChainState (Z.of_nat (length evs)) (last_digest evs).

Lemma last_digest_snoc evs ev : last_digest (evs ++ [ev]) = ev_Digest ev.
Proof. unfold last_digest. by rewrite last_snoc. Qed.

Lemma log_state_snoc evs ev :
  log_state (evs ++ [ev]) = mkChainState (Z.of_nat (length evs) + 1) (ev_Digest ev).
Proof. unfold log_state. rewrite last_digest_snoc, length_app. simpl. f_equal. lia. Qed.

Lemma Chain_length es evs : Chain es evs -> length es = length evs.
Proof. induction 1; [done|]. rewrite !length_app. simpl. lia. Qed.

Lemma chain_step_ok state seen key doc acc :
  chain_step (state, seen) key doc = Ok acc <->
  key = eventKey (nextIndex state) /\ nextIndex state <> maxUint64 /\
  exists ev, decodeEvent doc = Ok ev /\ ev_PreviousDigest ev = previousDigest state /\
    ev_EventID ev ∉ seen /\
    acc = (mkChainState (nextIndex state + 1) (ev_Digest ev), {[ev_EventID ev]} ∪ seen).
Proof.
  unfold chain_step. destruct (String.eqb_spec key (eventKey (nextIndex state))); cbn [negb]; [|naive_solver].
  destruct (decodeEvent doc) as [ev|]; cbn [mbind result_bind]; [|naive_solver].
  destruct (String.eqb_spec (ev_PreviousDigest ev) (previousDigest state)); cbn [negb]; [|naive_solver].
  case_decide; [naive_solver|]. destruct (Z.eqb_spec (nextIndex state) maxUint64); naive_solver.
Qed.

(** The iteration accepts exactly the chains. *)
Lemma chain_fold es state seen :
  fold_entries chain_step (mkChainState 0 "", ∅) es = Ok (state, seen) <->
  exists evs, Chain es evs /\ state = log_state evs /\ seen = list_to_set (map ev_EventID evs) /\
    Z.of_nat (length evs) <= maxUint64.
Proof.
  revert state seen. induction es as [|[key doc] es IH] using rev_ind; intros state seen.
  - simpl. split.
    + intros [= <- <-]. exists []. repeat split; [constructor|done].
    + intros (evs & Hc & -> & -> & _). inversion Hc as [|es' evs' ? ? ? ? ? ? Heq]; [done|]. by destruct es'.
  - rewrite fold_entries_app. split.
    + destruct (fold_entries _ _ es) as [[st1 seen1]|] eqn:Ef; [|done].
      destruct (proj1 (IH st1 seen1) eq_refl) as (evs & Hc & -> & -> & Hmax). cbn [fold_entries].
      destruct (chain_step _ _ _) as [acc|] eqn:Es; [|done]. intros [= ->].
      apply chain_step_ok in Es as (-> & Hne & ev & Hd & Hp & Hid & [= -> ->]). cbn in Hp, Hne |- *.
      exists (evs ++ [ev])%list. rewrite log_state_snoc, length_app, map_app, list_to_set_app_L. split_and!.
      * constructor; [done|by apply decodeEvent_records|done|]. set_solver.
      * done.
      * set_solver.
      * simpl. lia.
    + intros (evs & Hc & -> & -> & Hmax).
      inversion Hc as [Hn|es' evs' doc' ev Hc' Hd Hp Hid Heq]; [by destruct es|]; subst.
      apply app_inj_tail in Heq as [-> [= <- <-]]. rewrite length_app in Hmax. simpl in Hmax.
      assert (fold_entries chain_step (mkChainState 0 "", ∅) es =
        Ok (log_state evs', list_to_set (map ev_EventID evs'))) as ->.
      { apply IH. exists evs'. repeat split; [done|lia]. }
      cbn [fold_entries].
      assert (chain_step (log_state evs', list_to_set (map ev_EventID evs')) (eventKey (Z.of_nat (length evs'))) doc'
        = Ok (log_state (evs' ++ [ev]), list_to_set (map ev_EventID (evs' ++ [ev])))) as ->; [|done].
      apply chain_step_ok. split; [done|]. split; [cbn; lia|]. exists ev. split_and!; [by apply decodeEvent_records|done| |].
      * set_solver.
      * rewrite log_state_snoc, map_app, list_to_set_app_L. f_equal. set_solver.
Qed.

(** Logs of the same length with the same last digest are the same log, or
    two of their canonical texts are a SHA-256 collision. *)
Lemma chains_agree es1 evs1 es2 evs2 :
  Chain es1 evs1 -> Chain es2 evs2 ->
  Forall (fun e => time_printable (ev_OccurredAt e) = true) evs1 ->
  Forall (fun e => time_printable (ev_OccurredAt e) = true) evs2 ->
  length evs1 = length evs2 -> last_digest evs1 = last_digest evs2 ->
  evs1 = evs2 \/ sha256_collision.
Proof.
  intros H1. revert es2 evs2. induction H1 as [|es1 evs1 doc1 e1 H1 IH Hd1 Hp1 _];
    intros es2 evs2 H2 Ht1 Ht2 Hlen Hlast.
  { left. by destruct evs2. }
  destruct H2 as [|es2 evs2 doc2 e2 H2 Hd2 Hp2 _]; [rewrite length_app in Hlen; simpl in Hlen; lia|].
  rewrite !last_digest_snoc in Hlast. rewrite !length_app in Hlen. simpl in Hlen.
  apply Forall_app in Ht1 as [Ht1 He1]. apply Forall_app in Ht2 as [Ht2 He2].
  pose proof (Forall_inv He1) as Hf1. pose proof (Forall_inv He2) as Hf2. cbn beta in Hf1, Hf2.
  apply records_digest in Hd1, Hd2.
  destruct (decide (render (canonical_json e1) = render (canonical_json e2))) as [Heq|Hne].
  - assert (e1 = e2) as -> by (apply canonical_inj; assumption).
    destruct (IH es2 evs2) as [->|Hcol]; [done..|lia|congruence|by left|by right].
  - right. exists (render (canonical_json e1)), (render (canonical_json e2)). split; [exact Hne|].
    apply CanonicalDigest_ok in Hd1 as (_ & _ & E1). apply CanonicalDigest_ok in Hd2 as (_ & _ & E2).
    congruence.
Qed.

Section Refinement.
Context `{BoltLaws}.
#[local] Set Default Proof Using "Type*".

(** The audit bucket of [d] holds the log [evs]. *)
Definition holds_log (d : db) (evs : list AuditEvent) : Prop :=
  has_bucket d BucketAudit = true /\ Chain (kv_entries d BucketAudit) evs /\
  Z.of_nat (length evs) <= maxUint64.

Lemma readChain_log d state d' :
  readChain d = Ok (state, d') <-> d' = d /\ exists evs, holds_log d evs /\ state = log_state evs.
Proof.
  unfold readChain, holds_log. split.
  - destruct (ForEach _ _ _ d) as [[[st1 seen] d1]|e] eqn:Ef; [|by case_decide].
    intros [= -> ->]. apply ForEach_ok in Ef as (_ & Hb & -> & Hf).
    apply chain_fold in Hf as (evs & ? & -> & _ & ?). eauto 10.
  - intros (-> & evs & (Hb & Hc & Hm) & ->).
    assert (ForEach BucketAudit (mkChainState 0 "", ∅) chain_step d =
      Ok ((log_state evs, list_to_set (map ev_EventID evs)), d)) as ->; [|done].
    apply ForEach_ok. split_and!; [done..|]. apply chain_fold. eauto 10.
Qed.

Lemma Chain_keys es evs i : Chain es evs -> map fst es !! i = Some (eventKey (Z.of_nat i)) \/ (length evs <= i)%nat.
Proof.
  induction 1 as [|es evs doc ev Hc IH _ _ _]; [right; simpl; lia|].
  rewrite map_app, length_app. simpl. destruct IH as [IH|IH].
  - left. by apply lookup_app_l_Some.
  - destruct (decide (i = length evs)) as [->|]; [|right; lia]. left.
    rewrite lookup_app_r; rewrite length_map, (Chain_length _ _ Hc); [|done]. by rewrite Nat.sub_diag.
Qed.

Lemma Chain_key_inv es evs k :
  Chain es evs -> k ∈ map fst es <-> exists i, (i < length evs)%nat /\ k = eventKey (Z.of_nat i).
Proof.
  intros Hc. rewrite list_elem_of_lookup. split.
  - intros [i Hi]. exists i.
    pose proof (lookup_lt_Some _ _ _ Hi) as Hlt. rewrite length_map, (Chain_length _ _ Hc) in Hlt.
    destruct (Chain_keys es evs i Hc) as [Hk|]; [|lia]. naive_solver.
  - intros (i & Hi & ->). exists i. destruct (Chain_keys es evs i Hc); [done|lia].
Qed.

Lemma Chain_fun es evs evs' : Chain es evs -> Chain es evs' -> evs = evs'.
Proof.
  intros Hc. revert evs'. induction Hc as [|es evs doc ev Hc IH Hd Hp Hid]; intros evs' Hc'.
  - inversion Hc' as [|es' ? ? ? ? ? ? ? Heq]; [done|]. by destruct es'.
  - inversion Hc' as [Heq|es' evs'' doc' ev' Hc'' Hd' Hp' Hid' Heq]; [by destruct es|]; subst.
    apply app_inj_tail in Heq as [-> Heq]. apply (f_equal snd) in Heq. cbn [snd] in Heq. subst doc'.
    rewrite (IH _ Hc''). apply decodeEvent_records in Hd, Hd'. congruence.
Qed.

(** A transaction that leaves the log as long as it was leaves the log. *)
Lemma same_log d d1 evs evs1 :
  rtc tx_op d d1 -> holds_log d evs -> holds_log d1 evs1 -> length evs1 = length evs ->
  same_bucket BucketAudit d d1 /\ evs1 = evs.
Proof.
  intros Hops (_ & Hc & _) (_ & Hc1 & _) Hlen.
  assert (Hs : same_bucket BucketAudit d d1).
  { intros k. destruct (kv_get d BucketAudit k) as [v|] eqn:Eg; [by eapply audit_kept|].
    destruct (kv_get d1 BucketAudit k) as [v1|] eqn:Eg1; [|done].
    apply entries_get in Eg1. apply (list_elem_of_fmap_2 fst) in Eg1. simpl in Eg1.
    apply (Chain_key_inv _ _ _ Hc1) in Eg1. rewrite Hlen in Eg1.
    apply (Chain_key_inv _ _ _ Hc) in Eg1. apply list_elem_of_fmap in Eg1 as ([k' v] & -> & Hin).
    apply entries_get in Hin. simpl in Eg. congruence. }
  split; [done|]. eapply Chain_fun; [exact Hc1|]. by rewrite (entries_ext _ _ _ Hs).
Qed.

(** An appended event lengthens the log by itself. *)
Lemma append_log d evs ev doc d' :
  holds_log d evs -> Z.of_nat (length evs) <> maxUint64 ->
  AppendAudit (eventKey (Z.of_nat (length evs))) doc d = Ok (tt, d') ->
  decodeEvent doc = Ok ev -> ev_PreviousDigest ev = last_digest evs ->
  ev_EventID ev ∉ map ev_EventID evs -> holds_log d' (evs ++ [ev]).
Proof.
  intros (Hb & Hc & Hmax) Hne Ha Hd Hp Hid. apply AppendAudit_ok in Ha as (_ & _ & Hn & Hput).
  split_and!.
  - by rewrite (put_buckets _ _ _ _ _ _ Hput).
  - rewrite (entries_append _ _ _ _ _ Hput); [by constructor; [|apply decodeEvent_records| |]|].
    intros k Hk. apply (Chain_key_inv _ _ _ Hc) in Hk as (i & Hi & ->). apply eventKey_lt; lia.
  - rewrite length_app. simpl. lia.
Qed.

(** A mutation made of store calls. *)
Definition store_calls (change : option (st db unit)) : Prop :=
  forall c d u d', change = Some c -> c d = Ok (u, d') -> rtc tx_op d d'.

(** The event as it is stored at the end of the log [evs]. *)
Definition stamped (evs : list AuditEvent) (event : AuditEvent) : AuditEvent :=
  let event := event <| ev_PreviousDigest := last_digest evs |> in
  event <| ev_Digest := sha256_hex (render (canonical_json event)) |>.

Definition apply_change (change : option (st db unit)) (d d1 : db) : Prop :=
  match change with None => d1 = d | Some c => exists u, c d = Ok (u, d1) end.

(** An append is its mutation, then one new audit record. *)
Lemma Append_last event change d ev' d' :
  Append event change d = Ok (ev', d') ->
  exists d1 key doc, apply_change change d d1 /\ AppendAudit key doc d1 = Ok (tt, d').
Proof.
  unfold Append. rewrite st_bind_ok. intros (state & d0 & (-> & _)%readChain_log & Happ).
  destruct (_ || _); [done|].
  apply st_bind_ok in Happ as ([] & d0 & Hv & Happ). unfold st_lift in Hv.
  destruct (validateEventFields _) as [[]|]; [|done]. injection Hv as <-.
  apply st_bind_ok in Happ as ([] & d1 & Hch & Happ).
  assert (Hd1 : apply_change change d d1).
  { destruct change as [c|]; [|by injection Hch as <-].
    apply st_bind_ok in Hch as (u & d2 & Hcd & Hch).
    apply st_bind_ok in Hch as (st2 & d3 & (-> & _)%readChain_log & Hch).
    case_decide; [|done]. injection Hch as <-. by exists u. }
  exists d1. destruct (_ =? _); [done|].
  apply st_bind_ok in Happ as (digest & d2 & Hdig & Happ). unfold st_lift in Hdig.
  destruct (CanonicalDigest _); [|done]. injection Hdig as -> <-.
  destruct (Marshal _) as [doc|]; [|done].
  apply st_bind_ok in Happ as ([] & d2 & Ha & [= <- <-]). by eauto.
Qed.

(** Outside the audit bucket an append is its mutation. *)
Lemma Append_frame event change d ev' d' :
  Append event change d = Ok (ev', d') ->
  exists d1, apply_change change d d1 /\ forall b, b <> BucketAudit -> same_bucket b d1 d'.
Proof.
  intros (d1 & key & doc & Hd1 & (_ & _ & _ & Hput)%AppendAudit_ok)%Append_last. exists d1. split; [done|].
  intros b Hb k. eapply get_put_ne; [exact Hput|congruence].
Qed.

(** No append creates or removes a bucket that its mutation does not. *)
Lemma Append_buckets event change d ev' d' :
  Append event change d = Ok (ev', d') ->
  exists d1, apply_change change d d1 /\
    forall b, (b <> BucketAudit -> same_bucket b d1 d') /\ has_bucket d' b = has_bucket d1 b.
Proof.
  intros (d1 & key & doc & Hd1 & (_ & _ & _ & Hput)%AppendAudit_ok)%Append_last. exists d1. split; [done|].
  intros b. split; [|by eapply put_buckets]. intros Hb k. eapply get_put_ne; [exact Hput|congruence].
Qed.

Lemma Append_inv event change d ev' d' :
  store_calls change -> Append event change d = Ok (ev', d') ->
  exists evs d1 doc, holds_log d evs /\ holds_log d1 evs /\ apply_change change d d1 /\
    same_bucket BucketAudit d d1 /\
    validateEventFields event = Ok tt /\ ev_PreviousDigest event = "" /\ ev_Digest event = "" /\
    Z.of_nat (length evs) <> maxUint64 /\ ev' = stamped evs event /\
    CanonicalDigest ev' = Ok (ev_Digest ev') /\ Marshal ev' = Some doc /\
    AppendAudit (eventKey (Z.of_nat (length evs))) doc d1 = Ok (tt, d').
Proof.
  intros Hcalls. unfold Append. rewrite st_bind_ok.
  intros (state & d0 & (-> & evs & Hlog & ->)%readChain_log & Happ).
  destruct (String.eqb_spec (ev_PreviousDigest event) ""); [|done].
  destruct (String.eqb_spec (ev_Digest event) ""); [|done]. cbn [negb orb] in Happ.
  unfold utc in Happ.
  change (event <| ev_OccurredAt := ev_OccurredAt event |>) with (AuditEvent_eta event) in Happ.
  assert (AuditEvent_eta event = event) as Heta by (by destruct event). rewrite Heta in Happ.
  apply st_bind_ok in Happ as ([] & d0 & Hv & Happ). unfold st_lift in Hv.
  destruct (validateEventFields event) as [[]|] eqn:Ev; [|done]. injection Hv as <-.
  apply st_bind_ok in Happ as ([] & d1 & Hch & Happ).
  assert (Hd1 : apply_change change d d1 /\ same_bucket BucketAudit d d1 /\ holds_log d1 evs).
  { destruct change as [c|]; [|injection Hch as <-; split_and!; [done|by intros k|done]].
    apply st_bind_ok in Hch as (u & d2 & Hcd & Hch).
    apply st_bind_ok in Hch as (st2 & d3 & (-> & evs2 & Hlog2 & ->)%readChain_log & Hch).
    case_decide as Hst; [|done]. injection Hch as <-.
    assert (length evs2 = length evs) as Hlen by (apply (f_equal nextIndex) in Hst; simpl in Hst; lia).
    destruct (same_log d d2 evs evs2) as [Hs ->]; [by eapply (Hcalls c d u d2)|done..|].
    split_and!; [by exists u|done|done]. }
  destruct Hd1 as (Hchg & Hsame & Hlog1).
  cbn [nextIndex log_state] in Happ. destruct (Z.eqb_spec (Z.of_nat (length evs)) maxUint64); [done|].
  apply st_bind_ok in Happ as (digest & d2 & Hdig & Happ). unfold st_lift in Hdig.
  destruct (CanonicalDigest _) as [h|] eqn:Ec; [|done]. injection Hdig as -> <-.
  apply CanonicalDigest_ok in Ec as Ec'. destruct Ec' as (_ & _ & ->).
  destruct (Marshal _) as [doc|] eqn:Em; [|done].
  apply st_bind_ok in Happ as ([] & d2 & Happ & [= <- <-]).
  exists evs, d1, doc. split_and!; done.
Qed.

Lemma Chain_last_digest es evs : Chain es evs -> digest_or_empty (last_digest evs).
Proof.
  intros [|es' evs' doc e Hc Hde _ _]; [by left|]. rewrite last_digest_snoc. right.
  destruct Hde as (_ & _ & _ & ->). apply sha256_validDigest.
Qed.

(** The next key of a log is free. *)
Lemma log_next_free d evs :
  holds_log d evs -> kv_get d BucketAudit (eventKey (Z.of_nat (length evs))) = None.
Proof.
  intros (_ & Hch & Hle). destruct (kv_get _ _ _) as [v|] eqn:Eg; [|done]. exfalso.
  apply entries_get in Eg. apply (list_elem_of_fmap_2 fst) in Eg.
  apply (Chain_key_inv _ _ _ Hch) in Eg as (i & Hi & Heq). simpl in Heq.
  by apply (eventKey_lt (Z.of_nat i) (Z.of_nat (length evs))); [lia|lia|].
Qed.

(** A valid event goes into a readable, unexhausted log, fresh or not. *)
Lemma Append_stores `{!BoltRoom} event d evs :
  holds_log d evs -> validateEventFields event = Ok tt -> ev_PreviousDigest event = "" ->
  ev_Digest event = "" -> time_printable (ev_OccurredAt event) = true ->
  Z.of_nat (length evs) <> maxUint64 ->
  exists doc d', Append event None d = Ok (stamped evs event, d') /\
    decodeEvent doc = Ok (stamped evs event) /\
    AppendAudit (eventKey (Z.of_nat (length evs))) doc d = Ok (tt, d').
Proof.
  intros Hlog Hv Hp Hd Ht Hmax. set (ev := stamped evs event).
  pose proof (Chain_last_digest _ _ (proj1 (proj2 Hlog))) as Hlast.
  assert (Hc : CanonicalDigest ev = Ok (ev_Digest ev)) by (apply CanonicalDigest_ok; exact (conj Hv (conj Hlast eq_refl))).
  destruct (event_record_ok ev Hc Ht) as (Hok & Hlen & _).
  assert (Hm : Marshal ev = Some (Text (event_json ev) false)).
  { unfold Marshal. by rewrite event_to_json. }
  set (doc := Text (event_json ev) false) in *.
  pose proof (log_next_free d evs Hlog) as Hn.
  destruct Hlog as (Hb & Hch & Hle).
  pose proof (put_room d BucketAudit (eventKey (Z.of_nat (length evs))) doc Hb (eventKey_fits _)
    ltac:(unfold doc, maxValueSize, MaxDocumentBytes in *; lia)) as Hr.
  destruct (kv_put _ _ _ _) as [d'|] eqn:Eput; [|done].
  assert (Ha : AppendAudit (eventKey (Z.of_nat (length evs))) doc d = Ok (tt, d')).
  { apply AppendAudit_ok. split_and!; [done|apply eventKey_nonempty|done|done]. }
  exists doc, d'. split_and!; [|by apply decodeEvent_marshal|done].
  unfold Append. apply st_bind_ok. exists (log_state evs), d. split.
  { apply readChain_log. split; [done|]. exists evs. by split_and!. }
  rewrite Hp, Hd. cbn [String.eqb negb orb]. unfold utc.
  change (event <| ev_OccurredAt := ev_OccurredAt event |>) with (AuditEvent_eta event).
  assert (AuditEvent_eta event = event) as -> by (by destruct event).
  unfold st_lift, mbind, st_bind, mret, st_ret. rewrite Hv. cbn [nextIndex previousDigest log_state].
  destruct (Z.eqb_spec (Z.of_nat (length evs)) maxUint64); [done|].
  assert (CanonicalDigest (event <| ev_PreviousDigest := last_digest evs |>) = Ok (ev_Digest ev)) as ->.
  { apply CanonicalDigest_ok. exact (conj Hv (conj Hlast eq_refl)). }
  change (event <| ev_PreviousDigest := last_digest evs |> <| ev_Digest := ev_Digest ev |>) with ev.
  by rewrite Hm, Ha.
Qed.

(** A repeated event ID makes the bucket unreadable. *)
Lemma duplicate_unreadable d evs ev doc d' :
  holds_log d evs -> Z.of_nat (length evs) <> maxUint64 ->
  AppendAudit (eventKey (Z.of_nat (length evs))) doc d = Ok (tt, d') ->
  decodeEvent doc = Ok ev -> ev_PreviousDigest ev = last_digest evs ->
  ev_EventID ev ∈ map ev_EventID evs -> readChain d' = Fail ErrChainInvalid.
Proof.
  intros (Hb & Hc & Hmax) Hne Ha Hd Hp Hid. apply AppendAudit_ok in Ha as (_ & _ & Hn & Hput).
  assert (Hes : kv_entries d' BucketAudit =
    (kv_entries d BucketAudit ++ [(eventKey (Z.of_nat (length evs)), doc)])%list).
  { apply entries_append; [done|]. intros k Hk.
    apply (Chain_key_inv _ _ _ Hc) in Hk as (i & Hi & ->). apply eventKey_lt; lia. }
  assert (Hf : fold_entries chain_step (mkChainState 0 "", ∅) (kv_entries d BucketAudit) =
    Ok (log_state evs, list_to_set (map ev_EventID evs))) by (apply chain_fold; by eauto 10).
  assert (Hs : chain_step (log_state evs, list_to_set (map ev_EventID evs))
    (eventKey (Z.of_nat (length evs))) doc = Fail ErrChainInvalid).
  { unfold chain_step. cbn [nextIndex previousDigest log_state].
    rewrite String.eqb_refl, Hd. cbn [negb mbind result_bind]. rewrite Hp, String.eqb_refl. cbn [negb].
    by rewrite decide_True by set_solver. }
  unfold readChain, ForEach, mbind, st_bind, tx_bucket.
  change (allowedBucket BucketAudit) with true. cbn [negb].
  rewrite (put_buckets _ _ _ _ _ _ Hput), Hb. cbn [negb].
  rewrite Hes, fold_entries_app, Hf. cbn [fold_entries]. rewrite Hs. by case_decide.
Qed.

(** An unreadable log stops every append before its mutation. *)
(** What an accepted append of a fresh event leaves behind. *)
Lemma Append_log event change d evs ev' d' :
  store_calls change -> holds_log d evs -> ev_EventID event ∉ map ev_EventID evs ->
  Append event change d = Ok (ev', d') ->
  ev' = stamped evs event /\ holds_log d' (evs ++ [ev']) /\
  exists d1, apply_change change d d1 /\ forall b, b <> BucketAudit -> same_bucket b d1 d'.
Proof.
  intros Hcalls Hlog Hid Happ.
  destruct (Append_inv _ _ _ _ _ Hcalls Happ)
    as (evs' & d1 & doc & Hlog' & Hlog1 & Hchg & _ & _ & _ & _ & Hmax & -> & Hdig & Hm & Ha).
  assert (evs' = evs) as -> by (eapply Chain_fun; [apply Hlog'|apply Hlog]).
  split; [reflexivity|]. split.
  - apply (append_log d1 evs _ doc); try assumption; [by apply decodeEvent_marshal|reflexivity].
  - exists d1. split; [done|]. intros b Hb k. apply AppendAudit_ok in Ha as (_ & _ & _ & Hput).
    eapply get_put_ne; [exact Hput|congruence].
Qed.

Lemma Append_unreadable event change d e : readChain d = Fail e -> Append event change d = Fail e.
Proof. intros Hr. unfold Append, mbind, st_bind. by rewrite Hr. Qed.
End Refinement.

(** * Properties *)

Section Properties.
Context `{BoltLaws}.
#[local] Set Default Proof Using "Type*".

(** C5: reading the chain accepts a bucket exactly when its entries are a log:
    numbered without gaps from 0, every entry a valid event whose digest is the
    SHA-256 of its canonical text, linked to the digest before it, no event ID twice; the state
    returned is the length of the log and its last digest. *)
Theorem readChain_refines_log d state d' :
  readChain d = Ok (state, d') <-> d' = d /\ exists evs, holds_log d evs /\ state = log_state evs.
Proof. apply readChain_log. Qed.

(** An accepted append of a fresh event ID adds exactly one event at the
    end of the log, stamped with the digest before it and its own digest, and
    apart from it the store holds what the mutation left. *)
Lemma Append_extends_log event change d evs ev' d' :
  store_calls change -> holds_log d evs -> ev_EventID event ∉ map ev_EventID evs ->
  Append event change d = Ok (ev', d') ->
  ev' = stamped evs event /\ holds_log d' (evs ++ [ev']) /\
  exists d1, apply_change change d d1 /\ forall b, b <> BucketAudit -> same_bucket b d1 d'.
Proof. apply Append_log. Qed.

(** C6: a valid event with a fresh ID is always appended to a readable chain
    whose key space is not exhausted. *)
Theorem Append_succeeds `{!BoltRoom} event d evs :
  holds_log d evs -> validateEventFields event = Ok tt -> ev_PreviousDigest event = "" ->
  ev_Digest event = "" -> time_printable (ev_OccurredAt event) = true ->
  Z.of_nat (length evs) <> maxUint64 -> ev_EventID event ∉ map ev_EventID evs ->
  exists d', Append event None d = Ok (stamped evs event, d') /\ holds_log d' (evs ++ [stamped evs event]).
Proof.
  intros Hlog Hv Hp Hd Ht Hmax Hid.
  destruct (Append_stores event d evs) as (doc & d' & Happ & Hdec & Ha); [done..|].
  exists d'. split; [exact Happ|]. apply (append_log d evs _ doc); try assumption. reflexivity.
Qed.

(** When the stored records are not a valid chain every append fails with
    the same error whatever its mutation is: no audited state change runs. *)
Lemma Append_fails_closed d :
  (forall evs, ~ holds_log d evs) ->
  exists e, forall event change, Append event change d = Fail e.
Proof.
  intros Hno. destruct (readChain d) as [[state d']|e] eqn:Er.
  - apply readChain_log in Er as (_ & evs & Hlog & _). by destruct (Hno evs).
  - exists e. intros. by apply Append_unreadable.
Qed.

(** Tamper evidence: two logs with the same chain state are event for
    event the same, unless a SHA-256 collision has been found. *)
Lemma chain_state_determines_log d1 d2 evs1 evs2 :
  holds_log d1 evs1 -> holds_log d2 evs2 ->
  Forall (fun e => time_printable (ev_OccurredAt e) = true) (evs1 ++ evs2) ->
  log_state evs1 = log_state evs2 -> evs1 = evs2 \/ sha256_collision.
Proof.
  intros (_ & H1 & _) (_ & H2 & _) [Ht1 Ht2]%Forall_app Hst.
  pose proof (f_equal nextIndex Hst) as Hn. pose proof (f_equal previousDigest Hst) as Hp.
  cbn in Hn, Hp. eapply chains_agree; try eassumption. lia.
Qed.

(** C7: the append does not compare the new event ID with the stored ones: a
    repeated ID is accepted, and from then on the chain is invalid, so that
    every later audited change of the daemon fails. *)
Theorem Append_duplicate_poisons `{!BoltRoom} event d evs :
  holds_log d evs -> validateEventFields event = Ok tt -> ev_PreviousDigest event = "" ->
  ev_Digest event = "" -> time_printable (ev_OccurredAt event) = true ->
  Z.of_nat (length evs) <> maxUint64 -> ev_EventID event ∈ map ev_EventID evs ->
  exists d', Append event None d = Ok (stamped evs event, d') /\
    ValidateChain d' = Fail ErrChainInvalid /\
    forall later change, Append later change d' = Fail ErrChainInvalid.
Proof.
  intros Hlog Hv Hp Hd Ht Hmax Hid.
  destruct (Append_stores event d evs) as (doc & d' & Happ & Hdec & Ha); [done..|].
  assert (Hr : readChain d' = Fail ErrChainInvalid).
  { apply (duplicate_unreadable d evs (stamped evs event) doc); try assumption. reflexivity. }
  exists d'. split_and!; [exact Happ| |].
  - unfold ValidateChain, mbind, st_bind. by rewrite Hr.
  - intros. by apply Append_unreadable.
Qed.
End Properties.

(** * Examples *)

Definition sample_event : AuditEvent :=
  mkAuditEvent SchemaVersionV1 "evt-1" "incident" "inc-1" "local:uid:1000" "incident.opened"
    "succeeded" "observed" unixEpoch "" "".
Definition sample_db : @db gmapBolt := {[BucketAudit := ∅]}.

Lemma sample_log : holds_log sample_db [].
Proof. split_and!; [reflexivity|vm_compute; constructor|vm_compute; congruence]. Qed.
Lemma sample_valid : validateEventFields sample_event = Ok tt.
Proof. vm_compute. reflexivity. Qed.
Lemma sample_printable : time_printable (ev_OccurredAt sample_event) = true.
Proof. vm_compute. reflexivity. Qed.

Definition sample_db1 : @db gmapBolt :=
  match Append sample_event None sample_db with Ok (_, d) => d | Fail _ => sample_db end.

Lemma sample_append : Append sample_event None sample_db = Ok (stamped [] sample_event, sample_db1).
Proof.
  destruct (Append_stores (H := gmapBolt) sample_event sample_db [] sample_log sample_valid
    eq_refl eq_refl sample_printable ltac:(done)) as (doc & d' & Happ & _ & _).
  unfold sample_db1. by rewrite Happ.
Qed.

Lemma sample_log1 : holds_log sample_db1 [stamped [] sample_event].
Proof.
  destruct (Append_stores (H := gmapBolt) sample_event sample_db [] sample_log sample_valid
    eq_refl eq_refl sample_printable ltac:(done)) as (doc & d' & Happ & Hdec & Ha).
  unfold sample_db1. rewrite Happ.
  eapply (append_log _ [] _ doc); [apply sample_log|done|exact Ha|exact Hdec|reflexivity|].
  apply not_elem_of_nil.
Qed.

Lemma readChain_refines_log_witness :
  readChain (sample_db : @db gmapBolt) = Ok (log_state [], sample_db).
Proof.
  apply (readChain_refines_log (H := gmapBolt)). split; [reflexivity|]. exists []. exact (conj sample_log eq_refl).
Defined.

Lemma Append_extends_log_witness :
  holds_log sample_db1 ([] ++ [stamped [] sample_event]).
Proof.
  destruct (Append_extends_log (H := gmapBolt) sample_event None sample_db []
    (stamped [] sample_event) sample_db1) as (_ & Hl & _).
  - intros c d u d' Hc. discriminate Hc.
  - exact sample_log.
  - apply not_elem_of_nil.
  - exact sample_append.
  - exact Hl.
Defined.

Lemma Append_succeeds_witness :
  exists d', Append sample_event None sample_db = Ok (stamped [] sample_event, d') /\
    holds_log d' ([] ++ [stamped [] sample_event]).
Proof.
  apply (Append_succeeds (H := gmapBolt) sample_event sample_db []);
    [exact sample_log|exact sample_valid|reflexivity|reflexivity|exact sample_printable|discriminate|].
  apply not_elem_of_nil.
Defined.

Definition broken_db : @db gmapBolt := {[BucketAudit := {["0" := Bytes "tampered"]}]}.

Lemma Append_fails_closed_witness :
  exists e, forall event change, Append event change broken_db = Fail e.
Proof.
  apply (Append_fails_closed (H := gmapBolt)). intros evs Hlog.
  assert (Hr : readChain broken_db = Ok (log_state evs, broken_db)).
  { apply readChain_log. split; [reflexivity|]. exists evs. split; [exact Hlog|reflexivity]. }
  vm_compute in Hr. discriminate Hr.
Defined.

Lemma chain_state_determines_log_witness :
  [stamped [] sample_event] = [stamped [] sample_event] \/ sha256_collision.
Proof.
  apply (chain_state_determines_log (H := gmapBolt) sample_db1 sample_db1 _ _ sample_log1 sample_log1);
    [|reflexivity].
  apply Forall_app. split; (apply Forall_cons; split; [exact sample_printable|apply Forall_nil; exact I]).
Defined.

Lemma Append_duplicate_poisons_witness :
  exists d', Append sample_event None sample_db1 = Ok (stamped [stamped [] sample_event] sample_event, d') /\
    ValidateChain d' = Fail ErrChainInvalid /\
    forall later change, Append later change d' = Fail ErrChainInvalid.
Proof.
  apply (Append_duplicate_poisons (H := gmapBolt) sample_event sample_db1 [stamped [] sample_event]);
    [exact sample_log1|exact sample_valid|reflexivity|reflexivity|exact sample_printable|discriminate|].
  apply elem_of_cons. left. reflexivity.
Defined.
