(* ===== verification/GoText.v ===== *)
(** More of the Go standard library on text: the parts of [strings] the
    registries, the adapters and the payload publishers share, the two
    identifier patterns, [uint64] members of JSON documents, and bounds on the
    length of encoded values. *)
From S2P Require Import Prelude GoLib GoTime GoNumber Sha256 Base64 Webhook Json Contract ContractFacts Store Redaction AuditChain.
From Stdlib Require Import DecimalString DecimalZ DecimalPos Decimal SpecFloat.
From stdpp Require Import options.
Local Open Scope Z_scope.

(** * Text *)

(** [strings.Contains]. *)
Fixpoint contains_str (sub s : string) : bool :=
  has_prefix sub s || match s with EmptyString => false | String _ s' => contains_str sub s' end.

(** [strings.Cut] at one byte. *)
Fixpoint cut_byte (sep : Z) (s : string) : option (string * string) :=
  match s with
  | EmptyString => None
  | String c s' =>
    if byte_of c =? sep then Some (EmptyString, s')
    else match cut_byte sep s' with
         | Some (before, after) => Some (String c before, after)
         | None => None
         end
  end.

(** [strings.Split] at one byte and [strings.Join]. *)
Fixpoint split_byte (sep : Z) (s : string) : list string :=
  match s with
  | EmptyString => [EmptyString]
  | String c s' =>
    if byte_of c =? sep then EmptyString :: split_byte sep s'
    else match split_byte sep s' with
         | [] => [String c EmptyString]
         | part :: parts => String c part :: parts
         end
  end.
Fixpoint join (sep : string) (parts : list string) : string :=
  match parts with
  | [] => EmptyString
  | [part] => part
  | part :: rest => String.append part (String.append sep (join sep rest))
  end.

(** [sort.Strings]. *)
Definition sort_strings (values : list string) : list string := merge_sort String.le values.

(** The class [[A-Za-z0-9]] and the pattern
    [^[A-Za-z0-9][A-Za-z0-9._-]{0,95}$]. *)
Definition is_alnum (r : Z) : bool := is_lower r || is_upper r || is_digit r.
Definition identifier_rest (r : Z) : bool := is_alnum r || (r =? 46) || (r =? 95) || (r =? 45).
Definition matches_identifier (s : string) : bool :=
  match bytes s with
  | [] => false
  | b :: rest => is_alnum b && forallb identifier_rest rest && (length rest <=? 95)%nat
  end.

(** * [uint64] members *)

Definition uint64_json : GoJson Z := {|
  go_zero := 0;
  to_json z := Some (JInt z);
  of_json _ v j := match j with
    | JInt z => if (0 <=? z) && (z <=? maxUint64) then Value z None else type_error v
    | JNull => Value v None
    | _ => type_error v
    end;
|}.
Definition wrap_uint64 (z : Z) : Z := z mod 2 ^ 64.

Lemma uint64_rt z : 0 <= z <= maxUint64 -> json_rt uint64_json z.
Proof.
  intros Hz. exists (JInt z). repeat split. intros strict. cbn.
  destruct (Z.leb_spec 0 z); [|lia]. by destruct (Z.leb_spec z maxUint64); [|lia].
Qed.
(** * Facts on text *)

Lemma split_byte_nonempty sep s : split_byte sep s <> [].
Proof. destruct s as [|c s]; cbn; [done|]. case_match; [done|]. by destruct (split_byte sep s). Qed.
Lemma join_cons sep part rest :
  rest <> [] -> join sep (part :: rest) = String.append part (String.append sep (join sep rest)).
Proof. by destruct rest. Qed.
Lemma join_snoc sep parts part :
  parts <> [] -> join sep (parts ++ [part])%list = String.append (join sep parts) (String.append sep part).
Proof.
  induction parts as [|p parts IH]; [done|]. intros _. destruct parts as [|q parts]; [done|].
  change ((p :: q :: parts) ++ [part])%list with (p :: ((q :: parts) ++ [part]))%list.
  rewrite join_cons, IH by done. by rewrite (join_cons sep p (q :: parts)), !string_app_assoc by done.
Qed.
Lemma split_byte_join sep s : join (String (of_byte sep) EmptyString) (split_byte sep s) = s.
Proof.
  induction s as [|c s IH]; [done|]. cbn [split_byte]. pose proof (split_byte_nonempty sep s) as Hn.
  destruct (Z.eqb_spec (byte_of c) sep) as [<-|Hc].
  - rewrite join_cons, IH by done. cbn. by rewrite of_byte_byte_of.
  - destruct (split_byte sep s) as [|part parts]; [done|]. rewrite <- IH. by destruct parts.
Qed.
Lemma split_byte_free sep s : Forall (fun part => contains_byte part sep = false) (split_byte sep s).
Proof.
  induction s as [|c s IH]; [by repeat constructor|]. cbn [split_byte].
  destruct (Z.eqb_spec (byte_of c) sep) as [E|E]; [by constructor|].
  pose proof (split_byte_nonempty sep s) as Hn. destruct (split_byte sep s) as [|part parts]; [done|].
  inversion IH as [|? ? Hp Hps]; subst. constructor; [|done].
  unfold contains_byte in *. cbn. rewrite Hp. apply Z.eqb_neq in E. rewrite Z.eqb_sym. by rewrite E.
Qed.

Lemma alnum_ascii r : is_alnum r = true -> 48 <= r < 128.
Proof. unfold is_alnum, is_lower, is_upper, is_digit. intros; bool_prop. lia. Qed.
Lemma identifier_rest_ascii r : identifier_rest r = true -> 45 <= r < 128.
Proof.
  unfold identifier_rest. intros H.
  destruct (is_alnum r) eqn:E; [apply alnum_ascii in E; lia|]. bool_prop. lia.
Qed.

(** A name that matches the pattern is clean ASCII text. *)
Lemma matches_identifier_inv s :
  matches_identifier s = true ->
  s <> "" /\ go_len s <= 96 /\ Forall (fun b => identifier_rest b = true) (bytes s).
Proof.
  unfold matches_identifier. intros H. assert (Hl : length (bytes s) = String.length s) by apply length_bytes.
  destruct (bytes s) as [|b rest] eqn:E; [done|]. bool_prop. split_and!.
  - by intros ->.
  - unfold go_len. rewrite <- Hl. cbn [length].
    match goal with X : (_ <=? _)%nat = true |- _ => apply Nat.leb_le in X end. lia.
  - constructor; [unfold identifier_rest; match goal with X : is_alnum b = true |- _ => rewrite X end; done|].
    apply Forall_forall. intros x Hx. eapply forallb_forall; [eassumption|]. by apply list_elem_of_In.
Qed.

Lemma identifier_rest_clean b : identifier_rest b = true -> clean_byte b = true.
Proof.
  intros H. apply audit_rune_clean. revert H. unfold identifier_rest, is_alnum, audit_rune.
  change (bytes "._-:/@") with [46; 95; 45; 58; 47; 64]. cbn [existsb].
  destruct (is_lower b), (is_upper b), (is_digit b); cbn [orb]; try done.
  destruct (b =? 46), (b =? 95), (b =? 45); done.
Qed.
Lemma matches_identifier_clean s : matches_identifier s = true -> clean s = true.
Proof.
  intros (_ & _ & Hf)%matches_identifier_inv. apply forallb_forall. intros b Hb.
  apply identifier_rest_clean. by eapply Forall_forall in Hf; [|by apply list_elem_of_In].
Qed.

(** * Lengths of encoded values *)

Lemma itoa_clean z : 0 <= z -> clean (itoa z) = true.
Proof.
  intros Hz. apply forallb_forall. intros b Hb. destruct (itoa_digits z Hz) as [Hd _].
  eapply Forall_forall in Hd; [|by apply list_elem_of_In]. unfold clean_byte. cbn [existsb].
  rewrite !andb_true_iff, Z.leb_le, Z.ltb_lt, negb_true_iff, !orb_false_iff, !Z.eqb_neq. lia.
Qed.
Lemma clean_app a b : clean a = true -> clean b = true -> clean (String.append a b) = true.
Proof. unfold clean. rewrite bytes_app, forallb_app. by intros -> ->. Qed.

(** The text of an array is its elements with a separator each. *)
Lemma render_arr_len (l : list json) (m : Z) :
  Forall (fun j => go_len (render j) <= m) l ->
  go_len (render (JArr l)) <= 2 + Z.of_nat (length l) * (m + 1).
Proof.
  intros Hf. cbn [render]. rewrite !go_len_app. change (go_len "[") with 1. change (go_len "]") with 1.
  pose proof (sep_concat_len (map render l)) as Hs.
  assert (foldr (fun s n => go_len s + 1 + n) 0 (map render l) <= Z.of_nat (length l) * (m + 1)); [|lia].
  clear Hs. induction Hf as [|j l Hj _ IH]; cbn [map foldr length]; lia.
Qed.

(** ** Lengths of JSON texts *)

Lemma escape_rune_len r : (length (escape_rune r) <= 6)%nat.
Proof. unfold escape_rune, hex4, encode_rune. repeat case_match; cbn; lia. Qed.
Lemma escape_unit_len rw : (length (escape_unit rw) <= 6)%nat.
Proof. unfold escape_unit. destruct (_ && _); [cbn; lia|apply escape_rune_len]. Qed.

Lemma decode_rune_width b l : (1 <= snd (decode_rune (b :: l)))%nat.
Proof. unfold decode_rune. repeat case_match; cbn; lia. Qed.

Lemma escaped_len fuel l :
  (length (concat (map escape_unit (runes_fuel fuel l))) <= 6 * length l)%nat.
Proof.
  revert l. induction fuel as [|fuel IH]; intros [|b l]; try (cbn; lia).
  cbn [runes_fuel map concat]. rewrite length_app.
  pose proof (escape_unit_len (decode_rune (b :: l))). pose proof (decode_rune_width b l).
  specialize (IH (drop (snd (decode_rune (b :: l))) (b :: l))). rewrite length_drop in IH. cbn [length] in *. lia.
Qed.

Lemma length_of_bytes l : String.length (of_bytes l) = length l.
Proof. induction l; cbn; congruence. Qed.

(** A JSON string is at most six times its text, and two quotes. *)
Lemma string_text_len s : go_len (string_text s) <= 6 * go_len s + 2.
Proof.
  unfold string_text. rewrite !go_len_app. change (go_len quote) with 1. unfold go_len, runes.
  rewrite length_of_bytes, <- length_bytes.
  pose proof (escaped_len (length (bytes s)) (bytes s)). lia.
Qed.

Lemma duration_len d n :
  0 <= d < 2 ^ Z.of_nat (41 + n) -> (0 < n)%nat -> go_len (render (JDur d)) <= 6 * Z.of_nat n + 152.
Proof.
  intros Hd Hn. cbn [render]. pose proof (string_text_len (duration_text d)) as Hl.
  assert (go_len (duration_text d) <= Z.of_nat n + 25); [|lia]. unfold go_len. rewrite <- length_bytes, duration_text_bytes.
  unfold sign_bytes. rewrite (proj2 (Z.ltb_ge d 0)), (Z.abs_eq d) by lia. cbn [app length].
  pose proof (duration_bytes_len d n Hd Hn). change ([] ++ duration_bytes d)%list with (duration_bytes d). lia.
Qed.
Lemma float_len f : go_len (render (JFloat f)) <= 90.
Proof. apply float_text_ok. Qed.

(** ** Texts of known or bounded length *)

Lemma choice_clean s l : s ∈ l -> forallb clean l = true -> clean s = true.
Proof. intros Hs Hl. rewrite forallb_forall in Hl. apply Hl. by apply list_elem_of_In. Qed.
Lemma choice_len s l n : s ∈ l -> forallb (fun x => go_len x <=? n) l = true -> go_len s <= n.
Proof. intros Hs Hl. rewrite forallb_forall in Hl. apply Z.leb_le, Hl. by apply list_elem_of_In. Qed.

(** Constant lengths, then arithmetic. *)
Ltac known_lengths :=
  repeat match goal with |- context [ go_len ?s ] => lazymatch s with String _ _ =>
    let n := eval vm_compute in (go_len s) in change (go_len s) with n end end.

Lemma clean_render s n : clean s = true -> go_len s <= n -> go_len (render (JStr s)) <= n + 2.
Proof. intros Hc Hl. cbn [render]. rewrite clean_text_len by done. lia. Qed.
Lemma small_render z n : 0 <= z < 2 ^ Z.of_nat n -> (0 < n)%nat -> go_len (render (JInt z)) <= Z.of_nat n.
Proof. intros Hz Hn. by apply itoa_len. Qed.
Lemma time_render t : go_len (render (JTime t)) <= 32.
Proof. cbn [render]. rewrite !go_len_app. change (go_len quote) with 1. pose proof (rfc3339_len t). lia. Qed.
Lemma string_render s n : go_len s <= n -> go_len (render (JStr s)) <= 6 * n + 2.
Proof. intros Hl. cbn [render]. pose proof (string_text_len s). lia. Qed.

Lemma oneOf_elem value values : oneOf value values = true -> value ∈ values.
Proof.
  induction values as [|candidate rest IH]; cbn [oneOf]; [done|].
  destruct (String.eqb_spec value candidate) as [->|_]; [constructor|]. intros Ho. constructor. by apply IH.
Qed.

Lemma drop_bytes_clean n s : clean s = true -> clean (drop_bytes n s) = true.
Proof.
  revert s. induction n as [|n IH]; intros [|c s]; cbn; try done. unfold clean. cbn [bytes forallb].
  intros [_ H]%andb_true_iff. by apply IH.
Qed.

(** A text made of a literal prefix and a clean rest. *)
Lemma prefix_split p s : has_prefix p s = true -> s = String.append p (drop_bytes (String.length p) s).
Proof.
  revert s. induction p as [|c p IH]; intros s; cbn; [done|]. destruct s as [|x s]; [done|].
  intros [->%Ascii.eqb_eq Hp]%andb_true_iff.
  change (String x s = String x (String.append p (drop_bytes (String.length p) s))). by rewrite <- (IH s Hp).
Qed.

(** * Lenient decoding and maps *)

(** [json.Unmarshal]: unknown and repeated names are allowed. *)
Definition Unmarshal {T} `{GoJson T} (doc : document) : result T :=
  match doc with
  | Text j false =>
    match of_json false go_zero j with
    | Value v None => Ok v
    | _ => Fail (mkError "json" "cannot unmarshal")
    end
  | _ => Fail (mkError "json" "invalid character")
  end.

Lemma Unmarshal_Marshal {T} `{G : GoJson T} (x : T) doc :
  json_rt G x -> Marshal x = Some doc -> Unmarshal doc = Ok x.
Proof.
  intros (j & Hj & _ & Hd) Hm. unfold Marshal in Hm. rewrite Hj in Hm. cbn in Hm. injection Hm as <-.
  unfold Unmarshal. by rewrite Hd.
Qed.

(** [map[string]T]: written in key order, decoded member by member. *)
Section Maps.
Context {T : Type} `{GoJson T}.

Fixpoint decode_entries (strict : bool) (m : gmap string T) (saved : option decode_error)
    (ms : list (string * json)) : decoded (gmap string T) :=
  match ms with
  | [] => Value m saved
  | (key, j) :: ms' =>
    match of_json strict go_zero j with
    | Value v e => decode_entries strict (<[key := v]> m) (first_error saved e) ms'
    | Stopped => Stopped
    end
  end.

Definition entry_le (a b : string * T) : Prop := String.le a.1 b.1.
#[export] Instance entry_le_dec : RelDecision entry_le.
Proof. intros a b. unfold entry_le. apply _. Defined.

#[export] Instance map_json : GoJson (gmap string T) := {|
  go_zero := ∅;
  to_json m :=
    JObj <$> mapM (fun kv => (fun j => (kv.1, j)) <$> to_json kv.2) (merge_sort entry_le (map_to_list m));
  of_json strict m j := match j with
    | JObj ms => decode_entries strict m None ms
    | JNull => Value ∅ None
    | _ => type_error m
    end;
|}.
End Maps.

(** * Lists that are never nil *)

(** A slice that is never nil. *)
Definition present_json {T} (G : GoJson T) : GoJson (list T) := {|
  go_zero := [];
  to_json l := JArr <$> mapM to_json l;
  of_json := @of_json _ slice_json;
|}.

Lemma present_rt {T} (G : GoJson T) (l : list T) : Forall (json_rt G) l -> json_rt (present_json G) l.
Proof.
  intros (js & Hm & Hs & Hd)%elems_rt. exists (JArr js). repeat split.
  - unfold to_json, present_json. by rewrite Hm.
  - by apply scanValue_arr.
  - apply Hd.
Qed.
Lemma present_strings_rt l : forallb valid_utf8 l = true -> json_rt (present_json string_json) l.
Proof.
  intros Hf. apply present_rt, Forall_forall. intros s Hs. apply string_rt. rewrite forallb_forall in Hf.
  apply Hf. by apply list_elem_of_In.
Qed.
#[global] Arguments present_json : simpl never.

(** * Bounded values

    The loop that keeps at most [limit] finite values, each clamped to
    [bound], in key order. *)
Fixpoint clamp_loop (limit : nat) (bound opposite : float64) (out : gmap string float64)
    (entries : list (string * float64)) : gmap string float64 :=
  match entries with
  | [] => out
  | (key, value) :: rest =>
    if (size out =? limit)%nat then out
    else if negb (is_finite value) then clamp_loop limit bound opposite out rest
    else
      let value := if SFltb bound value then bound else value in
      let value := if SFltb value opposite then opposite else value in
      clamp_loop limit bound opposite (<[key := value]> out) rest
  end.
Definition clamp_values (limit : nat) (bound : Z) (values : gmap string float64) : gmap string float64 :=
  clamp_loop limit (binary_normalize 53 1024 bound 0 false) (binary_normalize 53 1024 (- bound) 0 false) ∅
    (merge_sort entry_le (map_to_list values)).
