(* ===== verification/Target.v ===== *)
(** The registry of monitored targets (src/internal/target/registry.go): the
    validation of one registration against the configured allowlist, the
    audited transaction that stores it, and the in-memory snapshot the
    observers and the alert ingress read.

    A registry holds its configuration and its snapshot; the store is threaded
    through each call.  [Register] validates before it takes the registry's
    lock and does the rest under it, so calls are one after the other. *)
From S2P Require Import Prelude GoLib GoTime Json Contract ContractFacts Store Redaction AuditChain GoText.
From Stdlib Require Import SpecFloat.
From stdpp Require Import options.
Local Open Scope Z_scope.

Definition maxTargets : Z := 10000.
Definition maxTargetIDBytes : Z := 96.
Definition maxProbeRules : Z := 64.
Definition maxDuration : duration := 24 * hour.
Definition maxSamples : Z := 100.

Definition target_error := mkError "target".
Definition ErrInvalidOptions := target_error "invalid target registry options".
Definition ErrInvalidTarget := target_error "invalid service target".
Definition ErrUnknownAdapter := target_error "unknown target adapter".
Definition ErrTargetNotAllowed := target_error "target is not allowed".
Definition ErrDuplicateTarget := target_error "duplicate service target".
Definition ErrTargetLimit := target_error "service target limit reached".

(** * Data *)

Record Registration := mkRegistration {
  rg_Target : ServiceTarget;
  rg_ActorIdentity : string;
  rg_RequestID : string;
  rg_ReasonCode : string;
}.

Record Snapshot := mkSnapshot { ss_SchemaVersion : string; ss_Version : Z; ss_Targets : list ServiceTarget }.

Record Registry := mkRegistry {
  rg_allowedTargets : gmap string string;
  rg_maxTargets : Z;
  rg_maxEvidenceBytes : Z;
  rg_snapshot : Snapshot;
}.
#[export] Instance Registry_eta : Updatable Registry :=
  fun r => mkRegistry (rg_allowedTargets r) (rg_maxTargets r) (rg_maxEvidenceBytes r) (rg_snapshot r).

Record persistedTarget := mkPersistedTarget {
  pt_SchemaVersion : string;
  pt_Version : Z;
  pt_Target : ServiceTarget;
}.
#[export] Instance persistedTarget_eta : Updatable persistedTarget :=
  fun r => mkPersistedTarget (pt_SchemaVersion r) (pt_Version r) (pt_Target r).
Definition persistedTarget_zero : persistedTarget := mkPersistedTarget "" 0 ServiceTarget_zero.
#[export] Instance persistedTarget_json : GoJson persistedTarget := struct_json persistedTarget_zero [
  field_of "schema_version" pt_SchemaVersion never;
  @field_of _ _ uint64_json "version" pt_Version _ never;
  field_of "target" pt_Target never].

(** What one call draws from outside: a fresh audit event ID and the clock. *)
Record surroundings := mkSurroundings { at_auditID : result string; at_now : time }.

(** * Validation *)

Definition validIdentifier (value : string) : bool :=
  (go_len value <=? maxTargetIDBytes) && matches_identifier value && negb (contains_str ".." value).

Definition matches_selector (value : string) : bool :=
  (has_prefix "container:" value && matches_identifier (drop_bytes 10 value)) ||
  (has_prefix "compose_service:" value && matches_identifier (drop_bytes 16 value)).

Definition validAuditValue (value : string) : bool :=
  if String.eqb value "" || (128 <? go_len value) then false
  else forallb audit_rune (map fst (runes value)).

Definition validRegistrationContext (registration : Registration) : bool :=
  validAuditValue (rg_ActorIdentity registration) && validAuditValue (rg_RequestID registration) &&
  validAuditValue (rg_ReasonCode registration).

Definition float_of (z : Z) : float64 := binary_normalize 53 1024 z 0 false.

Definition validateProbeRule (rule : ProbeRule) : result unit :=
  if negb (validIdentifier (pr_RuleID rule)) ||
     (negb (String.eqb (pr_SignalType rule) "availability") && negb (String.eqb (pr_SignalType rule) "error_rate") &&
      negb (String.eqb (pr_SignalType rule) "latency_ms")) ||
     (pr_Interval rule <? second) || (hour <? pr_Interval rule) ||
     (pr_Timeout rule <? millisecond) || (pr_Interval rule <? pr_Timeout rule) ||
     negb (is_finite (pr_Threshold rule)) || SFleb (pr_Threshold rule) (float_of 0) ||
     SFltb (float_of 1000000) (pr_Threshold rule) ||
     (pr_ConsecutiveFailures rule <? 1) || (maxSamples <? pr_ConsecutiveFailures rule) ||
     (pr_RecoverySamples rule <? 1) || (maxSamples <? pr_RecoverySamples rule) ||
     (pr_SLOWindow rule <? pr_Interval rule) || (maxDuration <? pr_SLOWindow rule)
  then Fail ErrInvalidTarget
  else if negb (String.eqb (pr_Severity rule) SeverityInfo) && negb (String.eqb (pr_Severity rule) SeverityWarning) &&
          negb (String.eqb (pr_Severity rule) SeverityCritical)
  then Fail ErrInvalidTarget
  else Ok tt.

Fixpoint validate_rules (seenRules : gset string) (rules : list ProbeRule) : result unit :=
  match rules with
  | [] => Ok tt
  | rule :: rest =>
    validateProbeRule rule ≫= fun _ =>
    if decide (pr_RuleID rule ∈ seenRules) then Fail ErrInvalidTarget
    else validate_rules ({[pr_RuleID rule]} ∪ seenRules) rest
  end.

Definition validateTarget (r : Registry) (candidate : ServiceTarget) : result unit :=
  if negb (String.eqb (tgt_SchemaVersion candidate) SchemaVersionV1) || negb (validIdentifier (tgt_TargetID candidate))
  then Fail ErrInvalidTarget
  else
  match rg_allowedTargets r !! tgt_TargetID candidate with
  | None => Fail ErrTargetNotAllowed
  | Some allowedAdapter =>
  if negb (String.eqb (tgt_AdapterType candidate) allowedAdapter) || negb (String.eqb (tgt_AdapterType candidate) "docker")
  then Fail ErrUnknownAdapter
  else if negb (matches_selector (tgt_Selector candidate)) || contains_str ".." (tgt_Selector candidate)
  then Fail ErrInvalidTarget
  else if (Z.of_nat (length (tgt_ProbeRules candidate)) =? 0) ||
          (maxProbeRules <? Z.of_nat (length (tgt_ProbeRules candidate)))
  then Fail ErrInvalidTarget
  else
  validate_rules ∅ (tgt_ProbeRules candidate) ≫= fun _ =>
  if (negb (String.eqb (ep_RedactionProfile (tgt_EvidencePolicy candidate)) "default") &&
      negb (String.eqb (ep_RedactionProfile (tgt_EvidencePolicy candidate)) "strict")) ||
     (ep_MaxBytes (tgt_EvidencePolicy candidate) <? 1) ||
     (rg_maxEvidenceBytes r <? ep_MaxBytes (tgt_EvidencePolicy candidate))
  then Fail ErrInvalidTarget
  else if (sp_RecoverySamples (tgt_StabilizationPolicy candidate) <? 1) ||
          (maxSamples <? sp_RecoverySamples (tgt_StabilizationPolicy candidate)) ||
          (sp_Window (tgt_StabilizationPolicy candidate) <? second) ||
          (maxDuration <? sp_Window (tgt_StabilizationPolicy candidate))
  then Fail ErrInvalidTarget
  else Ok tt
  end.

Definition auditAggregateID (targetID : string) : string :=
  if validIdentifier targetID then targetID else "target-unknown".

(** The configured allowlist as a map, empty at first. *)
Fixpoint allowed_entries (allowed : gmap string string) (targets : list (string * string)) :
    result (gmap string string) :=
  match targets with
  | [] => Ok allowed
  | (targetID, adapterType) :: rest =>
    if negb (validIdentifier targetID) || negb (String.eqb adapterType "docker") then Fail ErrInvalidOptions
    else match allowed !! targetID with
         | Some _ => Fail ErrInvalidOptions
         | None => allowed_entries (<[targetID := adapterType]> allowed) rest
         end
  end.
Definition allowedTargetMap (targets : list (string * string)) : result (gmap string string) :=
  allowed_entries ∅ targets.

(** * Stored targets *)

Definition encodePersistedTarget (record : persistedTarget) : option document := Marshal record.

Definition persisted_options : DecodeOptions persistedTarget :=
  {| MaxBytes := MaxDocumentBytes; SchemaVersion := SchemaVersionV1;
     Validate := Some (fun value =>
       if negb (String.eqb (pt_SchemaVersion value) SchemaVersionV1) ||
          negb (String.eqb (tgt_SchemaVersion (pt_Target value)) SchemaVersionV1)
       then Fail ErrInvalidTarget else Ok tt) |}.

Definition decodePersistedTarget (doc : document) : result persistedTarget :=
  match Decode doc persisted_options with Ok record => Ok record | Fail _ => Fail ErrInvalidTarget end.

(** [target.Decode]: the document of one registration request. *)
Definition target_options : DecodeOptions ServiceTarget :=
  {| MaxBytes := MaxDocumentBytes; SchemaVersion := SchemaVersionV1;
     Validate := Some (fun value =>
       if negb (String.eqb (tgt_SchemaVersion value) SchemaVersionV1) then Fail ErrInvalidTarget else Ok tt) |}.
Definition decode_target (doc : document) : result ServiceTarget :=
  match Decode doc target_options with Ok target => Ok target | Fail _ => Fail ErrInvalidTarget end.

Definition target_le (left right : ServiceTarget) : Prop := String.le (tgt_TargetID left) (tgt_TargetID right).
#[export] Instance target_le_dec : RelDecision target_le.
Proof. intros a b. unfold target_le. apply _. Defined.

(** [sort.Slice] by target ID. *)
Definition sort_targets (targets : list ServiceTarget) : list ServiceTarget := merge_sort target_le targets.

Section Registry.
Context `{Bolt}.

Definition load_step (r : Registry) (loaded : Snapshot) (key : string) (doc : document) : result Snapshot :=
  match decodePersistedTarget doc with
  | Fail _ => Fail ErrInvalidTarget
  | Ok record =>
    if negb (String.eqb key (tgt_TargetID (pt_Target record))) || (pt_Version record =? 0)
    then Fail ErrInvalidTarget
    else
      validateTarget r (pt_Target record) ≫= fun _ =>
      Ok (mkSnapshot (ss_SchemaVersion loaded)
            (if ss_Version loaded <? pt_Version record then pt_Version record else ss_Version loaded)
            (ss_Targets loaded ++ [pt_Target record]))
  end.

Definition load (r : Registry) (d : db) : result Snapshot :=
  View (ForEach BucketServiceTargets (mkSnapshot SchemaVersionV1 0 []) (load_step r)) d ≫= fun loaded =>
  if rg_maxTargets r <? Z.of_nat (length (ss_Targets loaded)) then Fail ErrTargetLimit
  else Ok (mkSnapshot (ss_SchemaVersion loaded) (ss_Version loaded) (sort_targets (ss_Targets loaded))).

Definition NewRegistry (targets : list (string * string)) (maxT maxEvidence : Z) (d : db) : result Registry :=
  match allowedTargetMap targets with
  | Fail _ => Fail ErrInvalidOptions
  | Ok allowed =>
    if (maxT <? 1) || (maxTargets <? maxT) || (maxEvidence <? 1) then Fail ErrInvalidOptions
    else
      let registry := mkRegistry allowed maxT maxEvidence (mkSnapshot SchemaVersionV1 0 []) in
      load registry d ≫= fun snapshot => Ok (registry <| rg_snapshot := snapshot |>)
  end.

Definition appendAudit (env : surroundings) (registration : Registration) (aggregateID res reason : string)
    (change : option (st db unit)) : st db unit :=
  st_lift (at_auditID env) ≫= fun eventID =>
  if is_zero (at_now env) then st_fail ErrInvalidOptions
  else
    AuditChain.Append
      (mkAuditEvent SchemaVersionV1 eventID "service_target" aggregateID (rg_ActorIdentity registration)
         "target.register" res reason (at_now env) "" "") change ≫= fun _ => mret tt.

Definition recordRejected (env : surroundings) (registration : Registration) (aggregateID reason : string) (d : db) :
    result unit * db :=
  Update (appendAudit env registration aggregateID "rejected" reason None) d.

(** The transaction: the error the caller gets although it commits. *)
Definition register_body (r : Registry) (env : surroundings) (registration : Registration) : st db (option error) :=
  let target := rg_Target registration in
  let aggregate := auditAggregateID (tgt_TargetID target) in
  Get BucketServiceTargets (tgt_TargetID target) ≫= fun found =>
  match found with
  | Some _ =>
    appendAudit env registration aggregate "rejected" "duplicate_target" None ≫= fun _ =>
    mret (Some ErrDuplicateTarget)
  | None =>
    if rg_maxTargets r <=? Z.of_nat (length (ss_Targets (rg_snapshot r))) then
      appendAudit env registration aggregate "rejected" "target_limit_reached" None ≫= fun _ =>
      mret (Some ErrTargetLimit)
    else
      let nextVersion := wrap_uint64 (ss_Version (rg_snapshot r) + 1) in
      match encodePersistedTarget (mkPersistedTarget SchemaVersionV1 nextVersion target) with
      | None => st_fail (mkError "json" "unsupported value")
      | Some doc =>
        appendAudit env registration aggregate "accepted" (rg_ReasonCode registration)
          (Some (Put BucketServiceTargets (tgt_TargetID target) doc)) ≫= fun _ =>
        mret None
      end
  end.

(** The snapshot after a registration. *)
Definition registered (snapshot : Snapshot) (target : ServiceTarget) : Snapshot :=
  mkSnapshot SchemaVersionV1 (wrap_uint64 (ss_Version snapshot + 1)) (sort_targets (ss_Targets snapshot ++ [target])).

(** [Register]: the snapshot and the error returned, the registry and the
    store after the call. *)
Definition Register (r : Registry) (env : surroundings) (registration : Registration) (d : db) :
    Snapshot * option error * Registry * db :=
  if negb (validRegistrationContext registration) then (mkSnapshot "" 0 [], Some ErrInvalidOptions, r, d)
  else
  match validateTarget r (rg_Target registration) with
  | Fail err =>
    match recordRejected env registration (auditAggregateID (tgt_TargetID (rg_Target registration))) "invalid_target" d with
    | (Fail auditErr, d') => (rg_snapshot r, Some auditErr, r, d')
    | (Ok _, d') => (rg_snapshot r, Some err, r, d')
    end
  | Ok _ =>
    match Update (register_body r env registration) d with
    | (Fail err, d') => (rg_snapshot r, Some err, r, d')
    | (Ok (Some registrationErr), d') => (rg_snapshot r, Some registrationErr, r, d')
    | (Ok None, d') =>
      let snapshot := registered (rg_snapshot r) (rg_Target registration) in
      (snapshot, None, r <| rg_snapshot := snapshot |>, d')
    end
  end.
End Registry.

(** * Facts *)

(** ** Validation *)

Record rule_ok (rule : ProbeRule) : Prop := {
  ro_id : matches_identifier (pr_RuleID rule) = true;
  ro_signal : pr_SignalType rule ∈ ["availability"; "error_rate"; "latency_ms"];
  ro_interval : second <= pr_Interval rule <= hour;
  ro_timeout : millisecond <= pr_Timeout rule <= pr_Interval rule;
  ro_threshold : is_finite (pr_Threshold rule) = true;
  ro_failures : 1 <= pr_ConsecutiveFailures rule <= maxSamples;
  ro_recoveries : 1 <= pr_RecoverySamples rule <= maxSamples;
  ro_window : pr_Interval rule <= pr_SLOWindow rule <= maxDuration;
  ro_severity : pr_Severity rule ∈ [SeverityInfo; SeverityWarning; SeverityCritical];
}.

Lemma validIdentifier_matches value : validIdentifier value = true -> matches_identifier value = true.
Proof. unfold validIdentifier. intros; by bool_prop. Qed.

Lemma one_of_three v a b c :
  negb (String.eqb v a) && negb (String.eqb v b) && negb (String.eqb v c) = false -> v ∈ [a; b; c].
Proof.
  rewrite !elem_of_cons. destruct (String.eqb_spec v a), (String.eqb_spec v b), (String.eqb_spec v c); cbn; intros; try discriminate; tauto.
Qed.

Lemma validateProbeRule_ok rule : validateProbeRule rule = Ok tt -> rule_ok rule.
Proof.
  unfold validateProbeRule. pass_guard E1. pass_guard E2. intros _.
  rewrite !orb_false_iff, !Z.ltb_ge, !negb_false_iff in E1. destruct_and! E1.
  split; try done; try (by split); auto using validIdentifier_matches, one_of_three.
Qed.

Record target_ok (r : Registry) (t : ServiceTarget) : Prop := {
  to_version : tgt_SchemaVersion t = SchemaVersionV1;
  to_id : matches_identifier (tgt_TargetID t) = true;
  to_allowed : rg_allowedTargets r !! tgt_TargetID t = Some "docker";
  to_adapter : tgt_AdapterType t = "docker";
  to_selector : matches_selector (tgt_Selector t) = true;
  to_rules : 1 <= Z.of_nat (length (tgt_ProbeRules t)) <= maxProbeRules;
  to_each : Forall rule_ok (tgt_ProbeRules t);
  to_distinct : NoDup (map pr_RuleID (tgt_ProbeRules t));
  to_profile : ep_RedactionProfile (tgt_EvidencePolicy t) ∈ ["default"; "strict"];
  to_evidence : 1 <= ep_MaxBytes (tgt_EvidencePolicy t) <= rg_maxEvidenceBytes r;
  to_samples : 1 <= sp_RecoverySamples (tgt_StabilizationPolicy t) <= maxSamples;
  to_window : second <= sp_Window (tgt_StabilizationPolicy t) <= maxDuration;
}.

Lemma validate_rules_ok seen rules :
  validate_rules seen rules = Ok tt ->
  Forall rule_ok rules /\ NoDup (map pr_RuleID rules) /\ forall rule, rule ∈ rules -> pr_RuleID rule ∉ seen.
Proof.
  revert seen. induction rules as [|rule rules IH]; intros seen; cbn.
  { intros _. split_and!; [constructor..|]. by intros rule Hr%elem_of_nil. }
  intros ([] & Hr%validateProbeRule_ok & H)%result_bind_ok. case_decide as Hs; [done|].
  apply IH in H as (Hf & Hn & Hd). split_and!; [by constructor| |].
  - constructor; [|done]. intros (rule' & He & Hin)%list_elem_of_fmap. specialize (Hd rule' Hin). set_solver.
  - intros rule' [->|Hin]%elem_of_cons; [done|]. specialize (Hd rule' Hin). set_solver.
Qed.

Lemma one_of_two v a b : negb (String.eqb v a) && negb (String.eqb v b) = false -> v ∈ [a; b].
Proof.
  rewrite !elem_of_cons. destruct (String.eqb_spec v a), (String.eqb_spec v b); cbn; intros; try discriminate; tauto.
Qed.

Lemma validateTarget_ok r t : validateTarget r t = Ok tt -> target_ok r t.
Proof.
  unfold validateTarget. pass_guard E1. destruct (rg_allowedTargets r !! _) as [adapter|] eqn:Ea; [|done].
  pass_guard E2. pass_guard E3. pass_guard E4.
  intros ([] & (Hf & Hn & _)%validate_rules_ok & H)%result_bind_ok. revert H. pass_guard E5. pass_guard E6. intros _.
  rewrite !orb_false_iff, ?Z.ltb_ge, ?negb_false_iff, ?Z.eqb_neq, ?String.eqb_eq in *. destruct_and!.
  split; try done; try lia; auto using validIdentifier_matches, one_of_two. by congruence.
Qed.

(** ** The stored document *)

#[local] Arguments uint64_json : simpl never.

Lemma persistedTarget_rtv p :
  valid_utf8 (pt_SchemaVersion p) = true -> 0 <= pt_Version p <= maxUint64 -> ServiceTarget_ok (pt_Target p) = true ->
  json_rtv persistedTarget_json p (pt_SchemaVersion p).
Proof.
  destruct p as [version n t]. cbn. intros Hs Hn Ht. pose proof (uint64_rt n Hn) as R1.
  pose proof (ServiceTarget_rt t Ht) as R2. clear Hn Ht. revert Hs. unfold persistedTarget_json.
  rt_member R1. rt_member R2. struct_rtv.
Qed.

Lemma selector_clean s : matches_selector s = true -> clean s = true /\ go_len s <= 112.
Proof.
  unfold matches_selector. intros [[Hp Hm]%andb_true_iff|[Hp Hm]%andb_true_iff]%orb_true_iff;
    rewrite (prefix_split _ _ Hp), go_len_app; pose proof (matches_identifier_inv _ Hm) as (_ & Hl & _);
    (split; [apply clean_app; [reflexivity|by apply matches_identifier_clean]|]); cbn [String.length] in *;
    match goal with |- go_len ?s + _ <= _ => let n := eval vm_compute in (go_len s) in change (go_len s) with n end; lia.
Qed.

Lemma rule_json_ok rule : rule_ok rule -> ProbeRule_ok rule = true.
Proof.
  intros []. unfold ProbeRule_ok, int64_ok, minInt64, maxInt64, maxSamples in *.
  rewrite !andb_true_iff, !Z.leb_le. split_and!; try lia; try done; apply clean_valid_utf8;
    [by apply matches_identifier_clean|by eapply choice_clean..].
Qed.

Lemma target_json_ok r t : rg_maxEvidenceBytes r <= maxInt64 -> target_ok r t -> ServiceTarget_ok t = true.
Proof.
  intros Hmax []. unfold ServiceTarget_ok, EvidencePolicy_ok, StabilizationPolicy_ok, int64_ok, minInt64 in *.
  rewrite !andb_true_iff, !Z.leb_le. unfold maxSamples, maxInt64 in *. split_and!; try lia.
  - by rewrite to_version0.
  - by apply clean_valid_utf8, matches_identifier_clean.
  - by rewrite to_adapter0.
  - by apply clean_valid_utf8, selector_clean.
  - apply forallb_forall. intros x Hx%list_elem_of_In. eapply Forall_forall in to_each0; [|done].
    by apply rule_json_ok.
  - by eapply clean_valid_utf8, choice_clean.
Qed.

(** The members written for a rule and for a target. *)
Definition rule_members (rule : ProbeRule) : list (string * json) :=
  [("rule_id", JStr (pr_RuleID rule)); ("signal_type", JStr (pr_SignalType rule));
   ("interval", JDur (pr_Interval rule)); ("timeout", JDur (pr_Timeout rule)); ("threshold", JFloat (pr_Threshold rule));
   ("consecutive_failures", JInt (pr_ConsecutiveFailures rule)); ("recovery_samples", JInt (pr_RecoverySamples rule));
   ("slo_window", JDur (pr_SLOWindow rule)); ("severity", JStr (pr_Severity rule))].
Definition target_members (t : ServiceTarget) : list (string * json) :=
  [("schema_version", JStr (tgt_SchemaVersion t)); ("target_id", JStr (tgt_TargetID t));
   ("adapter_type", JStr (tgt_AdapterType t)); ("selector", JStr (tgt_Selector t));
   ("probe_rules", JArr (map (fun rule => JObj (rule_members rule)) (tgt_ProbeRules t)));
   ("evidence_policy", JObj [("redaction_profile", JStr (ep_RedactionProfile (tgt_EvidencePolicy t)));
                             ("max_bytes", JInt (ep_MaxBytes (tgt_EvidencePolicy t)))]);
   ("stabilization_policy", JObj [("recovery_samples", JInt (sp_RecoverySamples (tgt_StabilizationPolicy t)));
                                  ("window", JDur (sp_Window (tgt_StabilizationPolicy t)))]);
   ("enabled", JBool (tgt_Enabled t))].
Definition persisted_members (p : persistedTarget) : list (string * json) :=
  [("schema_version", JStr (pt_SchemaVersion p)); ("version", JInt (pt_Version p));
   ("target", JObj (target_members (pt_Target p)))].

Lemma rule_to_json rule : ProbeRule_ok rule = true -> to_json rule = Some (JObj (rule_members rule)).
Proof.
  destruct rule. unfold ProbeRule_ok, ProbeRule_json, rule_members. cbn -[utf8_coerce]. intros H. bool_prop.
  destruct pr_Threshold; done.
Qed.

Lemma rules_to_json rules :
  rules <> [] -> forallb ProbeRule_ok rules = true ->
  to_json rules = Some (JArr (map (fun rule => JObj (rule_members rule)) rules)).
Proof.
  intros Hne Hok. assert (Hm : mapM to_json rules = Some (map (fun rule => JObj (rule_members rule)) rules)).
  { clear Hne. induction rules as [|rule rules IH]; [done|]. cbn in Hok. bool_prop. cbn [mapM map].
    rewrite rule_to_json by done. cbn. by rewrite IH. }
  destruct rules as [|rule rules]; [done|]. unfold to_json, slice_json. by rewrite Hm.
Qed.

Lemma Marshal_persisted p :
  valid_utf8 (pt_SchemaVersion p) = true -> ServiceTarget_ok (pt_Target p) = true -> tgt_ProbeRules (pt_Target p) <> [] ->
  Marshal p = Some (Text (JObj (persisted_members p)) false).
Proof.
  destruct p as [version n t]. cbn [pt_SchemaVersion pt_Target]. intros Hv Hok Hne.
  assert (Ht : to_json t = Some (JObj (target_members t))).
  { destruct t as [v i a s rules [pr mb] [rs w] en]. unfold ServiceTarget_ok, EvidencePolicy_ok in Hok. cbn in Hok, Hne.
    rewrite !andb_true_iff in Hok. destruct_and! Hok.
    unfold ServiceTarget_json, EvidencePolicy_json, StabilizationPolicy_json. cbn.
    by rewrite rules_to_json. }
  unfold Marshal, persistedTarget_json. cbn. by rewrite Ht.
Qed.

Lemma rule_render rule : rule_ok rule -> go_len (render (JObj (rule_members rule))) <= 930.
Proof.
  intros []. etransitivity; [apply render_obj_len; repeat constructor|]. unfold rule_members. cbn [foldr fst snd].
  pose proof (clean_render (pr_RuleID rule) 96 (matches_identifier_clean _ ro_id0)
                (proj1 (proj2 (matches_identifier_inv _ ro_id0)))).
  assert (go_len (render (JStr (pr_SignalType rule))) <= 14) by (apply (clean_render _ 12); [by eapply choice_clean|by eapply choice_len]).
  assert (go_len (render (JStr (pr_Severity rule))) <= 14) by (apply (clean_render _ 12); [by eapply choice_clean|by eapply choice_len]).
  assert (Hd : forall d, 0 <= d <= maxDuration -> go_len (render (JDur d)) <= 188).
  { intros d Hd. apply (duration_len d 6); [|lia]. change (2 ^ Z.of_nat (41 + 6)) with 140737488355328. revert Hd. unfold maxDuration, hour, minute, second. lia. }
  assert (Hz : forall z, 1 <= z <= maxSamples -> go_len (render (JInt z)) <= 7).
  { intros z Hz. apply (small_render z 7); [|lia]. revert Hz. unfold maxSamples. lia. }
  pose proof (Hd (pr_Interval rule)). pose proof (Hd (pr_Timeout rule)). pose proof (Hd (pr_SLOWindow rule)).
  pose proof (Hz _ ro_failures0). pose proof (Hz _ ro_recoveries0).
  pose proof (float_len (pr_Threshold rule)).
  unfold second, millisecond, hour, minute, maxDuration in *. known_lengths. lia.
Qed.

Lemma persisted_render r p :
  rg_maxEvidenceBytes r <= maxInt64 -> pt_SchemaVersion p = SchemaVersionV1 -> 0 <= pt_Version p <= maxUint64 ->
  target_ok r (pt_Target p) -> go_len (render (JObj (persisted_members p))) <= 65536.
Proof.
  destruct p as [version n t]. cbn [pt_SchemaVersion pt_Version pt_Target]. intros Hmax -> Hn [].
  etransitivity; [apply render_obj_len; repeat constructor|]. unfold persisted_members. cbn [foldr fst snd pt_SchemaVersion pt_Version pt_Target].
  assert (go_len (render (JObj (target_members t))) <= 61000); [|pose proof (small_render n 64 ltac:(unfold maxUint64 in *; lia) ltac:(lia));
    change (go_len (render (JStr SchemaVersionV1))) with 4; known_lengths; lia].
  etransitivity; [apply render_obj_len; repeat constructor|]. unfold target_members. cbn [foldr fst snd].
  rewrite to_version0, to_adapter0.
  pose proof (clean_render _ 96 (matches_identifier_clean _ to_id0) (proj1 (proj2 (matches_identifier_inv _ to_id0)))).
  destruct (selector_clean _ to_selector0) as [Hc Hl]. pose proof (clean_render _ 112 Hc Hl).
  pose proof (render_arr_len (map (fun rule => JObj (rule_members rule)) (tgt_ProbeRules t)) 930) as Ha.
  rewrite length_map in Ha. specialize (Ha ltac:(apply Forall_map; eapply Forall_impl; [exact to_each0|exact rule_render])).
  pose proof (render_obj_len [("redaction_profile", JStr (ep_RedactionProfile (tgt_EvidencePolicy t)));
                             ("max_bytes", JInt (ep_MaxBytes (tgt_EvidencePolicy t)))] ltac:(repeat constructor)) as He.
  pose proof (render_obj_len [("recovery_samples", JInt (sp_RecoverySamples (tgt_StabilizationPolicy t)));
                                  ("window", JDur (sp_Window (tgt_StabilizationPolicy t)))] ltac:(repeat constructor)) as Hs.
  cbn [foldr fst snd] in He, Hs.
  assert (go_len (render (JStr (ep_RedactionProfile (tgt_EvidencePolicy t)))) <= 14)
    by (apply (clean_render _ 12); [by eapply choice_clean|by eapply choice_len]).
  pose proof (small_render (ep_MaxBytes (tgt_EvidencePolicy t)) 63 ltac:(unfold maxInt64 in *; lia) ltac:(lia)).
  pose proof (small_render (sp_RecoverySamples (tgt_StabilizationPolicy t)) 7 ltac:(unfold maxSamples in *; lia) ltac:(lia)).
  pose proof (duration_len (sp_Window (tgt_StabilizationPolicy t)) 6
    ltac:(change (2 ^ Z.of_nat (41 + 6)) with 140737488355328; unfold maxDuration, hour, minute, second in *; lia) ltac:(lia)).
  assert (go_len (render (JBool (tgt_Enabled t))) <= 5) by (destruct (tgt_Enabled t); vm_compute; discriminate).
  change (go_len (render (JStr SchemaVersionV1))) with 4. change (go_len (render (JStr "docker"))) with 8.
  revert He Hs. known_lengths. unfold maxProbeRules in *. lia.
Qed.

Lemma decode_persisted r p doc :
  rg_maxEvidenceBytes r <= maxInt64 -> pt_SchemaVersion p = SchemaVersionV1 -> 0 <= pt_Version p <= maxUint64 ->
  target_ok r (pt_Target p) -> Marshal p = Some doc -> decodePersistedTarget doc = Ok p.
Proof.
  intros Hmax Hs Hn Ht Hm. pose proof (target_json_ok _ _ Hmax Ht) as Hok.
  destruct (Decode_rtv p persisted_options (fun value =>
       if negb (String.eqb (pt_SchemaVersion value) SchemaVersionV1) ||
          negb (String.eqb (tgt_SchemaVersion (pt_Target value)) SchemaVersionV1)
       then Fail ErrInvalidTarget else Ok tt)) as (doc' & Hm' & Hdec); [..|].
  - cbn [SchemaVersion persisted_options]. rewrite <- Hs. apply persistedTarget_rtv; [by rewrite Hs|done|done].
  - done.
  - done.
  - cbn. by rewrite Hs, (to_version _ _ Ht).
  - done.
  - rewrite Hm in Hm'. injection Hm' as <-. unfold decodePersistedTarget. rewrite Hdec; [done|].
    rewrite Marshal_persisted in Hm; [|by rewrite Hs|done|].
    + injection Hm as <-. by eapply persisted_render.
    + intros He. pose proof (to_rules _ _ Ht) as Hr. rewrite He in Hr. cbn in Hr. lia.
Qed.

(** ** Loading *)

#[export] Instance target_le_total : Total target_le.
Proof. intros a b. unfold target_le. apply String.le_total. Qed.
#[export] Instance target_le_trans : Transitive target_le.
Proof. intros a b c. unfold target_le. apply transitivity. Qed.

(** Targets with distinct IDs have one sorted order. *)
Lemma sort_targets_unique l l' :
  l ≡ₚ l' -> NoDup (map tgt_TargetID l) -> sort_targets l = sort_targets l'.
Proof.
  intros Hp Hn. assert (Hs : forall k, StronglySorted target_le (sort_targets k))
    by (intros k; apply Sorted_StronglySorted; [apply _|]; apply Sorted_merge_sort, _).
  eapply StronglySorted_unique_strong; [|apply Hs..|].
  - intros x y Hx Hy Hxy Hyx. unfold sort_targets in *. rewrite merge_sort_Permutation in Hx.
    rewrite merge_sort_Permutation, <- Hp in Hy. unfold target_le in *.
    assert (tgt_TargetID x = tgt_TargetID y) by (by apply (anti_symm String.le)).
    eapply (fmap_NoDup_inj tgt_TargetID); eauto.
  - unfold sort_targets. by rewrite !merge_sort_Permutation.
Qed.

Definition newest (records : list persistedTarget) : Z := foldr Z.max 0 (map pt_Version records).

#[export] Instance newest_proper : Proper (Permutation ==> eq) newest.
Proof. intros l l' Hp. unfold newest. induction Hp; cbn; lia. Qed.

Record entry_ok (r : Registry) (entry : string * document) (record : persistedTarget) : Prop := {
  eo_decode : decodePersistedTarget entry.2 = Ok record;
  eo_key : entry.1 = tgt_TargetID (pt_Target record);
  eo_version : pt_Version record <> 0;
  eo_target : validateTarget r (pt_Target record) = Ok tt;
}.

Lemma load_step_ok r acc key doc out :
  load_step r acc key doc = Ok out <->
  exists record, entry_ok r (key, doc) record /\
    out = mkSnapshot (ss_SchemaVersion acc) (Z.max (ss_Version acc) (pt_Version record))
            (ss_Targets acc ++ [pt_Target record]).
Proof.
  unfold load_step. split.
  - destruct (decodePersistedTarget doc) as [record|] eqn:Ed; [|done]. destruct (_ || _) eqn:E; [done|].
    apply orb_false_iff in E as [->%negb_false_iff%String.eqb_eq E%Z.eqb_neq].
    intros ([] & Hv & [= <-])%result_bind_ok. exists record. split; [by split|].
    f_equal. destruct (Z.ltb_spec (ss_Version acc) (pt_Version record)); lia.
  - intros (record & [Hd Hk Hv Ht] & ->). cbn in Hd, Hk. rewrite Hd, <- Hk, String.eqb_refl.
    destruct (Z.eqb_spec (pt_Version record) 0); [done|]. cbn [negb orb]. rewrite Ht. cbn.
    do 2 f_equal. destruct (Z.ltb_spec (ss_Version acc) (pt_Version record)); lia.
Qed.

Lemma load_fold r l acc out :
  0 <= ss_Version acc ->
  fold_entries (load_step r) acc l = Ok out <->
  exists records, Forall2 (entry_ok r) l records /\
    out = mkSnapshot (ss_SchemaVersion acc) (Z.max (ss_Version acc) (newest records))
            (ss_Targets acc ++ map pt_Target records).
Proof.
  revert acc. induction l as [|[key doc] l IH]; intros acc Ha; cbn [fold_entries].
  - split.
    + intros [= <-]. exists []. split; [constructor|]. cbn. rewrite Z.max_l, app_nil_r by done. by destruct acc.
    + intros (records & Hf%Forall2_nil_inv_l & ->). subst records. cbn. rewrite Z.max_l, app_nil_r by done. by destruct acc.
  - split.
    + destruct (load_step r acc key doc) as [acc'|] eqn:Es; [|done].
      apply load_step_ok in Es as (record & He & ->). intros (records & Hf & ->)%IH; [|cbn; lia].
      exists (record :: records). split; [by constructor|]. cbn. rewrite <- app_assoc. f_equal. unfold newest. lia.
    + intros (records & Hf & ->). apply Forall2_cons_inv_l in Hf as (record & records' & He & Hf & ->).
      rewrite (proj2 (load_step_ok r acc key doc _)) by (by exists record).
      apply IH; [cbn; lia|]. exists records'. split; [done|]. cbn. rewrite <- app_assoc. f_equal. unfold newest. lia.
Qed.

Section Facts.
Context `{BoltLaws}.
#[local] Set Default Proof Using "Type*".

(** What the store holds for the registry [r], in bucket order. *)
Definition stored_targets (r : Registry) (d : db) (records : list persistedTarget) : Prop :=
  has_bucket d BucketServiceTargets = true /\
  Forall2 (entry_ok r) (kv_entries d BucketServiceTargets) records.

(** The snapshot of the stored records. *)
Definition snapshot_of (records : list persistedTarget) : Snapshot :=
  mkSnapshot SchemaVersionV1 (newest records) (sort_targets (map pt_Target records)).

Lemma newest_nonneg records : 0 <= newest records.
Proof. unfold newest. induction records; cbn; lia. Qed.

Lemma load_ok r d snapshot :
  load r d = Ok snapshot <->
  exists records, stored_targets r d records /\ Z.of_nat (length records) <= rg_maxTargets r /\
    snapshot = snapshot_of records.
Proof.
  unfold load. rewrite result_bind_ok. split.
  - intros (loaded & Hv & Hl). unfold View in Hv.
    destruct (ForEach _ _ _ d) as [[s d']|] eqn:Ef; [|done]. injection Hv as ->.
    apply ForEach_ok in Ef as (_ & Hb & _ & Ef). apply load_fold in Ef as (records & Hf & ->); [|done].
    cbn [ss_Targets ss_SchemaVersion ss_Version] in Hl. rewrite length_app, length_map in Hl.
    destruct (Z.ltb_spec (rg_maxTargets r) (Z.of_nat (length ([] : list ServiceTarget) + length records))); [done|].
    injection Hl as <-. exists records. cbn [length] in *. split_and!; [done|lia|].
    unfold snapshot_of. f_equal. pose proof (newest_nonneg records). lia.
  - intros (records & [Hb Hf] & Hlen & ->).
    exists (mkSnapshot SchemaVersionV1 (newest records) (map pt_Target records)). split.
    + unfold View.
      assert (ForEach BucketServiceTargets (mkSnapshot SchemaVersionV1 0 []) (load_step r) d =
        Ok (mkSnapshot SchemaVersionV1 (newest records) (map pt_Target records), d)) as ->; [|done].
      apply ForEach_ok. split_and!; [done..|]. apply load_fold; [done|]. exists records. split; [done|].
      pose proof (newest_nonneg records). cbn. f_equal. lia.
    + cbn [ss_Targets ss_SchemaVersion ss_Version]. rewrite length_map.
      destruct (Z.ltb_spec (rg_maxTargets r) (Z.of_nat (length records))); [lia|done].
Qed.

Lemma stored_ids r d records :
  stored_targets r d records ->
  map fst (kv_entries d BucketServiceTargets) = map (fun p => tgt_TargetID (pt_Target p)) records.
Proof. intros [_ Hf]. induction Hf as [|e p es ps He _ IH]; [done|]. cbn. f_equal; [apply He|done]. Qed.

Lemma stored_distinct r d records : stored_targets r d records -> NoDup (map tgt_TargetID (map pt_Target records)).
Proof. intros Hs. rewrite map_map. rewrite <- (stored_ids _ _ _ Hs). apply entries_distinct. Qed.

(** A call that leaves the bucket alone leaves what it loads to. *)
Lemma stored_same r d d' records :
  same_bucket BucketServiceTargets d d' -> has_bucket d' BucketServiceTargets = has_bucket d BucketServiceTargets ->
  stored_targets r d records -> stored_targets r d' records.
Proof. intros Hs Hb [Hd Hf]. split; [by rewrite Hb|]. by rewrite (entries_ext _ _ _ Hs). Qed.

(** A fresh record is one more entry. *)
Lemma entries_put d b k v d' :
  kv_put d b k v = Ok d' -> kv_get d b k = None -> kv_entries d' b ≡ₚ (k, v) :: kv_entries d b.
Proof.
  intros Hp Hn. apply NoDup_Permutation.
  - eapply (NoDup_fmap_1 fst), entries_distinct.
  - apply NoDup_cons. split; [|eapply (NoDup_fmap_1 fst), entries_distinct].
    intros Hin%entries_get. congruence.
  - intros [k' v']. rewrite elem_of_cons, !entries_get. destruct (decide (k' = k)) as [->|Hne].
    + rewrite (get_put_eq _ _ _ _ _ Hp), Hn. split; [intros [= ->]; by left|]. intros [[= ->]|?]; done.
    + rewrite (get_put_ne _ _ _ _ _ b k' Hp) by congruence. split; [by right|]. by intros [[= -> _]|?].
Qed.

Lemma stored_put r d d' records id doc record :
  stored_targets r d records -> kv_get d BucketServiceTargets id = None ->
  Put BucketServiceTargets id doc d = Ok (tt, d') -> entry_ok r (id, doc) record ->
  exists records', stored_targets r d' records' /\ records' ≡ₚ record :: records.
Proof.
  intros [Hb Hf] Hn (_ & _ & _ & _ & Hp)%Put_ok He.
  pose proof (entries_put _ _ _ _ _ Hp Hn) as Hperm. symmetry in Hperm.
  destruct (Permutation_Forall2 Hperm (proj2 (Forall2_cons _ _ _ _ _) (conj He Hf))) as (records' & Hr & Hf').
  exists records'. split; [|by symmetry]. split; [|done]. by rewrite (put_buckets _ _ _ _ _ _ Hp).
Qed.

Lemma appendAudit_frame env registration aggregate res reason change d u d' :
  appendAudit env registration aggregate res reason change d = Ok (u, d') ->
  exists d1, apply_change change d d1 /\
    forall b, (b <> BucketAudit -> same_bucket b d1 d') /\ has_bucket d' b = has_bucket d1 b.
Proof.
  unfold appendAudit. intros (id & d0 & Hid & Happ)%st_bind_ok. unfold st_lift in Hid.
  destruct (at_auditID env); [|done]. injection Hid as -> <-. destruct (is_zero _); [done|].
  apply st_bind_ok in Happ as (ev & d1 & Happ & [= _ <-]). by apply Append_buckets in Happ.
Qed.

(** What the transaction of a valid registration does. *)
Inductive registering (r : Registry) (registration : Registration) (d d' : db) : option error -> Prop :=
| registering_duplicate doc :
    kv_get d BucketServiceTargets (tgt_TargetID (rg_Target registration)) = Some doc ->
    registering r registration d d' (Some ErrDuplicateTarget)
| registering_limit :
    kv_get d BucketServiceTargets (tgt_TargetID (rg_Target registration)) = None ->
    rg_maxTargets r <= Z.of_nat (length (ss_Targets (rg_snapshot r))) ->
    registering r registration d d' (Some ErrTargetLimit)
| registering_new doc d1 :
    kv_get d BucketServiceTargets (tgt_TargetID (rg_Target registration)) = None ->
    Z.of_nat (length (ss_Targets (rg_snapshot r))) < rg_maxTargets r ->
    Marshal (mkPersistedTarget SchemaVersionV1 (wrap_uint64 (ss_Version (rg_snapshot r) + 1)) (rg_Target registration)) = Some doc ->
    Put BucketServiceTargets (tgt_TargetID (rg_Target registration)) doc d = Ok (tt, d1) ->
    same_bucket BucketServiceTargets d1 d' ->
    registering r registration d d' None.

Lemma register_body_ok r env registration d out d' :
  register_body r env registration d = Ok (out, d') ->
  registering r registration d d' out /\
  (out <> None -> forall b, (b <> BucketAudit -> same_bucket b d d') /\ has_bucket d' b = has_bucket d b) /\
  (forall b, has_bucket d' b = has_bucket d b).
Proof.
  unfold register_body. cbv zeta. intros (found & d0 & (_ & _ & _ & -> & ->)%Get_ok & Hb)%st_bind_ok.
  destruct (kv_get d _ _) as [doc|] eqn:Eg.
  - apply st_bind_ok in Hb as (u & d1 & (d0 & -> & Hf)%appendAudit_frame & [= <- <-]).
    split; [by eapply registering_duplicate|]. split; [done|]. intros b. apply Hf.
  - destruct (Z.leb_spec (rg_maxTargets r) (Z.of_nat (length (ss_Targets (rg_snapshot r))))).
    + apply st_bind_ok in Hb as (u & d1 & (d0 & -> & Hf)%appendAudit_frame & [= <- <-]).
      split; [by apply registering_limit|]. split; [done|]. intros b. apply Hf.
    + unfold encodePersistedTarget in Hb. destruct (Marshal _) as [doc|] eqn:Em; [|done].
      apply st_bind_ok in Hb as (u & d2 & (d1 & ([] & Hput) & Hf)%appendAudit_frame & [= <- <-]).
      split; [by eapply registering_new; try done; apply Hf|]. split; [done|]. intros b.
      rewrite (proj2 (Hf b)). by eapply Put_has.
Qed.

Lemma load_config r r' d :
  rg_allowedTargets r' = rg_allowedTargets r -> rg_maxTargets r' = rg_maxTargets r ->
  rg_maxEvidenceBytes r' = rg_maxEvidenceBytes r -> load r' d = load r d.
Proof.
  destruct r as [a m e s], r' as [a' m' e' s']. cbn. intros -> -> ->. reflexivity.
Qed.

Lemma load_same r d d' :
  same_bucket BucketServiceTargets d d' -> has_bucket d' BucketServiceTargets = has_bucket d BucketServiceTargets ->
  load r d = Ok (rg_snapshot r) -> load r d' = Ok (rg_snapshot r).
Proof.
  intros Hs Hb (records & Hst & Hl & He)%load_ok. apply load_ok. exists records. split_and!; [|done..].
  by eapply stored_same.
Qed.

Lemma recordRejected_ok env registration aggregate reason d out d' :
  recordRejected env registration aggregate reason d = (out, d') ->
  forall b, (b <> BucketAudit -> same_bucket b d d') /\ has_bucket d' b = has_bucket d b.
Proof.
  unfold recordRejected. intros Hu. destruct out as [u|e].
  - apply Update_ok in Hu. by apply appendAudit_frame in Hu as (d1 & -> & Hf).
  - apply Update_fail in Hu as ->. intros b. split; [|done]. by intros _ k.
Qed.

(** A committed registration is the next snapshot of the store. *)
Lemma registering_loads r registration d d' :
  load r d = Ok (rg_snapshot r) -> rg_maxEvidenceBytes r <= maxInt64 -> ss_Version (rg_snapshot r) < maxUint64 ->
  validateTarget r (rg_Target registration) = Ok tt -> registering r registration d d' None ->
  has_bucket d' BucketServiceTargets = has_bucket d BucketServiceTargets ->
  load r d' = Ok (registered (rg_snapshot r) (rg_Target registration)).
Proof.
  intros (records & Hst & Hl & Hsn)%load_ok Hmax Hver Hval Hreg Hb.
  inversion Hreg as [| |doc d1 Hn Hlim Hm Hput Hsame]; subst. rewrite Hsn in *. cbn [snapshot_of ss_Version ss_Targets] in *.
  assert (Hw : wrap_uint64 (newest records + 1) = newest records + 1).
  { unfold wrap_uint64. apply Z.mod_small. pose proof (newest_nonneg records). unfold maxUint64 in *. lia. }
  rewrite Hw in Hm. pose proof (newest_nonneg records) as Hnn.
  set (record := mkPersistedTarget SchemaVersionV1 (newest records + 1) (rg_Target registration)) in *.
  destruct (stored_put r d d1 records _ doc record Hst Hn Hput) as (records' & Hst' & Hp).
  { pose proof (validateTarget_ok _ _ Hval). split; [|done|cbn; lia|done].
    eapply decode_persisted; try done; cbn [pt_Version record]; lia. }
  apply load_ok. exists records'. split_and!.
  - eapply stored_same; [exact Hsame| |exact Hst']. by rewrite Hb, (Put_has _ _ _ _ _ _ _ Hput).
  - rewrite Hp. cbn [length]. unfold sort_targets in Hlim. rewrite merge_sort_Permutation, length_map in Hlim. lia.
  - unfold registered, snapshot_of. cbn [ss_Version ss_Targets]. rewrite Hw. f_equal.
    + rewrite Hp. unfold newest at 2. cbn [map foldr pt_Version record]. fold (newest records). lia.
    + symmetry. apply sort_targets_unique; [|by eapply stored_distinct].
      rewrite Hp. unfold sort_targets. rewrite merge_sort_Permutation. cbn [map pt_Target record].
      by rewrite Permutation_app_comm.
Qed.

(** The snapshot's targets under the registry's ID. *)
Lemma snapshot_free r d id :
  load r d = Ok (rg_snapshot r) -> kv_get d BucketServiceTargets id = None ->
  id ∉ map tgt_TargetID (ss_Targets (rg_snapshot r)).
Proof.
  intros (records & Hst & _ & ->)%load_ok Hn Hin. cbn [snapshot_of ss_Targets] in Hin. unfold sort_targets in Hin.
  rewrite (merge_sort_Permutation target_le), map_map, <- (stored_ids _ _ _ Hst) in Hin.
  apply list_elem_of_fmap in Hin as ([k v] & -> & Hin%entries_get). cbn in Hn. congruence.
Qed.

(** What observers may rely on. *)
Definition snapshot_valid (r : Registry) : Prop :=
  let targets := ss_Targets (rg_snapshot r) in
  StronglySorted target_le targets /\ NoDup (map tgt_TargetID targets) /\
  Forall (fun t => validateTarget r t = Ok tt) targets /\ Z.of_nat (length targets) <= rg_maxTargets r.

Lemma load_valid r d : load r d = Ok (rg_snapshot r) -> snapshot_valid r.
Proof.
  intros (records & Hst & Hl & He)%load_ok. unfold snapshot_valid. rewrite He. cbn [snapshot_of ss_Targets]. split_and!.
  - apply Sorted_StronglySorted; [apply _|]. apply Sorted_merge_sort, _.
  - unfold sort_targets. rewrite (Permutation_map _ (merge_sort_Permutation target_le _)). by eapply stored_distinct.
  - unfold sort_targets. rewrite merge_sort_Permutation. apply Forall_map. destruct Hst as [_ Hf].
    clear Hl He. induction Hf as [|e p es ps Hep _ IH]; constructor; [apply Hep|done].
  - unfold sort_targets. by rewrite merge_sort_Permutation, length_map.
Qed.

Lemma Register_ok r env registration d s err r' d' :
  load r d = Ok (rg_snapshot r) -> rg_maxEvidenceBytes r <= maxInt64 -> ss_Version (rg_snapshot r) < maxUint64 ->
  Register r env registration d = (s, err, r', d') ->
  load r' d' = Ok (rg_snapshot r') /\
  match err with
  | None =>
    validateTarget r (rg_Target registration) = Ok tt /\
    tgt_TargetID (rg_Target registration) ∉ map tgt_TargetID (ss_Targets (rg_snapshot r)) /\
    Z.of_nat (length (ss_Targets (rg_snapshot r))) < rg_maxTargets r /\
    s = rg_snapshot r' /\ r' = r <| rg_snapshot := registered (rg_snapshot r) (rg_Target registration) |>
  | Some _ => r' = r /\ same_bucket BucketServiceTargets d d'
  end.
Proof.
  intros Hload Hmax Hver. unfold Register. destruct (negb _); [intros [= <- <- <- <-]; split; [done|]; by split|].
  destruct (validateTarget r (rg_Target registration)) as [[]|e] eqn:Ev.
  - destruct (Update _ d) as [[[regErr|]|e] d1] eqn:Eu; intros [= <- <- <- <-].
    + apply Update_ok, register_body_ok in Eu as (_ & Hf & _). specialize (Hf ltac:(done) BucketServiceTargets) as [Hs Hb].
      specialize (Hs ltac:(discriminate)). split; [by eapply load_same|]. by split.
    + apply Update_ok, register_body_ok in Eu as (Hreg & _ & Hb).
      split; [by apply (registering_loads r registration d d1)|].
      inversion Hreg; subst. split_and!; try done. by eapply snapshot_free.
    + apply Update_fail in Eu as ->. split; [done|]. split; [done|]. by intros k.
  - destruct (recordRejected _ _ _ _ _) as [[u|e'] d1] eqn:Er; intros [= <- <- <- <-];
      destruct (recordRejected_ok _ _ _ _ _ _ _ Er BucketServiceTargets) as [Hs Hb]; specialize (Hs ltac:(discriminate));
      (split; [by eapply load_same|]; by split).
Qed.

(** [n] registrations, one after the other. *)
Inductive registrations (r0 : Registry) (d0 : db) : nat -> Registry -> db -> Prop :=
| registrations_none : registrations r0 d0 0 r0 d0
| registrations_one n r d env registration s err r' d' :
    registrations r0 d0 n r d -> Register r env registration d = (s, err, r', d') ->
    registrations r0 d0 (S n) r' d'.

Definition same_config (r r' : Registry) : Prop :=
  rg_allowedTargets r' = rg_allowedTargets r /\ rg_maxTargets r' = rg_maxTargets r /\
  rg_maxEvidenceBytes r' = rg_maxEvidenceBytes r.

Lemma registrations_ok r0 d0 n r d :
  registrations r0 d0 n r d -> load r0 d0 = Ok (rg_snapshot r0) -> rg_maxEvidenceBytes r0 <= maxInt64 ->
  ss_Version (rg_snapshot r0) + Z.of_nat n <= maxUint64 ->
  load r d = Ok (rg_snapshot r) /\ same_config r0 r /\
  ss_Version (rg_snapshot r) <= ss_Version (rg_snapshot r0) + Z.of_nat n.
Proof.
  intros Hr Hl Hm. induction Hr as [|n r d env registration s err r' d' _ IH Hreg]; intros Hv; [by split_and!; [..|lia]|].
  destruct IH as (Hlr & (Ha & Hmt & Hme) & Hvr); [lia|].
  destruct (Register_ok r env registration d s err r' d' Hlr) as [Hlr' Hcase]; [by rewrite Hme|lia|done|].
  split; [done|]. destruct err as [e|].
  - destruct Hcase as [-> _]. split; [by split_and!|lia].
  - destruct Hcase as (_ & _ & _ & _ & ->). split; [by split_and!|]. cbn [rg_snapshot set_field registered ss_Version].
    unfold wrap_uint64. rewrite Z.mod_small; [lia|]. apply load_ok in Hlr as (records & _ & _ & He).
    rewrite He in *. cbn [snapshot_of ss_Version] in *. pose proof (newest_nonneg records). unfold maxUint64 in *. lia.
Qed.

Lemma NewRegistry_ok targets maxT maxE d r :
  NewRegistry targets maxT maxE d = Ok r <->
  exists allowed, allowedTargetMap targets = Ok allowed /\ 1 <= maxT <= maxTargets /\ 1 <= maxE /\
    rg_allowedTargets r = allowed /\ rg_maxTargets r = maxT /\ rg_maxEvidenceBytes r = maxE /\
    load r d = Ok (rg_snapshot r).
Proof.
  unfold NewRegistry. destruct (allowedTargetMap targets) as [allowed|]; [|naive_solver].
  destruct (_ || _) eqn:E; cbv zeta.
  - split; [done|]. intros (? & [= <-] & ? & ? & _). exfalso.
    apply orb_true_iff in E as [[E|E]%orb_true_iff|E]; apply Z.ltb_lt in E; lia.
  - rewrite !orb_false_iff, !Z.ltb_ge in E. destruct_and! E. rewrite result_bind_ok. split.
    + intros (snapshot & Hl & [= <-]). exists allowed. by split_and!.
    + intros (? & [= <-] & _ & _ & Ha & Hm & He & Hl). exists (rg_snapshot r). split; [|destruct r; cbn in Ha, Hm, He; subst; reflexivity].
      rewrite <- Hl. by apply load_config.
Qed.

(** C15: the in-memory snapshot never drifts from the store: after any number of
    registrations, accepted or refused, a daemon restarted on the same
    configuration recovers exactly the registry of the running one, and its
    targets are sorted, distinct, valid and within the configured bound. *)
Theorem Registry_restart targets maxT maxE d0 r0 n r d :
  NewRegistry targets maxT maxE d0 = Ok r0 -> maxE <= maxInt64 ->
  ss_Version (rg_snapshot r0) + Z.of_nat n <= maxUint64 -> registrations r0 d0 n r d ->
  NewRegistry targets maxT maxE d = Ok r /\ snapshot_valid r.
Proof.
  intros (allowed & Ha & Ht & He & Hra & Hrm & Hre & Hl)%NewRegistry_ok Hm Hv Hr.
  destruct (registrations_ok _ _ _ _ _ Hr Hl) as (Hlr & (Ha' & Hm' & He') & _); [by rewrite Hre|done|].
  split; [|by eapply load_valid]. apply NewRegistry_ok. exists allowed. split_and!; first [done|congruence|lia].
Qed.

(** An accepted registration names a valid, allowed, new target and adds
    exactly it to the snapshot; a refused one leaves the registry and every
    stored target as they were. *)
Lemma Register_effect r env registration d s err r' d' :
  load r d = Ok (rg_snapshot r) -> rg_maxEvidenceBytes r <= maxInt64 -> ss_Version (rg_snapshot r) < maxUint64 ->
  Register r env registration d = (s, err, r', d') ->
  match err with
  | None =>
    validateTarget r (rg_Target registration) = Ok tt /\
    tgt_TargetID (rg_Target registration) ∉ map tgt_TargetID (ss_Targets (rg_snapshot r)) /\
    Z.of_nat (length (ss_Targets (rg_snapshot r))) < rg_maxTargets r /\ s = rg_snapshot r' /\
    ss_Version s = ss_Version (rg_snapshot r) + 1 /\
    ss_Targets s ≡ₚ rg_Target registration :: ss_Targets (rg_snapshot r)
  | Some _ => r' = r /\ same_bucket BucketServiceTargets d d'
  end.
Proof.
  intros Hl Hm Hv Hr. destruct (Register_ok _ _ _ _ _ _ _ _ Hl Hm Hv Hr) as [_ Hc]. destruct err as [e|]; [done|].
  destruct Hc as (? & ? & ? & -> & ->). cbn [rg_snapshot set_field registered ss_Version ss_Targets]. split_and!; try done.
  - unfold wrap_uint64. apply load_ok in Hl as (records & _ & _ & He). rewrite He in *.
    cbn [snapshot_of ss_Version] in *. pose proof (newest_nonneg records). apply Z.mod_small. unfold maxUint64 in *. lia.
  - unfold sort_targets. rewrite merge_sort_Permutation. by rewrite Permutation_app_comm.
Qed.
End Facts.

(** * Examples *)

Definition demo_rule : ProbeRule :=
  mkProbeRule "availability-rule" "availability" (30 * second) (5 * second) (float_of 1) 3 2 (300 * second) SeverityCritical.
Definition demo_target (id : string) : ServiceTarget :=
  mkServiceTarget SchemaVersionV1 id "docker" "container:checkout" [demo_rule] (mkEvidencePolicy "default" 4096)
    (mkStabilizationPolicy 2 (60 * second)) true.
Definition demo_allowed : list (string * string) := [("billing", "docker"); ("checkout", "docker")].
Definition demo_store : @db gmapBolt := {[BucketServiceTargets := ∅; BucketAudit := ∅]}.
Definition demo_registry : Registry :=
  match NewRegistry demo_allowed 2 8192 demo_store with Ok r => r | Fail _ => mkRegistry ∅ 0 0 (mkSnapshot "" 0 []) end.
Definition demo_env (id : string) : surroundings := mkSurroundings (Ok id) (738000 * 86400 * second).
Definition demo_registration (id : string) : Registration :=
  mkRegistration (demo_target id) "uid:0/gid:0" "request-1" "operator_requested".

Example demo_validation :
  validateTarget demo_registry (demo_target "checkout") = Ok tt /\
  validateTarget demo_registry (demo_target "other") = Fail ErrTargetNotAllowed /\
  validateTarget demo_registry (demo_target "../etc") = Fail ErrInvalidTarget /\
  validateTarget demo_registry (demo_target "checkout" <| tgt_AdapterType := "shell" |>) = Fail ErrUnknownAdapter /\
  validateTarget demo_registry (demo_target "checkout" <| tgt_Selector := "image:checkout" |>) = Fail ErrInvalidTarget /\
  validateProbeRule (demo_rule <| pr_Threshold := S754_nan |>) = Fail ErrInvalidTarget /\
  validateProbeRule (demo_rule <| pr_Threshold := float_of 0 |>) = Fail ErrInvalidTarget /\
  validateProbeRule (demo_rule <| pr_SLOWindow := second |>) = Fail ErrInvalidTarget.
Proof. split_and!; vm_compute; reflexivity. Qed.

Definition demo_register : Snapshot * option error * Registry * db :=
  Register demo_registry (demo_env "target-1") (demo_registration "checkout") demo_store.
Lemma demo_new : NewRegistry demo_allowed 2 8192 demo_store = Ok demo_registry.
Proof. vm_compute. reflexivity. Qed.
Lemma split_register (out : Snapshot * option error * Registry * @db gmapBolt) : out = (out.1.1.1, out.1.1.2, out.1.2, out.2).
Proof. by destruct out as [[[? ?] ?] ?]. Qed.

Lemma Registry_restart_witness :
  NewRegistry demo_allowed 2 8192 demo_register.2 = Ok demo_register.1.2 /\ snapshot_valid demo_register.1.2.
Proof.
  apply (Registry_restart (H := gmapBolt) demo_allowed 2 8192 demo_store demo_registry 1 demo_register.1.2 demo_register.2 demo_new).
  - vm_compute. discriminate.
  - vm_compute. discriminate.
  - exact (registrations_one demo_registry demo_store 0 demo_registry demo_store (demo_env "target-1")
      (demo_registration "checkout") _ _ _ _ (registrations_none _ _) (split_register demo_register)).
Defined.

Lemma demo_loaded : load demo_registry demo_store = Ok (rg_snapshot demo_registry).
Proof. vm_compute. reflexivity. Qed.
Lemma demo_accepted : demo_register.1.1.2 = None.
Proof. vm_compute. reflexivity. Qed.
Lemma accepted_register (out : Snapshot * option error * Registry * @db gmapBolt) :
  out.1.1.2 = None -> out = (out.1.1.1, None, out.1.2, out.2).
Proof. destruct out as [[[? ?] ?] ?]. cbn. by intros ->. Qed.

Lemma Register_effect_witness :
  validateTarget demo_registry (demo_target "checkout") = Ok tt /\ ss_Version demo_register.1.1.1 = 1.
Proof.
  destruct (Register_effect (H := gmapBolt) demo_registry (demo_env "target-1") (demo_registration "checkout") demo_store
    demo_register.1.1.1 None demo_register.1.2 demo_register.2 demo_loaded) as (Hv & _ & _ & _ & Hn & _).
  - vm_compute. discriminate.
  - vm_compute. reflexivity.
  - exact (accepted_register _ demo_accepted).
  - split; [exact Hv|exact Hn].
Defined.
