(* ===== verification/Alert.v ===== *)
(** The authenticated alert ingress (src/internal/alert/ingress.go): signature
    check of the exact bytes, replay receipts, strict decoding and
    normalization against the registered targets, audited rejections.

    A request body is its bytes and the document they parse to.  What a call
    draws from outside (the context at its two checks, the clock, the fresh
    identities, the current target snapshot) is a record of its own; telemetry
    is best effort and leaves no state. *)
From S2P Require Import Prelude GoLib GoTime Sha256 Base64 Webhook Json Contract ContractFacts Store Redaction AuditChain.
From S2P Require Import GoText Target.
From Stdlib Require Import SpecFloat.
From stdpp Require Import options.
Local Open Scope Z_scope.

Definition defaultMaxBodyBytes : Z := 64 * 1024.
Definition defaultTimeout : duration := 5 * second.
Definition defaultRetention : duration := 24 * hour.
Definition maxValues : nat := 16.
Definition maxValue : Z := 1000000.

Definition alert_error := mkError "alert".
Definition ErrInvalidOptions := alert_error "invalid alert ingress options".
Definition ErrReplay := alert_error "replayed webhook".
Definition ErrInvalidAlert := alert_error "invalid normalized alert".

(** * Data *)

Record Ingress := mkIngress {
  in_keyring : Keyring;
  in_maxBody : Z;
  in_timeout : duration;
  in_retention : duration;
}.

Record Normalized := mkNormalized {
  nm_Source : string;
  nm_ExternalAlertID : string;
  nm_Observation : HealthObservation;
}.

Record incoming := mkIncoming {
  ic_SchemaVersion : string;
  ic_Source : string;
  ic_ExternalAlertID : string;
  ic_TargetID : string;
  ic_RuleID : string;
  ic_State : string;
  ic_Severity : string;
  ic_ObservedAt : time;
  ic_Values : gmap string float64;
  ic_EvidenceRefs : list string;
}.
#[export] Instance incoming_eta : Updatable incoming :=
  fun r => mkIncoming (ic_SchemaVersion r) (ic_Source r) (ic_ExternalAlertID r) (ic_TargetID r) (ic_RuleID r) (ic_State r) (ic_Severity r) (ic_ObservedAt r) (ic_Values r) (ic_EvidenceRefs r).
Definition incoming_zero : incoming := mkIncoming "" "" "" "" "" "" "" 0 ∅ [].
#[export] Instance incoming_json : GoJson incoming := struct_json incoming_zero [
  field_of "schema_version" ic_SchemaVersion never;
  field_of "source" ic_Source never;
  field_of "external_alert_id" ic_ExternalAlertID never;
  field_of "target_id" ic_TargetID never;
  field_of "rule_id" ic_RuleID never;
  field_of "state" ic_State never;
  field_of "severity" ic_Severity never;
  field_time "observed_at" ic_ObservedAt;
  field_of "values" ic_Values never;
  field_of "evidence_refs" ic_EvidenceRefs never].

Record receipt := mkReceipt { rc_ExpiresAt : time }.
#[export] Instance receipt_eta : Updatable receipt := fun r => mkReceipt (rc_ExpiresAt r).
#[export] Instance receipt_json : GoJson receipt := struct_json (mkReceipt 0) [field_time "expires_at" rc_ExpiresAt].

Record body := mkBody { body_bytes : list Z; body_text : document }.

Record surroundings := mkSurroundings {
  at_context1 : option error;
  at_now : time;
  at_context2 : option error;
  at_snapshot : Snapshot;
  at_observationID : result string;
  at_auditID : result string;
}.

(** The defaults and the bounds of the options. *)
Definition NewIngress (keyring : Keyring) (maxBody : Z) (timeout retention : duration) : result Ingress :=
  let maxBody := if maxBody =? 0 then defaultMaxBodyBytes else maxBody in
  let timeout := if timeout =? 0 then defaultTimeout else timeout in
  let retention := if retention =? 0 then defaultRetention else retention in
  if (maxBody <? 1) || (defaultMaxBodyBytes <? maxBody) || (timeout <? millisecond) || (retention <? minute)
  then Fail ErrInvalidOptions
  else Ok (mkIngress keyring maxBody timeout retention).

(** * Decoding and normalization *)

Definition validateIncoming (value : incoming) : result unit :=
  if String.eqb (ic_Source value) "" || (96 <? go_len (ic_Source value)) ||
     String.eqb (ic_ExternalAlertID value) "" || (128 <? go_len (ic_ExternalAlertID value)) ||
     String.eqb (ic_TargetID value) "" || String.eqb (ic_RuleID value) "" || is_zero (ic_ObservedAt value)
  then Fail ErrInvalidAlert
  else if negb (String.eqb (ic_State value) StateHealthy) && negb (String.eqb (ic_State value) StateUnhealthy) &&
          negb (String.eqb (ic_State value) StateUnknown)
  then Fail ErrInvalidAlert
  else if negb (String.eqb (ic_Severity value) SeverityInfo) && negb (String.eqb (ic_Severity value) SeverityWarning) &&
          negb (String.eqb (ic_Severity value) SeverityCritical)
  then Fail ErrInvalidAlert
  else Ok tt.

Definition incoming_options : DecodeOptions incoming :=
  {| MaxBytes := defaultMaxBodyBytes; SchemaVersion := SchemaVersionV1; Validate := Some validateIncoming |}.

Definition decode (raw : document) : result incoming :=
  match Decode raw incoming_options with Ok value => Ok value | Fail _ => Fail ErrInvalidAlert end.

Definition bounded (values : gmap string float64) : gmap string float64 := clamp_values maxValues maxValue values.

(** The first enabled target with the alert's ID and rule. *)
Definition known_rule (value : incoming) (candidate : ServiceTarget) : bool :=
  tgt_Enabled candidate && String.eqb (tgt_TargetID candidate) (ic_TargetID value) &&
  existsb (fun rule => String.eqb (pr_RuleID rule) (ic_RuleID value)) (tgt_ProbeRules candidate).

Definition normalize (env : surroundings) (value : incoming) : result Normalized :=
  let snapshot := at_snapshot env in
  match find_first (known_rule value) (ss_Targets snapshot) with
  | None => Fail ErrInvalidAlert
  | Some _ =>
    at_observationID env ≫= fun id =>
    Ok (mkNormalized (ic_Source value) (ic_ExternalAlertID value)
          (mkHealthObservation SchemaVersionV1 id (ic_TargetID value) (ic_RuleID value) (ss_Version snapshot)
             (utc (ic_ObservedAt value)) (ic_State value) (bounded (ic_Values value)) []
             (wrap_uint64 (unix_nano (at_now env)))))
  end.

Definition isJSON (value : string) : bool :=
  String.eqb value "application/json" ||
  match cut_byte 59 value with
  | Some (mediaType, _) => String.eqb (trim_space mediaType) "application/json"
  | None => false
  end.

Section Alert.
Context `{Bolt}.

(** * Receipts *)

(** A stored receipt that the program can read. *)
Definition read_receipt (doc : document) : result time :=
  match Unmarshal doc with
  | Ok old => if is_zero (rc_ExpiresAt old) then Fail ErrInvalidAlert else Ok (rc_ExpiresAt old)
  | Fail _ => Fail ErrInvalidAlert
  end.

Definition hasActiveReceipt (id : string) (now : time) (d : db) : result bool :=
  View (Get BucketIngressReceipts id ≫= fun found =>
        match found with
        | None => mret false
        | Some document => st_lift (read_receipt document) ≫= fun expiresAt => mret (after expiresAt now)
        end) d.

Definition collect_expired (now : time) (expired : list string) (key : string) (value : document) : result (list string) :=
  read_receipt value ≫= fun expiresAt =>
  Ok (if negb (after expiresAt now) then expired ++ [key] else expired).

Fixpoint delete_all (keys : list string) : st db unit :=
  match keys with
  | [] => mret tt
  | key :: rest => Delete BucketIngressReceipts key ≫= fun _ => delete_all rest
  end.

(** The transaction that drops expired receipts and takes a new one. *)
Definition receipt_body (id : string) (now : time) (receiptDocument : document) : st db unit :=
  ForEach BucketIngressReceipts [] (collect_expired now) ≫= fun expired =>
  delete_all expired ≫= fun _ =>
  Get BucketIngressReceipts id ≫= fun found =>
  match found with
  | Some _ => st_fail ErrReplay
  | None => Put BucketIngressReceipts id receiptDocument
  end.

Definition recordRejected (env : surroundings) (reason : string) (d : db) : result unit * db :=
  match at_auditID env with
  | Fail err => (Fail err, d)
  | Ok eventID =>
    Update (AuditChain.Append (mkAuditEvent SchemaVersionV1 eventID "alert_ingress" "ingress" "remote" "alert.reject"
              "rejected" reason (at_now env) "" "") None ≫= fun _ => mret tt) d
  end.

(** A rejection: the audit error if the audit fails, else its own. *)
Definition reject {A} (env : surroundings) (reason : string) (err : error) (d : db) : result A * db :=
  match recordRejected env reason d with
  | (Fail auditErr, d') => (Fail auditErr, d')
  | (Ok _, d') => (Fail err, d')
  end.

Definition Accept (i : Ingress) (env : surroundings) (headers : Headers) (raw : body) (d : db) :
    result Normalized * db :=
  if (Z.of_nat (length (body_bytes raw)) =? 0) || (in_maxBody i <? Z.of_nat (length (body_bytes raw)))
  then (Fail ErrInvalidAlert, d)
  else
  match at_context1 env with
  | Some err => (Fail err, d)
  | None =>
  let now := at_now env in
  if is_zero now then (Fail ErrInvalidOptions, d)
  else
  match Verify (in_keyring i) headers (body_bytes raw) now with
  | Fail err => reject env "invalid_signature" err d
  | Ok _ =>
  match at_context2 env with
  | Some err => (Fail err, d)
  | None =>
  match hasActiveReceipt (hd_ID headers) now d with
  | Fail err => (Fail err, d)
  | Ok true => (Fail ErrReplay, d)
  | Ok false =>
  match decode (body_text raw) with
  | Fail err => reject env "invalid_payload" err d
  | Ok decoded =>
  match normalize env decoded with
  | Fail err => reject env "unknown_target_or_rule" err d
  | Ok normalized =>
  match Marshal (mkReceipt (time_add now (in_retention i))) with
  | None => (Fail ErrInvalidAlert, d)
  | Some receiptDocument =>
  match Update (receipt_body (hd_ID headers) now receiptDocument) d with
  | (Fail err, d') => (Fail err, d')
  | (Ok _, d') => (Ok normalized, d')
  end end end end end end end end.

(** [ServeHTTP]: the status written. *)
Definition ServeHTTP (i : Ingress) (env : surroundings) (method contentType : string) (headers : Headers)
    (read : result body) (d : db) : Z * db :=
  if negb (String.eqb method "POST") || negb (isJSON contentType) then (400, d)
  else
  match read with
  | Fail _ => (413, d)
  | Ok raw =>
    if in_maxBody i <? Z.of_nat (length (body_bytes raw)) then (413, d)
    else match Accept i env headers raw d with
         | (Fail _, d') => (401, d')
         | (Ok _, d') => (202, d')
         end
  end.
End Alert.

(** * Facts *)

#[local] Arguments time_printable : simpl never.

Lemma receipt_rt t : time_printable t = true -> json_rt receipt_json (mkReceipt t).
Proof. intros Ht. unfold receipt_json. revert Ht. struct_rt. Qed.

Lemma read_written t doc : t <> 0 -> Marshal (mkReceipt t) = Some doc -> read_receipt doc = Ok t.
Proof.
  intros Hz Hm. assert (Ht : time_printable t = true).
  { revert Hm. unfold Marshal, receipt_json. cbn. by destruct (time_printable t). }
  unfold read_receipt. rewrite (Unmarshal_Marshal _ _ (receipt_rt t Ht) Hm). cbn [rc_ExpiresAt]. unfold is_zero.
  by destruct (Z.eqb_spec t 0).
Qed.

Section Facts.
Context `{BoltLaws}.
#[local] Set Default Proof Using "Type*".

(** The receipt of [id]: its expiry. *)
Definition holds_receipt (d : db) (id : string) (expiresAt : time) : Prop :=
  exists doc, kv_get d BucketIngressReceipts id = Some doc /\ read_receipt doc = Ok expiresAt.

Definition is_expired (now : time) (doc : document) : bool :=
  match read_receipt doc with Ok expiresAt => negb (after expiresAt now) | Fail _ => false end.

Lemma collect_fold now l acc out :
  fold_entries (collect_expired now) acc l = Ok out ->
  out = (acc ++ map fst (List.filter (fun e => is_expired now e.2) l))%list.
Proof.
  revert acc. induction l as [|[key doc] l IH]; intros acc; cbn [fold_entries List.filter map].
  { intros [= <-]. by rewrite app_nil_r. }
  unfold collect_expired at 1. unfold is_expired at 1. cbn [snd].
  destruct (read_receipt doc) as [t|]; [|done]. cbn [mbind result_bind]. intros ->%IH.
  destruct (negb (after t now)); cbn [map fst]; [|done]. by rewrite <- app_assoc.
Qed.

Lemma delete_all_ok keys d u d' :
  delete_all keys d = Ok (u, d') ->
  (forall k, kv_get d' BucketIngressReceipts k = if decide (k ∈ keys) then None else kv_get d BucketIngressReceipts k) /\
  (forall b, b <> BucketIngressReceipts -> same_bucket b d d').
Proof.
  revert d. induction keys as [|key keys IH]; intros d; cbn [delete_all].
  { intros [= _ <-]. split; [|by intros b _ k]. intros k. by rewrite decide_False by apply not_elem_of_nil. }
  intros ([] & d1 & (_ & _ & _ & _ & Hdel)%Delete_ok & (Hr & Ho)%IH)%st_bind_ok. split.
  - intros k. rewrite Hr. destruct (decide (k ∈ keys)); [by rewrite decide_True by set_solver|].
    destruct (decide (k = key)) as [->|Hne].
    + rewrite decide_True by set_solver. by eapply get_delete_eq.
    + rewrite decide_False by set_solver. eapply get_delete_ne; [exact Hdel|congruence].
  - intros b Hb k. rewrite (Ho b Hb k). eapply get_delete_ne; [exact Hdel|congruence].
Qed.

(** What the receipt transaction leaves. *)
Lemma receipt_body_ok id now doc d u d' :
  receipt_body id now doc d = Ok (u, d') ->
  kv_get d' BucketIngressReceipts id = Some doc /\
  (forall expiresAt, holds_receipt d id expiresAt -> expiresAt <= now) /\
  (forall k v expiresAt, k <> id -> kv_get d BucketIngressReceipts k = Some v -> read_receipt v = Ok expiresAt ->
     now < expiresAt -> kv_get d' BucketIngressReceipts k = Some v) /\
  (forall b, b <> BucketIngressReceipts -> same_bucket b d d').
Proof.
  unfold receipt_body. intros (expired & d0 & (_ & _ & -> & Hf)%ForEach_ok & Hb)%st_bind_ok.
  apply collect_fold in Hf. cbn [app] in Hf.
  apply st_bind_ok in Hb as ([] & d1 & (Hr & Ho)%delete_all_ok & Hb).
  apply st_bind_ok in Hb as (found & d2 & (_ & _ & _ & -> & ->)%Get_ok & Hb).
  destruct (kv_get d1 _ id) as [old|] eqn:Eg; [done|]. destruct u.
  assert (Hin : forall k v, kv_get d BucketIngressReceipts k = Some v -> k ∈ expired -> is_expired now v = true).
  { intros k v Hk Hin. rewrite Hf in Hin. apply list_elem_of_fmap in Hin as ([k' v'] & -> & Hin).
    apply list_elem_of_In, filter_In in Hin as [Hin He]. apply list_elem_of_In, entries_get in Hin. cbn in *. congruence. }
  split_and!.
  - by eapply Put_get.
  - intros t (v & Hv & Ht). rewrite Hr in Eg. case_decide as Hd; [|congruence].
    specialize (Hin id v Hv Hd). unfold is_expired in Hin. rewrite Ht in Hin. unfold after in Hin. bool_prop. done.
  - intros k v t Hne Hv Ht Hlt. rewrite (Put_get_ne _ _ _ _ _ _ _ Hb Hne), Hr. case_decide as Hd; [|done].
    specialize (Hin k v Hv Hd). unfold is_expired in Hin. rewrite Ht in Hin. unfold after in Hin. bool_prop. lia.
  - intros b Hne k. rewrite (Put_same _ _ _ _ _ _ _ Hb Hne k). by apply Ho.
Qed.

Lemma rejected_alert {A} env reason err d (out : result A) d' :
  reject env reason err d = (out, d') ->
  (exists e, out = Fail e) /\ forall b, b <> BucketAudit -> same_bucket b d d'.
Proof.
  unfold reject, recordRejected. destruct (at_auditID env) as [id|e]; [|intros [= <- <-]; split; [by eexists|by intros b _ k]].
  match goal with |- context [ Update ?b d ] => destruct (Update b d) as [[u|e] d1] eqn:Eu end; intros [= <- <-].
  - split; [by eexists|]. apply Update_ok, st_bind_ok in Eu as (ev & d2 & Ha & [= _ <-]).
    by apply Append_frame in Ha as (d3 & -> & Hf).
  - apply Update_fail in Eu as ->. split; [by eexists|]. by intros b _ k.
Qed.

(** What an accepted request passed, and what it stored. *)
Record acceptance (i : Ingress) (env : surroundings) (headers : Headers) (raw : body) (d : db) (n : Normalized) (d' : db) : Prop := {
  ac_size : 1 <= Z.of_nat (length (body_bytes raw)) <= in_maxBody i;
  ac_now : at_now env <> 0;
  ac_verified : Verify (in_keyring i) headers (body_bytes raw) (at_now env) = Ok tt;
  ac_normalized : exists decoded, decode (body_text raw) = Ok decoded /\ normalize env decoded = Ok n;
  ac_fresh : forall expiresAt, holds_receipt d (hd_ID headers) expiresAt -> expiresAt <= at_now env;
  ac_receipt : exists doc, Marshal (mkReceipt (time_add (at_now env) (in_retention i))) = Some doc /\
    kv_get d' BucketIngressReceipts (hd_ID headers) = Some doc;
  ac_live : forall k v expiresAt, k <> hd_ID headers -> kv_get d BucketIngressReceipts k = Some v ->
    read_receipt v = Ok expiresAt -> at_now env < expiresAt -> kv_get d' BucketIngressReceipts k = Some v;
  ac_frame : forall b, b <> BucketIngressReceipts -> same_bucket b d d';
}.

Lemma Accept_cases i env headers raw d out d' :
  Accept i env headers raw d = (out, d') ->
  match out with
  | Ok n => acceptance i env headers raw d n d'
  | Fail _ => forall b, b <> BucketAudit -> same_bucket b d d'
  end.
Proof.
  unfold Accept. destruct (_ || _) eqn:Es; [intros [= <- <-]; by intros b _ k|]. bool_prop.
  destruct (at_context1 env); [intros [= <- <-]; by intros b _ k|]. unfold is_zero.
  destruct (Z.eqb_spec (at_now env) 0); [intros [= <- <-]; by intros b _ k|].
  destruct (Verify _ _ _ _) as [[]|e] eqn:Ev; [|intros ((e' & ->) & Hf)%rejected_alert; done].
  destruct (at_context2 env); [intros [= <- <-]; by intros b _ k|].
  destruct (hasActiveReceipt _ _ d) as [[]|e]; [intros [= <- <-]; by intros b _ k| |intros [= <- <-]; by intros b _ k].
  destruct (decode (body_text raw)) as [decoded|e] eqn:Ed; [|intros ((e' & ->) & Hf)%rejected_alert; done].
  destruct (normalize env decoded) as [n'|e] eqn:En; [|intros ((e' & ->) & Hf)%rejected_alert; done].
  destruct (Marshal _) as [doc|] eqn:Em; [|intros [= <- <-]; by intros b _ k].
  destruct (Update _ d) as [[u|e] d1] eqn:Eu; intros [= <- <-].
  - apply Update_ok, receipt_body_ok in Eu as (Hput & Hfresh & Hlive & Hframe).
    split; try done; [lia|by exists decoded|by exists doc].
  - apply Update_fail in Eu as ->. by intros b _ k.
Qed.

(** A verified request is within the tolerance of the clock. *)
Lemma Verify_clock k headers raw now :
  unix now <= maxInt64 -> Verify k headers raw now = Ok tt ->
  0 <= unix now /\ exists timestamp, parseTimestamp (hd_Timestamp headers) = Ok timestamp /\
    Z.abs (unix now - timestamp) <= 300.
Proof.
  intros Hmax Hv. assert (0 <= unix now) as Hn.
  { revert Hv. unfold Verify, VerifyWithTolerance. destruct (_ || _); [done|]. destruct (_ || _) eqn:E; [done|]. by bool_prop. }
  split; [done|]. apply verified_iff in Hv as (_ & t & _ & _ & Ht & Hd & _); [|done|done]. by exists t.
Qed.

(** * Histories

    Calls of one ingress, one after the other under a clock that does not run
    backwards, with the accepted headers and their times; other components
    never write the receipts. *)
Definition accepted_by (headers : Headers) (now : time) (out : result Normalized) : list (Headers * time) :=
  match out with Ok _ => [(headers, now)] | Fail _ => [] end.

Inductive history (i : Ingress) (d0 : db) : list (Headers * time) -> time -> db -> Prop :=
| history_start now : history i d0 [] now d0
| history_accept accepted now d env headers raw out d' :
    history i d0 accepted now d -> now <= at_now env -> unix (at_now env) <= maxInt64 ->
    Accept i env headers raw d = (out, d') ->
    history i d0 (accepted_by headers (at_now env) out ++ accepted) (at_now env) d'
| history_other accepted now d d' :
    history i d0 accepted now d -> same_bucket BucketIngressReceipts d d' -> history i d0 accepted now d'.

(** An accepted request: verified at its time, and either its receipt is still
    there or its retention has passed. *)
Definition remembered (i : Ingress) (now : time) (d : db) (entry : Headers * time) : Prop :=
  let '(headers, at_) := entry in
  at_ <= now /\ (at_ + in_retention i <= now \/
    exists expiresAt, holds_receipt d (hd_ID headers) expiresAt /\ at_ + in_retention i <= expiresAt) /\
  exists timestamp, parseTimestamp (hd_Timestamp headers) = Ok timestamp /\ Z.abs (unix at_ - timestamp) <= 300.

Lemma remembered_same i now now' d d' entry :
  now <= now' -> same_bucket BucketIngressReceipts d d' -> remembered i now d entry -> remembered i now' d' entry.
Proof.
  destruct entry as [headers at_]. intros Hle Hs (Hat & Hr & Ht). split_and!; [lia| |done].
  destruct Hr as [Hr|(e & (doc & Hg & Hd) & He)]; [left; lia|right]. exists e. split; [|done]. exists doc.
  by rewrite Hs.
Qed.

Lemma remembered_accepted i env headers raw d n d' now entry :
  acceptance i env headers raw d n d' -> now <= at_now env -> remembered i now d entry ->
  remembered i (at_now env) d' entry.
Proof.
  destruct entry as [h at_]. intros Hac Hle (Hat & Hr & Ht). split_and!; [lia| |done].
  destruct Hr as [Hr|(e & (doc & Hg & Hd) & He)]; [left; lia|].
  destruct (decide (hd_ID h = hd_ID headers)) as [Heq|Hne].
  - left. pose proof (ac_fresh _ _ _ _ _ _ _ Hac e) as Hfresh. rewrite Heq in Hg.
    specialize (Hfresh ltac:(by exists doc)). lia.
  - destruct (Z.le_gt_cases e (at_now env)); [left; lia|right]. exists e. split; [|done]. exists doc. split; [|done].
    by eapply (ac_live _ _ _ _ _ _ _ Hac).
Qed.

Lemma unix_apart t u n : t + n * second <= u -> unix t + n <= unix u.
Proof.
  unfold unix, second. intros Hle. replace (unix t + n) with (unix t + n) by done.
  rewrite <- Z.div_add by lia. apply Z.div_le_mono; lia.
Qed.

Lemma unix_pos t : 0 <= unix t -> unixEpoch <= t.
Proof.
  unfold unix. intros Hp. apply Z.nlt_ge. intros Hlt.
  assert ((t - unixEpoch) / 1000000000 < 0) by (apply Z.div_lt_upper_bound; lia). lia.
Qed.

Definition message (headers : Headers) : string * string := (hd_ID headers, hd_Timestamp headers).

Lemma history_ok i d0 accepted now d :
  601 * second <= in_retention i -> history i d0 accepted now d ->
  Forall (remembered i now d) accepted /\ NoDup (map (fun e => message e.1) accepted).
Proof.
  intros Hret. induction 1 as [now|accepted now d env headers raw out d' _ [IHf IHn] Hle Hmax Ha|accepted now d d' _ [IHf IHn] Hs].
  - split; constructor.
  - apply Accept_cases in Ha. destruct out as [n|e]; cbn [accepted_by app].
    + assert (Hv : unix (at_now env) <= maxInt64 -> 0 <= unix (at_now env) /\ exists timestamp,
        parseTimestamp (hd_Timestamp headers) = Ok timestamp /\ Z.abs (unix (at_now env) - timestamp) <= 300).
      { intros Hm. eapply Verify_clock; [done|]. by apply (ac_verified _ _ _ _ _ _ _ Ha). }
      destruct (Hv Hmax) as (Hpos & ts & Hts & Hd). split.
      * constructor; [|eapply Forall_impl; [exact IHf|]; intros entry; by eapply remembered_accepted].
        split_and!; [done|right|by exists ts].
        destruct (ac_receipt _ _ _ _ _ _ _ Ha) as (doc & Hm & Hg). exists (at_now env + in_retention i). split; [|done].
        exists doc. split; [done|]. apply read_written; [|done]. pose proof (unix_pos _ Hpos). unfold unixEpoch, second in *. lia.
      * cbn [map fst]. constructor; [|done]. intros ([h at_] & Heq & Hin)%list_elem_of_fmap.
        eapply Forall_forall in IHf; [|done]. destruct IHf as (_ & Hr & ts' & Hts' & Hd').
        cbn [fst] in Heq. injection Heq as Hid Htime. rewrite <- Htime, Hts in Hts'. injection Hts' as <-.
        assert (Hpast : at_ + in_retention i <= at_now env).
        { destruct Hr as [Hr|(e & Hh & He)]; [lia|]. rewrite <- Hid in Hh.
          pose proof (ac_fresh _ _ _ _ _ _ _ Ha e Hh). lia. }
        pose proof (unix_apart at_ (at_now env) 601 ltac:(lia)). lia.
    + split; [|done]. eapply Forall_impl; [exact IHf|]. intros entry. apply remembered_same; [done|].
      apply Ha. discriminate.
  - split; [|done]. eapply Forall_impl; [exact IHf|]. intros entry. by apply remembered_same.
Qed.

(** C16: with a receipt retention of at least 601 seconds, one second more than
    twice the five-minute signature tolerance, no signed message is accepted
    twice: in every sequence of requests under a clock that does not run
    backwards, the accepted ones differ in their message ID or in their signed
    timestamp. (Ages are compared in whole seconds, so twice the tolerance is
    not enough: see [Accept_replays_below_601_seconds].) *)
Theorem Accept_once i d0 accepted now d :
  601 * second <= in_retention i -> history i d0 accepted now d ->
  NoDup (map (fun entry => (hd_ID entry.1, hd_Timestamp entry.1)) accepted).
Proof. intros Hret Hh. by destruct (history_ok i d0 accepted now d Hret Hh). Qed.
(** An accepted alert carried a valid signature over its exact bytes, names
    an enabled registered target and one of its rules, and leaves a receipt of
    the configured lifetime as its only change; a rejected one changes at most
    the audit log. *)
Lemma Accept_effect i env headers raw d out d' :
  Accept i env headers raw d = (out, d') ->
  match out with
  | Ok n =>
    Verify (in_keyring i) headers (body_bytes raw) (at_now env) = Ok tt /\
    (exists decoded target, decode (body_text raw) = Ok decoded /\ validateIncoming decoded = Ok tt /\
       target ∈ ss_Targets (at_snapshot env) /\ known_rule decoded target = true /\
       obs_TargetID (nm_Observation n) = tgt_TargetID target /\
       obs_RuleID (nm_Observation n) ∈ map pr_RuleID (tgt_ProbeRules target) /\
       obs_BoundedValues (nm_Observation n) = bounded (ic_Values decoded)) /\
    (forall expiresAt, holds_receipt d (hd_ID headers) expiresAt -> expiresAt <= at_now env) /\
    (time_add (at_now env) (in_retention i) <> 0 ->
     holds_receipt d' (hd_ID headers) (time_add (at_now env) (in_retention i))) /\
    (forall b, b <> BucketIngressReceipts -> same_bucket b d d')
  | Fail _ => forall b, b <> BucketAudit -> same_bucket b d d'
  end.
Proof.
  intros Ha%Accept_cases. destruct out as [n|e]; [|done]. destruct Ha as [_ _ Hv (decoded & Hd & Hn) Hf (doc & Hm & Hg) _ Hfr].
  split_and!; try done.
  - unfold normalize in Hn. destruct (find_first _ _) as [target|] eqn:Ef; [|done].
    apply find_first_some in Ef as [Hin Hk]. destruct (at_observationID env) as [id|]; [|done]. injection Hn as <-.
    exists decoded, target. unfold decode in Hd. destruct (Decode _ _) as [value|] eqn:Ed; [|done]. injection Hd as ->.
    apply Decode_ok in Ed as Hok. destruct Hok as (j & validate & _ & [= <-] & Hval & _).
    pose proof Hk as Hkn. unfold known_rule in Hk. rewrite !andb_true_iff, String.eqb_eq in Hk. destruct Hk as [[Hen Hid] (rule & Hr & Hrid)%existsb_exists].
    apply String.eqb_eq in Hrid. cbn [obs_TargetID obs_RuleID obs_BoundedValues nm_Observation]. split_and!; try done.
    { unfold decode. by rewrite Ed. }
    rewrite <- Hrid. apply list_elem_of_fmap_2. by apply list_elem_of_In.
  - intros Hz. exists doc. split; [done|]. by apply read_written.
Qed.
End Facts.

(** * Examples *)

Definition demo_receipts : @db gmapBolt := {[BucketIngressReceipts := ∅; BucketAudit := ∅]}.
Definition demo_body : body :=
  mkBody (bytes "{}") (Text (JObj [("schema_version", JStr SchemaVersionV1); ("source", JStr "monitor");
    ("external_alert_id", JStr "alert-1"); ("target_id", JStr "checkout"); ("rule_id", JStr "availability-rule");
    ("state", JStr StateUnhealthy); ("severity", JStr SeverityCritical); ("observed_at", JTime demo_time);
    ("values", JObj [("latency_ms", JInt 12); ("load", JFloat (float_of 9000000))])]) false).
Definition demo_keys : Keyring := mkKeyring [demo_secret].
Definition signed : Headers :=
  match Sign demo_keys "msg-1" demo_time (body_bytes demo_body) with Ok h => h | Fail _ => mkHeaders "" "" "" end.
Definition call_at (now : time) : surroundings :=
  mkSurroundings None now None (mkSnapshot SchemaVersionV1 1 [demo_target "checkout"]) (Ok "obs-1") (Ok "evt-1").
Definition short_ingress : Ingress := mkIngress demo_keys defaultMaxBodyBytes defaultTimeout minute.
Definition first_call : result Normalized * db := Accept short_ingress (call_at demo_time) signed demo_body demo_receipts.

Example demo_isJSON :
  map isJSON ["application/json"; "application/json; charset=utf-8"; " application/json ;x"; "text/plain"; "application/json2"]
  = [true; true; true; false; false].
Proof. vm_compute. reflexivity. Qed.
Example demo_bounded :
  map_to_list (bounded {["load" := float_of 9000000; "bad" := S754_nan]}) = [("load", float_of 1000000)].
Proof. vm_compute. reflexivity. Qed.

(** The shortest retention the options allow is one minute, less than the
    time a signature stays valid: the same signed request is accepted again
    once its receipt has expired. *)
Lemma Accept_replays_after_short_retention :
  NewIngress demo_keys 0 0 minute = Ok short_ingress /\
  is_ok (Accept short_ingress (call_at demo_time) signed demo_body demo_receipts).1 = true /\
  (Accept short_ingress (call_at (demo_time + 59 * second)) signed demo_body first_call.2).1 = Fail ErrReplay /\
  is_ok (Accept short_ingress (call_at (demo_time + minute)) signed demo_body first_call.2).1 = true.
Proof. split_and!; vm_compute; reflexivity. Qed.

(** The 601 seconds of [Accept_once] are the least: a nanosecond less, and
    a message first accepted 300 seconds before its timestamp is accepted again
    when its receipt expires, a nanosecond before it is 301 seconds old; twice
    the tolerance fails the same way. *)
Definition tight_ingress (retention : duration) : Ingress := mkIngress demo_keys defaultMaxBodyBytes defaultTimeout retention.
Definition early_call (retention : duration) : result Normalized * db :=
  Accept (tight_ingress retention) (call_at (demo_time - 300 * second)) signed demo_body demo_receipts.
Definition accepted_at_expiry (retention : duration) : bool :=
  is_ok (Accept (tight_ingress retention) (call_at (demo_time - 300 * second + retention)) signed demo_body
    (early_call retention).2).1.
Lemma Accept_replays_below_601_seconds :
  map (fun retention => (is_ok (early_call retention).1, accepted_at_expiry retention))
    [600 * second; 601 * second - 1; 601 * second] = [(true, true); (true, true); (true, false)].
Proof. vm_compute. reflexivity. Qed.

Definition long_ingress : Ingress := mkIngress demo_keys defaultMaxBodyBytes defaultTimeout defaultRetention.
Definition long_call : result Normalized * db := Accept long_ingress (call_at demo_time) signed demo_body demo_receipts.
Lemma long_call_eq :
  Accept long_ingress (call_at demo_time) signed demo_body demo_receipts = (long_call.1, long_call.2).
Proof. unfold long_call. destruct (Accept _ _ _ _ _). reflexivity. Qed.
Lemma first_call_eq :
  Accept short_ingress (call_at demo_time) signed demo_body demo_receipts = (first_call.1, first_call.2).
Proof. unfold first_call. destruct (Accept _ _ _ _ _). reflexivity. Qed.

Lemma Accept_once_witness :
  NoDup (map (fun entry => (hd_ID entry.1, hd_Timestamp entry.1)) (accepted_by signed demo_time long_call.1 ++ [])).
Proof.
  apply (Accept_once (H := gmapBolt) long_ingress demo_receipts _ demo_time long_call.2).
  - discriminate.
  - exact (history_accept long_ingress demo_receipts [] demo_time demo_receipts (call_at demo_time) signed demo_body
      long_call.1 long_call.2 (history_start _ _ _) (Z.le_refl demo_time) ltac:(discriminate) long_call_eq).
Defined.

Lemma Accept_effect_witness :
  match first_call.1 with
  | Ok n => Verify demo_keys signed (bytes "{}") demo_time = Ok tt
  | Fail _ => forall b, b <> BucketAudit -> same_bucket b demo_receipts first_call.2
  end.
Proof.
  pose proof (Accept_effect (H := gmapBolt) short_ingress (call_at demo_time) signed demo_body demo_receipts
    _ _ first_call_eq) as He.
  destruct first_call.1; [exact (proj1 He)|exact He].
Defined.
