(* ===== verification/Correlator.v ===== *)
(** The incident correlator of src/internal/correlator/correlator.go:
    deduplication of normalized signals and the durable incident lifecycle.

    [newIncidentID] is a callback of the daemon; its outcome is an argument of
    [Ingest].  Telemetry is best effort and leaves no state. *)
From S2P Require Import Prelude GoLib GoTime Sha256 Json Contract ContractFacts Store.
From stdpp Require Import options.
Local Open Scope Z_scope.

Definition defaultDedupeWindow : duration := 5 * minute.
Definition maxDedupeWindow : duration := 24 * hour.
Definition maxSeenInputs : Z := 256.
Definition maxRecordBytes : Z := 128 * 1024.

Definition correlator_error := mkError "correlator".
Definition ErrInvalidOptions := correlator_error "invalid correlator options".
Definition ErrInvalidSignal := correlator_error "invalid correlation signal".
Definition ErrCorruptIncident := correlator_error "corrupt persisted incident".

Definition PhaseCandidate : string := "candidate".
Definition PhaseConfirmed : string := "confirmed".
Definition PhaseRecovering : string := "recovering".
Definition PhaseTerminal : string := "terminal".

(** * Data *)

Record Signal := mkSignal {
  sig_Source : string;
  sig_ExternalAlertID : string;
  sig_Severity : string;
  sig_Observation : HealthObservation;
}.
#[export] Instance Signal_eta : Updatable Signal :=
  fun r => mkSignal (sig_Source r) (sig_ExternalAlertID r) (sig_Severity r) (sig_Observation r).

Record Result := mkResult {
  res_Incident : Incident;
  res_Phase : string;
  res_Duplicate : bool;
  res_Ignored : bool;
}.

Record persistedIncident := mkPersistedIncident {
  pi_SchemaVersion : string;
  pi_Phase : string;
  pi_Incident : Incident;
  pi_SeenInputs : list string;
}.
#[export] Instance persistedIncident_eta : Updatable persistedIncident :=
  fun r => mkPersistedIncident (pi_SchemaVersion r) (pi_Phase r) (pi_Incident r) (pi_SeenInputs r).
Definition persistedIncident_zero : persistedIncident := mkPersistedIncident "" "" Incident_zero [].
#[export] Instance persistedIncident_json : GoJson persistedIncident := struct_json persistedIncident_zero [
  field_of "schema_version" pi_SchemaVersion never;
  field_of "phase" pi_Phase never;
  field_of "incident" pi_Incident never;
  field_of "seen_inputs" pi_SeenInputs never].

(** The part of [Correlator] that is not a dependency. *)
Record Correlator := mkCorrelator { dedupeWindow : duration }.

Definition New (options_DedupeWindow : duration) : result Correlator :=
  let window := if options_DedupeWindow =? 0 then defaultDedupeWindow else options_DedupeWindow in
  if (window <? second) || (maxDedupeWindow <? window) then Fail ErrInvalidOptions
  else Ok (mkCorrelator window).

(** * Signals *)

(** [validateSignal] fills in the defaults of its argument. *)
Definition validateSignal (signal : Signal) : result Signal :=
  let o := sig_Observation signal in
  if negb (String.eqb (obs_SchemaVersion o) SchemaVersionV1) ||
     String.eqb (trim_space (obs_ObservationID o)) "" || String.eqb (trim_space (obs_TargetID o)) "" ||
     String.eqb (trim_space (obs_RuleID o)) "" || is_zero (obs_ObservedAt o)
  then Fail ErrInvalidSignal
  else if negb (String.eqb (obs_NormalizedState o) StateHealthy) &&
          negb (String.eqb (obs_NormalizedState o) StateUnhealthy)
  then Fail ErrInvalidSignal
  else
    let signal := if String.eqb (sig_Source signal) "" then signal <| sig_Source := "observer" |> else signal in
    if (96 <? go_len (sig_Source signal)) || (128 <? go_len (sig_ExternalAlertID signal)) ||
       String.eqb (trim_space (sig_Source signal)) "" ||
       negb (String.eqb (trim_space (sig_ExternalAlertID signal)) (sig_ExternalAlertID signal))
    then Fail ErrInvalidSignal
    else
      let signal := if String.eqb (sig_Severity signal) "" then signal <| sig_Severity := SeverityWarning |>
                    else signal in
      if negb (String.eqb (sig_Severity signal) SeverityInfo) &&
         negb (String.eqb (sig_Severity signal) SeverityWarning) &&
         negb (String.eqb (sig_Severity signal) SeverityCritical)
      then Fail ErrInvalidSignal
      else Ok signal.

Definition dedupeKey (c : Correlator) (observation : HealthObservation) : string :=
  let windowStart := truncate (utc (obs_ObservedAt observation)) (dedupeWindow c) in
  String.append (obs_TargetID observation) (String.append "/" (String.append (obs_RuleID observation)
    (String.append "/" (itoa (unix_nano windowStart))))).

Definition signalInputKey (signal : Signal) : string :=
  let identity :=
    if negb (String.eqb (sig_ExternalAlertID signal) "")
    then String.append (sig_Source signal) (String.append (of_bytes [0]) (sig_ExternalAlertID signal))
    else obs_ObservationID (sig_Observation signal) in
  String.append "input:" (sha256_hex identity).

(** * Lifecycle *)

Definition severityRank (severity : string) : Z :=
  if String.eqb severity SeverityCritical then 3
  else if String.eqb severity SeverityWarning then 2
  else if String.eqb severity SeverityInfo then 1
  else 0.
Definition severityHigher (candidate current : string) : bool :=
  severityRank current <? severityRank candidate.

Definition set_state (state : string) (record : persistedIncident) : persistedIncident :=
  record <| pi_Incident := pi_Incident record <| inc_State := state |> |>.
Definition set_terminal (state : string) (observedAt : time) (record : persistedIncident) : persistedIncident :=
  record <| pi_Phase := PhaseTerminal |>
         <| pi_Incident := pi_Incident record <| inc_State := state |> <| inc_TerminalAt := utc observedAt |> |>.

Definition advanceUnhealthy (record : persistedIncident) (observedAt : time) : persistedIncident :=
  if String.eqb (pi_Phase record) PhaseCandidate then
    set_state IncidentAnalyzing (record <| pi_Phase := PhaseConfirmed |>)
  else if String.eqb (pi_Phase record) PhaseRecovering then
    set_terminal IncidentFailed observedAt record
  else record.

Definition advanceHealthy (record : persistedIncident) (observedAt : time) : persistedIncident :=
  if String.eqb (pi_Phase record) PhaseCandidate then
    set_terminal IncidentClosed observedAt record
  else if String.eqb (pi_Phase record) PhaseConfirmed then
    set_state IncidentRecovering (record <| pi_Phase := PhaseRecovering |>)
  else if String.eqb (pi_Phase record) PhaseRecovering then
    if String.eqb (inc_State (pi_Incident record)) IncidentRecovering then set_state IncidentStabilizing record
    else set_terminal IncidentClosed observedAt record
  else record.

Definition advance (record : persistedIncident) (signal : Signal) : persistedIncident :=
  if String.eqb (pi_Phase record) PhaseTerminal then record
  else
    let record :=
      if severityHigher (sig_Severity signal) (inc_Severity (pi_Incident record))
      then record <| pi_Incident := pi_Incident record <| inc_Severity := sig_Severity signal |> |>
      else record in
    if String.eqb (obs_NormalizedState (sig_Observation signal)) StateUnhealthy
    then advanceUnhealthy record (obs_ObservedAt (sig_Observation signal))
    else advanceHealthy record (obs_ObservedAt (sig_Observation signal)).

Fixpoint contains (inputs : list string) (input : string) : bool :=
  match inputs with
  | [] => false
  | candidate :: rest => if String.eqb candidate input then true else contains rest input
  end.

Definition appendBounded (inputs : list string) (input : string) : list string :=
  let inputs := (inputs ++ [input])%list in
  if go_count inputs <=? maxSeenInputs then inputs
  else drop (Z.to_nat (go_count inputs - maxSeenInputs)) inputs.

(** * Records *)

Definition validPhase (phase : string) : bool :=
  String.eqb phase PhaseCandidate || String.eqb phase PhaseConfirmed ||
  String.eqb phase PhaseRecovering || String.eqb phase PhaseTerminal.

Definition phaseMatchesIncident (phase : string) (incident : Incident) : bool :=
  if String.eqb phase PhaseCandidate then String.eqb (inc_State incident) IncidentOpen
  else if String.eqb phase PhaseConfirmed then String.eqb (inc_State incident) IncidentAnalyzing
  else if String.eqb phase PhaseRecovering then
    String.eqb (inc_State incident) IncidentRecovering || String.eqb (inc_State incident) IncidentStabilizing
  else if String.eqb phase PhaseTerminal then
    String.eqb (inc_State incident) IncidentClosed || String.eqb (inc_State incident) IncidentFailed
  else false.

(** The loop over the seen inputs: bounded, not empty, not repeated. *)
Fixpoint valid_inputs (seen : gset string) (inputs : list string) : bool :=
  match inputs with
  | [] => true
  | input :: rest =>
    if String.eqb input "" || (256 <? go_len input) then false
    else if decide (input ∈ seen) then false
    else valid_inputs ({[input]} ∪ seen) rest
  end.

Definition validateRecord (record : persistedIncident) : result unit :=
  if negb (String.eqb (pi_SchemaVersion record) SchemaVersionV1) || negb (validPhase (pi_Phase record)) ||
     (go_count (pi_SeenInputs record) =? 0) || (maxSeenInputs <? go_count (pi_SeenInputs record)) ||
     negb (is_ok (Incident_Validate (pi_Incident record)))
  then Fail ErrCorruptIncident
  else if String.eqb (inc_DedupeKey (pi_Incident record)) "" ||
          negb (phaseMatchesIncident (pi_Phase record) (pi_Incident record))
  then Fail ErrCorruptIncident
  else if valid_inputs ∅ (pi_SeenInputs record) then Ok tt else Fail ErrCorruptIncident.

Definition record_options : DecodeOptions persistedIncident :=
  {| MaxBytes := maxRecordBytes; SchemaVersion := SchemaVersionV1; Validate := Some validateRecord |}.

Definition decodeRecord (doc : document) : result persistedIncident :=
  match Decode doc record_options with Ok record => Ok record | Fail _ => Fail ErrCorruptIncident end.

Definition matchesActiveRecord (record : persistedIncident) (observation : HealthObservation) : bool :=
  negb (String.eqb (pi_Phase record) PhaseTerminal) &&
  String.eqb (inc_TargetID (pi_Incident record)) (obs_TargetID observation) &&
  match inc_RuleIDs (pi_Incident record) with
  | [rule] => String.eqb rule (obs_RuleID observation)
  | _ => false
  end &&
  negb (before (obs_ObservedAt observation) (inc_OpenedAt (pi_Incident record))).

Definition newCandidate (newIncidentID : result string) (signal : Signal) (dedupe inputKey : string) :
    result persistedIncident :=
  newIncidentID ≫= fun incidentID =>
  if String.eqb (trim_space incidentID) "" then Fail ErrInvalidOptions
  else Ok (mkPersistedIncident SchemaVersionV1 PhaseCandidate
    (Incident_zero <| inc_SchemaVersion := SchemaVersionV1 |> <| inc_IncidentID := incidentID |>
       <| inc_DedupeKey := dedupe |> <| inc_TargetID := obs_TargetID (sig_Observation signal) |>
       <| inc_RuleIDs := [obs_RuleID (sig_Observation signal)] |> <| inc_State := IncidentOpen |>
       <| inc_Severity := sig_Severity signal |>
       <| inc_OpenedAt := utc (obs_ObservedAt (sig_Observation signal)) |>)
    [inputKey]).

Section Correlation.
Context `{Bolt}.

Definition putRecord (key : string) (record : persistedIncident) : st db unit :=
  st_lift (validateRecord record) ≫= fun _ =>
  match Marshal record with
  | None => st_fail (mkError "json" "unsupported value")
  | Some document => Put BucketIncidents key document
  end.

Definition updateRecord (key : string) (record : persistedIncident) (inputKey : string) (signal : Signal) :
    st db Result :=
  if contains (pi_SeenInputs record) inputKey
  then mret (mkResult (pi_Incident record) (pi_Phase record) true false)
  else
    let record := record <| pi_SeenInputs := appendBounded (pi_SeenInputs record) inputKey |> in
    let record := advance record signal in
    putRecord key record ≫= fun _ =>
    mret (mkResult (pi_Incident record) (pi_Phase record) false false).

(** The latest-opened active record, [None] when there is none. *)
Definition active_step (observation : HealthObservation) (acc : option (string * persistedIncident))
    (candidateKey : string) (doc : document) : result (option (string * persistedIncident)) :=
  decodeRecord doc ≫= fun record =>
  if negb (matchesActiveRecord record observation) then Ok acc
  else match acc with
       | None => Ok (Some (candidateKey, record))
       | Some (_, latest) =>
         if after (inc_OpenedAt (pi_Incident record)) (inc_OpenedAt (pi_Incident latest))
         then Ok (Some (candidateKey, record)) else Ok acc
       end.
Definition findActiveRecord (observation : HealthObservation) : st db (option (string * persistedIncident)) :=
  ForEach BucketIncidents None (active_step observation).

Definition ignored : Result := mkResult Incident_zero "" false true.

(** The body of the transaction. *)
Definition ingest_body (c : Correlator) (newIncidentID : result string) (signal : Signal) : st db Result :=
  let dedupe := dedupeKey c (sig_Observation signal) in
  let inputKey := signalInputKey signal in
  Get BucketIncidents dedupe ≫= fun found =>
  match found with
  | Some document =>
    st_lift (decodeRecord document) ≫= fun record => updateRecord dedupe record inputKey signal
  | None =>
    if String.eqb (obs_NormalizedState (sig_Observation signal)) StateHealthy then
      findActiveRecord (sig_Observation signal) ≫= fun active =>
      match active with
      | None => mret ignored
      | Some (key, record) => updateRecord key record inputKey signal
      end
    else
      st_lift (newCandidate newIncidentID signal dedupe inputKey) ≫= fun record =>
      putRecord dedupe record ≫= fun _ =>
      mret (mkResult (pi_Incident record) (pi_Phase record) false false)
  end.

Definition Ingest (c : Correlator) (newIncidentID : result string) (signal : Signal) (d : db) :
    result Result * db :=
  match validateSignal signal with
  | Fail e => (Fail e, d)
  | Ok signal => Update (ingest_body c newIncidentID signal) d
  end.
End Correlation.

(** * Facts *)

Definition persistedIncident_ok (r : persistedIncident) : bool :=
  valid_utf8 (pi_SchemaVersion r) && valid_utf8 (pi_Phase r) && Incident_ok (pi_Incident r)
   && forallb valid_utf8 (pi_SeenInputs r).
Lemma persistedIncident_rtv r :
  persistedIncident_ok r = true -> json_rtv persistedIncident_json r (pi_SchemaVersion r).
Proof. destruct r. unfold persistedIncident_ok, persistedIncident_json. struct_rtv. Qed.
#[local] Arguments persistedIncident_json : simpl never.

Lemma contains_input inputs input : contains inputs input = true <-> input ∈ inputs.
Proof.
  induction inputs as [|x l IH]; simpl; [set_solver|].
  destruct (String.eqb_spec x input); set_solver.
Qed.

Definition input_ok (input : string) : Prop := input <> "" /\ go_len input <= 256.

Lemma valid_inputs_spec seen inputs :
  valid_inputs seen inputs = true <->
  NoDup inputs /\ Forall input_ok inputs /\ forall x, x ∈ inputs -> x ∉ seen.
Proof.
  revert seen. induction inputs as [|x l IH]; intros seen; simpl.
  { split; [|done]. intros _. split_and!; [constructor..|set_solver]. }
  unfold input_ok in *. rewrite NoDup_cons, Forall_cons.
  destruct (String.eqb_spec x ""); [naive_solver|]. destruct (Z.ltb_spec 256 (go_len x)); simpl; [naive_solver lia|].
  case_decide as Hx; [split; [done|]; intros (_ & _ & Hs); exfalso; apply (Hs x); set_solver|].
  rewrite IH. split.
  - intros (Hnd & Hf & Hs). split_and!; try done.
    + intros Hin. apply (Hs x Hin). set_solver.
    + intros y [->|Hy]%elem_of_cons; [done|]. specialize (Hs y Hy). set_solver.
  - intros ((Hxl & Hnd) & (_ & Hf) & Hs). split_and!; [done..|].
    intros y Hy. assert (y <> x) by naive_solver. specialize (Hs y). set_solver.
Qed.

(** The window of inputs: the newest 256, in order. *)
Lemma appendBounded_spec inputs input :
  go_count inputs <= maxSeenInputs ->
  appendBounded inputs input = (drop (length inputs - 255) inputs ++ [input])%list.
Proof.
  unfold appendBounded, go_count, maxSeenInputs. intros Hl. rewrite length_app. simpl.
  destruct (Z.leb_spec (Z.of_nat (length inputs + 1)) 256).
  - replace (length inputs - 255)%nat with O by lia. done.
  - rewrite drop_app_le by lia. do 2 f_equal. lia.
Qed.

Lemma validateRecord_ok r :
  validateRecord r = Ok tt <->
  pi_SchemaVersion r = SchemaVersionV1 /\ validPhase (pi_Phase r) = true /\
  (0 < go_count (pi_SeenInputs r) <= maxSeenInputs) /\ Incident_Validate (pi_Incident r) = Ok tt /\
  inc_DedupeKey (pi_Incident r) <> "" /\ phaseMatchesIncident (pi_Phase r) (pi_Incident r) = true /\
  NoDup (pi_SeenInputs r) /\ Forall input_ok (pi_SeenInputs r).
Proof.
  unfold validateRecord, maxSeenInputs.
  assert (Hn : 0 <= go_count (pi_SeenInputs r)) by (unfold go_count; lia).
  destruct (String.eqb_spec (pi_SchemaVersion r) SchemaVersionV1); cbn [negb orb]; [|naive_solver].
  destruct (validPhase (pi_Phase r)); cbn [negb orb]; [|naive_solver].
  destruct (Z.eqb_spec (go_count (pi_SeenInputs r)) 0); cbn [orb]; [naive_solver lia|].
  destruct (Z.ltb_spec 256 (go_count (pi_SeenInputs r))); cbn [orb]; [naive_solver lia|].
  destruct (Incident_Validate (pi_Incident r)) as [[]|]; cbn [is_ok negb]; [|naive_solver].
  destruct (String.eqb_spec (inc_DedupeKey (pi_Incident r)) ""); cbn [orb]; [naive_solver|].
  destruct (phaseMatchesIncident _ _); cbn [negb]; [|naive_solver].
  pose proof (valid_inputs_spec ∅ (pi_SeenInputs r)) as Hv.
  destruct (valid_inputs ∅ (pi_SeenInputs r)).
  - destruct Hv as [Hv _]. destruct (Hv eq_refl) as (? & ? & _). split; [|done]. intros _. split_and!; try done; lia.
  - split; [done|]. intros (_ & _ & _ & _ & _ & _ & ? & ?). exfalso. discriminate (proj2 Hv ltac:(split_and!; [done..|set_solver])).
Qed.

(** What [validateSignal] guarantees of the signal it returns. *)
Lemma validateSignal_ok s s' :
  validateSignal s = Ok s' ->
  sig_Observation s' = sig_Observation s /\ obs_ObservedAt (sig_Observation s') <> 0 /\
  (obs_NormalizedState (sig_Observation s') = StateHealthy \/
   obs_NormalizedState (sig_Observation s') = StateUnhealthy) /\
  obs_TargetID (sig_Observation s') <> "" /\ obs_RuleID (sig_Observation s') <> "" /\
  1 <= severityRank (sig_Severity s').
Proof.
  unfold validateSignal. pass_guard E1. pass_guard E2.
  set (s1 := if String.eqb (sig_Source s) "" then _ else _).
  assert (Hs1 : sig_Observation s1 = sig_Observation s) by (subst s1; by destruct (String.eqb (sig_Source s) "")).
  clearbody s1. pass_guard E4.
  set (s2 := if String.eqb (sig_Severity s1) "" then _ else _).
  assert (Hs2 : sig_Observation s2 = sig_Observation s) by (subst s2; by destruct (String.eqb (sig_Severity s1) "")).
  clearbody s2. pass_guard E3. clear E4. intros [= <-].
  rewrite Hs2. bool_prop. unfold is_zero in *. bool_prop. split_and!; try done.
  - destruct E2 as [E|E]; apply negb_false_iff, String.eqb_eq in E; auto.
  - intros Heq. rewrite Heq in *. done.
  - intros Heq. rewrite Heq in *. done.
  - unfold severityRank. destruct E3 as [E3|E3]; [apply andb_false_iff in E3 as [E3|E3]|];
      apply negb_false_iff in E3; rewrite E3; repeat case_match; lia.
Qed.

Lemma Incident_Validate_ok i :
  Incident_Validate i = Ok tt <->
  inc_SchemaVersion i = SchemaVersionV1 /\ inc_IncidentID i <> "" /\ inc_TargetID i <> "" /\
  validIncidentState (inc_State i) = true /\ inc_OpenedAt i <> 0 /\
  (0 < go_count (inc_RuleIDs i) <= maxReferenceCount) /\
  (terminalIncident (inc_State i) = true <-> inc_TerminalAt i <> 0).
Proof.
  unfold Incident_Validate, required, invalid, is_zero, maxReferenceCount. rewrite result_bind_ok.
  assert (Hn : 0 <= go_count (inc_RuleIDs i)) by (unfold go_count; lia).
  split.
  - intros ([] & Hv%validateVersion_ok & H).
    destruct (String.eqb_spec (inc_IncidentID i) ""); [done|].
    destruct (String.eqb_spec (inc_TargetID i) ""); [done|]. cbn [mbind result_bind] in H.
    destruct (_ || _ || _ || _) eqn:E; [done|]. bool_prop.
    destruct (Bool.eqb _ _) eqn:Et; [|done]. apply Bool.eqb_prop in Et. split_and!; try done; try lia.
    rewrite Et, negb_true_iff, Z.eqb_neq. done.
  - intros (Hv & Hi & Ht & Hs & Ho & Hr & Hterm). exists tt. split; [by apply validateVersion_ok|].
    destruct (String.eqb_spec (inc_IncidentID i) ""); [done|].
    destruct (String.eqb_spec (inc_TargetID i) ""); [done|]. cbn [mbind result_bind].
    rewrite Hs. destruct (Z.eqb_spec (inc_OpenedAt i) 0); [done|].
    destruct (Z.eqb_spec (go_count (inc_RuleIDs i)) 0); [lia|].
    destruct (Z.ltb_spec 64 (go_count (inc_RuleIDs i))); [lia|]. cbn [negb orb].
    destruct (terminalIncident (inc_State i)), (Z.eqb_spec (inc_TerminalAt i) 0); cbn; try done; exfalso; naive_solver.
Qed.

(** One legal step of a record: the incident stays the same incident, its
    severity does not fall, its state stays or makes a contract transition, and
    a terminal incident does not change. *)
Record lifecycle_step (r r' : persistedIncident) : Prop := {
  ls_id : inc_IncidentID (pi_Incident r') = inc_IncidentID (pi_Incident r);
  ls_key : inc_DedupeKey (pi_Incident r') = inc_DedupeKey (pi_Incident r);
  ls_target : inc_TargetID (pi_Incident r') = inc_TargetID (pi_Incident r);
  ls_rules : inc_RuleIDs (pi_Incident r') = inc_RuleIDs (pi_Incident r);
  ls_opened : inc_OpenedAt (pi_Incident r') = inc_OpenedAt (pi_Incident r);
  ls_severity : severityRank (inc_Severity (pi_Incident r)) <= severityRank (inc_Severity (pi_Incident r'));
  ls_state : inc_State (pi_Incident r') = inc_State (pi_Incident r) \/
             Incident_CanTransitionTo (inc_State (pi_Incident r)) (inc_State (pi_Incident r')) = true;
  ls_terminal : pi_Phase r = PhaseTerminal -> pi_Incident r' = pi_Incident r /\ pi_Phase r' = pi_Phase r;
}.

(** The phase and state pairs of a valid record. *)
Definition phase_states : list (string * string) :=
  [(PhaseCandidate, IncidentOpen); (PhaseConfirmed, IncidentAnalyzing); (PhaseRecovering, IncidentRecovering);
   (PhaseRecovering, IncidentStabilizing); (PhaseTerminal, IncidentClosed); (PhaseTerminal, IncidentFailed)].
Lemma phase_states_spec p i : phaseMatchesIncident p i = true <-> (p, inc_State i) ∈ phase_states.
Proof.
  unfold phase_states. rewrite !elem_of_cons, elem_of_nil. unfold phaseMatchesIncident. split.
  - intros H. destruct (String.eqb_spec p PhaseCandidate) as [->|]; [apply String.eqb_eq in H; rewrite H; tauto|].
    destruct (String.eqb_spec p PhaseConfirmed) as [->|]; [apply String.eqb_eq in H; rewrite H; tauto|].
    destruct (String.eqb_spec p PhaseRecovering) as [->|].
    { apply orb_true_iff in H as [H|H]; apply String.eqb_eq in H; rewrite H; tauto. }
    destruct (String.eqb_spec p PhaseTerminal) as [->|]; [|done].
    apply orb_true_iff in H as [H|H]; apply String.eqb_eq in H; rewrite H; tauto.
  - intros [[= -> ->]|[[= -> ->]|[[= -> ->]|[[= -> ->]|[[= -> ->]|[[= -> ->]|[]]]]]]]; reflexivity.
Qed.

(** A step of a record in a valid phase: legal, in a valid phase again, and
    terminal exactly at the instant observed. *)
Lemma advance_step r s :
  (pi_Phase r, inc_State (pi_Incident r)) ∈ phase_states ->
  let r' := advance r s in
  lifecycle_step r r' /\ (pi_Phase r', inc_State (pi_Incident r')) ∈ phase_states /\
  pi_SeenInputs r' = pi_SeenInputs r /\ pi_SchemaVersion r' = pi_SchemaVersion r /\
  inc_SchemaVersion (pi_Incident r') = inc_SchemaVersion (pi_Incident r) /\
  (pi_Incident r' = pi_Incident r \/
   inc_TerminalAt (pi_Incident r') =
     if terminalIncident (inc_State (pi_Incident r')) then obs_ObservedAt (sig_Observation s)
     else inc_TerminalAt (pi_Incident r)).
Proof.
  destruct r as [sv ph [isv iid key tgt rules state sev opened aref rbid term] seen]. cbn [pi_Phase pi_Incident inc_State].
  intros Hps. unfold advance. cbn [pi_Phase pi_Incident inc_Severity].
  assert (Hsev : severityHigher (sig_Severity s) sev = true -> severityRank sev <= severityRank (sig_Severity s)).
  { unfold severityHigher. intros ?%Z.ltb_lt. lia. }
  destruct (String.eqb (obs_NormalizedState (sig_Observation s)) StateUnhealthy);
    destruct (severityHigher (sig_Severity s) sev); specialize (Hsev ltac:(first [done|idtac])) || clear Hsev.
  all: unfold phase_states in Hps; rewrite !elem_of_cons, elem_of_nil in Hps;
    destruct Hps as [[= -> ->]|[[= -> ->]|[[= -> ->]|[[= -> ->]|[[= -> ->]|[[= -> ->]|[]]]]]]].
  all: cbn -[severityRank phase_states].
  all: split_and!; [constructor; cbn -[severityRank]; try done; try lia; auto|..].
  all: try reflexivity; try (by left); try (right; reflexivity).
  all: unfold phase_states; rewrite !elem_of_cons; tauto.
Qed.

Lemma signalInputKey_ok s : input_ok (signalInputKey s).
Proof.
  unfold signalInputKey. set (h := sha256_hex _). split; [done|].
  unfold go_len. rewrite string_app_length. unfold h. rewrite length_sha256_hex. simpl. lia.
Qed.

(** The record that [updateRecord] writes. *)
Definition updated (r : persistedIncident) (inputKey : string) (s : Signal) : persistedIncident :=
  advance (r <| pi_SeenInputs := appendBounded (pi_SeenInputs r) inputKey |>) s.

(** Updating a valid record with a new input gives a valid record, one legal
    step further, that has seen the input. *)
Lemma updated_valid r s0 s input :
  validateRecord r = Ok tt -> validateSignal s0 = Ok s -> input_ok input -> input ∉ pi_SeenInputs r ->
  validateRecord (updated r input s) = Ok tt /\ lifecycle_step r (updated r input s) /\
  input ∈ pi_SeenInputs (updated r input s).
Proof.
  intros (Hsv & Hph & Hn & Hinc & Hkey & Hm & Hnd & Hf)%validateRecord_ok Hs Hi Hnew.
  apply phase_states_spec in Hm as Hps.
  set (r1 := r <| pi_SeenInputs := appendBounded (pi_SeenInputs r) input |>).
  destruct (advance_step r1 s Hps) as (Hstep & Hps' & Hseen & Hsv' & Hisv & Hterm).
  change (advance r1 s) with (updated r input s) in *. set (r' := updated r input s) in *.
  change (pi_SeenInputs r1) with (appendBounded (pi_SeenInputs r) input) in Hseen.
  rewrite appendBounded_spec in Hseen by lia.
  destruct Hstep as [Hid Hk Htg Hrl Hop Hsev Hst Htm].
  split_and!; [|by constructor|rewrite Hseen; set_solver].
  apply Incident_Validate_ok in Hinc as (Hv & Hi1 & Hi2 & Hi3 & Hi4 & Hi5 & Hi6).
  assert (Hiff : terminalIncident (inc_State (pi_Incident r')) = true <-> inc_TerminalAt (pi_Incident r') <> 0).
  { destruct Hterm as [->| ->]; [done|].
    apply validateSignal_ok in Hs as (_ & Hz & _).
    destruct (terminalIncident (inc_State (pi_Incident r'))) eqn:Et; [done|].
    split; [done|]. intros Hne. exfalso. apply Hi6 in Hne.
    destruct Hst as [Hst|Hst]; [|by rewrite incident_terminal_stuck in Hst].
    change (pi_Incident r1) with (pi_Incident r) in Hst. congruence. }
  apply validateRecord_ok. split_and!.
  - by rewrite Hsv'.
  - by apply phase_states_spec in Hps'; revert Hps'; unfold phaseMatchesIncident, validPhase; repeat case_match.
  - rewrite Hseen. unfold go_count. rewrite length_app, length_drop. unfold go_count, maxSeenInputs in *. simpl. lia.
  - rewrite Hseen. unfold go_count, maxSeenInputs in *. rewrite length_app, length_drop. simpl. lia.
  - apply Incident_Validate_ok. rewrite Hisv, Hid, Htg, Hop, Hrl. split_and!; try done; try lia; try (apply Hi5); try apply Hiff.
    destruct Hst as [->|Hst]; [done|]. by apply incident_step_rank in Hst as (_ & _ & _ & ?).
  - by rewrite Hk.
  - by apply phase_states_spec.
  - rewrite Hseen. apply NoDup_app. split_and!; [by apply NoDup_suffix| |repeat constructor; set_solver].
    intros x Hx%elem_of_suffix ->%list_elem_of_singleton. done.
  - rewrite Hseen. apply Forall_app. split; [by apply Forall_drop|]. by constructor.
Qed.

Lemma decodeRecord_ok doc r : decodeRecord doc = Ok r -> validateRecord r = Ok tt.
Proof.
  unfold decodeRecord. destruct (Decode doc record_options) as [r'|] eqn:E; [|done]. intros [= ->].
  apply Decode_ok in E as (j & v & _ & Hv & Hx & _). by injection Hv as <-.
Qed.

Lemma active_fold obs l acc key r :
  fold_entries (active_step obs) acc l = Ok (Some (key, r)) ->
  acc = Some (key, r) \/
  exists doc, (key, doc) ∈ l /\ decodeRecord doc = Ok r /\ matchesActiveRecord r obs = true.
Proof.
  revert acc. induction l as [|[k doc] l IH]; intros acc; simpl; [intros [= ->]; by left|].
  unfold active_step at 1. destruct (decodeRecord doc) as [r1|] eqn:Ed; cbn [mbind result_bind]; [|done].
  intros Hf.
  assert (Hacc : exists acc', fold_entries (active_step obs) acc' l = Ok (Some (key, r)) /\
    (acc' = acc \/ acc' = Some (k, r1) /\ matchesActiveRecord r1 obs = true)).
  { destruct (matchesActiveRecord r1 obs) eqn:Em; simpl in Hf; [|by eauto].
    destruct acc as [[k0 r0]|]; [destruct (after _ _)|]; eauto. }
  destruct Hacc as (acc' & Hf' & Hacc). destruct (IH _ Hf') as [Heq|(doc' & Hin & Hd & Hm)].
  - destruct Hacc as [->|[-> Hm]]; [by left|]. injection Heq as -> ->. right. exists doc. set_solver.
  - right. exists doc'. set_solver.
Qed.

Lemma newCandidate_ok id s key input r :
  newCandidate id s key input = Ok r ->
  pi_Phase r = PhaseCandidate /\ inc_State (pi_Incident r) = IncidentOpen /\
  pi_SeenInputs r = [input] /\ inc_DedupeKey (pi_Incident r) = key /\
  inc_TargetID (pi_Incident r) = obs_TargetID (sig_Observation s) /\
  inc_RuleIDs (pi_Incident r) = [obs_RuleID (sig_Observation s)] /\
  inc_OpenedAt (pi_Incident r) = obs_ObservedAt (sig_Observation s).
Proof.
  unfold newCandidate. destruct id as [id|]; cbn [mbind result_bind]; [|done].
  destruct (String.eqb _ _); [done|]. by intros [= <-].
Qed.

Section IngestFacts.
Context `{BoltLaws}.
#[local] Set Default Proof Using "Type*".

Lemma putRecord_wrote_one key r d u d' :
  putRecord key r d = Ok (u, d') <->
  validateRecord r = Ok tt /\ exists doc, Marshal r = Some doc /\ Put BucketIncidents key doc d = Ok (u, d').
Proof.
  unfold putRecord. rewrite st_bind_ok. unfold st_lift. destruct u.
  destruct (validateRecord r) as [[]|].
  - split.
    + intros (? & ? & [= <- <-] & Hp). destruct (Marshal r); [eauto|done].
    + intros (_ & doc & Hm & Hp). exists tt, d. by rewrite Hm.
  - split; [by intros (? & ? & ? & _)|by intros [? _]].
Qed.

(** [d'] is [d] with the record [r] written under [key]. *)
Definition wrote (key : string) (r : persistedIncident) (d d' : db) : Prop :=
  exists doc, Marshal r = Some doc /\ kv_get d' BucketIncidents key = Some doc /\
  forall b k, (b, k) <> (BucketIncidents, key) -> kv_get d' b k = kv_get d b k.

Lemma putRecord_wrote key r d u d' : putRecord key r d = Ok (u, d') -> wrote key r d d'.
Proof.
  intros (_ & doc & Hm & Hp)%putRecord_wrote_one. exists doc. split_and!; [done|by eapply Put_get|].
  intros b k Hne. apply Put_ok in Hp as (_ & _ & _ & _ & Hp). eapply get_put_ne; [exact Hp|congruence].
Qed.

Lemma updateRecord_ok key r input s d res d' :
  updateRecord key r input s d = Ok (res, d') ->
  (input ∈ pi_SeenInputs r /\ d' = d /\ res = mkResult (pi_Incident r) (pi_Phase r) true false) \/
  (input ∉ pi_SeenInputs r /\ wrote key (updated r input s) d d' /\
   res = mkResult (pi_Incident (updated r input s)) (pi_Phase (updated r input s)) false false).
Proof.
  unfold updateRecord. destruct (contains (pi_SeenInputs r) input) eqn:Ec.
  - apply contains_input in Ec. intros [= <- <-]. by left.
  - rewrite st_bind_ok. intros ([] & d1 & Hp & [= <- <-]). right. split_and!; [|by eapply putRecord_wrote|done].
    intros Hin%contains_input. congruence.
Qed.

Lemma findActiveRecord_some obs d key r d' :
  findActiveRecord obs d = Ok (Some (key, r), d') ->
  d' = d /\ exists doc, kv_get d BucketIncidents key = Some doc /\ decodeRecord doc = Ok r /\
    matchesActiveRecord r obs = true.
Proof.
  intros (_ & _ & -> & Hf)%ForEach_ok. split; [done|].
  apply active_fold in Hf as [?|(doc & Hin & Hd & Hm)]; [done|]. apply entries_get in Hin. eauto.
Qed.

(** What one signal does to the stored records: nothing; a new candidate under
    the free key of the signal's window; or one step of an existing record. *)
Inductive ingested (c : Correlator) (s : Signal) (d d' : db) (res : Result) : Prop :=
| ingested_ignored : d' = d -> res_Ignored res = true -> ingested c s d d' res
| ingested_duplicate key doc r :
    kv_get d BucketIncidents key = Some doc -> decodeRecord doc = Ok r ->
    signalInputKey s ∈ pi_SeenInputs r -> d' = d ->
    res = mkResult (pi_Incident r) (pi_Phase r) true false -> ingested c s d d' res
| ingested_candidate r :
    kv_get d BucketIncidents (dedupeKey c (sig_Observation s)) = None ->
    obs_NormalizedState (sig_Observation s) = StateUnhealthy ->
    wrote (dedupeKey c (sig_Observation s)) r d d' -> validateRecord r = Ok tt ->
    pi_Phase r = PhaseCandidate -> pi_SeenInputs r = [signalInputKey s] ->
    res = mkResult (pi_Incident r) (pi_Phase r) false false -> ingested c s d d' res
| ingested_step key doc r :
    kv_get d BucketIncidents key = Some doc -> decodeRecord doc = Ok r ->
    signalInputKey s ∉ pi_SeenInputs r ->
    wrote key (updated r (signalInputKey s) s) d d' ->
    validateRecord (updated r (signalInputKey s) s) = Ok tt ->
    lifecycle_step r (updated r (signalInputKey s) s) ->
    res = mkResult (pi_Incident (updated r (signalInputKey s) s)) (pi_Phase (updated r (signalInputKey s) s)) false false ->
    ingested c s d d' res.

Lemma updateRecord_ingested c s0 s key doc r d res d' :
  validateSignal s0 = Ok s -> kv_get d BucketIncidents key = Some doc -> decodeRecord doc = Ok r ->
  updateRecord key r (signalInputKey s) s d = Ok (res, d') -> ingested c s d d' res.
Proof.
  intros Hs Hg Hd Hu. apply updateRecord_ok in Hu as [(Hin & -> & ->)|(Hnew & Hw & ->)].
  - by eapply ingested_duplicate.
  - destruct (updated_valid r s0 s (signalInputKey s)) as (Hv & Hstep & _);
      [by eapply decodeRecord_ok|done|apply signalInputKey_ok|done|]. by eapply ingested_step.
Qed.

Lemma ingest_body_ok c id s0 s d res d' :
  validateSignal s0 = Ok s -> ingest_body c id s d = Ok (res, d') -> ingested c s d d' res.
Proof.
  intros Hs. unfold ingest_body. rewrite st_bind_ok.
  intros (found & d0 & (_ & _ & _ & -> & ->)%Get_ok & Hb).
  destruct (kv_get d BucketIncidents (dedupeKey c (sig_Observation s))) as [doc|] eqn:Eg.
  - apply st_bind_ok in Hb as (r & d1 & Hd & Hu). unfold st_lift in Hd.
    destruct (decodeRecord doc) as [r'|] eqn:Ed; [|done]. injection Hd as -> <-.
    by eapply updateRecord_ingested.
  - destruct (String.eqb_spec (obs_NormalizedState (sig_Observation s)) StateHealthy) as [|Hne].
    + apply st_bind_ok in Hb as (active & d1 & Hf & Hu). destruct active as [[key r]|].
      * apply findActiveRecord_some in Hf as (-> & doc & Hg & Hd & _). by eapply updateRecord_ingested.
      * apply ForEach_ok in Hf as (_ & _ & -> & _). injection Hu as <- <-. by apply ingested_ignored.
    + apply st_bind_ok in Hb as (r & d1 & Hn & Hp). unfold st_lift in Hn.
      destruct (newCandidate _ _ _ _) as [r'|] eqn:En; [|done]. injection Hn as -> <-.
      apply st_bind_ok in Hp as ([] & d2 & Hp & [= <- <-]).
      apply newCandidate_ok in En as (Hph & _ & Hseen & _).
      apply validateSignal_ok in Hs as (_ & _ & [?|?] & _); [done|].
      eapply ingested_candidate; try done; [by eapply putRecord_wrote|by apply putRecord_wrote_one in Hp as [? _]].
Qed.
End IngestFacts.

(** * Properties *)

Section CorrelatorProperties.
Context `{BoltLaws}.
#[local] Set Default Proof Using "Type*".

(** C9: one signal has one of four effects: it is ignored; it is a duplicate
    and nothing changes; it opens a valid candidate under the free key of its
    window; or it takes one stored incident one legal lifecycle step further
    (same identity, severity never lower, a contract transition or none,
    terminal incidents frozen).  Every other record keeps its bytes, and a
    failed call changes nothing. *)
Theorem Ingest_effect c id s d :
  match Ingest c id s d with
  | (Ok res, d') => exists s', validateSignal s = Ok s' /\ ingested c s' d d' res
  | (Fail _, d') => d' = d
  end.
Proof.
  unfold Ingest. destruct (validateSignal s) as [s'|] eqn:Es; [|done].
  destruct (Update_cases (ingest_body c id s') d) as [(res & d' & Hb & ->)|(e & ->)]; [|done].
  exists s'. split; [done|]. by eapply ingest_body_ok.
Qed.

(** A signal whose input the record of its window has already seen is
    reported as a duplicate and changes nothing. *)
Theorem Ingest_duplicate_unchanged `{!BoltRoom} c id s s' d doc r :
  validateSignal s = Ok s' -> has_bucket d BucketIncidents = true ->
  kv_get d BucketIncidents (dedupeKey c (sig_Observation s')) = Some doc ->
  decodeRecord doc = Ok r -> signalInputKey s' ∈ pi_SeenInputs r ->
  Ingest c id s d = (Ok (mkResult (pi_Incident r) (pi_Phase r) true false), d).
Proof.
  intros Hs Hb Hg Hd Hin. unfold Ingest. rewrite Hs. apply Update_room.
  unfold ingest_body. apply st_bind_ok. exists (Some doc), d. split.
  - apply Get_ok. split_and!; try done. unfold dedupeKey. by destruct (obs_TargetID _).
  - apply st_bind_ok. exists r, d. unfold st_lift. rewrite Hd. split; [done|].
    unfold updateRecord. apply contains_input in Hin. by rewrite Hin.
Qed.
End CorrelatorProperties.

(** For registered identifiers, which hold no slash, and instants a Unix
    nanosecond count can hold, two observations share a record key exactly when
    they are of the same target and rule and fall into the same window. *)
Theorem dedupeKey_injective c o1 o2 :
  no_byte 47 (obs_TargetID o1) = true -> no_byte 47 (obs_TargetID o2) = true ->
  no_byte 47 (obs_RuleID o1) = true -> no_byte 47 (obs_RuleID o2) = true ->
  int64_ok (truncate (obs_ObservedAt o1) (dedupeWindow c) - unixEpoch) = true ->
  int64_ok (truncate (obs_ObservedAt o2) (dedupeWindow c) - unixEpoch) = true ->
  dedupeKey c o1 = dedupeKey c o2 <->
  obs_TargetID o1 = obs_TargetID o2 /\ obs_RuleID o1 = obs_RuleID o2 /\
  truncate (obs_ObservedAt o1) (dedupeWindow c) = truncate (obs_ObservedAt o2) (dedupeWindow c).
Proof.
  intros Ht1 Ht2 Hr1 Hr2 Hi1 Hi2. unfold dedupeKey, utc. split.
  - intros Heq. apply string_sep_split in Heq as [-> Heq]; [|done..].
    apply string_sep_split in Heq as [-> Heq]; [|done..].
    apply itoa_inj in Heq. unfold unix_nano in Heq. rewrite !wrap64_id in Heq by done. split_and!; [done..|lia].
  - by intros (-> & -> & ->).
Qed.

(** * Examples *)

Definition five_minutes : Correlator := mkCorrelator defaultDedupeWindow.
Definition sample_signal (id state : string) (at_ : time) : Signal :=
  mkSignal "" "" "" (mkHealthObservation SchemaVersionV1 id "web" "http" 1 at_ state ∅ [] 1).
Definition noon : time := unixEpoch + 12 * hour.
Definition incidents0 : @db gmapBolt := {[BucketIncidents := ∅]}.

Definition incidents1 : @db gmapBolt :=
  (Ingest five_minutes (Ok "inc-1") (sample_signal "o-1" StateUnhealthy noon) incidents0).2.
Definition incidents2 : @db gmapBolt :=
  (Ingest five_minutes (Ok "inc-2") (sample_signal "o-2" StateUnhealthy (noon + 5 * minute)) incidents1).2.
Definition recovered : Signal := sample_signal "o-3" StateHealthy (noon + 10 * minute).
Definition incidents3 : @db gmapBolt := (Ingest five_minutes (Fail ErrInvalidOptions) recovered incidents2).2.

Definition outcome (r : result Result) : option (string * string * bool) :=
  match r with
  | Ok res => Some (inc_IncidentID (res_Incident res), inc_State (res_Incident res), res_Duplicate res)
  | Fail _ => None
  end.

(** A replayed healthy signal is not recognised when its window has no
    record of its own: the first delivery closes the newest active incident of
    the rule, and the replay of the same observation closes the next one. *)
Lemma Ingest_replay_closes_another :
  outcome (Ingest five_minutes (Fail ErrInvalidOptions) recovered incidents2).1 =
    Some ("inc-2", IncidentClosed, false) /\
  outcome (Ingest five_minutes (Fail ErrInvalidOptions) recovered incidents3).1 =
    Some ("inc-1", IncidentClosed, false).
Proof. split; vm_compute; reflexivity. Qed.

Lemma Ingest_effect_witness :
  exists s', validateSignal (sample_signal "o-1" StateUnhealthy noon) = Ok s' /\
    exists res, ingested five_minutes s' incidents0 incidents1 res.
Proof.
  pose proof (Ingest_effect (H := gmapBolt) five_minutes (Ok "inc-1")
    (sample_signal "o-1" StateUnhealthy noon) incidents0) as He.
  unfold incidents1.
  destruct (Ingest five_minutes (Ok "inc-1") (sample_signal "o-1" StateUnhealthy noon) incidents0)
    as [[res|e] d'] eqn:Ei.
  - destruct He as (s' & Hs & Hi). exists s'. split; [exact Hs|]. exists res. exact Hi.
  - apply (f_equal (fun p => is_ok p.1)) in Ei. vm_compute in Ei. discriminate Ei.
Defined.

Definition sample_doc : document :=
  default (Bytes "") (kv_get incidents1 BucketIncidents "web/http/43200000000000").
Definition sample_record : persistedIncident :=
  match decodeRecord sample_doc with Ok r => r | Fail _ => persistedIncident_zero end.

Lemma Ingest_duplicate_unchanged_witness :
  Ingest five_minutes (Ok "inc-9") (sample_signal "o-1" StateUnhealthy noon) incidents1 =
    (Ok (mkResult (pi_Incident sample_record) (pi_Phase sample_record) true false), incidents1).
Proof.
  apply (Ingest_duplicate_unchanged (H := gmapBolt) _ _ _
    (sample_signal "o-1" StateUnhealthy noon <| sig_Source := "observer" |> <| sig_Severity := SeverityWarning |>)
    _ sample_doc).
  - vm_compute. reflexivity.
  - vm_compute. reflexivity.
  - vm_compute. reflexivity.
  - vm_compute. reflexivity.
  - apply (proj1 (contains_input _ _)). vm_compute. reflexivity.
Defined.

Lemma dedupeKey_injective_witness :
  dedupeKey five_minutes (sig_Observation (sample_signal "a" StateHealthy noon)) =
    dedupeKey five_minutes (sig_Observation (sample_signal "b" StateHealthy (noon + minute))).
Proof.
  apply (dedupeKey_injective five_minutes); try (vm_compute; reflexivity).
  split; [reflexivity|]. split; [reflexivity|]. vm_compute. reflexivity.
Defined.
