(* ===== verification/Journal.v ===== *)
(** The recovery command journal of src/internal/recovery/journal.go: its
    records, their validation and keys, and the transaction bodies that create
    and advance them; the two transitions of approval.go that the journal
    shares with the approval manager. *)
From S2P Require Import Prelude GoLib GoTime Sha256 Json Contract ContractFacts Store.
From stdpp Require Import options.
Local Open Scope Z_scope.

Definition journalRecordPrefix : string := "command/".
Definition idempotencyIndexPrefix : string := "idempotency/".
Definition maxJournalDocumentBytes : Z := 128 * 1024.
Definition maxCommandIDLength : Z := 128.
Definition maxIdempotencyKeyLength : Z := 256.
Definition docker_AdapterType : string := "docker".

Definition recovery_error := mkError "recovery".
Definition ErrInvalidOptions := recovery_error "invalid recovery coordinator options".
Definition ErrInvalidRequest := recovery_error "invalid recovery request".
Definition ErrCorruptJournal := recovery_error "corrupt recovery journal".
Definition ErrIdempotencyConflict := recovery_error "recovery idempotency conflict".
Definition errCommandNotExecutable := recovery_error "recovery command is not executable".

Definition phasePending : string := "pending".
Definition phaseAwaitingApproval : string := "awaiting_approval".
Definition phaseApproved : string := "approved".
Definition phaseExecuting : string := "executing".
Definition phaseStabilizing : string := "stabilizing".
Definition phaseCompleted : string := "completed".
Definition phaseVerifyAndNotify : string := "verify_and_notify".

(** * Records *)

(** [docker.Snapshot], which has no field tags. *)
Record DockerSnapshot := mkDockerSnapshot {
  ds_TargetID : string;
  ds_Running : bool;
  ds_Healthy : bool;
}.
#[export] Instance DockerSnapshot_eq_dec : EqDecision DockerSnapshot.
Proof. solve_decision. Defined.
#[export] Instance DockerSnapshot_eta : Updatable DockerSnapshot :=
  fun r => mkDockerSnapshot (ds_TargetID r) (ds_Running r) (ds_Healthy r).
Definition DockerSnapshot_zero : DockerSnapshot := mkDockerSnapshot "" false false.
#[export] Instance DockerSnapshot_json : GoJson DockerSnapshot := struct_json DockerSnapshot_zero [
  field_of "TargetID" ds_TargetID never;
  field_of "Running" ds_Running never;
  field_of "Healthy" ds_Healthy never].

Record reconciliation := mkReconciliation {
  rc_ObservedAt : time;
  rc_Verified : bool;
  rc_Snapshot : DockerSnapshot;
}.
#[export] Instance reconciliation_eta : Updatable reconciliation :=
  fun r => mkReconciliation (rc_ObservedAt r) (rc_Verified r) (rc_Snapshot r).
Definition reconciliation_zero : reconciliation := mkReconciliation 0 false DockerSnapshot_zero.
#[export] Instance reconciliation_json : GoJson reconciliation := struct_json reconciliation_zero [
  field_time "observed_at" rc_ObservedAt;
  field_of "verified" rc_Verified never;
  field_of "snapshot" rc_Snapshot never].

Record journalRecord := mkJournalRecord {
  jr_SchemaVersion : string;
  jr_Command : RecoveryCommand;
  jr_Target : ServiceTarget;
  jr_Action : TypedAction;
  jr_Phase : string;
  jr_Reconciliation : option reconciliation;
}.
#[export] Instance journalRecord_eta : Updatable journalRecord :=
  fun r => mkJournalRecord (jr_SchemaVersion r) (jr_Command r) (jr_Target r) (jr_Action r) (jr_Phase r)
    (jr_Reconciliation r).
Definition journalRecord_zero : journalRecord :=
  mkJournalRecord "" RecoveryCommand_zero ServiceTarget_zero TypedAction_zero "" None.
#[export] Instance journalRecord_json : GoJson journalRecord := struct_json journalRecord_zero [
  field_of "schema_version" jr_SchemaVersion never;
  field_of "command" jr_Command never;
  field_of "target" jr_Target never;
  field_of "action" jr_Action never;
  field_of "phase" jr_Phase never;
  field_of "reconciliation" jr_Reconciliation nil_pointer].

Record storedRecord := mkStoredRecord { sr_key : string; sr_record : journalRecord }.

#[export] Instance TypedAction_eq_dec : EqDecision TypedAction.
Proof. solve_decision. Defined.

(** * Validation *)

Definition validToken (value : string) (limit : Z) : bool :=
  negb (String.eqb value "") && (go_len value <=? limit) &&
  String.eqb (trim_space value) value && negb (contains_byte value 0).

Definition validRiskTier (risk : string) : bool :=
  String.eqb risk RiskLow || String.eqb risk RiskMedium || String.eqb risk RiskHigh.

Definition validAction (action : TypedAction) (selector : string) : bool :=
  if negb (String.eqb (act_TargetSelector action) selector) || (act_StopTimeout action <=? 0) ||
     (act_Cooldown action <? 0)
  then false
  else String.eqb (act_ActionType action) ActionDockerContainerRestart ||
       String.eqb (act_ActionType action) ActionDockerComposeServiceRestart.

Definition validRecordPhase (phase state : string) : bool :=
  if String.eqb phase phasePending || String.eqb phase phaseAwaitingApproval then String.eqb state RecoveryPending
  else if String.eqb phase phaseApproved then String.eqb state RecoveryApproved
  else if String.eqb phase phaseExecuting then String.eqb state RecoveryExecuting
  else if String.eqb phase phaseStabilizing then String.eqb state RecoveryStabilizing
  else if String.eqb phase phaseCompleted then
    String.eqb state RecoverySucceeded || String.eqb state RecoveryFailed ||
    String.eqb state RecoveryDenied || String.eqb state RecoveryExpired
  else if String.eqb phase phaseVerifyAndNotify then
    String.eqb state RecoveryPending || String.eqb state RecoveryApproved || String.eqb state RecoveryExecuting
  else false.

Definition isReconcilablePhase (phase : string) : bool :=
  String.eqb phase phasePending || String.eqb phase phaseApproved || String.eqb phase phaseExecuting.

Definition validateRecord (record : journalRecord) : result unit :=
  let command := jr_Command record in
  let target := jr_Target record in
  if negb (String.eqb (jr_SchemaVersion record) SchemaVersionV1) ||
     negb (is_ok (RecoveryCommand_Validate command)) ||
     negb (validToken (cmd_CommandID command) maxCommandIDLength) ||
     negb (validToken (cmd_IncidentID command) maxCommandIDLength) ||
     negb (validToken (cmd_RunbookID command) maxCommandIDLength) ||
     negb (validToken (cmd_RunbookDigest command) maxIdempotencyKeyLength) ||
     negb (validToken (cmd_TargetID command) maxCommandIDLength) ||
     negb (validToken (cmd_IdempotencyKey command) maxIdempotencyKeyLength) ||
     (negb (String.eqb (cmd_ApprovalID command) "") &&
      negb (validToken (cmd_ApprovalID command) maxCommandIDLength)) ||
     negb (validRiskTier (cmd_RiskTier command))
  then Fail ErrCorruptJournal
  else if negb (String.eqb (tgt_SchemaVersion target) SchemaVersionV1) ||
          negb (String.eqb (tgt_TargetID target) (cmd_TargetID command)) ||
          negb (String.eqb (tgt_AdapterType target) docker_AdapterType) || negb (tgt_Enabled target) ||
          negb (validToken (tgt_Selector target) maxIdempotencyKeyLength)
  then Fail ErrCorruptJournal
  else if negb (validAction (jr_Action record) (tgt_Selector target)) ||
          negb (validRecordPhase (jr_Phase record) (cmd_State command))
  then Fail ErrCorruptJournal
  else if String.eqb (jr_Phase record) phaseVerifyAndNotify then
    match jr_Reconciliation record with
    | None => Fail ErrCorruptJournal
    | Some r =>
      if is_zero (rc_ObservedAt r) then Fail ErrCorruptJournal
      else if rc_Verified r && negb (String.eqb (ds_TargetID (rc_Snapshot r)) (cmd_TargetID command))
      then Fail ErrCorruptJournal
      else if negb (rc_Verified r) && negb (bool_decide (rc_Snapshot r = DockerSnapshot_zero))
      then Fail ErrCorruptJournal
      else Ok tt
    end
  else match jr_Reconciliation record with Some _ => Fail ErrCorruptJournal | None => Ok tt end.

Definition record_options : DecodeOptions journalRecord :=
  {| MaxBytes := maxJournalDocumentBytes; SchemaVersion := SchemaVersionV1; Validate := Some validateRecord |}.
Definition decodeRecord (doc : document) : result journalRecord :=
  match Decode doc record_options with Ok record => Ok record | Fail _ => Fail ErrCorruptJournal end.

(** * Keys *)

(** [strings.Join(values, 0x00) + 0x00]: every value followed by a zero byte. *)
Fixpoint zero_terminated (values : list string) : string :=
  match values with
  | [] => ""
  | v :: rest => String.append v (String.append (of_bytes [0]) (zero_terminated rest))
  end.
Definition stableKey (prefix : string) (values : list string) : string :=
  String.append prefix (sha256_hex (zero_terminated values)).

Definition recordKey (command : RecoveryCommand) : string :=
  stableKey journalRecordPrefix
    [cmd_IncidentID command; cmd_RunbookID command; cmd_RunbookDigest command; cmd_TargetID command;
     itoa (cmd_ActionIndex command)].
Definition idempotencyIndexKey (idempotencyKey : string) : string :=
  stableKey idempotencyIndexPrefix [idempotencyKey].

(** * Transitions *)

Definition set_command_state (state phase : string) (record : journalRecord) : journalRecord :=
  record <| jr_Command := jr_Command record <| cmd_State := state |> |> <| jr_Phase := phase |>.

Definition in_phase (record : journalRecord) (phase state : string) : bool :=
  String.eqb (jr_Phase record) phase && String.eqb (cmd_State (jr_Command record)) state.

Definition undecided (record : journalRecord) : bool :=
  (String.eqb (jr_Phase record) phasePending || String.eqb (jr_Phase record) phaseAwaitingApproval) &&
  String.eqb (cmd_State (jr_Command record)) RecoveryPending.

Definition transitionToDenied (record : journalRecord) : result journalRecord :=
  if negb (undecided record) then Fail errCommandNotExecutable
  else Recovery_ValidateTransition (cmd_State (jr_Command record)) RecoveryDenied ≫= fun _ =>
    Ok (set_command_state RecoveryDenied phaseCompleted record).

Definition transitionToExpired (record : journalRecord) : result journalRecord :=
  if negb (undecided record) then Fail errCommandNotExecutable
  else Recovery_ValidateTransition (cmd_State (jr_Command record)) RecoveryExpired ≫= fun _ =>
    Ok (set_command_state RecoveryExpired phaseCompleted record).

(** The update of [approve]. *)
Definition to_approved (record : journalRecord) : result journalRecord :=
  if negb (undecided record) then Fail errCommandNotExecutable
  else if String.eqb (jr_Phase record) phaseAwaitingApproval && String.eqb (cmd_ApprovalID (jr_Command record)) ""
  then Fail errCommandNotExecutable
  else Recovery_ValidateTransition (cmd_State (jr_Command record)) RecoveryApproved ≫= fun _ =>
    Ok (set_command_state RecoveryApproved phaseApproved record).

(** The update of [startExecution]. *)
Definition to_executing (record : journalRecord) : result journalRecord :=
  if negb (in_phase record phaseApproved RecoveryApproved) then Fail errCommandNotExecutable
  else Recovery_ValidateTransition (cmd_State (jr_Command record)) RecoveryExecuting ≫= fun _ =>
    Ok (set_command_state RecoveryExecuting phaseExecuting record).

(** The update of [finishExecution]. *)
Definition to_finished (next : string) (record : journalRecord) : result journalRecord :=
  if negb (in_phase record phaseExecuting RecoveryExecuting) then Fail errCommandNotExecutable
  else Recovery_ValidateTransition (cmd_State (jr_Command record)) next ≫= fun _ =>
    Ok (set_command_state next
          (if String.eqb next RecoveryStabilizing then phaseStabilizing else phaseCompleted) record).

(** The update of [completeStabilization]. *)
Definition to_completed (next : string) (record : journalRecord) : result journalRecord :=
  if in_phase record phaseCompleted next then Ok record
  else if negb (in_phase record phaseStabilizing RecoveryStabilizing) then Fail errCommandNotExecutable
  else Recovery_ValidateTransition (cmd_State (jr_Command record)) next ≫= fun _ =>
    Ok (set_command_state next phaseCompleted record).

(** The update of [markVerifyAndNotify]. *)
Definition to_verify (snapshot : DockerSnapshot) (verified : bool) (now : time) (record : journalRecord) :
    result journalRecord :=
  if negb (isReconcilablePhase (jr_Phase record)) then Fail errCommandNotExecutable
  else
    let mismatch := verified && negb (String.eqb (ds_TargetID snapshot) (cmd_TargetID (jr_Command record))) in
    let verified := if mismatch then false else verified in
    let snapshot := if mismatch then DockerSnapshot_zero else snapshot in
    Ok (record <| jr_Phase := phaseVerifyAndNotify |>
               <| jr_Reconciliation := Some (mkReconciliation now verified snapshot) |>).

(** * Transactions *)

Section Journal.
Context `{Bolt}.

Definition loadRecord (key : string) : st db (option journalRecord) :=
  Get BucketCommandJournal key ≫= fun found =>
  match found with
  | None => mret None
  | Some document =>
    st_lift (decodeRecord document) ≫= fun record =>
    if negb (String.eqb (recordKey (jr_Command record)) key) then st_fail ErrCorruptJournal
    else mret (Some record)
  end.

Definition putRecord (key : string) (record : journalRecord) : st db unit :=
  if negb (String.eqb (recordKey (jr_Command record)) key) || negb (is_ok (validateRecord record))
  then st_fail ErrCorruptJournal
  else match Marshal record with
       | None => st_fail (mkError "json" "unsupported value")
       | Some document => Put BucketCommandJournal key document
       end.

(** The body of [updateRecord]. *)
Definition update_record (key : string) (update : journalRecord -> result journalRecord) : st db journalRecord :=
  loadRecord key ≫= fun found =>
  match found with
  | None => st_fail ErrCorruptJournal
  | Some record =>
    st_lift (update record) ≫= fun record =>
    putRecord key record ≫= fun _ => mret record
  end.

(** The body of [persistPending]: the record in the journal, and whether it was
    there before. *)
Definition persist_pending (record : journalRecord) : st db (journalRecord * bool) :=
  let key := recordKey (jr_Command record) in
  let indexKey := idempotencyIndexKey (cmd_IdempotencyKey (jr_Command record)) in
  Get BucketCommandJournal indexKey ≫= fun indexed =>
  match indexed with
  | Some indexedRecordKey =>
    if negb (String.eqb (doc_bytes indexedRecordKey) key) then st_fail ErrIdempotencyConflict
    else
      loadRecord key ≫= fun existing =>
      match existing with
      | None => st_fail ErrCorruptJournal
      | Some existing => mret (existing, true)
      end
  | None =>
    loadRecord key ≫= fun existing =>
    match existing with
    | Some existing =>
      Put BucketCommandJournal indexKey (Bytes key) ≫= fun _ => mret (existing, true)
    | None =>
      putRecord key record ≫= fun _ =>
      Put BucketCommandJournal indexKey (Bytes key) ≫= fun _ => mret (record, false)
    end
  end.

(** One step of a scan over the journal: index entries are skipped, every
    record must be readable and under its own key. *)
Definition scan_step {A} (visit : A -> string -> journalRecord -> result A) (acc : A) (key : string)
    (doc : document) : result A :=
  if negb (has_prefix journalRecordPrefix key) then Ok acc
  else
    decodeRecord doc ≫= fun record =>
    if negb (String.eqb (recordKey (jr_Command record)) key) then Fail ErrCorruptJournal
    else visit acc key record.

Definition reconcilable_records : st db (list storedRecord) :=
  ForEach BucketCommandJournal [] (scan_step (fun acc key record =>
    Ok (if isReconcilablePhase (jr_Phase record) then (acc ++ [mkStoredRecord key record])%list else acc))).

Definition findRecordByCommandID (commandID : string) : st db (option storedRecord) :=
  ForEach BucketCommandJournal None (scan_step (fun acc key record =>
    if negb (String.eqb (cmd_CommandID (jr_Command record)) commandID) then Ok acc
    else match acc with
         | Some _ => Fail ErrCorruptJournal
         | None => Ok (Some (mkStoredRecord key record))
         end)).
End Journal.

(** * Facts *)

(** Past the point of execution: a command in one of these phases never
    reaches the Docker adapter again. *)
Definition late_phase (phase : string) : bool :=
  oneOf phase [phaseExecuting; phaseStabilizing; phaseCompleted; phaseVerifyAndNotify].

Lemma validRecordPhase_utf8 phase state : validRecordPhase phase state = true -> valid_utf8 phase = true.
Proof.
  unfold validRecordPhase. intros H.
  assert (Hin : phase ∈ [phasePending; phaseAwaitingApproval; phaseApproved; phaseExecuting; phaseStabilizing;
                         phaseCompleted; phaseVerifyAndNotify]).
  { rewrite !elem_of_cons. repeat match goal with
    | H : context [ String.eqb phase ?p ] |- _ => destruct (String.eqb_spec phase p); [tauto|]
    end. done. }
  rewrite !elem_of_cons, elem_of_nil in Hin.
  destruct Hin as [->|[->|[->|[->|[->|[->|[->|[]]]]]]]]; reflexivity.
Qed.

Lemma validateRecord_phase r :
  validateRecord r = Ok tt -> validRecordPhase (jr_Phase r) (cmd_State (jr_Command r)) = true.
Proof.
  unfold validateRecord. pass_guard E1. pass_guard E2. pass_guard E3. bool_prop. done.
Qed.

#[local] Arguments reconciliation_json : simpl never.
#[local] Arguments pointer_json : simpl never.

(** Whatever its strings are, a record keeps its phase through the journal. *)
Lemma decode_keeps_phase r doc r' :
  validateRecord r = Ok tt -> Marshal r = Some doc -> decodeRecord doc = Ok r' -> jr_Phase r' = jr_Phase r.
Proof.
  intros Hv%validateRecord_phase%validRecordPhase_utf8 Hm Hd.
  unfold decodeRecord in Hd. destruct (Decode doc record_options) as [r1|] eqn:E; [|done]. injection Hd as ->.
  apply Decode_ok in E as (j & v & -> & _ & _ & _ & Hdec & _).
  unfold Marshal in Hm. destruct (to_json r) as [j'|] eqn:Ej; [|done]. injection Hm as ->.
  cbn in Ej. unfold nil_pointer in Ej.
  repeat match type of Ej with context [ match ?x with _ => _ end ] =>
    lazymatch x with context [ match _ with _ => _ end ] => fail | _ => destruct x; cbn in Ej; try done end end.
  all: injection Ej as <-; cbn in Hdec;
    repeat match type of Hdec with context [ match ?x with _ => _ end ] =>
      lazymatch x with context [ match _ with _ => _ end ] => fail | _ => destruct x; cbn in Hdec; try done end end;
    injection Hdec as <-; exact (utf8_coerce_valid _ Hv).
Qed.

Lemma validateRecord_is_ok r : is_ok (validateRecord r) = true -> validateRecord r = Ok tt.
Proof. by destruct (validateRecord r) as [[]|]. Qed.

Lemma decodeRecord_valid doc r : decodeRecord doc = Ok r -> validateRecord r = Ok tt.
Proof.
  unfold decodeRecord. destruct (Decode doc record_options) as [r1|] eqn:E; [|done]. intros [= ->].
  apply Decode_ok in E as (j & v & _ & Hv & Hx & _). by injection Hv as <-.
Qed.

Lemma recordKey_prefix c : has_prefix journalRecordPrefix (recordKey c) = true.
Proof. reflexivity. Qed.
Lemma indexKey_prefix s : has_prefix journalRecordPrefix (idempotencyIndexKey s) = false.
Proof. reflexivity. Qed.

(** What an update of the record under [key] reads and writes. *)
Definition updates `{Bolt} (key : string) (r r' : journalRecord) (d d' : db) : Prop :=
  exists doc doc', kv_get d BucketCommandJournal key = Some doc /\ decodeRecord doc = Ok r /\
    recordKey (jr_Command r) = key /\ recordKey (jr_Command r') = key /\ validateRecord r' = Ok tt /\
    Marshal r' = Some doc' /\ Put BucketCommandJournal key doc' d = Ok (tt, d').

Section JournalFacts.
Context `{BoltLaws}.
#[local] Set Default Proof Using "Type*".

Lemma loadRecord_ok key d o d' :
  loadRecord key d = Ok (o, d') ->
  d' = d /\
  match o with
  | None => kv_get d BucketCommandJournal key = None
  | Some r => exists doc, kv_get d BucketCommandJournal key = Some doc /\ decodeRecord doc = Ok r /\
                recordKey (jr_Command r) = key
  end.
Proof.
  unfold loadRecord. rewrite st_bind_ok. intros (found & d0 & (_ & _ & _ & -> & ->)%Get_ok & Hl).
  destruct (kv_get d BucketCommandJournal key) as [doc|] eqn:Eg; [|by injection Hl as <- <-].
  apply st_bind_ok in Hl as (r & d1 & Hd & Hl). unfold st_lift in Hd.
  destruct (decodeRecord doc) as [r0|] eqn:Ed; [|done]. injection Hd as -> <-.
  destruct (String.eqb_spec (recordKey (jr_Command r)) key); [|done]. injection Hl as <- <-. eauto.
Qed.

Lemma putRecord_ok key r d u d' :
  putRecord key r d = Ok (u, d') ->
  recordKey (jr_Command r) = key /\ validateRecord r = Ok tt /\
  exists doc, Marshal r = Some doc /\ Put BucketCommandJournal key doc d = Ok (tt, d').
Proof.
  unfold putRecord. destruct (String.eqb_spec (recordKey (jr_Command r)) key); [|done]. cbn [negb orb].
  destruct (is_ok (validateRecord r)) eqn:Ev; [|done]. apply validateRecord_is_ok in Ev. cbn [negb].
  destruct (Marshal r) as [doc|]; [|done]. destruct u. eauto.
Qed.

Lemma update_record_ok key u d r' d' :
  update_record key u d = Ok (r', d') -> exists r, u r = Ok r' /\ updates key r r' d d'.
Proof.
  unfold update_record. rewrite st_bind_ok. intros (o & d0 & (-> & Hl)%loadRecord_ok & Hu).
  destruct o as [r|]; [|done]. destruct Hl as (doc & Hg & Hd & Hk).
  apply st_bind_ok in Hu as (r1 & d1 & Hr1 & Hu). unfold st_lift in Hr1.
  destruct (u r) as [r2|] eqn:Eu; [|done]. injection Hr1 as -> <-.
  apply st_bind_ok in Hu as ([] & d1 & Hp & [= <- <-]).
  apply putRecord_ok in Hp as (Hk' & Hv & doc' & Hm & Hp). exists r. split; [done|].
  exists doc, doc'. by split_and!.
Qed.

(** A record is written only where there was none. *)
Lemma persist_pending_ok record d r dup d' :
  persist_pending record d = Ok ((r, dup), d') ->
  (dup = true -> exists doc, kv_get d BucketCommandJournal (recordKey (jr_Command record)) = Some doc /\
     decodeRecord doc = Ok r) /\
  (dup = false -> r = record /\ kv_get d BucketCommandJournal (recordKey (jr_Command record)) = None) /\
  (forall k v, kv_get d BucketCommandJournal k = Some v -> kv_get d' BucketCommandJournal k = Some v).
Proof.
  unfold persist_pending. set (key := recordKey (jr_Command record)).
  set (index := idempotencyIndexKey _). rewrite st_bind_ok.
  intros (indexed & d0 & (_ & _ & _ & -> & ->)%Get_ok & Hp).
  destruct (kv_get d BucketCommandJournal index) as [ix|] eqn:Eix.
  - destruct (negb _); [done|].
    apply st_bind_ok in Hp as (o & d1 & (-> & Hl)%loadRecord_ok & Hp). destruct o as [r1|]; [|done].
    injection Hp as <- <- <-. destruct Hl as (doc & Hg & Hd & _). split_and!; [eauto|done|done].
  - apply st_bind_ok in Hp as (o & d1 & (-> & Hl)%loadRecord_ok & Hp). destruct o as [r1|].
    + destruct Hl as (doc & Hg & Hd & _). apply st_bind_ok in Hp as ([] & d1 & Hput & [= <- <- <-]).
      split_and!; [eauto|done|]. intros k v Hk. rewrite <- Hk. eapply Put_get_ne; [exact Hput|congruence].
    + apply st_bind_ok in Hp as ([] & d1 & Hput & Hp). apply putRecord_ok in Hput as (_ & _ & doc & _ & Hput).
      apply st_bind_ok in Hp as ([] & d2 & Hput2 & [= <- <- <-]). split_and!; [done|done|].
      intros k v Hk. rewrite (Put_get_ne _ _ _ _ _ _ _ Hput2) by congruence.
      rewrite <- Hk. eapply Put_get_ne; [exact Hput|congruence].
Qed.

(** The journal holds a document under [key], and what it decodes to is past
    execution. *)
Definition late (key : string) (d : db) : Prop :=
  exists doc, kv_get d BucketCommandJournal key = Some doc /\
    forall r, decodeRecord doc = Ok r -> late_phase (jr_Phase r) = true.

Lemma late_same key d d' :
  kv_get d' BucketCommandJournal key = kv_get d BucketCommandJournal key -> late key d -> late key d'.
Proof. unfold late. by intros ->. Qed.

Lemma updates_late key r r' d d' :
  updates key r r' d d' -> late_phase (jr_Phase r') = true -> late key d'.
Proof.
  intros (doc & doc' & _ & _ & _ & _ & Hv & Hm & Hp) Hl. exists doc'. split; [by eapply Put_get|].
  intros r1 Hd. by rewrite (decode_keeps_phase r' doc' r1).
Qed.

Lemma updates_other key r r' d d' key' :
  updates key r r' d d' -> key' <> key ->
  kv_get d' BucketCommandJournal key' = kv_get d BucketCommandJournal key'.
Proof. intros (doc & doc' & _ & _ & _ & _ & _ & _ & Hp) Hne. by eapply Put_get_ne. Qed.

Lemma updates_not_late key r r' d d' :
  updates key r r' d d' -> late_phase (jr_Phase r) = false -> ~ late key d.
Proof.
  intros (doc & doc' & Hg & Hd & _) Hf (doc1 & Hg1 & Hl). rewrite Hg in Hg1. injection Hg1 as <-.
  rewrite (Hl r Hd) in Hf. done.
Qed.
End JournalFacts.

(** An update that leaves no late phase, and the one that enters them. *)
Definition keeps_late (u : journalRecord -> result journalRecord) : Prop :=
  forall r r', u r = Ok r' -> late_phase (jr_Phase r) = true -> late_phase (jr_Phase r') = true.
Definition starts (u : journalRecord -> result journalRecord) : Prop :=
  forall r r', u r = Ok r' -> late_phase (jr_Phase r) = false /\ late_phase (jr_Phase r') = true.

Ltac journal_update :=
  repeat match goal with
  | H : context [ if negb ?b then Fail _ else _ ] |- _ => destruct b eqn:?; cbn [negb] in H; [|discriminate H]
  | H : context [ if ?b then Fail _ else _ ] |- _ => destruct b eqn:?; [discriminate H|]
  | H : (?m ≫= _) = Ok _ |- _ => let E := fresh "E" in destruct m eqn:E; cbn [mbind result_bind] in H; [|discriminate H]
  | H : Ok _ = Ok _ |- _ => injection H as H; subst
  end.

Lemma undecided_not_late r : undecided r = true -> late_phase (jr_Phase r) = false.
Proof.
  unfold undecided. intros [Hp _]%andb_true_iff. apply orb_true_iff in Hp as [Hp|Hp];
    apply String.eqb_eq in Hp; by rewrite Hp.
Qed.
Lemma in_phase_eq r p s : in_phase r p s = true -> jr_Phase r = p /\ cmd_State (jr_Command r) = s.
Proof. unfold in_phase. intros [Hp Hs]%andb_true_iff. by rewrite !String.eqb_eq in Hp, Hs. Qed.

Lemma transitionToDenied_keeps : keeps_late transitionToDenied.
Proof. intros r r' Hu Hl. unfold transitionToDenied in Hu. journal_update. by rewrite undecided_not_late in Hl. Qed.
Lemma transitionToExpired_keeps : keeps_late transitionToExpired.
Proof. intros r r' Hu Hl. unfold transitionToExpired in Hu. journal_update. by rewrite undecided_not_late in Hl. Qed.
Lemma to_approved_keeps : keeps_late to_approved.
Proof. intros r r' Hu Hl. unfold to_approved in Hu. journal_update. by rewrite undecided_not_late in Hl. Qed.
Lemma to_executing_starts : starts to_executing.
Proof.
  intros r r' Hu. unfold to_executing in Hu. journal_update.
  match goal with H : in_phase _ _ _ = true |- _ => apply in_phase_eq in H as [-> _] end. done.
Qed.
Lemma to_finished_keeps next : keeps_late (to_finished next).
Proof.
  intros r r' Hu _. unfold to_finished in Hu. journal_update. by destruct (String.eqb next RecoveryStabilizing).
Qed.
Lemma to_completed_keeps next : keeps_late (to_completed next).
Proof.
  intros r r' Hu Hl. unfold to_completed in Hu. destruct (in_phase r phaseCompleted next); journal_update; done.
Qed.
Lemma to_verify_keeps snapshot verified now : keeps_late (to_verify snapshot verified now).
Proof. intros r r' Hu _. unfold to_verify in Hu. journal_update. done. Qed.
#[export] Hint Resolve transitionToDenied_keeps transitionToExpired_keeps to_approved_keeps to_executing_starts
  to_finished_keeps to_completed_keeps to_verify_keeps : go.

(** * Scans *)

Lemma scan_step_ok {A} (visit : A -> string -> journalRecord -> result A) acc key doc acc' :
  scan_step visit acc key doc = Ok acc' ->
  acc' = acc \/ exists r, decodeRecord doc = Ok r /\ recordKey (jr_Command r) = key /\ visit acc key r = Ok acc'.
Proof.
  unfold scan_step. destruct (has_prefix _ _); cbn [negb]; [|intros [= ->]; by left].
  destruct (decodeRecord doc) as [r|]; cbn [mbind result_bind]; [|done].
  destruct (String.eqb_spec (recordKey (jr_Command r)) key); [|done]. eauto.
Qed.

(** The record a scan finds is the one stored under its key, and has the
    command ID looked for. *)
Lemma find_fold commandID l acc stored :
  fold_entries (scan_step (fun acc key record =>
    if negb (String.eqb (cmd_CommandID (jr_Command record)) commandID) then Ok acc
    else match acc with Some _ => Fail ErrCorruptJournal | None => Ok (Some (mkStoredRecord key record)) end)) acc l
    = Ok (Some stored) ->
  acc = Some stored \/
  exists doc, (sr_key stored, doc) ∈ l /\ decodeRecord doc = Ok (sr_record stored) /\
    recordKey (jr_Command (sr_record stored)) = sr_key stored /\
    cmd_CommandID (jr_Command (sr_record stored)) = commandID.
Proof.
  revert acc. induction l as [|[k doc] l IH]; intros acc; simpl; [intros [= ->]; by left|].
  destruct (scan_step _ acc k doc) as [acc1|] eqn:Es; [|done]. intros Hf.
  apply scan_step_ok in Es. destruct (IH _ Hf) as [->|(doc' & Hin & Hd)]; [|right; exists doc'; set_solver].
  destruct Es as [->|(r & Hd & Hk & Hv)]; [by left|].
  destruct (String.eqb_spec (cmd_CommandID (jr_Command r)) commandID) as [Hc|]; cbn [negb] in Hv.
  - destruct acc; [done|]. injection Hv as <-. right. exists doc. cbn. set_solver.
  - injection Hv as ->. by left.
Qed.

Section Scans.
Context `{BoltLaws}.
#[local] Set Default Proof Using "Type*".

Lemma findRecord_some commandID d stored d' :
  findRecordByCommandID commandID d = Ok (Some stored, d') ->
  d' = d /\ exists doc, kv_get d BucketCommandJournal (sr_key stored) = Some doc /\
    decodeRecord doc = Ok (sr_record stored) /\ recordKey (jr_Command (sr_record stored)) = sr_key stored /\
    cmd_CommandID (jr_Command (sr_record stored)) = commandID.
Proof.
  intros (_ & _ & -> & Hf)%ForEach_ok. split; [done|].
  apply find_fold in Hf as [?|(doc & Hin & Hd & Hk & Hc)]; [done|]. apply entries_get in Hin. eauto.
Qed.

Lemma findRecord_none commandID d d' :
  findRecordByCommandID commandID d = Ok (None, d') -> d' = d.
Proof. by intros (_ & _ & -> & _)%ForEach_ok. Qed.
End Scans.
