(* ===== verification/Approval.v ===== *)
(** The approval manager of src/internal/recovery/approval.go: one immutable
    local decision per command, recorded with its audit event.

    The clock, the identifier sources and their failures are arguments: [Decide]
    reads the clock once itself and once for the audit event it appends.
    Telemetry leaves no state. *)
From S2P Require Import Prelude GoLib GoTime Sha256 Json Contract ContractFacts Store AuditChain Journal.
From stdpp Require Import options.
Local Open Scope Z_scope.

Definition approvalRecordPrefix : string := "record/".
Definition approvalCommandPrefix : string := "command/".
Definition maxApprovalReasonLength : Z := 96.

Definition approvalAuditAggregateType : string := "recovery_approval".
Definition approvalAuditAction : string := "approval.decide".
Definition approvalAuditAccepted : string := "accepted".
Definition approvalAuditRejected : string := "rejected".
Definition approvalAuditInvalid : string := "invalid_approval".
Definition approvalAuditNotFound : string := "command_not_found".
Definition approvalAuditConflict : string := "decision_conflict".
Definition approvalAuditExpired : string := "command_expired".

Definition ErrInvalidApprovalOptions := recovery_error "invalid approval manager options".
Definition ErrInvalidApprovalDecision := recovery_error "invalid approval decision".
Definition ErrApprovalCommandNotFound := recovery_error "approval command not found".
Definition ErrApprovalConflict := recovery_error "approval decision conflict".
Definition ErrApprovalCommandExpired := recovery_error "approval command expired".

Record ApprovalDecisionRequest := mkApprovalDecisionRequest {
  adr_CommandID : string;
  adr_Decision : string;
  adr_ActorIdentity : string;
  adr_RequestID : string;
  adr_ReasonCode : string;
  adr_ExpiresAt : time;
}.

Record ApprovalDecisionResult := mkApprovalDecisionResult {
  res_Approval : Approval;
  res_Command : RecoveryCommand;
}.
Definition ApprovalDecisionResult_zero := mkApprovalDecisionResult Approval_zero RecoveryCommand_zero.

(** What the daemon hands to one [Decide]: the two clock readings and the two
    identifiers. *)
Record decision_env := mkDecisionEnv {
  de_now : time;
  de_audit_now : time;
  de_approvalID : result string;
  de_auditEventID : result string;
}.

(** * Validation *)

Definition validApprovalReason (value : string) : bool :=
  if String.eqb value "" || (maxApprovalReasonLength <? go_len value) then false
  else forallb audit_rune (map fst (runes value)).

Definition validAuditRequest (request : ApprovalDecisionRequest) : bool :=
  validToken (adr_CommandID request) maxCommandIDLength &&
  validToken (adr_ActorIdentity request) maxCommandIDLength &&
  validToken (adr_RequestID request) maxCommandIDLength &&
  validApprovalReason (adr_ReasonCode request).

Definition validApprovalDecisionRequest (request : ApprovalDecisionRequest) : bool :=
  validAuditRequest request &&
  (String.eqb (adr_Decision request) ApprovalGranted || String.eqb (adr_Decision request) ApprovalDenied) &&
  negb (is_zero (adr_ExpiresAt request)).

Definition validateApproval (approval : Approval) : result unit :=
  if negb (String.eqb (apr_SchemaVersion approval) SchemaVersionV1) ||
     negb (validToken (apr_ApprovalID approval) maxCommandIDLength) ||
     negb (validToken (apr_CommandID approval) maxCommandIDLength) ||
     (negb (String.eqb (apr_Decision approval) ApprovalGranted) &&
      negb (String.eqb (apr_Decision approval) ApprovalDenied)) ||
     negb (validToken (apr_ApproverIdentity approval) maxCommandIDLength) ||
     negb (validApprovalReason (apr_Reason approval)) || is_zero (apr_CreatedAt approval) ||
     is_zero (apr_ExpiresAt approval) || negb (after (apr_ExpiresAt approval) (apr_CreatedAt approval))
  then Fail ErrInvalidApprovalDecision else Ok tt.

Definition approval_options : DecodeOptions Approval :=
  {| MaxBytes := MaxDocumentBytes; SchemaVersion := SchemaVersionV1; Validate := Some validateApproval |}.

Definition approvalRecordKey (approvalID : string) : string := String.append approvalRecordPrefix approvalID.
Definition approvalCommandKey (commandID : string) : string := String.append approvalCommandPrefix commandID.
Definition approvalAggregateID (commandID : string) : string :=
  String.append "command-" (sha256_hex commandID).

(** [m.now]. *)
Definition checked_now (t : time) : result time :=
  if is_zero (utc t) then Fail ErrInvalidApprovalOptions else Ok (utc t).

Section Approvals.
Context `{Bolt}.

Definition appendAudit (env : decision_env) (request : ApprovalDecisionRequest) (res reason : string)
    (mutation : option (st db unit)) : st db unit :=
  match de_auditEventID env with
  | Fail _ => st_fail ErrInvalidApprovalOptions
  | Ok eventID =>
    if negb (validToken eventID maxCommandIDLength) then st_fail ErrInvalidApprovalOptions
    else
      st_lift (checked_now (de_audit_now env)) ≫= fun now =>
      Append (mkAuditEvent SchemaVersionV1 eventID approvalAuditAggregateType
                (approvalAggregateID (adr_CommandID request)) (adr_ActorIdentity request)
                approvalAuditAction res reason now "" "") mutation ≫= fun _ => mret tt
  end.

Definition recordRejected (env : decision_env) (request : ApprovalDecisionRequest) (reason : string) (d : db) :
    result unit * db :=
  if negb (validAuditRequest request) then (Ok tt, d)
  else Update (appendAudit env request approvalAuditRejected reason None) d.

(** What the transaction leaves in the captured variables: an accepted
    decision, or the error to report after a committed rejection. *)
Definition decided : Type := ApprovalDecisionResult + error.

Definition reject (env : decision_env) (request : ApprovalDecisionRequest) (reason : string) (e : error)
    (mutation : option (st db unit)) : st db decided :=
  appendAudit env request approvalAuditRejected reason mutation ≫= fun _ => mret (inr e).

(** The writes of an accepted decision. *)
Definition store_decision (approval : Approval) (doc : document) (key : string) (record : journalRecord) :
    st db unit :=
  Put BucketApprovals (approvalRecordKey (apr_ApprovalID approval)) doc ≫= fun _ =>
  Put BucketApprovals (approvalCommandKey (apr_CommandID approval)) (Bytes (apr_ApprovalID approval)) ≫= fun _ =>
  putRecord key record.

(** An accepted decision, once no decision for the command is on record. *)
Definition accept (env : decision_env) (request : ApprovalDecisionRequest) (now : time) (approvalID key : string)
    (record : journalRecord) : st db decided :=
  let approval := mkApproval SchemaVersionV1 approvalID (cmd_CommandID (jr_Command record)) (adr_Decision request)
    (adr_ActorIdentity request) (adr_ReasonCode request) now (utc (adr_ExpiresAt request)) in
  if negb (is_ok (validateApproval approval)) then st_fail ErrInvalidApprovalDecision
  else
    let record := record <| jr_Command := jr_Command record <| cmd_ApprovalID := apr_ApprovalID approval |> |> in
    st_lift (if String.eqb (apr_Decision approval) ApprovalDenied then transitionToDenied record else Ok record)
      ≫= fun record =>
    match Marshal approval with
    | None => st_fail (mkError "json" "unsupported value")
    | Some document =>
      appendAudit env request approvalAuditAccepted (adr_ReasonCode request)
        (Some (store_decision approval document key record)) ≫= fun _ =>
      mret (inl (mkApprovalDecisionResult approval (jr_Command record)))
    end.

(** The body of the transaction of [Decide]. *)
Definition decide_body (env : decision_env) (request : ApprovalDecisionRequest) (now : time)
    (approvalID : string) : st db decided :=
  findRecordByCommandID (adr_CommandID request) ≫= fun found =>
  match found with
  | None => reject env request approvalAuditNotFound ErrApprovalCommandNotFound None
  | Some stored =>
    let record := sr_record stored in
    if negb (in_phase record phaseAwaitingApproval RecoveryPending) ||
       negb (String.eqb (cmd_ApprovalID (jr_Command record)) "")
    then reject env request approvalAuditConflict ErrApprovalConflict None
    else if negb (before now (cmd_ExpiresAt (jr_Command record))) || negb (before now (adr_ExpiresAt request)) then
      st_lift (transitionToExpired record) ≫= fun record =>
      reject env request approvalAuditExpired ErrApprovalCommandExpired
        (Some (putRecord (sr_key stored) record))
    else if after (adr_ExpiresAt request) (cmd_ExpiresAt (jr_Command record)) then
      reject env request approvalAuditInvalid ErrInvalidApprovalDecision None
    else
      Get BucketApprovals (approvalRecordKey approvalID) ≫= fun taken =>
      match taken with
      | Some _ => st_fail ErrInvalidApprovalOptions
      | None =>
        Get BucketApprovals (approvalCommandKey (adr_CommandID request)) ≫= fun exists_ =>
        match exists_ with
        | Some _ => reject env request approvalAuditConflict ErrApprovalConflict None
        | None => accept env request now approvalID (sr_key stored) record
        end
      end
  end.

Definition Decide (env : decision_env) (request : ApprovalDecisionRequest) (d : db) :
    result ApprovalDecisionResult * db :=
  if negb (validApprovalDecisionRequest request) then
    match recordRejected env request approvalAuditInvalid d with
    | (Fail e, d') => (Fail e, d')
    | (Ok _, d') => (Fail ErrInvalidApprovalDecision, d')
    end
  else
    match checked_now (de_now env), de_approvalID env with
    | Fail e, _ => (Fail e, d)
    | _, Fail _ => (Fail ErrInvalidApprovalOptions, d)
    | Ok now, Ok approvalID =>
      if negb (validToken approvalID maxCommandIDLength) then (Fail ErrInvalidApprovalOptions, d)
      else
        match Update (decide_body env request now approvalID) d with
        | (Fail e, d') => (Fail e, d')
        | (Ok (inr e), d') => (Fail e, d')
        | (Ok (inl result), d') => (Ok result, d')
        end
    end.

(** The body of [LoadApproval]. *)
Definition load_approval (commandID : string) : st db (option Approval) :=
  Get BucketApprovals (approvalCommandKey commandID) ≫= fun indexed =>
  match indexed with
  | None => mret None
  | Some approvalID =>
    Get BucketApprovals (approvalRecordKey (doc_bytes approvalID)) ≫= fun present =>
    match present with
    | None => st_fail ErrCorruptJournal
    | Some document =>
      match Decode document approval_options with
      | Fail _ => st_fail ErrCorruptJournal
      | Ok decoded =>
        if negb (String.eqb (apr_CommandID decoded) commandID) ||
           negb (String.eqb (apr_ApprovalID decoded) (doc_bytes approvalID))
        then st_fail ErrCorruptJournal
        else mret (Some decoded)
      end
    end
  end.

Definition LoadApproval (commandID : string) (d : db) : result (option Approval) :=
  if negb (validToken commandID maxCommandIDLength) then Fail ErrInvalidApprovalDecision
  else View (load_approval commandID) d.
End Approvals.

(** * Facts *)

Section ApprovalFacts.
Context `{BoltLaws}.
#[local] Set Default Proof Using "Type*".

(** Outside the audit bucket, an audited mutation changes what it changes. *)
Lemma appendAudit_ok env request res reason mutation d u d' :
  appendAudit env request res reason mutation d = Ok (u, d') ->
  exists d1, apply_change mutation d d1 /\ forall b, b <> BucketAudit -> same_bucket b d1 d'.
Proof.
  unfold appendAudit. destruct (de_auditEventID env) as [eventID|]; [|done].
  destruct (negb _); [done|]. rewrite st_bind_ok. intros (now & d0 & Hn & Ha).
  unfold st_lift in Hn. destruct (checked_now _); [|done]. injection Hn as _ <-.
  apply st_bind_ok in Ha as (ev & d1 & Ha & [= _ <-]). by eapply Append_frame.
Qed.

Lemma reject_ok env request reason e mutation d o d' :
  reject env request reason e mutation d = Ok (o, d') ->
  o = inr e /\ exists d1, apply_change mutation d d1 /\ forall b, b <> BucketAudit -> same_bucket b d1 d'.
Proof.
  unfold reject. rewrite st_bind_ok. intros (u & d1 & Ha & [= <- <-]). split; [done|].
  by eapply appendAudit_ok.
Qed.

(** The approval an accepted decision records. *)
Definition approval_of (request : ApprovalDecisionRequest) (now : time) (approvalID : string)
    (record : journalRecord) : Approval :=
  mkApproval SchemaVersionV1 approvalID (cmd_CommandID (jr_Command record)) (adr_Decision request)
    (adr_ActorIdentity request) (adr_ReasonCode request) now (utc (adr_ExpiresAt request)).

Lemma accept_ok env request now approvalID key record d o d' :
  accept env request now approvalID key record d = Ok (o, d') ->
  let a := approval_of request now approvalID record in
  exists record' doc d1, validateApproval a = Ok tt /\ Marshal a = Some doc /\
    (if String.eqb (adr_Decision request) ApprovalDenied
     then transitionToDenied (record <| jr_Command := jr_Command record <| cmd_ApprovalID := approvalID |> |>)
     else Ok (record <| jr_Command := jr_Command record <| cmd_ApprovalID := approvalID |> |>)) = Ok record' /\
    o = inl (mkApprovalDecisionResult a (jr_Command record')) /\
    store_decision a doc key record' d = Ok (tt, d1) /\
    forall b, b <> BucketAudit -> same_bucket b d1 d'.
Proof.
  unfold accept. fold (approval_of request now approvalID record).
  set (a := approval_of request now approvalID record). cbn zeta.
  destruct (validateApproval a) as [[]|]; [|done]. cbn [is_ok negb].
  rewrite st_bind_ok. intros (record' & d0 & Hr & Ha). unfold st_lift in Hr.
  change (apr_Decision a) with (adr_Decision request) in Hr. change (apr_ApprovalID a) with approvalID in Hr.
  destruct (if String.eqb (adr_Decision request) ApprovalDenied then _ else _) as [r|] eqn:Et; [|done].
  injection Hr as -> <-. destruct (Marshal a) as [doc|] eqn:Em; [|done].
  apply st_bind_ok in Ha as (u & d1 & Ha & [= <- <-]).
  apply appendAudit_ok in Ha as (d2 & ([] & Hc) & Hs). exists record', doc, d2. by split_and!.
Qed.

(** What [store_decision] writes. *)
Lemma store_decision_ok a doc key record d d' :
  store_decision a doc key record d = Ok (tt, d') ->
  exists d1 d2, Put BucketApprovals (approvalRecordKey (apr_ApprovalID a)) doc d = Ok (tt, d1) /\
    Put BucketApprovals (approvalCommandKey (apr_CommandID a)) (Bytes (apr_ApprovalID a)) d1 = Ok (tt, d2) /\
    putRecord key record d2 = Ok (tt, d').
Proof.
  unfold store_decision. rewrite st_bind_ok. intros ([] & d1 & H1 & H2).
  apply st_bind_ok in H2 as ([] & d2 & H2 & H3). eauto.
Qed.

(** What a decision does: nothing to journal and approvals; an expired
    command; or an accepted decision. *)
Inductive decision_effect (env : decision_env) (request : ApprovalDecisionRequest) (now : time)
    (approvalID : string) (d d' : db) : decided -> Prop :=
| effect_rejected e :
    same_bucket BucketCommandJournal d d' -> same_bucket BucketApprovals d d' ->
    decision_effect env request now approvalID d d' (inr e)
| effect_expired stored record d1 :
    findRecordByCommandID (adr_CommandID request) d = Ok (Some stored, d) ->
    in_phase (sr_record stored) phaseAwaitingApproval RecoveryPending = true ->
    transitionToExpired (sr_record stored) = Ok record -> putRecord (sr_key stored) record d = Ok (tt, d1) ->
    same_bucket BucketCommandJournal d1 d' -> same_bucket BucketApprovals d d' ->
    decision_effect env request now approvalID d d' (inr ErrApprovalCommandExpired)
| effect_accepted stored record' doc d1 :
    findRecordByCommandID (adr_CommandID request) d = Ok (Some stored, d) ->
    in_phase (sr_record stored) phaseAwaitingApproval RecoveryPending = true ->
    cmd_ApprovalID (jr_Command (sr_record stored)) = "" ->
    before now (cmd_ExpiresAt (jr_Command (sr_record stored))) = true ->
    before now (adr_ExpiresAt request) = true ->
    after (adr_ExpiresAt request) (cmd_ExpiresAt (jr_Command (sr_record stored))) = false ->
    kv_get d BucketApprovals (approvalRecordKey approvalID) = None ->
    kv_get d BucketApprovals (approvalCommandKey (adr_CommandID request)) = None ->
    let a := approval_of request now approvalID (sr_record stored) in
    validateApproval a = Ok tt -> Marshal a = Some doc ->
    (if String.eqb (adr_Decision request) ApprovalDenied
     then transitionToDenied (sr_record stored <| jr_Command := jr_Command (sr_record stored) <| cmd_ApprovalID := approvalID |> |>)
     else Ok (sr_record stored <| jr_Command := jr_Command (sr_record stored) <| cmd_ApprovalID := approvalID |> |>)) = Ok record' ->
    store_decision a doc (sr_key stored) record' d = Ok (tt, d1) ->
    (forall b, b <> BucketAudit -> same_bucket b d1 d') ->
    decision_effect env request now approvalID d d' (inl (mkApprovalDecisionResult a (jr_Command record'))).

Lemma decide_body_effect env request now approvalID d o d' :
  decide_body env request now approvalID d = Ok (o, d') -> decision_effect env request now approvalID d d' o.
Proof.
  unfold decide_body. rewrite st_bind_ok. intros (found & d0 & Hf & Hb).
  assert (Hrej : forall reason e, reject env request reason e None d = Ok (o, d') ->
    decision_effect env request now approvalID d d' o).
  { intros reason e (-> & d1 & -> & Hs)%reject_ok. apply effect_rejected; apply Hs; discriminate. }
  destruct found as [stored|]; [|apply findRecord_none in Hf as ->; eapply Hrej; exact Hb].
  pose proof (findRecord_some _ _ _ _ Hf) as (-> & _).
  destruct (in_phase _ _ _) eqn:Ep; [|eapply Hrej; exact Hb].
  destruct (String.eqb_spec (cmd_ApprovalID (jr_Command (sr_record stored))) ""); [|eapply Hrej; exact Hb].
  cbn [negb orb] in Hb.
  destruct (before now (cmd_ExpiresAt (jr_Command (sr_record stored)))) eqn:E1;
    destruct (before now (adr_ExpiresAt request)) eqn:E2; cbn [negb orb] in Hb.
  2-4: apply st_bind_ok in Hb as (record & d1 & Ht & Hb); unfold st_lift in Ht;
    destruct (transitionToExpired (sr_record stored)) as [r|] eqn:Et; [|done]; injection Ht as -> <-;
    apply reject_ok in Hb as (-> & d1 & ([] & Hp) & Hs);
    eapply effect_expired; try done; [apply Hs; discriminate|];
    etransitivity; [|apply Hs; discriminate]; apply putRecord_ok in Hp as (_ & _ & doc & _ & Hp); eapply Put_same; [exact Hp|discriminate].
  destruct (after _ _) eqn:E3; [by eapply Hrej|].
  apply st_bind_ok in Hb as (taken & d1 & (_ & _ & _ & -> & ->)%Get_ok & Hb).
  destruct (kv_get d BucketApprovals (approvalRecordKey approvalID)) eqn:Er; [done|].
  apply st_bind_ok in Hb as (ex & d1 & (_ & _ & _ & -> & ->)%Get_ok & Hb).
  destruct (kv_get d BucketApprovals (approvalCommandKey _)) eqn:Ec; [by eapply Hrej|].
  apply accept_ok in Hb as (record' & doc & d1 & Hv & Hm & Ht & -> & Hst & Hs). by eapply effect_accepted.
Qed.

(** The whole call: its effect is that of its transaction or none. *)
Lemma Decide_cases env request d :
  (exists e d', Decide env request d = (Fail e, d') /\ same_bucket BucketCommandJournal d d' /\
     same_bucket BucketApprovals d d') \/
  (exists now approvalID o d', decision_effect env request now approvalID d d' o /\
     Decide env request d = (match o with inl r => Ok r | inr e => Fail e end, d')).
Proof.
  unfold Decide. destruct (validApprovalDecisionRequest request); cbn [negb].
  - destruct (checked_now (de_now env)) as [now|e]; [|by left; exists e, d].
    destruct (de_approvalID env) as [approvalID|]; [|by left; eexists _, d].
    destruct (negb (validToken approvalID maxCommandIDLength)); [by left; eexists _, d|].
    destruct (Update_cases (decide_body env request now approvalID) d) as [(o & d' & Hb & ->)|(e & ->)];
      [|by left; exists e, d].
    right. exists now, approvalID, o, d'. split; [by apply decide_body_effect|]. by destruct o.
  - left. unfold recordRejected. destruct (negb (validAuditRequest request)); [by eexists _, d|].
    destruct (Update_cases (appendAudit env request approvalAuditRejected approvalAuditInvalid None) d)
      as [(u & d' & Hb & ->)|(e & ->)]; [|by exists e, d].
    apply appendAudit_ok in Hb as (d1 & -> & Hs). eexists _, d'. split_and!; [done|apply Hs; discriminate..].
Qed.
End ApprovalFacts.
