(* ===== verification/Coordinator.v ===== *)
(** The recovery coordinator of src/internal/recovery/coordinator.go.

    An operation is a program of atomic steps: each store transaction, each
    call of the Docker adapter, the state source, the clock, the identifier
    source and the lifecycle publisher is one step, whose answer the program
    continues with.  [step] gives every step its meaning on the store, with any
    answer the outside may give; a system runs any number of operations
    interleaved, and a crash drops them all at any point.  [run] executes a
    program against scripted answers.  Telemetry leaves no state. *)
From S2P Require Import Prelude GoLib GoTime Sha256 Json Contract ContractFacts Store Policy Journal AuditChain Approval.
From stdpp Require Import options.
Local Open Scope Z_scope.

Definition OutcomeExecuted : string := "executed".
Definition OutcomeStabilizing : string := "stabilizing".
Definition OutcomeDenied : string := "denied".
Definition OutcomeExpired : string := "expired".
Definition OutcomeAwaitApproval : string := "await_approval".
Definition OutcomeDuplicate : string := "duplicate".
Definition OutcomeVerifyAndNotify : string := "verify_and_notify".

(** * Data *)

Record ExecutionState := mkExecutionState {
  es_Target : ServiceTarget;
  es_PolicySnapshot : Snapshot;
  es_PolicyInput : Input;
}.

Record Request := mkRequest {
  rq_IncidentID : string;
  rq_Target : ServiceTarget;
  rq_PolicySnapshot : Snapshot;
  rq_PolicyInput : Input;
  rq_ExpiresAt : time;
  rq_IdempotencyKey : string;
}.

Record Result := mkResult {
  rs_Command : RecoveryCommand;
  rs_Outcome : string;
  rs_Decision : Decision;
  rs_Duplicate : bool;
}.
Definition Result_zero : Result := mkResult RecoveryCommand_zero "" Decision_zero false.

Record ReconciliationResult := mkReconciliationResult {
  rr_Command : RecoveryCommand;
  rr_Outcome : string;
  rr_Verified : bool;
  rr_Snapshot : DockerSnapshot;
}.

(** A Go function's value and error, both of which the caller may read. *)
Definition returned (A : Type) : Type := A * option error.
Definition Submission : Type := returned Result.

(** The calls on [LifecyclePublisher]. *)
Inductive publication :=
| AnalysisUnavailable (incidentID idempotencyKey reason : string)
| PolicyDenied (incidentID idempotencyKey reason : string)
| ApprovalRequested (command : RecoveryCommand)
| RecoveryStarted (command : RecoveryCommand).

(** * Programs *)

Inductive prog (R : Type) : Type :=
| Ret (r : R)
| UpdateRecord (key : string) (update : journalRecord -> result journalRecord) (k : result journalRecord -> prog R)
| PersistPending (record : journalRecord) (k : result (journalRecord * bool) -> prog R)
| ReadReconcilable (k : result (list storedRecord) -> prog R)
| FindRecord (commandID : string) (k : result (option storedRecord) -> prog R)
| Now (k : time -> prog R)
| NewCommandID (k : result string -> prog R)
| Load (command : RecoveryCommand) (k : result ExecutionState -> prog R)
| ValidateAction (target : ServiceTarget) (action : TypedAction) (k : result unit -> prog R)
| Execute (key : string) (target : ServiceTarget) (action : TypedAction) (k : result unit -> prog R)
| Verify (target : ServiceTarget) (k : result DockerSnapshot -> prog R)
| Publish (p : publication) (k : result unit -> prog R).
Arguments Ret {R}.
Arguments UpdateRecord {R}.
Arguments PersistPending {R}.
Arguments ReadReconcilable {R}.
Arguments FindRecord {R}.
Arguments Now {R}.
Arguments NewCommandID {R}.
Arguments Load {R}.
Arguments ValidateAction {R}.
Arguments Execute {R}.
Arguments Verify {R}.
Arguments Publish {R}.

#[export] Instance prog_ret : MRet prog := fun R r => Ret r.
#[export] Instance prog_bind : MBind prog :=
  fun A B f => fix bind (m : prog A) : prog B :=
    match m with
    | Ret r => f r
    | UpdateRecord key update k => UpdateRecord key update (fun a => bind (k a))
    | PersistPending record k => PersistPending record (fun a => bind (k a))
    | ReadReconcilable k => ReadReconcilable (fun a => bind (k a))
    | FindRecord commandID k => FindRecord commandID (fun a => bind (k a))
    | Now k => Now (fun a => bind (k a))
    | NewCommandID k => NewCommandID (fun a => bind (k a))
    | Load command k => Load command (fun a => bind (k a))
    | ValidateAction target action k => ValidateAction target action (fun a => bind (k a))
    | Execute key target action k => Execute key target action (fun a => bind (k a))
    | Verify target k => Verify target (fun a => bind (k a))
    | Publish p k => Publish p (fun a => bind (k a))
    end.

(** [c.updateRecord] and the coordinator methods that are one call of it. *)
Definition updateRecord (key : string) (update : journalRecord -> result journalRecord) :
    prog (result journalRecord) := UpdateRecord key update Ret.
Definition deny (key : string) : prog (result journalRecord) := updateRecord key transitionToDenied.
Definition expire (key : string) : prog (result journalRecord) := updateRecord key transitionToExpired.
Definition approve (key : string) : prog (result journalRecord) := updateRecord key to_approved.
Definition startExecution (key : string) : prog (result journalRecord) := updateRecord key to_executing.
Definition finishExecution (key next : string) : prog (result journalRecord) :=
  if negb (String.eqb next RecoveryStabilizing) && negb (String.eqb next RecoveryFailed)
  then Ret (Fail ErrInvalidRequest) else updateRecord key (to_finished next).
Definition completeStabilization (key next : string) : prog (result journalRecord) :=
  if negb (String.eqb next RecoverySucceeded) && negb (String.eqb next RecoveryFailed)
  then Ret (Fail ErrInvalidRequest) else updateRecord key (to_completed next).
Definition markVerifyAndNotify (key : string) (snapshot : DockerSnapshot) (verified : bool) (now : time) :
    prog (result journalRecord) := updateRecord key (to_verify snapshot verified now).
Definition persistPending (record : journalRecord) : prog (result (journalRecord * bool)) :=
  PersistPending record Ret.
Definition reconcilableRecords : prog (result (list storedRecord)) := ReadReconcilable Ret.
Definition find_record (commandID : string) : prog (result (option storedRecord)) := FindRecord commandID Ret.

Definition now : prog (result time) :=
  Now (fun t => Ret (if is_zero (utc t) then Fail ErrInvalidOptions else Ok (utc t))).

(** A nil publisher publishes nothing. *)
Definition publish (publisher : bool) (p : publication) : prog (result unit) :=
  if negb publisher then Ret (Ok tt) else Publish p Ret.

(** * Decisions *)

Definition policyInput (input : Input) (commandID : string) (now : time) : Input :=
  input <| in_CommandID := commandID |> <| in_Now := now |>.

Definition registeredRunbook (snapshot : Snapshot) (runbookID : string) : option RegisteredRunbook :=
  find_first (fun registered => String.eqb (rb_RunbookID (rr_Runbook registered)) runbookID) (sn_Runbooks snapshot).

Definition sameExecutionTarget (current recorded : ServiceTarget) : bool :=
  String.eqb (tgt_SchemaVersion current) (tgt_SchemaVersion recorded) &&
  String.eqb (tgt_TargetID current) (tgt_TargetID recorded) &&
  String.eqb (tgt_AdapterType current) (tgt_AdapterType recorded) &&
  String.eqb (tgt_Selector current) (tgt_Selector recorded) &&
  Bool.eqb (tgt_Enabled current) (tgt_Enabled recorded).

(** The action at an index of a slice, [None] outside it. *)
Definition action_at (actions : list TypedAction) (index : Z) : option TypedAction :=
  if (index <? 0) || (go_count actions <=? index) then None else actions !! Z.to_nat index.

Definition invalidPolicy : Decision := mkDecision VerdictDeny ReasonInvalidPolicy.

Definition revalidateState (state : ExecutionState) (record : journalRecord) (now : time) : Decision :=
  let command := jr_Command record in
  let input := es_PolicyInput state in
  if negb (String.eqb (in_RunbookID input) (cmd_RunbookID command)) ||
     negb (String.eqb (in_RunbookDigest input) (cmd_RunbookDigest command)) ||
     negb (String.eqb (in_TargetID input) (cmd_TargetID command)) ||
     negb (in_ActionIndex input =? cmd_ActionIndex command) ||
     negb (sameExecutionTarget (es_Target state) (jr_Target record))
  then invalidPolicy
  else
    match registeredRunbook (es_PolicySnapshot state) (cmd_RunbookID command) with
    | None => invalidPolicy
    | Some registered =>
      match action_at (rb_TypedActions (rr_Runbook registered)) (cmd_ActionIndex command) with
      | None => invalidPolicy
      | Some action =>
        if negb (bool_decide (action = jr_Action record)) then invalidPolicy
        else Evaluate (es_PolicySnapshot state) (policyInput input (cmd_CommandID command) now)
      end
    end.

Definition existingOutcome (record : journalRecord) : string :=
  if String.eqb (jr_Phase record) phaseAwaitingApproval then OutcomeAwaitApproval
  else if String.eqb (jr_Phase record) phaseVerifyAndNotify then OutcomeVerifyAndNotify
  else if String.eqb (jr_Phase record) phaseStabilizing then OutcomeStabilizing
  else OutcomeDuplicate.

Definition validateRequest (request : Request) : result unit :=
  let input := rq_PolicyInput request in
  let target := rq_Target request in
  if negb (validToken (rq_IncidentID request) maxCommandIDLength) ||
     negb (validToken (rq_IdempotencyKey request) maxIdempotencyKeyLength) ||
     negb (validToken (in_RunbookID input) maxCommandIDLength) ||
     negb (validToken (in_RunbookDigest input) maxIdempotencyKeyLength) ||
     negb (validToken (in_TargetID input) maxCommandIDLength) || (in_ActionIndex input <? 0) ||
     negb (String.eqb (in_CommandID input) "") || is_zero (rq_ExpiresAt request)
  then Fail ErrInvalidRequest
  else if negb (String.eqb (tgt_SchemaVersion target) SchemaVersionV1) ||
          negb (String.eqb (tgt_TargetID target) (in_TargetID input)) ||
          negb (String.eqb (tgt_AdapterType target) docker_AdapterType) || negb (tgt_Enabled target) ||
          negb (validToken (tgt_Selector target) maxIdempotencyKeyLength)
  then Fail ErrInvalidRequest
  else Ok tt.

(** * Operations *)

(** [revalidate]: the decision, the instant, whether the command expired, and
    the error. *)
Definition revalidation : Type := Decision * time * bool * option error.
Definition revalidate (record : journalRecord) : prog revalidation :=
  Load (jr_Command record) (fun loaded =>
  match loaded with
  | Fail e => Ret (invalidPolicy, 0, false, Some e)
  | Ok state =>
    now ≫= fun (now : result time) =>
    match now with
    | Fail e => Ret (Decision_zero, 0, false, Some e)
    | Ok now =>
      if negb (before now (cmd_ExpiresAt (jr_Command record))) then Ret (Decision_zero, now, true, None)
      else Ret (revalidateState state record now, now, false, None)
    end
  end).

Definition denyAfterRevalidation (record : journalRecord) (decision : Decision) (cause : option error) :
    prog Submission :=
  deny (recordKey (jr_Command record)) ≫= fun (updated : result journalRecord) =>
  match updated with
  | Fail e => Ret (Result_zero, Some e)
  | Ok updated => Ret (mkResult (jr_Command updated) OutcomeDenied decision false, cause)
  end.

(** The expired branch of [execute]. *)
Definition expire_command (record : journalRecord) : prog Submission :=
  expire (recordKey (jr_Command record)) ≫= fun (updated : result journalRecord) =>
  match updated with
  | Fail e => Ret (Result_zero, Some e)
  | Ok updated => Ret (mkResult (jr_Command updated) OutcomeExpired Decision_zero false, None)
  end.

Definition execute (publisher : bool) (record : journalRecord) : prog Submission :=
  let key := recordKey (jr_Command record) in
  revalidate record ≫= fun '((decision, _, expired, err) : revalidation) =>
  match err with
  | Some e => denyAfterRevalidation record decision (Some e)
  | None =>
  if expired then expire_command record
  else if negb (String.eqb (Verdict decision) VerdictAllow) then denyAfterRevalidation record decision None
  else
  ValidateAction (jr_Target record) (jr_Action record) (fun validated =>
  match validated with
  | Fail e => denyAfterRevalidation record decision (Some e)
  | Ok _ =>
  revalidate record ≫= fun '((decision, now, expired, err) : revalidation) =>
  match err with
  | Some e => denyAfterRevalidation record decision (Some e)
  | None =>
  if expired then expire_command record
  else if negb (String.eqb (Verdict decision) VerdictAllow) then denyAfterRevalidation record decision None
  else
  publish publisher (RecoveryStarted (jr_Command record)) ≫= fun (published : result unit) =>
  match published with
  | Fail e => Ret (mkResult (jr_Command record) "" decision false, Some e)
  | Ok _ =>
  (if negb (String.eqb (jr_Phase record) phaseApproved) then approve key else Ret (Ok record)) ≫= fun (approved : result journalRecord) =>
  match approved with
  | Fail e => Ret (Result_zero, Some e)
  | Ok _ =>
  startExecution key ≫= fun (started : result journalRecord) =>
  match started with
  | Fail e => Ret (Result_zero, Some e)
  | Ok executing =>
  Execute key (jr_Target executing) (jr_Action executing) (fun executed =>
  match executed with
  | Fail e =>
    markVerifyAndNotify key DockerSnapshot_zero false now ≫= fun (uncertain : result journalRecord) =>
    match uncertain with
    | Fail e' => Ret (Result_zero, Some e')
    | Ok uncertain => Ret (mkResult (jr_Command uncertain) OutcomeVerifyAndNotify decision false, Some e)
    end
  | Ok _ =>
    finishExecution key RecoveryStabilizing ≫= fun (stabilizing : result journalRecord) =>
    match stabilizing with
    | Fail e => Ret (Result_zero, Some e)
    | Ok stabilizing => Ret (mkResult (jr_Command stabilizing) OutcomeStabilizing decision false, None)
    end
  end)
  end end end end end)
  end.

(** The command a request prepares, from the registered action. *)
Definition prepared (request : Request) (commandID : string) (now : time) (decision : Decision)
    (registered : RegisteredRunbook) (action : TypedAction) : journalRecord :=
  let input := rq_PolicyInput request in
  mkJournalRecord SchemaVersionV1
    (mkRecoveryCommand SchemaVersionV1 commandID (rq_IncidentID request) (in_RunbookID input)
       (in_RunbookDigest input) (tgt_TargetID (rq_Target request)) (in_ActionIndex input)
       (rb_RiskTier (rr_Runbook registered))
       (match in_Approval input with Some a => apr_ApprovalID a | None => "" end)
       now (utc (rq_ExpiresAt request)) (rq_IdempotencyKey request) RecoveryPending)
    (rq_Target request) action
    (if String.eqb (Verdict decision) VerdictAwaitApproval then phaseAwaitingApproval else phasePending)
    None.

Definition prepare (request : Request) (now : time) :
    prog (result (journalRecord * bool * Decision)) :=
  NewCommandID (fun commandID =>
  match commandID with
  | Fail e => Ret (Fail e)
  | Ok commandID =>
    if negb (validToken commandID maxCommandIDLength) then Ret (Fail ErrInvalidOptions)
    else
      let input := policyInput (rq_PolicyInput request) commandID now in
      let decision := Evaluate (rq_PolicySnapshot request) input in
      if String.eqb (Verdict decision) VerdictDeny then Ret (Ok (journalRecord_zero, false, decision))
      else
        match registeredRunbook (rq_PolicySnapshot request) (in_RunbookID input) with
        | None => Ret (Fail ErrInvalidRequest)
        | Some registered =>
          match action_at (rb_TypedActions (rr_Runbook registered)) (in_ActionIndex input) with
          | None => Ret (Fail ErrInvalidRequest)
          | Some action =>
            persistPending (prepared request commandID now decision registered action) ≫= fun (persisted : result (journalRecord * bool)) =>
            match persisted with
            | Fail e => Ret (Fail e)
            | Ok (persisted, duplicate) => Ret (Ok (persisted, duplicate, decision))
            end
          end
        end
  end).

Definition Submit (publisher : bool) (request : Request) : prog Submission :=
  match validateRequest request with
  | Fail e => Ret (Result_zero, Some e)
  | Ok _ =>
  now ≫= fun (now : result time) =>
  match now with
  | Fail e => Ret (Result_zero, Some e)
  | Ok now =>
  if negb (before now (rq_ExpiresAt request)) then
    Ret (mkResult RecoveryCommand_zero OutcomeExpired Decision_zero false, None)
  else
  (if negb (in_AnalysisAvailable (rq_PolicyInput request))
   then publish publisher (AnalysisUnavailable (rq_IncidentID request) (rq_IdempotencyKey request)
                             "analysis_unavailable")
   else Ret (Ok tt)) ≫= fun (published : result unit) =>
  match published with
  | Fail e => Ret (Result_zero, Some e)
  | Ok _ =>
  prepare request now ≫= fun (prepared : result (journalRecord * bool * Decision)) =>
  match prepared with
  | Fail e => Ret (Result_zero, Some e)
  | Ok (record, duplicate, decision) =>
  if String.eqb (Verdict decision) VerdictDeny then
    publish publisher (PolicyDenied (rq_IncidentID request) (rq_IdempotencyKey request) (ReasonCode decision))
      ≫= fun (published : result unit) =>
    match published with
    | Fail e => Ret (Result_zero, Some e)
    | Ok _ => Ret (mkResult RecoveryCommand_zero OutcomeDenied decision false, None)
    end
  else if duplicate then
    (if String.eqb (Verdict decision) VerdictAwaitApproval
     then publish publisher (ApprovalRequested (jr_Command record)) else Ret (Ok tt)) ≫= fun (published : result unit) =>
    match published with
    | Fail e => Ret (Result_zero, Some e)
    | Ok _ => Ret (mkResult (jr_Command record) (existingOutcome record) decision true, None)
    end
  else if String.eqb (Verdict decision) VerdictAwaitApproval then
    publish publisher (ApprovalRequested (jr_Command record)) ≫= fun (published : result unit) =>
    match published with
    | Fail e => Ret (Result_zero, Some e)
    | Ok _ => Ret (mkResult (jr_Command record) OutcomeAwaitApproval decision false, None)
    end
  else if negb (String.eqb (Verdict decision) VerdictAllow) then Ret (Result_zero, Some ErrInvalidRequest)
  else execute publisher record
  end end end end.

(** The loop of [Reconcile] over the records read at its start. *)
Fixpoint reconcile_loop (records : list storedRecord) (results : list ReconciliationResult) :
    prog (returned (list ReconciliationResult)) :=
  match records with
  | [] => Ret (results, None)
  | stored :: rest =>
    now ≫= fun (now : result time) =>
    match now with
    | Fail e => Ret ([], Some e)
    | Ok now =>
      Verify (jr_Target (sr_record stored)) (fun answer =>
      let verified := match answer with
                      | Ok snapshot => String.eqb (ds_TargetID snapshot) (cmd_TargetID (jr_Command (sr_record stored)))
                      | Fail _ => false
                      end in
      let snapshot := match answer with
                      | Ok snapshot => if verified then snapshot else DockerSnapshot_zero
                      | Fail _ => DockerSnapshot_zero
                      end in
      markVerifyAndNotify (sr_key stored) snapshot verified now ≫= fun (updated : result journalRecord) =>
      match updated with
      | Fail e => Ret ([], Some e)
      | Ok updated =>
        let reconciled := default reconciliation_zero (jr_Reconciliation updated) in
        reconcile_loop rest (results ++ [mkReconciliationResult (jr_Command updated) OutcomeVerifyAndNotify
          (rc_Verified reconciled)
          (if rc_Verified reconciled then rc_Snapshot reconciled else DockerSnapshot_zero)])%list
      end)
    end
  end.

Definition Reconcile : prog (returned (list ReconciliationResult)) :=
  reconcilableRecords ≫= fun (records : result (list storedRecord)) =>
  match records with
  | Fail e => Ret ([], Some e)
  | Ok records => reconcile_loop records []
  end.

Definition Resume (publisher : bool) (commandID : string) : prog Submission :=
  if negb (validToken commandID maxCommandIDLength) then Ret (Result_zero, Some ErrInvalidRequest)
  else
    find_record commandID ≫= fun (found : result (option storedRecord)) =>
    match found with
    | Fail e => Ret (Result_zero, Some e)
    | Ok None => Ret (Result_zero, Some ErrInvalidRequest)
    | Ok (Some stored) =>
      let record := sr_record stored in
      if in_phase record phaseAwaitingApproval RecoveryPending then
        if String.eqb (cmd_ApprovalID (jr_Command record)) ""
        then Ret (mkResult (jr_Command record) OutcomeAwaitApproval Decision_zero false, None)
        else execute publisher record
      else Ret (mkResult (jr_Command record) (existingOutcome record) Decision_zero true, None)
    end.

Definition CompleteStabilization (commandID : string) (succeeded : bool) : prog (returned RecoveryCommand) :=
  if negb (validToken commandID maxCommandIDLength) then Ret (RecoveryCommand_zero, Some ErrInvalidRequest)
  else
    find_record commandID ≫= fun (found : result (option storedRecord)) =>
    match found with
    | Fail e => Ret (RecoveryCommand_zero, Some e)
    | Ok None => Ret (RecoveryCommand_zero, Some ErrInvalidRequest)
    | Ok (Some stored) =>
      let next := if succeeded then RecoverySucceeded else RecoveryFailed in
      if in_phase (sr_record stored) phaseCompleted next then Ret (jr_Command (sr_record stored), None)
      else
        completeStabilization (sr_key stored) next ≫= fun (completed : result journalRecord) =>
        match completed with
        | Fail e => Ret (RecoveryCommand_zero, Some e)
        | Ok completed => Ret (jr_Command completed, None)
        end
    end.

(** * The approval-aware state source *)

(** [ApprovalStateSource.Load]: the source's answer with the durable approval
    of the command; anything but the approval of the command's own ID counts
    as revoked. *)
Definition ApprovalStateSource_Load `{Bolt} (source : result ExecutionState) (command : RecoveryCommand) (d : db) :
    result ExecutionState :=
  source ≫= fun state =>
  if String.eqb (cmd_ApprovalID command) "" then Ok state
  else
    LoadApproval (cmd_CommandID command) d ≫= fun found =>
    let attach approval revoked :=
      mkExecutionState (es_Target state) (es_PolicySnapshot state)
        (es_PolicyInput state <| in_Approval := Some approval |> <| in_ApprovalRevoked := revoked |>) in
    match found with
    | Some approval =>
      if negb (String.eqb (apr_ApprovalID approval) (cmd_ApprovalID command)) ||
         negb (String.eqb (apr_CommandID approval) (cmd_CommandID command))
      then Ok (attach Approval_zero true)
      else Ok (attach approval (in_ApprovalRevoked (es_PolicyInput state)))
    | None => Ok (attach Approval_zero true)
    end.
