(* ===== verification/RecoverySystem.v ===== *)
(** Recovery as a system: any number of coordinator operations running
    interleaved over the store, approval decisions and the other components
    between their steps, and crashes at any point.

    The theorems are about every run of the system: a command is executed at
    most once, only after its journal record says so, and only on a current
    authorization; reconciliation never executes; decisions are immutable. *)
From S2P Require Import Prelude GoLib GoTime Sha256 Json Contract.
From S2P Require Import ContractFacts Store Policy Journal AuditChain Approval Coordinator.
From stdpp Require Import options.
Local Open Scope Z_scope.

(** * Steps *)

Section Steps.
Context `{Bolt}.

(** Other components, the publisher among them, do not write the journal. *)
Definition keeps_journal (d d' : db) : Prop := same_bucket BucketCommandJournal d d'.

Inductive event :=
| EvUpdate (key : string) (answer : result journalRecord)
| EvPersist (record : journalRecord) (answer : result (journalRecord * bool))
| EvReconcilable (answer : result (list storedRecord))
| EvFind (commandID : string) (answer : result (option storedRecord))
| EvNow (answer : time)
| EvNewCommandID (answer : result string)
| EvLoad (command : RecoveryCommand) (answer : result ExecutionState)
| EvValidate (target : ServiceTarget) (action : TypedAction) (answer : result unit)
| EvExecute (key : string) (target : ServiceTarget) (action : TypedAction) (answer : result unit)
| EvVerify (target : ServiceTarget) (answer : result DockerSnapshot)
| EvPublish (p : publication) (answer : result unit).

(** One step of one operation: store transactions have the answer the store
    gives, the outside any answer. *)
Inductive step {R : Type} (d : db) : prog R -> event -> db -> prog R -> Prop :=
| step_update key u k :
    step d (UpdateRecord key u k) (EvUpdate key (Update (update_record key u) d).1)
      (Update (update_record key u) d).2 (k (Update (update_record key u) d).1)
| step_persist record k :
    step d (PersistPending record k) (EvPersist record (Update (persist_pending record) d).1)
      (Update (persist_pending record) d).2 (k (Update (persist_pending record) d).1)
| step_reconcilable k :
    step d (ReadReconcilable k) (EvReconcilable (View reconcilable_records d)) d (k (View reconcilable_records d))
| step_find commandID k :
    step d (FindRecord commandID k) (EvFind commandID (View (findRecordByCommandID commandID) d)) d
      (k (View (findRecordByCommandID commandID) d))
| step_now k t : step d (Now k) (EvNow t) d (k t)
| step_id k a : step d (NewCommandID k) (EvNewCommandID a) d (k a)
| step_load command k a : step d (Load command k) (EvLoad command a) d (k a)
| step_validate target action k a :
    step d (ValidateAction target action k) (EvValidate target action a) d (k a)
| step_execute key target action k a :
    step d (Execute key target action k) (EvExecute key target action a) d (k a)
| step_verify target k a : step d (Verify target k) (EvVerify target a) d (k a)
| step_publish p k a d' : keeps_journal d d' -> step d (Publish p k) (EvPublish p a) d' (k a).

(** The steps of one operation as it sees them: whatever runs in between, each
    store transaction gives it some answer. *)
Inductive answers {R : Type} : prog R -> event -> prog R -> Prop :=
| answers_update key u k a : answers (UpdateRecord key u k) (EvUpdate key a) (k a)
| answers_persist record k a : answers (PersistPending record k) (EvPersist record a) (k a)
| answers_reconcilable k a : answers (ReadReconcilable k) (EvReconcilable a) (k a)
| answers_find commandID k a : answers (FindRecord commandID k) (EvFind commandID a) (k a)
| answers_now k t : answers (Now k) (EvNow t) (k t)
| answers_id k a : answers (NewCommandID k) (EvNewCommandID a) (k a)
| answers_load command k a : answers (Load command k) (EvLoad command a) (k a)
| answers_validate target action k a : answers (ValidateAction target action k) (EvValidate target action a) (k a)
| answers_execute key target action k a :
    answers (Execute key target action k) (EvExecute key target action a) (k a)
| answers_verify target k a : answers (Verify target k) (EvVerify target a) (k a)
| answers_publish p k a : answers (Publish p k) (EvPublish p a) (k a).

Inductive follows {R : Type} : prog R -> list event -> prog R -> Prop :=
| follows_nil p : follows p [] p
| follows_cons p ev p1 evs p' : answers p ev p1 -> follows p1 evs p' -> follows p (ev :: evs) p'.

Lemma step_answers {R} d (p : prog R) ev d' p' : step d p ev d' p' -> answers p ev p'.
Proof. destruct 1; constructor. Qed.

(** * The system *)

Inductive operation :=
| OpSubmit (publisher : bool) (request : Request)
| OpResume (publisher : bool) (commandID : string)
| OpReconcile
| OpComplete (commandID : string) (succeeded : bool).

Definition program (op : operation) : prog unit :=
  match op with
  | OpSubmit publisher request => Submit publisher request ≫= fun _ => Ret tt
  | OpResume publisher commandID => Resume publisher commandID ≫= fun _ => Ret tt
  | OpReconcile => Reconcile ≫= fun _ => Ret tt
  | OpComplete commandID succeeded => CompleteStabilization commandID succeeded ≫= fun _ => Ret tt
  end.

(** The store, the running operations and the journal keys of the commands
    handed to the adapter, latest first. *)
Record system := mkSystem {
  sy_db : db;
  sy_running : list (prog unit);
  sy_executed : list string;
}.

Definition executed_by (ev : event) : list string :=
  match ev with EvExecute key _ _ _ => [key] | _ => [] end.

Inductive sys_step : system -> system -> Prop :=
| sys_start d running executed op :
    sys_step (mkSystem d running executed) (mkSystem d (program op :: running) executed)
| sys_advance d l1 p l2 executed ev d' p' :
    step d p ev d' p' ->
    sys_step (mkSystem d (l1 ++ p :: l2) executed) (mkSystem d' (l1 ++ p' :: l2) (executed_by ev ++ executed))
| sys_crash d running executed :
    sys_step (mkSystem d running executed) (mkSystem d [] executed)
| sys_decide d running executed env request :
    sys_step (mkSystem d running executed) (mkSystem (Decide env request d).2 running executed)
| sys_other d d' running executed :
    keeps_journal d d' -> sys_step (mkSystem d running executed) (mkSystem d' running executed).
End Steps.

(** * Programs that execute only after [startExecution] *)

Fixpoint guarded {R : Type} (p : prog R) : Prop :=
  match p with
  | Ret _ => True
  | UpdateRecord key u k =>
    (keeps_late u /\ forall a, guarded (k a)) \/
    (starts u /\ (forall e, guarded (k (Fail e))) /\
     forall r, match k (Ok r) with
               | Execute key' _ _ k' => key' = key /\ forall a, guarded (k' a)
               | _ => False
               end)
  | PersistPending _ k => forall a, guarded (k a)
  | ReadReconcilable k => forall a, guarded (k a)
  | FindRecord _ k => forall a, guarded (k a)
  | Now k => forall a, guarded (k a)
  | NewCommandID k => forall a, guarded (k a)
  | Load _ k => forall a, guarded (k a)
  | ValidateAction _ _ k => forall a, guarded (k a)
  | Execute _ _ _ _ => False
  | Verify _ k => forall a, guarded (k a)
  | Publish _ k => forall a, guarded (k a)
  end.

(** About to execute the command under a key, [startExecution] being behind. *)
Definition armed {R} (p : prog R) : option string :=
  match p with Execute key _ _ _ => Some key | _ => None end.
Definition safe {R} (p : prog R) : Prop :=
  match p with Execute _ _ _ k => forall a, guarded (k a) | _ => guarded p end.

Lemma guarded_safe {R} (p : prog R) : guarded p -> safe p /\ armed p = None.
Proof. by destruct p. Qed.

Lemma bind_guarded_safe {A B} (p : prog A) (f : A -> prog B) :
  (forall a, guarded (f a)) -> (guarded p -> guarded (p ≫= f)) /\ (safe p -> safe (p ≫= f)).
Proof.
  intros Hf. induction p as [r|key u k IH|record k IH|k IH|commandID k IH|k IH|k IH|command k IH
    |target action k IH|key target action k IH|target k IH|pub k IH]; cbn.
  2: { assert (Hg : forall P Q : Prop, (P -> Q) -> (P -> Q) /\ (P -> Q)) by tauto. apply Hg.
       intros [[Hu Hk]|(Hu & He & Hr)].
       - left. split; [done|]. intros a. by apply IH.
       - right. split_and!; [done|intros e; by apply IH|]. intros r. specialize (Hr r). destruct (IH (Ok r)) as [_ Hs].
         destruct (k (Ok r)); try done. destruct Hr as [-> Hr]. split; [done|]. by apply Hs. }
  9: { split; [done|]. intros Hs a. by apply IH. }
  all: split; intros Hp; try (intros a; by apply IH).
  - apply Hf.
  - by apply guarded_safe.
Qed.
Lemma guarded_bind {A B} (p : prog A) (f : A -> prog B) :
  guarded p -> (forall a, guarded (f a)) -> guarded (p ≫= f).
Proof. intros Hp Hf. by apply bind_guarded_safe. Qed.

(** Programs are guarded piece by piece. *)
Lemma guarded_update {R} key u (k : result journalRecord -> prog R) :
  keeps_late u -> (forall a, guarded (k a)) -> guarded (UpdateRecord key u k).
Proof. intros. by left. Qed.

(** A successful [startExecution] allows the one execution that follows it. *)
Lemma guarded_start {R} key (k : result journalRecord -> prog R) :
  (forall e, guarded (k (Fail e))) ->
  (forall r, match k (Ok r) with Execute key' _ _ k' => key' = key /\ forall a, guarded (k' a) | _ => False end) ->
  guarded (startExecution key ≫= k).
Proof. intros He Hr. right. split_and!; [apply to_executing_starts|exact He|exact Hr]. Qed.

Ltac guard_step :=
  match goal with
  | |- guarded (startExecution _ ≫= _) => apply guarded_start
  | |- forall _, _ => intros
  | |- guarded (Ret _) => exact I
  | |- guarded (UpdateRecord _ _ _) => apply guarded_update; [solve [auto with go]|]
  | |- guarded (_ ≫= _) => apply guarded_bind
  | |- guarded (match ?x with _ => _ end) => destruct x
  | |- guarded (let '_ := ?x in _) => destruct x
  | |- guarded (if ?x then _ else _) => destruct x
  | |- guarded (Load _ _) => intros ?
  | |- guarded (Now _) => intros ?
  | |- guarded (NewCommandID _) => intros ?
  | |- guarded (ValidateAction _ _ _) => intros ?
  | |- guarded (Verify _ _) => intros ?
  | |- guarded (Publish _ _) => intros ?
  | |- guarded (PersistPending _ _) => intros ?
  | |- guarded (ReadReconcilable _) => intros ?
  | |- guarded (FindRecord _ _) => intros ?
  end.
Ltac guard_prog := repeat guard_step.

Lemma guarded_now : guarded now.
Proof. unfold now. guard_prog. Qed.
Lemma guarded_publish publisher p : guarded (publish publisher p).
Proof. unfold publish. guard_prog. Qed.
Lemma guarded_revalidate record : guarded (revalidate record).
Proof. unfold revalidate. guard_prog. apply guarded_now. Qed.
Lemma guarded_deny record decision cause : guarded (denyAfterRevalidation record decision cause).
Proof. unfold denyAfterRevalidation, deny, updateRecord. guard_prog. Qed.
Lemma guarded_expire record : guarded (expire_command record).
Proof. unfold expire_command, expire, updateRecord. guard_prog. Qed.

#[local] Hint Resolve guarded_now guarded_publish guarded_revalidate guarded_deny guarded_expire : go.
Ltac guard_all := guard_prog; auto with go.

Lemma guarded_execute publisher record : guarded (execute publisher record).
Proof.
  unfold execute. guard_all.
  - unfold approve, updateRecord. guard_all.
  - split; [done|]. unfold finishExecution, markVerifyAndNotify, updateRecord. guard_all.
Qed.
#[local] Hint Resolve guarded_execute : go.

Lemma guarded_program op : guarded (program op).
Proof.
  destruct op as [publisher request|publisher commandID| |commandID succeeded]; apply guarded_bind; try done.
  - unfold Submit, prepare, persistPending. guard_all.
  - unfold Resume, find_record. guard_all.
  - unfold Reconcile, reconcilableRecords. guard_all.
    match goal with |- guarded (reconcile_loop ?l ?acc) => generalize acc; induction l as [|stored l IH]; intros acc' end;
      cbn [reconcile_loop]; unfold markVerifyAndNotify, updateRecord; guard_all.
  - unfold CompleteStabilization, find_record, completeStabilization, updateRecord. guard_all.
Qed.

(** * The invariant *)

Section Invariant.
Context `{BoltLaws}.
#[local] Set Default Proof Using "Type*".

Lemma putRecord_keeps_late key r d u d' key' :
  putRecord key r d = Ok (u, d') -> late key' d -> key' <> key -> late key' d'.
Proof.
  intros (_ & _ & doc & _ & Hp)%putRecord_ok Hl Hne. eapply late_same; [|exact Hl]. by eapply Put_get_ne.
Qed.

(** A record found in phase awaiting approval is not past execution. *)
Lemma found_not_late commandID d stored d' phase state :
  findRecordByCommandID commandID d = Ok (Some stored, d') ->
  in_phase (sr_record stored) phase state = true -> late_phase phase = false -> ~ late (sr_key stored) d.
Proof.
  intros (_ & doc & Hg & Hd & _)%findRecord_some [Hp _]%in_phase_eq Hf (doc' & Hg' & Hl).
  rewrite Hg in Hg'. injection Hg' as <-. specialize (Hl _ Hd). rewrite Hp in Hl. congruence.
Qed.

Lemma Decide_keeps_late env request d key : late key d -> late key (Decide env request d).2.
Proof.
  intros Hl. destruct (Decide_cases env request d) as [(e & d' & -> & Hj & _)|(now & id & o & d' & He & ->)];
    [eapply late_same; [apply Hj|exact Hl]|]. cbn.
  destruct He as [e Hj _|stored r d1 Hf Hph _ Hp Hj _|stored r doc d1 Hf Hph _ _ _ _ _ _ a _ _ _ Hst Hs].
  - eapply late_same; [apply Hj|exact Hl].
  - assert (Hne : key <> sr_key stored) by (intros ->; by eapply found_not_late).
    eapply late_same; [apply Hj|]. by eapply putRecord_keeps_late.
  - assert (Hne : key <> sr_key stored) by (intros ->; by eapply found_not_late).
    apply store_decision_ok in Hst as (d2 & d3 & Hp1 & Hp2 & Hp3).
    eapply late_same; [apply Hs; discriminate|]. eapply putRecord_keeps_late; [exact Hp3| |done].
    eapply late_same; [|exact Hl].
    rewrite (Put_same _ _ _ _ _ _ BucketCommandJournal Hp2) by discriminate.
    by rewrite (Put_same _ _ _ _ _ _ BucketCommandJournal Hp1) by discriminate.
Qed.

(** An update of the journal keeps every record past execution there. *)
Lemma update_keeps_late key u d key' :
  keeps_late u -> late key' d -> late key' (Update (update_record key u) d).2.
Proof.
  intros Hu Hl. destruct (Update_cases (update_record key u) d) as [(r' & d' & Hb & ->)|(e & ->)]; [|done]. cbn.
  apply update_record_ok in Hb as (r & Hr & Hup). destruct (decide (key' = key)) as [->|Hne].
  - eapply updates_late; [exact Hup|]. eapply Hu; [exact Hr|].
    destruct Hup as (doc & _ & Hg & Hd & _). destruct Hl as (doc1 & Hg1 & Hl). rewrite Hg in Hg1.
    injection Hg1 as <-. by apply Hl.
  - eapply late_same; [|exact Hl]. by eapply updates_other.
Qed.

(** The update that starts: the record was not past execution before, is
    afterwards, and the others are as they were. *)
Lemma start_effect key u d r d' :
  starts u -> Update (update_record key u) d = (Ok r, d') ->
  ~ late key d /\ late key d' /\ forall key', late key' d -> late key' d'.
Proof.
  intros Hu Hb%Update_ok. apply update_record_ok in Hb as (r0 & Hr & Hup).
  destruct (Hu _ _ Hr) as [Hn Hy]. split_and!.
  - by eapply updates_not_late.
  - by eapply updates_late.
  - intros key' Hl. eapply late_same; [|exact Hl]. eapply updates_other; [exact Hup|].
    intros ->. by eapply updates_not_late.
Qed.

Lemma persist_keeps_late record d key : late key d -> late key (Update (persist_pending record) d).2.
Proof.
  intros (doc & Hg & Hl). destruct (Update_cases (persist_pending record) d) as [([r dup] & d' & Hb & ->)|(e & ->)];
    [|by exists doc]. apply persist_pending_ok in Hb as (_ & _ & Hk). exists doc. split; [by apply Hk|done].
Qed.

(** Commands handed to the adapter, or about to be. *)
Definition claims (s : system) : list string := (omap armed (sy_running s) ++ sy_executed s)%list.

Record invariant (s : system) : Prop := {
  inv_safe : Forall safe (sy_running s);
  inv_once : NoDup (claims s);
  inv_late : forall key, key ∈ claims s -> late key (sy_db s);
}.

(** A step of a program that is not about to execute: it keeps what is past
    execution, and it becomes armed only for a command that was not. *)
Lemma guarded_step {R} d (p : prog R) ev d' p' :
  guarded p -> step d p ev d' p' ->
  safe p' /\ executed_by ev = [] /\ (forall key, late key d -> late key d') /\
  (forall key, armed p' = Some key -> ~ late key d /\ late key d').
Proof.
  intros Hg Hs.
  assert (Hrest : forall q : prog R, guarded q -> (forall key, late key d -> late key d') ->
    safe q /\ [] = [] :> list string /\ (forall key, late key d -> late key d') /\
    (forall key, armed q = Some key -> ~ late key d /\ late key d')).
  { intros q Hq Hl. apply guarded_safe in Hq as [Hsafe Ha]. split_and!; try done. intros key. by rewrite Ha. }
  destruct Hs; cbn [guarded] in Hg; cbn [executed_by];
    try contradiction; try (apply Hrest; [by auto|by auto]).
  - destruct Hg as [[Hu Hk]|(Hu & He & Hr)].
    + apply Hrest; [done|]. intros. by apply update_keeps_late.
    + destruct (Update (update_record key u) d) as [[r|e] d'] eqn:Eu; cbn [fst snd] in *.
      * destruct (start_effect _ _ _ _ _ Hu Eu) as (Hn & Hy & Hk). specialize (Hr r).
        destruct (k (Ok r)); try done. destruct Hr as [-> Hr]. split_and!; try done.
        intros key' [= <-]. done.
      * apply Hrest; [done|]. apply Update_fail in Eu. by subst d'.
  - apply Hrest; [done|]. intros. by apply persist_keeps_late.
  - apply Hrest; [done|]. intros key. apply late_same. by apply H1.
Qed.

Lemma invariant_advance d l1 p l2 executed ev d' p' :
  invariant (mkSystem d (l1 ++ p :: l2) executed) -> step d p ev d' p' ->
  invariant (mkSystem d' (l1 ++ p' :: l2) (executed_by ev ++ executed)).
Proof.
  intros [Hsafe Honce Hlate] Hs. unfold claims in *. cbn [sy_running sy_executed sy_db] in *.
  apply Forall_app in Hsafe as [Hs1 [Hp Hs2]%Forall_cons]. rewrite omap_app in Honce, Hlate. cbn [omap list_omap] in Honce, Hlate.
  destruct (armed p) as [key|] eqn:Ea.
  - destruct p; try done. injection Ea as ->. inversion Hs; subst. cbn [executed_by app].
    assert (Hperm : (omap armed (l1 ++ k a :: l2) ++ key :: executed)%list ≡ₚ
                    ((omap armed l1 ++ key :: omap armed l2) ++ executed)%list).
    { rewrite omap_app. cbn [omap list_omap]. destruct (guarded_safe (k a) (Hp a)) as [_ ->]. solve_Permutation. }
    split; unfold claims; cbn [sy_running sy_executed sy_db].
    + apply Forall_app. split; [done|]. constructor; [|done]. apply guarded_safe, Hp.
    + by rewrite Hperm.
    + intros key'. rewrite Hperm. apply Hlate.
  - assert (Hg : guarded p) by (by destruct p).
    destruct (guarded_step _ _ _ _ _ Hg Hs) as (Hsafe' & -> & Hkeep & Harm). cbn [app].
    split; unfold claims; cbn [sy_running sy_executed sy_db]; rewrite ?omap_app; cbn [omap list_omap].
    + apply Forall_app. by split; [|constructor].
    + destruct (armed p') as [key|] eqn:Ea'; [|done]. destruct (Harm key eq_refl) as [Hn _].
      assert (Hperm : ((omap armed l1 ++ key :: omap armed l2) ++ executed)%list ≡ₚ
                      (key :: (omap armed l1 ++ omap armed l2) ++ executed)%list) by solve_Permutation.
      rewrite Hperm. constructor; [|done]. intros Hin. by apply Hn, Hlate.
    + intros key' Hin. destruct (armed p') as [key|] eqn:Ea'; [|by apply Hkeep, Hlate].
      destruct (Harm key eq_refl) as [_ Hy]. destruct (decide (key' = key)) as [->|Hne]; [done|].
      apply Hkeep, Hlate. set_solver.
Qed.

Lemma invariant_step s s' : invariant s -> sys_step s s' -> invariant s'.
Proof.
  intros Hi Hs. destruct Hs as [d running executed op|d l1 p l2 executed ev d' p' Hst|d running executed
    |d running executed env request|d d' running executed Hk].
  - destruct Hi as [Hsafe Honce Hlate]. destruct (guarded_safe _ (guarded_program op)) as [Hp Ha].
    split; unfold claims in *; cbn in *; [by constructor|by rewrite Ha|by rewrite Ha].
  - by eapply invariant_advance.
  - destruct Hi as [_ Honce Hlate]. split; unfold claims in *; cbn in *; [constructor| |].
    + by apply NoDup_app in Honce as (_ & _ & ?).
    + intros key Hin. apply Hlate, elem_of_app. by right.
  - destruct Hi as [Hsafe Honce Hlate]. split; [done|done|]. intros key Hin. by apply Decide_keeps_late, Hlate.
  - destruct Hi as [Hsafe Honce Hlate]. split; [done|done|]. intros key Hin. eapply late_same; [apply Hk|by apply Hlate].
Qed.

(** A store at rest, nothing executed yet by this run. *)
Definition at_rest (d : db) : system := mkSystem d [] [].

Lemma invariant_reachable d s : rtc sys_step (at_rest d) s -> invariant s.
Proof.
  intros Hr. assert (Hi : invariant (at_rest d)).
  { split; unfold claims; cbn; [constructor|constructor|]. intros key Hin. by apply elem_of_nil in Hin. }
  induction Hr as [|s1 s2 s3 Hs _ IH]; [done|]. apply IH. by eapply invariant_step.
Qed.
End Invariant.

(** * Running one operation *)

(** Scripted answers of the outside. *)
Record outside := mkOutside {
  o_now : time;
  o_commandID : result string;
  o_load : RecoveryCommand -> result ExecutionState;
  o_validate : result unit;
  o_execute : result unit;
  o_verify : ServiceTarget -> result DockerSnapshot;
  o_publish : result unit;
}.

Section Run.
Context `{Bolt}.

Fixpoint run {R} (o : outside) (p : prog R) (d : db) : R * db * list event :=
  let next ev (out : R * db * list event) := (out.1, ev :: out.2) in
  match p with
  | Ret r => (r, d, [])
  | UpdateRecord key u k =>
    let out := Update (update_record key u) d in next (EvUpdate key out.1) (run o (k out.1) out.2)
  | PersistPending record k =>
    let out := Update (persist_pending record) d in next (EvPersist record out.1) (run o (k out.1) out.2)
  | ReadReconcilable k =>
    let a := View reconcilable_records d in next (EvReconcilable a) (run o (k a) d)
  | FindRecord commandID k =>
    let a := View (findRecordByCommandID commandID) d in next (EvFind commandID a) (run o (k a) d)
  | Now k => next (EvNow (o_now o)) (run o (k (o_now o)) d)
  | NewCommandID k => next (EvNewCommandID (o_commandID o)) (run o (k (o_commandID o)) d)
  | Load command k => let a := o_load o command in next (EvLoad command a) (run o (k a) d)
  | ValidateAction target action k =>
    next (EvValidate target action (o_validate o)) (run o (k (o_validate o)) d)
  | Execute key target action k =>
    next (EvExecute key target action (o_execute o)) (run o (k (o_execute o)) d)
  | Verify target k => let a := o_verify o target in next (EvVerify target a) (run o (k a) d)
  | Publish p k => next (EvPublish p (o_publish o)) (run o (k (o_publish o)) d)
  end.

Lemma run_follows {R} o (p : prog R) d : follows p (run o p d).2 (Ret (run o p d).1.1).
Proof.
  revert d. induction p; intros d; cbn -[Update View]; [constructor|..];
    (econstructor; [constructor|]; auto).
Qed.

(** The keys an event list executes, latest first. *)
Definition executed_in (evs : list event) : list string := concat (map executed_by (reverse evs)).

Lemma first_step d p ev d' p' running executed s :
  step d p ev d' p' -> rtc sys_step (mkSystem d' (p' :: running) (executed_by ev ++ executed)) s ->
  rtc sys_step (mkSystem d (p :: running) executed) s.
Proof. intros Hs Hr. eapply rtc_l; [|exact Hr]. exact (sys_advance d [] p running executed ev d' p' Hs). Qed.

Lemma executed_in_cons ev evs : executed_in (ev :: evs) = (executed_in evs ++ executed_by ev)%list.
Proof. unfold executed_in. rewrite reverse_cons, map_app, concat_app. cbn. by rewrite app_nil_r. Qed.

Lemma run_reaches o (p : prog unit) d running executed :
  rtc sys_step (mkSystem d (p :: running) executed)
    (mkSystem (run o p d).1.2 (Ret tt :: running) (executed_in (run o p d).2 ++ executed)).
Proof.
  revert d executed. induction p as [[]|key u k IH|record k IH|k IH|commandID k IH|k IH|k IH|command k IH
    |target action k IH|key target action k IH|target k IH|pub k IH]; intros d executed; [apply rtc_refl|..];
    cbn -[Update View executed_in]; rewrite executed_in_cons, <- app_assoc;
    (eapply first_step; [|apply IH]); by constructor.
Qed.
End Run.

(** * Programs that never execute *)

Fixpoint quiet {R : Type} (p : prog R) : Prop :=
  match p with
  | Ret _ => True
  | Execute _ _ _ _ => False
  | UpdateRecord _ _ k => forall a, quiet (k a)
  | PersistPending _ k => forall a, quiet (k a)
  | ReadReconcilable k => forall a, quiet (k a)
  | FindRecord _ k => forall a, quiet (k a)
  | Now k => forall a, quiet (k a)
  | NewCommandID k => forall a, quiet (k a)
  | Load _ k => forall a, quiet (k a)
  | ValidateAction _ _ k => forall a, quiet (k a)
  | Verify _ k => forall a, quiet (k a)
  | Publish _ k => forall a, quiet (k a)
  end.

Definition executes (ev : event) : Prop := executed_by ev <> [].

Lemma quiet_bind {A B} (p : prog A) (f : A -> prog B) :
  quiet p -> (forall a, quiet (f a)) -> quiet (p ≫= f).
Proof. intros Hp Hf. induction p; cbn in *; auto. Qed.

Lemma quiet_follows {R} (p : prog R) evs p' :
  quiet p -> follows p evs p' -> Forall (fun ev => ~ executes ev) evs.
Proof.
  intros Hq Hf. induction Hf as [|p ev p1 evs p' Ha _ IH]; [constructor|].
  apply Forall_cons. split.
  - unfold executes. destruct Ha; cbn in *; auto.
  - apply IH. destruct Ha; cbn in Hq; auto. contradiction.
Qed.

Ltac quiet_prog :=
  repeat match goal with
  | |- forall _, _ => intros
  | |- quiet (Ret _) => exact I
  | |- quiet (_ ≫= _) => apply quiet_bind
  | |- quiet (match ?x with _ => _ end) => destruct x
  | |- quiet (if ?x then _ else _) => destruct x
  | |- quiet (UpdateRecord _ _ _) => intros ?
  | |- quiet (Load _ _) => intros ?
  | |- quiet (Now _) => intros ?
  | |- quiet (NewCommandID _) => intros ?
  | |- quiet (Verify _ _) => intros ?
  | |- quiet (Publish _ _) => intros ?
  | |- quiet (PersistPending _ _) => intros ?
  | |- quiet (ReadReconcilable _) => intros ?
  | |- quiet (FindRecord _ _) => intros ?
  end; auto with go.

Lemma quiet_now : quiet now.
Proof. unfold now. quiet_prog. Qed.
Lemma quiet_publish publisher p : quiet (publish publisher p).
Proof. unfold publish. quiet_prog. Qed.
Lemma quiet_updateRecord key u : quiet (updateRecord key u).
Proof. unfold updateRecord. quiet_prog. Qed.
#[local] Hint Resolve quiet_now quiet_publish quiet_updateRecord : go.

Lemma quiet_deny record decision cause : quiet (denyAfterRevalidation record decision cause).
Proof. unfold denyAfterRevalidation, deny. quiet_prog. Qed.
Lemma quiet_expire record : quiet (expire_command record).
Proof. unfold expire_command, expire. quiet_prog. Qed.
#[local] Hint Resolve quiet_deny quiet_expire : go.

Lemma quiet_reconcile_loop l acc : quiet (reconcile_loop l acc).
Proof.
  revert acc. induction l as [|stored l IH]; intros acc; cbn [reconcile_loop]; unfold markVerifyAndNotify; quiet_prog.
Qed.
#[local] Hint Resolve quiet_reconcile_loop : go.

(** * Authorization *)

Lemma executes_in_quiet {R} (p : prog R) evs p' ev :
  quiet p -> follows p evs p' -> ev ∈ evs -> executes ev -> False.
Proof.
  intros Hq Hf Hin He. apply (quiet_follows _ _ _ Hq) in Hf. rewrite Forall_forall in Hf. by apply (Hf ev).
Qed.

Lemma executes_in_ret {R} (r : R) evs p' ev : follows (Ret r) evs p' -> ev ∈ evs -> executes ev -> False.
Proof. intros Hf. by apply executes_in_quiet with (p' := p') (p := Ret r). Qed.

(** One event of a program whose first step is known. *)
Ltac follow_step H Hin :=
  let ev := fresh "ev" in let p1 := fresh "p1" in let evs := fresh "evs" in let p' := fresh "p'" in
  let Ha := fresh "Ha" in let Hf := fresh "Hf" in
  inversion H as [|? ev p1 evs p' Ha Hf]; subst; clear H;
  [by apply elem_of_nil in Hin|];
  inversion Ha; subst; clear Ha; rename Hf into H;
  apply elem_of_cons in Hin as [Hin|Hin]; [try discriminate Hin|].

(** What a revalidation has established when it allows the action. *)
Definition allowed (record : journalRecord) (state : ExecutionState) (now : time) : Prop :=
  is_zero now = false /\ before now (cmd_ExpiresAt (jr_Command record)) = true /\
  Verdict (revalidateState state record now) = VerdictAllow.

(** A program that revalidates first: the execution is in the continuation
    that follows an authorization. *)
Lemma revalidate_then {R} record (k : revalidation -> prog R) evs p' ev :
  (forall decision now err, quiet (k (decision, now, true, err))) ->
  (forall decision now e, quiet (k (decision, now, false, Some e))) ->
  (forall decision now, Verdict decision <> VerdictAllow -> quiet (k (decision, now, false, None))) ->
  follows (revalidate record ≫= k) evs p' -> ev ∈ evs -> executes ev ->
  exists state now rest, evs = EvLoad (jr_Command record) (Ok state) :: EvNow now :: rest /\
    allowed record state now /\ ev ∈ rest /\
    follows (k (revalidateState state record now, now, false, None)) rest p'.
Proof.
  intros Hexp Herr Hdeny Hf Hin He. unfold revalidate in Hf. cbn in Hf.
  follow_step Hf Hin; [by subst ev|]. destruct a as [state|e]; cbn in Hf;
    [|exfalso; eapply executes_in_quiet; [|exact Hf|exact Hin|exact He]; auto].
  follow_step Hf Hin; [by subst ev|]. unfold utc in Hf.
  destruct (is_zero t) eqn:Ez; cbn in Hf; [exfalso; eapply executes_in_quiet; [|exact Hf|exact Hin|exact He]; auto|].
  destruct (before t (cmd_ExpiresAt (jr_Command record))) eqn:Eb; cbn in Hf;
    [|exfalso; eapply executes_in_quiet; [|exact Hf|exact Hin|exact He]; auto].
  eexists state, t, _. split_and!; [done| |exact Hin|exact Hf]. split_and!; [done|done|].
  destruct (decide (Verdict (revalidateState state record t) = VerdictAllow)) as [|Hne]; [done|].
  exfalso. eapply executes_in_quiet; [|exact Hf|exact Hin|exact He]. by apply Hdeny.
Qed.

(** The part of [execute] after the second revalidation. *)
Definition launch (publisher : bool) (record : journalRecord) (decision : Decision) (now : time) : prog Submission :=
  let key := recordKey (jr_Command record) in
  publish publisher (RecoveryStarted (jr_Command record)) ≫= fun (published : result unit) =>
  match published with
  | Fail e => Ret (mkResult (jr_Command record) "" decision false, Some e)
  | Ok _ =>
  (if negb (String.eqb (jr_Phase record) phaseApproved) then approve key else Ret (Ok record))
    ≫= fun (approved : result journalRecord) =>
  match approved with
  | Fail e => Ret (Result_zero, Some e)
  | Ok _ =>
  startExecution key ≫= fun (started : result journalRecord) =>
  match started with
  | Fail e => Ret (Result_zero, Some e)
  | Ok executing =>
  Execute key (jr_Target executing) (jr_Action executing) (fun executed =>
  match executed with
  | Fail e =>
    markVerifyAndNotify key DockerSnapshot_zero false now ≫= fun (uncertain : result journalRecord) =>
    match uncertain with
    | Fail e' => Ret (Result_zero, Some e')
    | Ok uncertain => Ret (mkResult (jr_Command uncertain) OutcomeVerifyAndNotify decision false, Some e)
    end
  | Ok _ =>
    finishExecution key RecoveryStabilizing ≫= fun (stabilizing : result journalRecord) =>
    match stabilizing with
    | Fail e => Ret (Result_zero, Some e)
    | Ok stabilizing => Ret (mkResult (jr_Command stabilizing) OutcomeStabilizing decision false, None)
    end
  end) end end end.

(** An execution after a program that does not execute is in what follows it. *)
Lemma quiet_then {A B} (p : prog A) (k : A -> prog B) evs p' ev :
  quiet p -> follows (p ≫= k) evs p' -> ev ∈ evs -> executes ev ->
  exists evs1 evs2 a, evs = (evs1 ++ evs2)%list /\ Forall (fun e => ~ executes e) evs1 /\
    follows p evs1 (Ret a) /\ follows (k a) evs2 p' /\ ev ∈ evs2.
Proof.
  intros Hq Hf Hin He. revert evs Hf Hin.
  induction p as [a|key u q IH|record q IH|q IH|commandID q IH|q IH|q IH|command q IH
    |target action q IH|key target action q IH|target q IH|pub q IH]; intros evs Hf Hin; cbn in Hq, Hf.
  1: { exists [], evs, a. split_and!; [done|constructor|constructor|done|done]. }
  9: contradiction.
  all: follow_step Hf Hin; [by subst ev|];
    match goal with
    | IH : (forall x, quiet _ -> forall evs, _), Hf : follows _ _ _ |- _ =>
      destruct (IH _ (Hq _) _ Hf Hin) as (e1 & e2 & r & -> & Hn & Hp & Hk & Hi)
    end;
    eexists (_ :: e1), e2, r; split_and!; [reflexivity| | |done|done];
    [constructor; [|done]; intros Hx; by apply Hx|by econstructor; [constructor|]].
Qed.

(** The one execution a launch can make: right after [startExecution] wrote
    the record it executes. *)
Lemma launch_executes publisher record decision now evs p' ev :
  follows (launch publisher record decision now) evs p' -> ev ∈ evs -> executes ev ->
  exists executing answer before_ after_,
    evs = (before_ ++ EvUpdate (recordKey (jr_Command record)) (Ok executing) ::
           EvExecute (recordKey (jr_Command record)) (jr_Target executing) (jr_Action executing) answer ::
           after_)%list /\
    ev = EvExecute (recordKey (jr_Command record)) (jr_Target executing) (jr_Action executing) answer /\
    Forall (fun e => ~ executes e) before_ /\ Forall (fun e => ~ executes e) after_.
Proof.
  unfold launch. intros Hf Hin He.
  apply quiet_then with (ev := ev) in Hf as (e1 & e2 & a & -> & Hn1 & _ & Hf & Hi); [|apply quiet_publish|done|done].
  destruct a as [[]|e]; [|by destruct (executes_in_ret _ _ _ _ Hf Hi He)].
  apply quiet_then with (ev := ev) in Hf as (e3 & e4 & a & -> & Hn3 & _ & Hf & Hi4);
    [|destruct (negb _); [apply quiet_updateRecord|done]|done|done].
  destruct a as [approved|e]; [|by destruct (executes_in_ret _ _ _ _ Hf Hi4 He)].
  clear Hin Hi. rename Hi4 into Hin. cbn in Hf.
  follow_step Hf Hin; [by subst ev|]. destruct a as [executing|e]; cbn in Hf; [|by destruct (executes_in_ret _ _ _ _ Hf Hin He)].
  assert (Hq : forall answer, quiet (match answer with
    | Fail e => markVerifyAndNotify (recordKey (jr_Command record)) DockerSnapshot_zero false now
        ≫= fun (uncertain : result journalRecord) => match uncertain with
        | Fail e' => Ret (Result_zero, Some e')
        | Ok uncertain => Ret (mkResult (jr_Command uncertain) OutcomeVerifyAndNotify decision false, Some e) end
    | Ok tt => finishExecution (recordKey (jr_Command record)) RecoveryStabilizing
        ≫= fun (stabilizing : result journalRecord) => match stabilizing with
        | Fail e => Ret (Result_zero, Some e)
        | Ok stabilizing => Ret (mkResult (jr_Command stabilizing) OutcomeStabilizing decision false, None) end
    end)).
  { intros [[]|e]; unfold markVerifyAndNotify, finishExecution; quiet_prog. }
  inversion Hf as [|? ev1 p1 evs1 p2 Ha Hr]; subst; [by apply elem_of_nil in Hin|]. inversion Ha; subst.
  match type of Hr with follows (match ?a with _ => _ end) _ _ => specialize (Hq a); destruct a as [[]|e] eqn:Ea end;
    pose proof (quiet_follows _ _ _ Hq Hr) as Hn;
    (apply elem_of_cons in Hin as [->|Hin]; [|by destruct (executes_in_quiet _ _ _ _ Hq Hr Hin He)]);
    eexists executing, _, (e1 ++ e3)%list, _; (split_and!; [by rewrite <- app_assoc|done| |exact Hn]);
    by apply Forall_app.
Qed.

(** An event list in which the command of [record] is executed once, after two
    revalidations that allowed it, the adapter's validation between them, and
    [startExecution] just before. *)
Definition authorized_execution (record : journalRecord) (evs : list event) (ev : event) : Prop :=
  let command := jr_Command record in
  exists st1 n1 st2 n2 executing answer pre mid post,
    evs = (pre ++ EvLoad command (Ok st1) :: EvNow n1 ::
           EvValidate (jr_Target record) (jr_Action record) (Ok tt) ::
           EvLoad command (Ok st2) :: EvNow n2 ::
           mid ++ EvUpdate (recordKey command) (Ok executing) :: ev :: post)%list /\
    ev = EvExecute (recordKey command) (jr_Target executing) (jr_Action executing) answer /\
    allowed record st1 n1 /\ allowed record st2 n2 /\
    Forall (fun e => ~ executes e) pre /\ Forall (fun e => ~ executes e) mid /\
    Forall (fun e => ~ executes e) post.

Lemma execute_authorized publisher record evs p' ev :
  follows (execute publisher record) evs p' -> ev ∈ evs -> executes ev -> authorized_execution record evs ev.
Proof.
  intros Hf Hin He. unfold execute in Hf.
  apply revalidate_then with (ev := ev) in Hf as (st1 & n1 & rest & -> & Ha1 & Hin1 & Hf); [|cbn..|done|done];
    [|intros ?? [e|]; [apply (quiet_deny record)|apply (quiet_expire record)]|intros; apply (quiet_deny record)|
     intros decision now Hne; rewrite (proj2 (String.eqb_neq _ _) Hne); apply (quiet_deny record)].
  cbn in Hf. destruct Ha1 as (Hz1 & Hb1 & Hv1). rewrite Hv1 in Hf. cbn in Hf. clear Hin. rename Hin1 into Hin.
  follow_step Hf Hin; [by subst ev|].
  match type of Hf with follows (match ?x with _ => _ end) _ _ => destruct x as [[]|e] end;
    [|by destruct (executes_in_quiet _ _ _ _ (quiet_deny _ _ _) Hf Hin He)].
  apply revalidate_then with (ev := ev) in Hf as (st2 & n2 & rest & -> & Ha2 & Hin2 & Hf); [|cbn..|done|done];
    [|intros ?? [e|]; [apply (quiet_deny record)|apply (quiet_expire record)]|intros; apply (quiet_deny record)|
     intros decision now Hne; rewrite (proj2 (String.eqb_neq _ _) Hne); apply (quiet_deny record)].
  cbn in Hf. destruct Ha2 as (Hz2 & Hb2 & Hv2). rewrite Hv2 in Hf. cbn in Hf.
  apply (launch_executes publisher record _ n2 rest p' ev) in Hf as (executing & answer & mid & post & -> & -> & Hm & Hp);
    [|done|done].
  exists st1, n1, st2, n2, executing, answer, [], mid, post. split_and!; done.
Qed.

Lemma authorized_after record pre evs ev :
  Forall (fun e => ~ executes e) pre -> authorized_execution record evs ev ->
  authorized_execution record (pre ++ evs) ev.
Proof.
  intros Hpre (st1 & n1 & st2 & n2 & executing & answer & pre' & mid & post & -> & Hev & Ha1 & Ha2 & Hp & Hm & Hq).
  exists st1, n1, st2, n2, executing, answer, (pre ++ pre')%list, mid, post.
  split_and!; try done; [by rewrite <- app_assoc|by apply Forall_app].
Qed.

Lemma authorized_before record post evs ev :
  Forall (fun e => ~ executes e) post -> authorized_execution record evs ev ->
  authorized_execution record (evs ++ post) ev.
Proof.
  intros Hpost (st1 & n1 & st2 & n2 & executing & answer & pre & mid & post' & -> & Hev & Ha1 & Ha2 & Hp & Hm & Hq).
  exists st1, n1, st2, n2, executing, answer, pre, mid, (post' ++ post)%list.
  split_and!; try done; [|by apply Forall_app]. rewrite <- app_assoc. cbn. by rewrite <- app_assoc.
Qed.

Lemma quiet_prepare request t : quiet (prepare request t).
Proof. unfold prepare, persistPending. quiet_prog. Qed.

(** The execution of a submission is the one of the record it prepared, one
    that was not there before. *)
Lemma Submit_executes publisher request evs p' ev :
  follows (Submit publisher request) evs p' -> ev ∈ evs -> executes ev ->
  exists record, authorized_execution record evs ev.
Proof.
  intros Hf Hin He. unfold Submit in Hf.
  destruct (validateRequest request) as [[]|e]; [|by destruct (executes_in_ret _ _ _ _ Hf Hin He)].
  apply quiet_then with (ev := ev) in Hf as (e1 & e2 & a & -> & Hn1 & _ & Hf & Hi1); [|apply quiet_now|done|done].
  destruct a as [t|e]; [|by destruct (executes_in_ret _ _ _ _ Hf Hi1 He)].
  destruct (before t (rq_ExpiresAt request)); cbn [negb] in Hf; [|by destruct (executes_in_ret _ _ _ _ Hf Hi1 He)].
  apply quiet_then with (ev := ev) in Hf as (e3 & e4 & a & -> & Hn3 & _ & Hf & Hi2);
    [|destruct (negb _); [apply quiet_publish|done]|done|done].
  destruct a as [[]|e]; [|by destruct (executes_in_ret _ _ _ _ Hf Hi2 He)].
  apply quiet_then with (ev := ev) in Hf as (e5 & e6 & a & -> & Hn5 & _ & Hf & Hi3); [|apply quiet_prepare|done|done].
  destruct a as [[[record duplicate] decision]|e]; [|by destruct (executes_in_ret _ _ _ _ Hf Hi3 He)].
  destruct (String.eqb (Verdict decision) VerdictDeny).
  { exfalso. eapply executes_in_quiet; [|exact Hf|exact Hi3|exact He]. quiet_prog. }
  destruct duplicate.
  { exfalso. eapply executes_in_quiet; [|exact Hf|exact Hi3|exact He]. quiet_prog. }
  destruct (String.eqb (Verdict decision) VerdictAwaitApproval).
  { exfalso. eapply executes_in_quiet; [|exact Hf|exact Hi3|exact He]. quiet_prog. }
  destruct (negb _); [by destruct (executes_in_ret _ _ _ _ Hf Hi3 He)|].
  exists record. repeat (apply authorized_after; [assumption|]). by eapply execute_authorized.
Qed.

Lemma Resume_executes publisher commandID evs p' ev :
  follows (Resume publisher commandID) evs p' -> ev ∈ evs -> executes ev ->
  exists record, authorized_execution record evs ev.
Proof.
  intros Hf Hin He. unfold Resume in Hf.
  destruct (negb _); [by destruct (executes_in_ret _ _ _ _ Hf Hin He)|].
  apply quiet_then with (ev := ev) in Hf as (e1 & e2 & a & -> & Hn1 & _ & Hf & Hi1);
    [|unfold find_record; quiet_prog|done|done].
  destruct a as [[stored|]|e]; [|by destruct (executes_in_ret _ _ _ _ Hf Hi1 He)..].
  destruct (in_phase _ _ _); [|by destruct (executes_in_ret _ _ _ _ Hf Hi1 He)].
  destruct (String.eqb _ _); [by destruct (executes_in_ret _ _ _ _ Hf Hi1 He)|].
  exists (sr_record stored). apply authorized_after; [done|]. by eapply execute_authorized.
Qed.

(** * Properties *)

Section RecoveryProperties.
Context `{BoltLaws}.
#[local] Set Default Proof Using "Type*".

(** C1: at most one execution: in every run of any number of submissions,
    resumptions, reconciliations and completions, interleaved with each other
    and with approval decisions and broken off by crashes anywhere, no journal
    record is handed to the Docker adapter twice. *)
Theorem at_most_once d s : rtc sys_step (at_rest d) s -> NoDup (sy_executed s).
Proof. intros Hr. destruct (invariant_reachable d s Hr) as [_ Honce _]. by apply NoDup_app in Honce as (_ & _ & ?). Qed.

(** Write-ahead: whenever a command has been handed to the adapter, even
    if the process dies right there, its journal record is in a phase
    (executing, stabilizing, completed or verify_and_notify) from which it
    cannot be executed again. *)
Lemma executed_is_journaled d s key :
  rtc sys_step (at_rest d) s -> key ∈ sy_executed s -> late key (sy_db s).
Proof.
  intros Hr Hin. destruct (invariant_reachable d s Hr) as [_ _ Hlate]. apply Hlate.
  unfold claims. apply elem_of_app. by right.
Qed.

(** The local decision on a command is immutable: no later call of
    [Decide] changes or removes an approval record or the index entry that
    makes it the decision of its command. *)
Lemma Decide_immutable env request d key v :
  kv_get d BucketApprovals key = Some v ->
  kv_get (Decide env request d).2 BucketApprovals key = Some v.
Proof.
  intros Hg. destruct (Decide_cases env request d) as [(e & d' & -> & _ & Ha)|(now & id & o & d' & He & ->)];
    cbn [snd]; [by rewrite Ha|].
  destruct He as [e _ Ha|stored r d1 _ _ _ _ _ Ha|stored r doc d1 Hf _ _ _ _ _ Hn1 Hn2 a _ _ _ Hst Hs];
    [by rewrite Ha..|].
  apply findRecord_some in Hf as (_ & _ & _ & _ & _ & Hc).
  apply store_decision_ok in Hst as (d2 & d3 & Hp1 & Hp2 & Hp3).
  change (apr_ApprovalID a) with id in *.
  change (apr_CommandID a) with (cmd_CommandID (jr_Command (sr_record stored))) in Hp2. rewrite Hc in Hp2.
  rewrite (Hs BucketApprovals ltac:(discriminate) key).
  apply putRecord_ok in Hp3 as (_ & _ & doc' & _ & Hp3).
  rewrite (Put_same _ _ _ _ _ _ BucketApprovals Hp3 ltac:(discriminate) key).
  rewrite (Put_get_ne _ _ _ _ _ _ _ Hp2) by congruence.
  by rewrite (Put_get_ne _ _ _ _ _ _ _ Hp1) by congruence.
Qed.

(** An accepted decision was made on a command awaiting approval that had
    no decision, before the command and the grant expire and with a grant that
    does not outlive the command; what is stored is exactly the request's
    decision, and a denial ends the command. *)
Lemma Decide_accepts env request d res d' :
  Decide env request d = (Ok res, d') ->
  exists stored now,
    findRecordByCommandID (adr_CommandID request) d = Ok (Some stored, d) /\
    in_phase (sr_record stored) phaseAwaitingApproval RecoveryPending = true /\
    cmd_ApprovalID (jr_Command (sr_record stored)) = "" /\
    before now (cmd_ExpiresAt (jr_Command (sr_record stored))) = true /\
    before now (adr_ExpiresAt request) = true /\
    after (adr_ExpiresAt request) (cmd_ExpiresAt (jr_Command (sr_record stored))) = false /\
    kv_get d BucketApprovals (approvalCommandKey (adr_CommandID request)) = None /\
    apr_CommandID (res_Approval res) = adr_CommandID request /\
    apr_Decision (res_Approval res) = adr_Decision request /\
    apr_ApproverIdentity (res_Approval res) = adr_ActorIdentity request /\
    apr_ExpiresAt (res_Approval res) = adr_ExpiresAt request /\
    cmd_ApprovalID (res_Command res) = apr_ApprovalID (res_Approval res) /\
    (adr_Decision request = ApprovalDenied -> cmd_State (res_Command res) = RecoveryDenied) /\
    (adr_Decision request <> ApprovalDenied -> cmd_State (res_Command res) = RecoveryPending) /\
    kv_get d' BucketApprovals (approvalCommandKey (adr_CommandID request)) =
      Some (Bytes (apr_ApprovalID (res_Approval res))) /\
    kv_get d' BucketApprovals (approvalRecordKey (apr_ApprovalID (res_Approval res))) =
      Marshal (res_Approval res).
Proof.
  intros Hd. destruct (Decide_cases env request d) as [(e & d1 & Hd1 & _)|(now & id & o & d1 & He & Hd1)];
    rewrite Hd1 in Hd; [done|].
  destruct He as [e _ Ha|stored r d2 _ _ _ _ _ Ha|stored r doc d2 Hf Hph Hnone Hb1 Hb2 Haf Hn1 Hn2 a _ Hm Htr Hst Hs];
    [done..|]. injection Hd as <- <-. exists stored, now.
  pose proof (findRecord_some _ _ _ _ Hf) as (_ & _ & _ & _ & _ & Hc).
  apply store_decision_ok in Hst as (d3 & d4 & Hp1 & Hp2 & Hp3). cbn [res_Approval res_Command].
  change (apr_CommandID a) with (cmd_CommandID (jr_Command (sr_record stored))) in *. rewrite Hc in Hp2.
  apply putRecord_ok in Hp3 as (_ & _ & doc' & _ & Hp3).
  assert (Hkept : forall k, k <> approvalCommandKey (adr_CommandID request) ->
    kv_get d1 BucketApprovals k = kv_get d3 BucketApprovals k).
  { intros k Hk. rewrite (Hs BucketApprovals ltac:(discriminate) k).
    rewrite (Put_same _ _ _ _ _ _ BucketApprovals Hp3 ltac:(discriminate) k). by eapply Put_get_ne. }
  apply in_phase_eq in Hph as Hph'. destruct Hph' as [_ Hstate].
  split_and!; try done.
  - destruct (String.eqb (adr_Decision request) ApprovalDenied); [|by injection Htr as <-].
    unfold transitionToDenied in Htr. by journal_update.
  - intros Heq. rewrite Heq in Htr. cbn in Htr. unfold transitionToDenied in Htr. by journal_update.
  - intros Hne. rewrite (proj2 (String.eqb_neq _ _) Hne) in Htr. by injection Htr as <-.
  - rewrite (Hs BucketApprovals ltac:(discriminate) _).
    rewrite (Put_same _ _ _ _ _ _ BucketApprovals Hp3 ltac:(discriminate) _). by eapply Put_get.
  - rewrite Hkept by done. rewrite Hm. by eapply Put_get.
Qed.
End RecoveryProperties.

(** C2: no execution without a current authorization: whatever the outside and
    the store answer, when a submission or a resumption hands a command to the
    adapter, the state source was read twice before it and both readings
    allowed the command before its expiry, the adapter's own validation passed
    between them, and the action executed is the one [startExecution] read
    back from the journal right before. *)
Theorem executions_authorized (op : prog Submission) publisher evs p' ev :
  (exists request, op = Submit publisher request) \/ (exists commandID, op = Resume publisher commandID) ->
  follows op evs p' -> ev ∈ evs -> executes ev -> exists record, authorized_execution record evs ev.
Proof.
  intros [[request ->]|[commandID ->]]; [apply Submit_executes|apply Resume_executes].
Qed.

(** C3: reconciliation after a restart and the completion of a stabilization
    never execute, whatever they are answered. *)
Theorem Reconcile_never_executes evs p' ev commandID succeeded evs' q' ev' :
  follows Reconcile evs p' -> ev ∈ evs ->
  follows (CompleteStabilization commandID succeeded) evs' q' -> ev' ∈ evs' ->
  ~ executes ev /\ ~ executes ev'.
Proof.
  intros Hf Hin Hf' Hin'. split; intros He.
  - eapply executes_in_quiet; [|exact Hf|exact Hin|exact He]. unfold Reconcile, reconcilableRecords. quiet_prog.
  - eapply executes_in_quiet; [|exact Hf'|exact Hin'|exact He].
    unfold CompleteStabilization, find_record, completeStabilization. quiet_prog.
Qed.

(** * Examples *)

Definition ten : time := unixEpoch + 10 * hour.
Definition sample_action : TypedAction := mkTypedAction ActionDockerContainerRestart "container:web" second 0.
Definition sample_runbook (tier : string) : Runbook :=
  Runbook_zero <| rb_SchemaVersion := SchemaVersionV1 |> <| rb_RunbookID := "restart-web" |>
    <| rb_Digest := "digest" |> <| rb_TypedActions := [sample_action] |> <| rb_RiskTier := tier |>
    <| rb_AutoExecute := true |> <| rb_RetryPolicy := mkRetryPolicy 1 |>
    <| rb_StabilizationPolicy := mkStabilizationPolicy 1 second |>.
Definition sample_snapshot (tier : string) : Snapshot :=
  mkSnapshot [mkRegisteredRunbook (sample_runbook tier) "web" false] ["local:uid:1000"].
Definition sample_target : ServiceTarget :=
  mkServiceTarget SchemaVersionV1 "web" docker_AdapterType "container:web" [] EvidencePolicy_zero
    StabilizationPolicy_zero true.
Definition sample_input : Input :=
  mkInput "restart-web" "digest" "web" 0 "" true [] [] "" ∅ 0 0 0 None false.
Definition sample_request (tier : string) : Request :=
  mkRequest "inc-1" sample_target (sample_snapshot tier) sample_input (ten + hour) "delivery-1".
Definition sample_outside (tier : string) : outside :=
  mkOutside ten (Ok "cmd-1")
    (fun _ => Ok (mkExecutionState sample_target (sample_snapshot tier) sample_input))
    (Ok tt) (Ok tt) (fun _ => Fail ErrInvalidRequest) (Ok tt).
Definition journal0 : @db gmapBolt :=
  {[BucketCommandJournal := ∅; BucketApprovals := ∅; BucketAudit := ∅]}.
Definition sample_key : string := recordKey
  (RecoveryCommand_zero <| cmd_IncidentID := "inc-1" |> <| cmd_RunbookID := "restart-web" |>
     <| cmd_RunbookDigest := "digest" |> <| cmd_TargetID := "web" |>).

(** A low-risk submission, run to its end. *)
Definition sample_run : unit * @db gmapBolt * list event :=
  run (sample_outside RiskLow) (program (OpSubmit true (sample_request RiskLow))) journal0.
Definition sample_end : system := mkSystem sample_run.1.2 [Ret tt] (executed_in sample_run.2 ++ []).

Lemma sample_reached : rtc sys_step (at_rest journal0) sample_end.
Proof.
  eapply rtc_l; [apply (sys_start journal0 [] [] (OpSubmit true (sample_request RiskLow)))|].
  exact (run_reaches (sample_outside RiskLow) (program (OpSubmit true (sample_request RiskLow))) journal0 [] []).
Qed.
Lemma sample_executed : sy_executed sample_end = [sample_key].
Proof. vm_compute. reflexivity. Qed.

Lemma at_most_once_witness : sy_executed sample_end = [sample_key] /\ NoDup (sy_executed sample_end).
Proof.
  split; [exact sample_executed|]. exact (at_most_once (H := gmapBolt) journal0 sample_end sample_reached).
Defined.

Lemma executed_is_journaled_witness : late sample_key (sy_db sample_end).
Proof.
  apply (executed_is_journaled (H := gmapBolt) journal0 sample_end sample_key sample_reached).
  rewrite sample_executed. apply list_elem_of_here.
Defined.

Lemma executions_authorized_witness :
  let evs := (run (sample_outside RiskLow) (Submit true (sample_request RiskLow)) journal0).2 in
  exists ev record, ev ∈ evs /\ authorized_execution record evs ev.
Proof.
  cbn zeta.
  exists (EvExecute sample_key sample_target sample_action (Ok tt)).
  assert (Hin : EvExecute sample_key sample_target sample_action (Ok tt) ∈
    (run (sample_outside RiskLow) (Submit true (sample_request RiskLow)) journal0).2).
  { apply (list_elem_of_lookup_2 _ 11). vm_compute. reflexivity. }
  destruct (executions_authorized (Submit true (sample_request RiskLow)) true _ _ _
    (or_introl (ex_intro _ (sample_request RiskLow) eq_refl))
    (run_follows (sample_outside RiskLow) (Submit true (sample_request RiskLow)) journal0) Hin) as [record Ha].
  - discriminate.
  - exists record. exact (conj Hin Ha).
Defined.

Lemma Reconcile_never_executes_witness :
  ~ executes (EvReconcilable (Ok [])) /\ ~ executes (EvFind "cmd-1" (Ok None)).
Proof.
  apply (Reconcile_never_executes [EvReconcilable (Ok [])] (Ret ([], None)) _ "cmd-1" true
    [EvFind "cmd-1" (Ok None)] (Ret (RecoveryCommand_zero, Some ErrInvalidRequest))).
  - eapply follows_cons; [apply answers_reconcilable|apply follows_nil].
  - apply list_elem_of_here.
  - eapply follows_cons; [apply answers_find|apply follows_nil].
  - apply list_elem_of_here.
Defined.

(** A high-risk submission waits; a local administrator grants it. *)
Definition journal1 : @db gmapBolt := (run (sample_outside RiskHigh) (Submit true (sample_request RiskHigh)) journal0).1.2.
Definition sample_env (approvalID eventID : string) (t : time) : decision_env :=
  mkDecisionEnv t t (Ok approvalID) (Ok eventID).
Definition sample_decision (decision : string) (expires : time) : ApprovalDecisionRequest :=
  mkApprovalDecisionRequest "cmd-1" decision "local:uid:1000" "req-1" "checked" expires.
Definition granted : result ApprovalDecisionResult * @db gmapBolt :=
  Decide (sample_env "approval-1" "evt-1" ten) (sample_decision ApprovalGranted (ten + minute)) journal1.
Definition journal2 : @db gmapBolt := granted.2.

Lemma Decide_accepts_witness :
  exists res d' stored now,
    Decide (sample_env "approval-1" "evt-1" ten) (sample_decision ApprovalGranted (ten + minute)) journal1 =
      (Ok res, d') /\
    findRecordByCommandID "cmd-1" journal1 = Ok (Some stored, journal1) /\
    before now (cmd_ExpiresAt (jr_Command (sr_record stored))) = true /\
    cmd_ApprovalID (res_Command res) = apr_ApprovalID (res_Approval res).
Proof.
  destruct (Decide (sample_env "approval-1" "evt-1" ten) (sample_decision ApprovalGranted (ten + minute)) journal1)
    as [[res|e] d'] eqn:Ed.
  - destruct (Decide_accepts (H := gmapBolt) (sample_env "approval-1" "evt-1" ten)
      (sample_decision ApprovalGranted (ten + minute)) journal1 res d' Ed)
      as (stored & now & Hf & _ & _ & Hb & _ & _ & _ & _ & _ & _ & _ & Hid & _).
    exists res, d', stored, now. exact (conj eq_refl (conj Hf (conj Hb Hid))).
  - apply (f_equal (fun p => is_ok p.1)) in Ed. vm_compute in Ed. discriminate Ed.
Defined.

Lemma Decide_immutable_witness :
  kv_get (Decide (sample_env "approval-2" "evt-2" ten) (sample_decision ApprovalDenied (ten + minute)) journal2).2
    BucketApprovals (approvalCommandKey "cmd-1") = Some (Bytes "approval-1").
Proof.
  apply (Decide_immutable (H := gmapBolt)). vm_compute. reflexivity.
Defined.

(** The state a command is left in, and its expiry. *)
Definition command_of (d : @db gmapBolt) : option journalRecord :=
  match findRecordByCommandID "cmd-1" d with Ok (Some stored, _) => Some (sr_record stored) | _ => None end.
Definition state_of (d : @db gmapBolt) : option (string * string) :=
  (fun r => (jr_Phase r, cmd_State (jr_Command r))) <$> command_of d.
Definition expiry_of (d : @db gmapBolt) : option time := (fun r => cmd_ExpiresAt (jr_Command r)) <$> command_of d.
Definition refused : result ApprovalDecisionResult * @db gmapBolt :=
  Decide (sample_env "approval-1" "evt-1" ten) (sample_decision ApprovalGranted (ten - minute)) journal1.

(** A decision whose own expiry is in the past expires the command for
    good, although the command is still valid and could be decided again. *)
Lemma Decide_past_grant_expires_command :
  state_of journal1 = Some (phaseAwaitingApproval, RecoveryPending) /\ expiry_of journal1 = Some (ten + hour) /\
  refused.1 = Fail ErrApprovalCommandExpired /\ state_of refused.2 = Some (phaseCompleted, RecoveryExpired).
Proof. split_and!; vm_compute; reflexivity. Qed.
