(* ===== verification/Stabilization.v ===== *)
(** The stabilization verifier of src/internal/stabilization/verifier.go: one
    bounded health sample at a time, a durable result per command and attempt,
    and the recheck of the policy before a retry is scheduled.

    The clock, the probe and the retry state source answer a call of [Verify]
    with the fields of [surroundings]; the finalizer is an interface with the
    frame the verifier relies on, and the recovery coordinator is an instance.
    Telemetry is best effort and leaves no state. *)
From S2P Require Import Prelude GoLib GoTime Sha256 Json Contract ContractFacts.
From S2P Require Import Store Policy Journal AuditChain Approval Coordinator RecoverySystem.
From Stdlib Require Import SpecFloat.
From stdpp Require Import options.
Local Open Scope Z_scope.

Definition maxRecoverySamples : Z := 256.
Definition maxStabilizationDocSize : Z := 64 * 1024.
Definition stabilizationKeyPrefix : string := "stabilization/".

Definition stabilization_error := mkError "stabilization".
Definition ErrInvalidOptions := stabilization_error "invalid stabilization verifier options".
Definition ErrInvalidRequest := stabilization_error "invalid stabilization request".
Definition ErrCorruptResult := stabilization_error "corrupt stabilization result".

(** The sentinels of the docker and context packages a probe error may wrap. *)
Definition docker_ErrUnavailable := mkError "docker" "docker engine unavailable".
Definition docker_ErrTimeout := mkError "docker" "docker request timed out".
Definition context_DeadlineExceeded := mkError "context" "context deadline exceeded".

Definition OutcomePending : string := "pending".
Definition OutcomeSucceeded : string := "succeeded".
Definition OutcomeRetryScheduled : string := "retry_scheduled".
Definition OutcomeFailed : string := "failed".

Definition FailureNone : string := "".
Definition FailureUnhealthy : string := "unhealthy".
Definition FailureFlapping : string := "flapping".
Definition FailureTimeout : string := "timeout".
Definition FailureMetricRegression : string := "metric_regression".
Definition FailureDockerUnavailable : string := "docker_unavailable".
Definition FailureProbe : string := "probe_failed".

(** * Data *)

Record Sample := mkSample {
  sm_Healthy : bool;
  sm_Metrics : gmap string float64;
}.

Record RetryState := mkRetryState {
  rt_Target : ServiceTarget;
  rt_PolicySnapshot : Snapshot;
  rt_PolicyInput : Input;
}.

Record Request := mkRequest {
  rq_Command : RecoveryCommand;
  rq_Target : ServiceTarget;
  rq_Policy : StabilizationPolicy;
  rq_RetryPolicy : RetryPolicy;
  rq_Attempt : Z;
}.

Record Result := mkResult {
  rs_CommandID : string;
  rs_ExecutionSucceeded : bool;
  rs_Attempt : Z;
  rs_StartedAt : time;
  rs_HealthySamples : Z;
  rs_Outcome : string;
  rs_FailureReason : string;
  rs_RetryReason : string;
  rs_NextAttempt : Z;
}.
Definition Result_zero : Result := mkResult "" false 0 0 0 "" "" "" 0.

Record resultRecord := mkResultRecord {
  rec_SchemaVersion : string;
  rec_CommandID : string;
  rec_ExecutionSucceeded : bool;
  rec_Attempt : Z;
  rec_StartedAt : time;
  rec_HealthySamples : Z;
  rec_Outcome : string;
  rec_FailureReason : string;
  rec_RetryReason : string;
  rec_NextAttempt : Z;
}.
#[export] Instance resultRecord_eta : Updatable resultRecord :=
  fun r => mkResultRecord (rec_SchemaVersion r) (rec_CommandID r) (rec_ExecutionSucceeded r) (rec_Attempt r)
    (rec_StartedAt r) (rec_HealthySamples r) (rec_Outcome r) (rec_FailureReason r) (rec_RetryReason r)
    (rec_NextAttempt r).
Definition resultRecord_zero : resultRecord := mkResultRecord "" "" false 0 0 0 "" "" "" 0.
#[export] Instance resultRecord_json : GoJson resultRecord := struct_json resultRecord_zero [
  field_of "schema_version" rec_SchemaVersion never;
  field_of "command_id" rec_CommandID never;
  field_of "execution_succeeded" rec_ExecutionSucceeded never;
  field_of "attempt" rec_Attempt never;
  field_time "started_at" rec_StartedAt;
  field_of "healthy_samples" rec_HealthySamples never;
  field_of "outcome" rec_Outcome never;
  field_of "failure_reason" rec_FailureReason empty_string;
  field_of "retry_reason" rec_RetryReason empty_string;
  field_of "next_attempt" rec_NextAttempt never].

(** What the clock, the probe and the retry state source answer. *)
Record surroundings := mkSurroundings {
  at_now : time;
  at_probe : result Sample;
  at_retry : result RetryState;
}.

(** [CommandFinalizer], which may change the store it shares. *)
Class CommandFinalizer `{Bolt} := complete_stabilization : string -> bool -> db -> result RecoveryCommand * db.

(** What the verifier relies on: the finalizer leaves its results alone. *)
Class FinalizerFrame `{CommandFinalizer} :=
  finalizer_frame commandID succeeded d :
    same_bucket BucketStabilizationResults d (complete_stabilization commandID succeeded d).2.

(** * Validation *)

Definition validateRequest (request : Request) : result unit :=
  if negb (is_ok (RecoveryCommand_Validate (rq_Command request))) ||
     negb (String.eqb (cmd_State (rq_Command request)) RecoveryStabilizing) ||
     negb (String.eqb (tgt_SchemaVersion (rq_Target request)) SchemaVersionV1) ||
     negb (tgt_Enabled (rq_Target request)) ||
     negb (String.eqb (tgt_TargetID (rq_Target request)) (cmd_TargetID (rq_Command request))) ||
     (sp_RecoverySamples (rq_Policy request) <? 1) ||
     (maxRecoverySamples <? sp_RecoverySamples (rq_Policy request)) ||
     (sp_Window (rq_Policy request) <=? 0) || (rp_MaxAttempts (rq_RetryPolicy request) <? 1) ||
     (rq_Attempt request <? 0) || (rp_MaxAttempts (rq_RetryPolicy request) <=? rq_Attempt request)
  then Fail ErrInvalidRequest else Ok tt.

Definition validFailureReason (reason : string) : bool :=
  existsb (String.eqb reason)
    [FailureNone; FailureUnhealthy; FailureFlapping; FailureTimeout; FailureMetricRegression;
     FailureDockerUnavailable; FailureProbe].

Definition validateRecord (record : resultRecord) : result unit :=
  if negb (String.eqb (rec_SchemaVersion record) SchemaVersionV1) || String.eqb (rec_CommandID record) "" ||
     negb (rec_ExecutionSucceeded record) || (rec_Attempt record <? 0) || is_zero (rec_StartedAt record) ||
     (rec_HealthySamples record <? 0) || (maxRecoverySamples <? rec_HealthySamples record) ||
     (rec_NextAttempt record <? -1)
  then Fail ErrCorruptResult
  else
    let unfailed := String.eqb (rec_FailureReason record) FailureNone && String.eqb (rec_RetryReason record) "" &&
                    (rec_NextAttempt record =? -1) in
    let failed := validFailureReason (rec_FailureReason record) &&
                  negb (String.eqb (rec_FailureReason record) FailureNone) in
    if String.eqb (rec_Outcome record) OutcomePending then if unfailed then Ok tt else Fail ErrCorruptResult
    else if String.eqb (rec_Outcome record) OutcomeSucceeded then if unfailed then Ok tt else Fail ErrCorruptResult
    else if String.eqb (rec_Outcome record) OutcomeRetryScheduled then
      if failed && String.eqb (rec_RetryReason record) ReasonAllowed &&
         (rec_NextAttempt record =? rec_Attempt record + 1)
      then Ok tt else Fail ErrCorruptResult
    else if String.eqb (rec_Outcome record) OutcomeFailed then
      if failed && (rec_NextAttempt record =? -1) then Ok tt else Fail ErrCorruptResult
    else Fail ErrCorruptResult.

Definition validSample (sample : Sample) : bool :=
  forallb (fun kv => is_finite kv.2) (map_to_list (sm_Metrics sample)).

Fixpoint metricsMeetRules (metrics : gmap string float64) (rules : list ProbeRule) : bool :=
  match rules with
  | [] => true
  | rule :: rest =>
    match metrics !! pr_SignalType rule with
    | None => false
    | Some value =>
      if String.eqb (pr_SignalType rule) "availability" then
        if SFltb value (pr_Threshold rule) then false else metricsMeetRules metrics rest
      else if SFltb (pr_Threshold rule) value then false
      else metricsMeetRules metrics rest
    end
  end.

Definition probeFailureReason (e : error) : string :=
  if decide (e = docker_ErrUnavailable) then FailureDockerUnavailable
  else if decide (e = docker_ErrTimeout \/ e = context_DeadlineExceeded) then FailureTimeout
  else FailureProbe.

Definition sameTarget (left right : ServiceTarget) : bool :=
  String.eqb (tgt_SchemaVersion left) (tgt_SchemaVersion right) &&
  String.eqb (tgt_TargetID left) (tgt_TargetID right) &&
  String.eqb (tgt_AdapterType left) (tgt_AdapterType right) &&
  String.eqb (tgt_Selector left) (tgt_Selector right) && Bool.eqb (tgt_Enabled left) (tgt_Enabled right).

Definition resultKey (commandID : string) (attempt : Z) : string :=
  String.append stabilizationKeyPrefix
    (sha256_hex (String.append commandID (String.append (of_bytes [0]) (itoa attempt)))).

Definition record_result (r : resultRecord) : Result :=
  mkResult (rec_CommandID r) (rec_ExecutionSucceeded r) (rec_Attempt r) (rec_StartedAt r) (rec_HealthySamples r)
    (rec_Outcome r) (rec_FailureReason r) (rec_RetryReason r) (rec_NextAttempt r).

(** The input a retry is evaluated with. *)
Definition retryInput (request : Request) (input : Input) (now : time) : Input :=
  input <| in_CommandID := cmd_CommandID (rq_Command request) |>
        <| in_RunbookDigest := cmd_RunbookDigest (rq_Command request) |>
        <| in_Now := now |>
        <| in_AttemptCount := Z.max (in_AttemptCount input) (rq_Attempt request + 1) |>.

Definition retryDecision (loaded : result RetryState) (request : Request) (now : time) : result Decision :=
  loaded ≫= fun state =>
  let input := rt_PolicyInput state in
  if negb (String.eqb (in_RunbookID input) (cmd_RunbookID (rq_Command request))) ||
     negb (String.eqb (in_TargetID input) (cmd_TargetID (rq_Command request))) ||
     negb (in_ActionIndex input =? cmd_ActionIndex (rq_Command request)) ||
     negb (sameTarget (rt_Target state) (rq_Target request))
  then Ok (mkDecision VerdictDeny ReasonInvalidPolicy)
  else Ok (Evaluate (rt_PolicySnapshot state) (retryInput request input now)).

(** [v.now]. *)
Definition checked_now (now : time) : result time :=
  if is_zero (utc now) then Fail ErrInvalidOptions else Ok (utc now).

(** * The verifier *)

Definition result_options : DecodeOptions resultRecord :=
  {| MaxBytes := maxStabilizationDocSize; SchemaVersion := SchemaVersionV1; Validate := Some validateRecord |}.

Section Verifier.
Context `{CommandFinalizer}.

Definition load (commandID : string) (attempt : Z) (d : db) : result (option resultRecord) :=
  View (Get BucketStabilizationResults (resultKey commandID attempt) ≫= fun found =>
        match found with
        | None => mret None
        | Some document =>
          match Decode document result_options with
          | Ok decoded => mret (Some decoded)
          | Fail _ => st_fail ErrCorruptResult
          end
        end) d ≫= fun found =>
  match found with
  | None => Ok None
  | Some record =>
    if negb (String.eqb (rec_CommandID record) commandID) || negb (rec_Attempt record =? attempt)
    then Fail ErrCorruptResult else Ok (Some record)
  end.

Definition persist (record : resultRecord) (d : db) : result unit * db :=
  if negb (is_ok (validateRecord record)) then (Fail ErrCorruptResult, d)
  else match Marshal record with
       | None => (Fail (mkError "json" "unsupported value"), d)
       | Some document =>
         Update (Put BucketStabilizationResults (resultKey (rec_CommandID record) (rec_Attempt record)) document) d
       end.

Definition complete (commandID : string) (succeeded : bool) (d : db) : result unit * db :=
  let out := complete_stabilization commandID succeeded d in
  (match out.1 with Ok _ => Ok tt | Fail e => Fail e end, out.2).

(** [persist] and the return of the record's result. *)
Definition conclude (record : resultRecord) (err : option error) (d : db) : returned Result * db :=
  match persist record d with
  | (Fail e, d') => ((Result_zero, Some e), d')
  | (Ok _, d') => ((record_result record, err), d')
  end.
(** [complete], then [conclude]. *)
Definition finish (record : resultRecord) (succeeded : bool) (err : option error) (d : db) : returned Result * db :=
  match complete (rec_CommandID record) succeeded d with
  | (Fail e, d') => ((Result_zero, Some e), d')
  | (Ok _, d') => conclude record err d'
  end.

Definition fail (env : surroundings) (request : Request) (record : resultRecord) (now : time) (reason : string)
    (d : db) : returned Result * db :=
  let record := record <| rec_FailureReason := reason |> <| rec_HealthySamples := 0 |> <| rec_NextAttempt := -1 |> in
  if rq_Attempt request + 1 <? rp_MaxAttempts (rq_RetryPolicy request) then
    match retryDecision (at_retry env) request now with
    | Fail e =>
      finish (record <| rec_Outcome := OutcomeFailed |> <| rec_RetryReason := ReasonInvalidPolicy |>) false (Some e) d
    | Ok decision =>
      let record := record <| rec_RetryReason := ReasonCode decision |> in
      finish (if String.eqb (Verdict decision) VerdictAllow
              then record <| rec_Outcome := OutcomeRetryScheduled |> <| rec_NextAttempt := rq_Attempt request + 1 |>
              else record <| rec_Outcome := OutcomeFailed |>) false None d
    end
  else
    finish (record <| rec_Outcome := OutcomeFailed |> <| rec_RetryReason := ReasonRetryExhausted |>) false None d.

Definition new_record (request : Request) (now : time) : resultRecord :=
  mkResultRecord SchemaVersionV1 (cmd_CommandID (rq_Command request)) true (rq_Attempt request) now 0
    OutcomePending "" "" (-1).

(** The part of [Verify] that takes the sample. *)
Definition sample_once (env : surroundings) (request : Request) (record : resultRecord) (now : time) (d : db) :
    returned Result * db :=
  let deadline := time_add (rec_StartedAt record) (sp_Window (rq_Policy request)) in
  if after now deadline then fail env request record now FailureTimeout d
  else
    match at_probe env with
    | Fail e => fail env request record now (probeFailureReason e) d
    | Ok sample =>
      if negb (validSample sample) then fail env request record now FailureProbe d
      else if negb (sm_Healthy sample) then
        fail env request record now
          (if 0 <? rec_HealthySamples record then FailureFlapping else FailureUnhealthy) d
      else if negb (metricsMeetRules (sm_Metrics sample) (tgt_ProbeRules (rq_Target request)))
      then fail env request record now FailureMetricRegression d
      else
        let record := record <| rec_HealthySamples := rec_HealthySamples record + 1 |> in
        if (sp_RecoverySamples (rq_Policy request) <=? rec_HealthySamples record) && negb (before now deadline)
        then finish (record <| rec_Outcome := OutcomeSucceeded |>) true None d
        else conclude record None d
    end.

Definition Verify (env : surroundings) (request : Request) (d : db) : returned Result * db :=
  match validateRequest request with
  | Fail _ => ((Result_zero, Some ErrInvalidRequest), d)
  | Ok _ =>
    match checked_now (at_now env) with
    | Fail e => ((Result_zero, Some e), d)
    | Ok now =>
      match load (cmd_CommandID (rq_Command request)) (rq_Attempt request) d with
      | Fail e => ((Result_zero, Some e), d)
      | Ok (Some record) =>
        if negb (String.eqb (rec_Outcome record) OutcomePending) then ((record_result record, None), d)
        else sample_once env request record now d
      | Ok None => sample_once env request (new_record request now) now d
      end
    end
  end.
End Verifier.

(** * Facts *)

Definition resultRecord_ok (r : resultRecord) : bool :=
  valid_utf8 (rec_SchemaVersion r) && valid_utf8 (rec_CommandID r) && int64_ok (rec_Attempt r)
   && time_printable (rec_StartedAt r) && int64_ok (rec_HealthySamples r) && valid_utf8 (rec_Outcome r)
   && valid_utf8 (rec_FailureReason r) && valid_utf8 (rec_RetryReason r) && int64_ok (rec_NextAttempt r).
Lemma resultRecord_rtv r :
  resultRecord_ok r = true -> json_rtv resultRecord_json r (rec_SchemaVersion r).
Proof. destruct r. unfold resultRecord_ok, resultRecord_json. struct_rtv. Qed.

(** Only printable instants are written. *)
Lemma Marshal_printable r doc : Marshal r = Some doc -> time_printable (rec_StartedAt r) = true.
Proof.
  destruct r. unfold Marshal. cbn. destruct (time_printable _); [done|]. done.
Qed.
#[local] Arguments resultRecord_json : simpl never.

(** The record of an attempt as [Verify] leaves it in the store. *)
Definition stored `{Bolt} (record : resultRecord) (d : db) : Prop :=
  validateRecord record = Ok tt /\
  exists doc, Marshal record = Some doc /\
    kv_get d BucketStabilizationResults (resultKey (rec_CommandID record) (rec_Attempt record)) = Some doc.

(** A sample that confirms the recovery. *)
Definition confirming (env : surroundings) (request : Request) : Prop :=
  exists sample, at_probe env = Ok sample /\ validSample sample = true /\ sm_Healthy sample = true /\
    metricsMeetRules (sm_Metrics sample) (tgt_ProbeRules (rq_Target request)) = true.

Definition deadline (request : Request) (record : resultRecord) : time :=
  time_add (rec_StartedAt record) (sp_Window (rq_Policy request)).

Definition failed_record (prev : resultRecord) (reason retry outcome : string) (next : Z) : resultRecord :=
  prev <| rec_FailureReason := reason |> <| rec_HealthySamples := 0 |> <| rec_RetryReason := retry |>
       <| rec_Outcome := outcome |> <| rec_NextAttempt := next |>.

(** Why a failed attempt is not retried: the budget is spent, or the policy
    does not allow another command now. *)
Definition no_retry (env : surroundings) (request : Request) (now : time) (retry : string) : Prop :=
  (rp_MaxAttempts (rq_RetryPolicy request) <= rq_Attempt request + 1 /\ retry = ReasonRetryExhausted) \/
  (rq_Attempt request + 1 < rp_MaxAttempts (rq_RetryPolicy request) /\
   exists decision, retryDecision (at_retry env) request now = Ok decision /\
     Verdict decision <> VerdictAllow /\ retry = ReasonCode decision).

(** One observation of a pending attempt. *)
Inductive verified (env : surroundings) (request : Request) (now : time) (prev : resultRecord) :
    resultRecord -> Prop :=
| verified_sample :
    confirming env request -> now <= deadline request prev ->
    rec_HealthySamples prev + 1 < sp_RecoverySamples (rq_Policy request) \/ now < deadline request prev ->
    verified env request now prev (prev <| rec_HealthySamples := rec_HealthySamples prev + 1 |>)
| verified_success :
    confirming env request -> now = deadline request prev ->
    sp_RecoverySamples (rq_Policy request) <= rec_HealthySamples prev + 1 ->
    verified env request now prev
      (prev <| rec_HealthySamples := rec_HealthySamples prev + 1 |> <| rec_Outcome := OutcomeSucceeded |>)
| verified_failure reason retry :
    deadline request prev < now \/ ~ confirming env request -> reason <> FailureNone ->
    valid_utf8 reason = true -> no_retry env request now retry ->
    verified env request now prev (failed_record prev reason retry OutcomeFailed (-1))
| verified_retry reason state :
    deadline request prev < now \/ ~ confirming env request -> reason <> FailureNone ->
    valid_utf8 reason = true ->
    rq_Attempt request + 1 < rp_MaxAttempts (rq_RetryPolicy request) ->
    at_retry env = Ok state -> sameTarget (rt_Target state) (rq_Target request) = true ->
    Verdict (Evaluate (rt_PolicySnapshot state) (retryInput request (rt_PolicyInput state) now)) = VerdictAllow ->
    verified env request now prev
      (failed_record prev reason ReasonAllowed OutcomeRetryScheduled (rq_Attempt request + 1)).

Lemma probeFailureReason_some e :
  probeFailureReason e <> FailureNone /\ valid_utf8 (probeFailureReason e) = true.
Proof. unfold probeFailureReason. repeat case_decide; done. Qed.

Lemma no_retry_utf8 env request now retry : no_retry env request now retry -> valid_utf8 retry = true.
Proof.
  intros [[_ ->]|(_ & decision & Hd & _ & ->)]; [done|]. unfold retryDecision in Hd.
  destruct (at_retry env); cbn [mbind result_bind] in Hd; [|done].
  destruct (_ || _); injection Hd as <-; [done|apply Evaluate_reason_utf8].
Qed.

Section VerifierFacts.
Context `{FinalizerFrame} `{!BoltLaws}.
#[local] Set Default Proof Using "Type*".

Lemma persist_ok record d d' : persist record d = (Ok tt, d') -> stored record d'.
Proof.
  unfold persist. destruct (validateRecord record) as [[]|] eqn:Ev; [|done]. cbn [is_ok negb].
  destruct (Marshal record) as [doc|] eqn:Em; [|done]. intros Hp%Update_ok. split; [done|].
  exists doc. split; [done|]. by eapply Put_get.
Qed.

Lemma conclude_ok record err d r d' :
  conclude record err d = ((r, None), d') -> r = record_result record /\ stored record d'.
Proof.
  unfold conclude. destruct (persist record d) as [[[]|] d1] eqn:E; intros Heq; simplify_eq.
  split; [done|]. by eapply persist_ok.
Qed.

Lemma finish_ok record succeeded err d r d' :
  finish record succeeded err d = ((r, None), d') -> err = None /\ r = record_result record /\ stored record d'.
Proof.
  unfold finish. destruct (complete _ _ _) as [[[]|] d1]; [|done]. intros Hc.
  pose proof (conclude_ok _ _ _ _ _ Hc). split; [|done].
  unfold conclude in Hc. destruct (persist record d1) as [[[]|] ?]; by simplify_eq.
Qed.

Lemma retryDecision_allow loaded request now decision :
  retryDecision loaded request now = Ok decision -> Verdict decision = VerdictAllow ->
  exists state, loaded = Ok state /\ sameTarget (rt_Target state) (rq_Target request) = true /\
    decision = Evaluate (rt_PolicySnapshot state) (retryInput request (rt_PolicyInput state) now).
Proof.
  unfold retryDecision. destruct loaded as [state|]; cbn [mbind result_bind]; [|done].
  destruct (_ || _) eqn:E; intros [= <-]; [done|]. intros _. bool_prop. by exists state.
Qed.

Lemma fail_ok env request prev now reason d r d' :
  deadline request prev < now \/ ~ confirming env request ->
  reason <> FailureNone /\ valid_utf8 reason = true ->
  fail env request prev now reason d = ((r, None), d') ->
  exists record, r = record_result record /\ verified env request now prev record /\ stored record d'.
Proof.
  intros Hwhy [Hreason Hutf]. unfold fail.
  destruct (Z.ltb_spec (rq_Attempt request + 1) (rp_MaxAttempts (rq_RetryPolicy request))) as [Hlt|Hge].
  - destruct (retryDecision _ _ _) as [decision|e] eqn:Er.
    + destruct (String.eqb_spec (Verdict decision) VerdictAllow) as [Hv|Hv]; intros (_ & -> & Hs)%finish_ok.
      * destruct (retryDecision_allow _ _ _ _ Er Hv) as (state & Hst & Ht & ->).
        exists (failed_record prev reason ReasonAllowed OutcomeRetryScheduled (rq_Attempt request + 1)).
        pose proof (allow_reason _ _ Hv) as Ha. rewrite Ha in *. split_and!; [done| |done]. by apply (verified_retry _ _ _ _ reason state).
      * exists (failed_record prev reason (ReasonCode decision) OutcomeFailed (-1)).
        split_and!; [done| |done]. constructor; try done. right. by eauto.
    + by intros (? & _)%finish_ok.
  - intros (_ & -> & Hs)%finish_ok.
    exists (failed_record prev reason ReasonRetryExhausted OutcomeFailed (-1)).
    split_and!; [done| |done]. constructor; try done. by left.
Qed.

Lemma sample_once_ok env request prev now d r d' :
  rec_Outcome prev = OutcomePending ->
  sample_once env request prev now d = ((r, None), d') ->
  exists record, r = record_result record /\ verified env request now prev record /\ stored record d'.
Proof.
  intros Hp. unfold sample_once. fold (deadline request prev). unfold after, before.
  destruct (Z.ltb_spec (deadline request prev) now) as [Hlate|Hintime].
  { apply fail_ok; [by left|done]. }
  destruct (at_probe env) as [sample|e] eqn:Epr.
  2:{ apply fail_ok; [|apply probeFailureReason_some]. right. intros (? & ? & _). congruence. }
  assert (Hno : validSample sample && sm_Healthy sample &&
                metricsMeetRules (sm_Metrics sample) (tgt_ProbeRules (rq_Target request)) = false ->
                deadline request prev < now \/ ~ confirming env request).
  { intros Hb. right. intros (sample' & Hs & A1 & A2 & A3). rewrite Epr in Hs. injection Hs as <-.
    by rewrite A1, A2, A3 in Hb. }
  destruct (validSample sample) eqn:E1; cbn [negb andb] in *; [|by apply fail_ok; auto].
  destruct (sm_Healthy sample) eqn:E2; cbn [negb andb] in *.
  2:{ apply fail_ok; [auto|]. by destruct (0 <? _). }
  destruct (metricsMeetRules _ _) eqn:E3; cbn [negb] in *; [|by apply fail_ok; auto].
  assert (Hgood : confirming env request) by (by exists sample). clear Hno.
  cbv zeta. cbn [rec_HealthySamples set_field].
  destruct (Z.leb_spec (sp_RecoverySamples (rq_Policy request)) (rec_HealthySamples prev + 1)) as [Hn|Hn];
    destruct (Z.ltb_spec now (deadline request prev)) as [Ht|Ht]; cbn [negb andb].
  - intros [-> Hs]%conclude_ok. eexists. split_and!; [done| |exact Hs]. apply verified_sample; auto.
  - intros (_ & -> & Hs)%finish_ok. eexists. split_and!; [done| |exact Hs].
    apply verified_success; [done|lia|done].
  - intros [-> Hs]%conclude_ok. eexists. split_and!; [done| |exact Hs]. apply verified_sample; auto.
  - intros [-> Hs]%conclude_ok. eexists. split_and!; [done| |exact Hs]. apply verified_sample; auto.
Qed.

(** The attempt a request observes: its pending record, or a new one. *)
Definition observes (env : surroundings) (request : Request) (d : db) (prev : resultRecord) : Prop :=
  (load (cmd_CommandID (rq_Command request)) (rq_Attempt request) d = Ok (Some prev) /\
   rec_Outcome prev = OutcomePending) \/
  (load (cmd_CommandID (rq_Command request)) (rq_Attempt request) d = Ok None /\
   prev = new_record request (utc (at_now env))).

Lemma Verify_cases env request d r d' :
  Verify env request d = ((r, None), d') ->
  validateRequest request = Ok tt /\ utc (at_now env) <> 0 /\
  exists record, r = record_result record /\
    ((load (cmd_CommandID (rq_Command request)) (rq_Attempt request) d = Ok (Some record) /\
      rec_Outcome record <> OutcomePending /\ d' = d) \/
     (exists prev, observes env request d prev /\ verified env request (utc (at_now env)) prev record /\
        stored record d')).
Proof.
  unfold Verify. destruct (validateRequest request) as [[]|]; [|done].
  unfold checked_now, is_zero. destruct (Z.eqb_spec (utc (at_now env)) 0); [done|].
  destruct (load _ _ d) as [[prev|]|] eqn:El; [| |done].
  - destruct (String.eqb_spec (rec_Outcome prev) OutcomePending) as [Hp|Hp]; cbn [negb].
    + intros (record & -> & Hv & Hs)%sample_once_ok; [|done]. split_and!; [done..|]. exists record. split; [done|].
      right. exists prev. split_and!; [|done..]. by left.
    + intros [= <- <-]. split_and!; [done..|]. exists prev. split; [done|]. by left.
  - intros (record & -> & Hv & Hs)%sample_once_ok; [|done]. split_and!; [done..|]. exists record. split; [done|].
    right. exists (new_record request (utc (at_now env))). split_and!; [|done..]. by right.
Qed.

Lemma verified_same env request now prev record :
  verified env request now prev record ->
  rec_SchemaVersion record = rec_SchemaVersion prev /\ rec_CommandID record = rec_CommandID prev /\
  rec_Attempt record = rec_Attempt prev /\ rec_StartedAt record = rec_StartedAt prev.
Proof. by destruct 1. Qed.

Lemma load_some commandID attempt d record :
  load commandID attempt d = Ok (Some record) ->
  validateRecord record = Ok tt /\ rec_CommandID record = commandID /\ rec_Attempt record = attempt.
Proof.
  unfold load, View.
  match goal with |- context [ match ?m d with Ok _ => _ | Fail _ => _ end ] => destruct (m d) as [[found d1]|] eqn:E end;
    [|done]. cbn [mbind result_bind].
  destruct found as [r|]; [|done].
  destruct (String.eqb_spec (rec_CommandID r) commandID); [|done].
  destruct (Z.eqb_spec (rec_Attempt r) attempt); [|done]. intros [= ->]. split; [|done].
  apply st_bind_ok in E as (o & d2 & _ & E). destruct o as [doc|]; [|done].
  destruct (Decode doc result_options) as [r'|] eqn:Ed; [|done]. injection E as -> ->.
  apply Decode_ok in Ed as (j & v & _ & Hv & Hx & _). by injection Hv as <-.
Qed.

Lemma observes_keys env request d prev :
  observes env request d prev ->
  rec_CommandID prev = cmd_CommandID (rq_Command request) /\ rec_Attempt prev = rq_Attempt request.
Proof. intros [[(_ & ? & ?)%load_some _]|[_ ->]]; done. Qed.

Lemma validateRecord_utf8 record :
  validateRecord record = Ok tt ->
  valid_utf8 (rec_SchemaVersion record) = true /\ valid_utf8 (rec_Outcome record) = true /\
  int64_ok (rec_HealthySamples record) = true /\ 0 <= rec_Attempt record.
Proof.
  unfold validateRecord. pass_guard E. bool_prop. intros Hout.
  match goal with X : String.eqb (rec_SchemaVersion record) _ = true |- _ => apply String.eqb_eq in X as -> end.
  unfold maxRecoverySamples in *. split_and!; [done| |unfold int64_ok, minInt64, maxInt64; bool_prop; lia|lia].
  repeat match goal with X : context [ String.eqb (rec_Outcome record) ?p ] |- _ =>
    destruct (String.eqb_spec (rec_Outcome record) p) as [->|]; [done|] end. done.
Qed.

(** What a call of [Verify] stores, the next one loads. *)
Lemma load_stored record d :
  stored record d -> resultRecord_ok record = true ->
  (forall doc, kv_get d BucketStabilizationResults (resultKey (rec_CommandID record) (rec_Attempt record)) = Some doc ->
     doc_len doc <= maxStabilizationDocSize) ->
  load (rec_CommandID record) (rec_Attempt record) d = Ok (Some record).
Proof.
  intros (Hv & doc & Hm & Hg) Hok Hlen.
  assert (Hver : rec_SchemaVersion record = SchemaVersionV1).
  { unfold validateRecord in Hv. destruct (String.eqb_spec (rec_SchemaVersion record) SchemaVersionV1); [done|].
    discriminate Hv. }
  destruct (Decode_rtv record result_options validateRecord) as (doc' & Hm' & Hd); [..|];
    [cbn [SchemaVersion result_options]; rewrite <- Hver; by apply resultRecord_rtv|done|done|done|done|].
  rewrite Hm in Hm'. injection Hm' as <-.
  unfold load, View.
  assert (HG : Get BucketStabilizationResults (resultKey (rec_CommandID record) (rec_Attempt record)) d =
               Ok (Some doc, d)).
  { apply Get_ok. split_and!; [reflexivity|by eapply get_has|discriminate|by symmetry|reflexivity]. }
  unfold mbind at 2, st_bind. rewrite HG, Hd by (by apply Hlen). cbn [mbind result_bind mret st_ret].
  by rewrite String.eqb_refl, Z.eqb_refl.
Qed.
End VerifierFacts.

(** A valid succeeded record carries no failure. *)
Lemma succeeded_record record :
  validateRecord record = Ok tt -> rec_Outcome record = OutcomeSucceeded ->
  record = mkResultRecord SchemaVersionV1 (rec_CommandID record) true (rec_Attempt record) (rec_StartedAt record)
    (rec_HealthySamples record) OutcomeSucceeded "" "" (-1).
Proof.
  destruct record as [v id ex att st n out f rt nx]. unfold validateRecord. cbn. intros Hv ->. revert Hv.
  destruct (String.eqb_spec v SchemaVersionV1) as [->|]; [|by cbn]. destruct ex; cbn; [|by destruct (String.eqb id ""); cbn].
  pass_guard E. cbn. destruct (String.eqb_spec f FailureNone); [|done].
  destruct (String.eqb_spec rt ""); [|done]. destruct (Z.eqb_spec nx (-1)); [|done]. intros _. by subst.
Qed.

Lemma pending_record record :
  validateRecord record = Ok tt -> rec_Outcome record = OutcomePending ->
  rec_FailureReason record = "" /\ rec_RetryReason record = "" /\ rec_NextAttempt record = -1.
Proof.
  unfold validateRecord. intros Hv Hp. revert Hv. rewrite Hp. pass_guard E. cbn.
  destruct (String.eqb_spec (rec_FailureReason record) FailureNone); [|done].
  destruct (String.eqb_spec (rec_RetryReason record) ""); [|done].
  destruct (Z.eqb_spec (rec_NextAttempt record) (-1)); done.
Qed.

Lemma too_many_samples record :
  maxRecoverySamples < rec_HealthySamples record -> is_ok (validateRecord record) = false.
Proof.
  intros Hn. unfold validateRecord. destruct (Z.ltb_spec maxRecoverySamples (rec_HealthySamples record)); [|lia].
  by rewrite orb_true_r.
Qed.

(** Everything [Verify] stores keeps its meaning through the store. *)
Lemma verified_ok `{FinalizerFrame} `{!BoltLaws} env request d now prev record doc :
  validateRequest request = Ok tt -> observes env request d prev -> verified env request now prev record ->
  valid_utf8 (cmd_CommandID (rq_Command request)) = true ->
  rp_MaxAttempts (rq_RetryPolicy request) <= maxInt64 ->
  validateRecord record = Ok tt -> Marshal record = Some doc -> resultRecord_ok record = true.
Proof.
  intros Hreq Ho Hv Hid Hmax Hval Hm.
  pose proof (observes_keys _ _ _ _ Ho) as [Hc Ha].
  destruct (verified_same _ _ _ _ _ Hv) as (_ & Hc' & Ha' & _).
  pose proof (validateRecord_utf8 _ Hval) as (U1 & U2 & U3 & U4). pose proof (Marshal_printable _ _ Hm) as U5.
  assert (Hatt : rq_Attempt request + 1 <= maxInt64).
  { unfold validateRequest in Hreq. destruct (_ || _) eqn:E in Hreq; [done|]. bool_prop. lia. }
  unfold resultRecord_ok. rewrite U1, U2, U3, U5, Hc', Hc, Hid, Ha', Ha. cbn [andb].
  rewrite Ha', Ha in U4.
  assert (I : forall z, -1 <= z <= maxInt64 -> int64_ok z = true).
  { intros z Hz. unfold int64_ok, minInt64. bool_prop; lia. }
  assert (Hfields : valid_utf8 (rec_FailureReason prev) = true /\ valid_utf8 (rec_RetryReason prev) = true /\
                    rec_NextAttempt prev = -1).
  { destruct Ho as [[(Hpv & _ & _)%load_some Hp]|[_ ->]]; [|done].
    by destruct (pending_record _ Hpv Hp) as (-> & -> & ->). }
  destruct Hfields as (F1 & F2 & F3).
  destruct Hv as [| |reason retry _ _ Hu Hre|reason state _ _ Hu _ _ _ _];
    cbn [failed_record rec_FailureReason rec_RetryReason rec_NextAttempt set_field];
    try apply no_retry_utf8 in Hre.
  - by rewrite F1, F2, F3, !I by lia.
  - by rewrite F1, F2, F3, !I by lia.
  - by rewrite Hu, Hre, !I by lia.
  - rewrite Hu. rewrite !I by lia. reflexivity.
Qed.

(** * Properties *)

Section Properties.
Context `{FinalizerFrame} `{!BoltLaws}.
#[local] Set Default Proof Using "Type*".

(** C10: a call of [Verify] that returns no error either returns the durable
    terminal result of the attempt and changes nothing, or makes one legal
    observation of the pending attempt and stores exactly the result it
    returns: a counted sample, a success, or a failure that is retried only
    within the budget and with the current policy's consent. *)
Theorem Verify_effect env request d r d' :
  Verify env request d = ((r, None), d') ->
  exists record, r = record_result record /\
    ((load (cmd_CommandID (rq_Command request)) (rq_Attempt request) d = Ok (Some record) /\
      rec_Outcome record <> OutcomePending /\ d' = d) \/
     (exists prev, observes env request d prev /\ verified env request (utc (at_now env)) prev record /\
        stored record d')).
Proof. by intros (_ & _ & ?)%Verify_cases. Qed.

(** An attempt can only succeed in a call made at one nanosecond: the
    clock must read exactly the end of the stabilization window, since an
    earlier call leaves the attempt pending and a later one fails it. *)
Lemma Verify_succeeds_at_one_instant env request d r d' :
  Verify env request d = ((r, None), d') -> rs_Outcome r = OutcomeSucceeded ->
  load (cmd_CommandID (rq_Command request)) (rq_Attempt request) d = Ok (Some (mkResultRecord SchemaVersionV1
    (rs_CommandID r) true (rs_Attempt r) (rs_StartedAt r) (rs_HealthySamples r) OutcomeSucceeded "" "" (-1))) \/
  (utc (at_now env) = time_add (rs_StartedAt r) (sp_Window (rq_Policy request)) /\
   sp_RecoverySamples (rq_Policy request) <= rs_HealthySamples r /\ confirming env request).
Proof.
  intros (Hreq & _ & record & -> & Hcase)%Verify_cases Hr. cbn [record_result rs_Outcome] in Hr.
  destruct Hcase as [(Hl & _ & _)|(prev & Ho & Hv & Hs)].
  - left. pose proof (load_some _ _ _ _ Hl) as (Hv & _). rewrite Hl. do 2 f_equal.
    by apply succeeded_record.
  - right. destruct Hv; cbn in Hr |- *; [|by split_and!|discriminate Hr|discriminate Hr].
    destruct Ho as [[_ Hp]|[_ ->]]; [rewrite Hp in Hr|]; discriminate Hr.
Qed.

(** A retry is scheduled only for the next attempt, within the request's
    budget and the registered runbook's, against the current registration of
    the same target, and with a live human grant whenever the runbook needs
    approval. *)
Lemma Verify_retry_authorized env request d r d' :
  Verify env request d = ((r, None), d') -> rs_Outcome r = OutcomeRetryScheduled ->
  load (cmd_CommandID (rq_Command request)) (rq_Attempt request) d = Ok None ->
  rs_NextAttempt r = rq_Attempt request + 1 /\
  rs_NextAttempt r < rp_MaxAttempts (rq_RetryPolicy request) /\
  exists state reg action, at_retry env = Ok state /\
    sameTarget (rt_Target state) (rq_Target request) = true /\
    let input := retryInput request (rt_PolicyInput state) (utc (at_now env)) in
    recoverable (rt_PolicySnapshot state) input reg action /\
    rs_NextAttempt r < rp_MaxAttempts (rb_RetryPolicy (rr_Runbook reg)) /\
    (needsApproval (rr_Runbook reg) = true -> exists a, Policy.granted (rt_PolicySnapshot state) input a).
Proof.
  intros (_ & _ & record & -> & Hcase)%Verify_cases Hr Hnone. cbn [record_result rs_Outcome] in Hr.
  destruct Hcase as [(Hl & _)|(prev & Ho & Hv & Hs)]; [congruence|].
  destruct Ho as [[Hl _]|[_ ->]]; [congruence|].
  inversion Hv as [Hg Ht Hn Heq|Hg Ht Hn Heq|reason retry Hwhy Hreason Hutf Hre Heq
                  |reason state Hwhy Hreason Hutf Hlt Hst Ht Hal Heq]; subst record; cbn in Hr; try discriminate Hr.
  cbn [record_result failed_record rs_NextAttempt rec_NextAttempt set_field]. split_and!; [done|done|].
  destruct (allow_recoverable _ _ Hal) as (reg & action & Hrec & Hgr). exists state, reg, action.
  pose proof (rec_attempts _ _ _ _ Hrec) as Hatt. cbn [retryInput in_AttemptCount set_field] in Hatt.
  split_and!; [done..|lia|]. intros Hneed. destruct Hgr as [Hgr|[_ Hno]]; [done|congruence].
Qed.

(** A terminal result is final and durable: every later call for that
    command and attempt, whatever the clock, the probe and the policy say by
    then, returns the same result and leaves the store as it is. *)
Lemma Verify_final env request d r d' env' :
  Verify env request d = ((r, None), d') -> rs_Outcome r <> OutcomePending ->
  valid_utf8 (cmd_CommandID (rq_Command request)) = true ->
  rp_MaxAttempts (rq_RetryPolicy request) <= maxInt64 ->
  (forall doc, kv_get d' BucketStabilizationResults
                 (resultKey (cmd_CommandID (rq_Command request)) (rq_Attempt request)) = Some doc ->
     doc_len doc <= maxStabilizationDocSize) ->
  utc (at_now env') <> 0 ->
  Verify env' request d' = ((r, None), d').
Proof.
  intros (Hreq & Hnow & record & -> & Hcase)%Verify_cases Hr Hid Hmax Hlen Hnow'.
  cbn [record_result rs_Outcome] in Hr.
  assert (Hl : load (cmd_CommandID (rq_Command request)) (rq_Attempt request) d' = Ok (Some record)).
  { destruct Hcase as [(Hl & _ & ->)|(prev & Ho & Hv & Hs)]; [done|].
    pose proof (observes_keys _ _ _ _ Ho) as [Hc Ha].
    destruct (verified_same _ _ _ _ _ Hv) as (_ & Hc' & Ha' & _). rewrite Hc in Hc'. rewrite Ha in Ha'.
    rewrite <- Hc', <- Ha'. apply load_stored; [done| |by rewrite Hc', Ha'].
    destruct Hs as (Hval & doc & Hm & _). by eapply verified_ok. }
  unfold Verify. rewrite Hreq. unfold checked_now, is_zero. destruct (Z.eqb_spec (utc (at_now env')) 0); [done|].
  rewrite Hl. destruct (String.eqb_spec (rec_Outcome record) OutcomePending); done.
Qed.

(** The sample counter has no room past 256: after 256 samples of a
    pending attempt, a further confirming one inside the window is refused as
    corrupt and the attempt stays as it was. *)
Lemma Verify_sample_257 env request d record :
  validateRequest request = Ok tt -> utc (at_now env) <> 0 ->
  load (cmd_CommandID (rq_Command request)) (rq_Attempt request) d = Ok (Some record) ->
  rec_Outcome record = OutcomePending -> rec_HealthySamples record = maxRecoverySamples ->
  confirming env request -> utc (at_now env) < deadline request record ->
  Verify env request d = ((Result_zero, Some ErrCorruptResult), d).
Proof.
  intros Hreq Hnow Hl Hp Hn (sample & Hpr & Hvs & Hh & Hm) Ht. unfold Verify. rewrite Hreq.
  unfold checked_now, is_zero. destruct (Z.eqb_spec (utc (at_now env)) 0); [done|]. rewrite Hl, Hp. cbn [negb].
  unfold sample_once. fold (deadline request record). unfold after, before.
  destruct (Z.ltb_spec (deadline request record) (utc (at_now env))); [lia|].
  rewrite Hpr, Hvs, Hh, Hm. cbn [negb]. destruct (Z.ltb_spec (utc (at_now env)) (deadline request record)); [|lia].
  cbv zeta. rewrite andb_false_r. unfold conclude, persist.
  rewrite too_many_samples; [done|]. cbn [rec_HealthySamples set_field]. lia.
Qed.

(** Completing the command and storing the result are two transactions: if
    the process dies between them, the attempt is still pending while the
    finalizer refuses to fail a command it has completed, so every later call
    past the window fails and the attempt never gets a result. *)
Theorem Verify_lost_result env request d record e :
  validateRequest request = Ok tt -> utc (at_now env) <> 0 ->
  load (cmd_CommandID (rq_Command request)) (rq_Attempt request) d = Ok (Some record) ->
  rec_Outcome record = OutcomePending -> deadline request record < utc (at_now env) ->
  (complete_stabilization (cmd_CommandID (rq_Command request)) false d).1 = Fail e ->
  (Verify env request d).1 = (Result_zero, Some e) /\
  same_bucket BucketStabilizationResults d (Verify env request d).2.
Proof.
  intros Hreq Hnow Hl Hp Ht Hc.
  pose proof (finalizer_frame (cmd_CommandID (rq_Command request)) false d) as Hframe. unfold Verify. rewrite Hreq.
  unfold checked_now, is_zero. destruct (Z.eqb_spec (utc (at_now env)) 0); [done|]. rewrite Hl, Hp. cbn [negb].
  apply load_some in Hl as (_ & Hid & _).
  assert (Hf : forall r err, rec_CommandID r = cmd_CommandID (rq_Command request) ->
                 finish r false err d = ((Result_zero, Some e), (complete_stabilization (rec_CommandID r) false d).2)).
  { intros r err Hr. unfold finish, complete. by rewrite Hr, Hc. }
  unfold sample_once. fold (deadline request record). unfold after.
  destruct (Z.ltb_spec (deadline request record) (utc (at_now env))); [|lia].
  rewrite <- Hid in Hframe.
  unfold fail. destruct (_ <? _); [|by rewrite Hf]. destruct (retryDecision _ _ _) as [decision|]; [|by rewrite Hf].
  by destruct (String.eqb (Verdict decision) VerdictAllow); rewrite Hf.
Qed.
End Properties.

(** * The recovery coordinator as the finalizer *)

Section Finalizer.
Context `{Bolt}.

(** [CompleteStabilization] run to its end; its only steps are on the store. *)
Definition coordinator_finalizer (o : outside) : CommandFinalizer := fun commandID succeeded d =>
  let out := run o (CompleteStabilization commandID succeeded) d in
  (match out.1.1 with (command, None) => Ok command | (_, Some e) => Fail e end, out.1.2).

(** A program that changes nothing but records of the journal. *)
Fixpoint journal_only {R : Type} (p : prog R) : Prop :=
  match p with
  | Ret _ => True
  | UpdateRecord _ _ k => forall a, journal_only (k a)
  | FindRecord _ k => forall a, journal_only (k a)
  | _ => False
  end.

Lemma update_record_same `{!BoltLaws} key u d b :
  b <> BucketCommandJournal -> same_bucket b d (Update (update_record key u) d).2.
Proof.
  intros Hb. destruct (Update_cases (update_record key u) d) as [(r & d' & Hu & ->)|(e & ->)]; [|by intros k].
  apply update_record_ok in Hu as (r0 & _ & doc & doc' & _ & _ & _ & _ & _ & _ & Hp). by eapply Put_same.
Qed.

Lemma journal_only_same `{!BoltLaws} {R} o (p : prog R) d b :
  b <> BucketCommandJournal -> journal_only p -> same_bucket b d (run o p d).1.2.
Proof.
  intros Hb. revert d. induction p; cbn -[Update View]; intros d Hp; try done.
  - etrans; [by apply update_record_same|]. by match goal with X : forall a d, _ |- _ => apply X end.
  - by match goal with X : forall a d, _ |- _ => apply X end.
Qed.

#[export] Instance coordinator_frame `{!BoltLaws} o : FinalizerFrame (H0 := coordinator_finalizer o).
Proof.
  intros commandID succeeded d. apply journal_only_same; [done|].
  unfold CompleteStabilization. destruct (negb _); [done|]. intros [[stored|]|]; try done. cbn -[in_phase].
  destruct (in_phase _ _ _); [done|]. unfold completeStabilization.
  destruct succeeded; cbn; by intros [].
Qed.
End Finalizer.

(** * Examples *)

Definition stabilizing_db : @db gmapBolt := <[BucketStabilizationResults := ∅]> sample_run.1.2.
#[local] Instance sample_finalizer : CommandFinalizer (H := gmapBolt) := coordinator_finalizer (sample_outside RiskLow).
Definition stabilizing_request (attempts : Z) : Request :=
  mkRequest (default RecoveryCommand_zero (jr_Command <$> command_of stabilizing_db)) sample_target
    (mkStabilizationPolicy 2 minute) (mkRetryPolicy attempts) 0.
Definition healthy : result Sample := Ok (mkSample true ∅).
Definition unhealthy : result Sample := Ok (mkSample false ∅).
Definition retry_state : result RetryState :=
  Ok (mkRetryState sample_target
        (mkSnapshot [mkRegisteredRunbook (sample_runbook RiskLow <| rb_RetryPolicy := mkRetryPolicy 3 |>) "web" false]
           ["local:uid:1000"]) sample_input).
Definition observed (t : time) (probe : result Sample) : surroundings := mkSurroundings t probe retry_state.

Definition stabilizing1 : @db gmapBolt := (Verify (observed ten healthy) (stabilizing_request 1) stabilizing_db).2.
Definition at_deadline : returned Result * @db gmapBolt :=
  Verify (observed (ten + minute) healthy) (stabilizing_request 1) stabilizing1.

(** The outcome and the failure reason of a call without an error. *)
Definition verdict_of (out : returned Result * @db gmapBolt) : option (string * string * Z) :=
  match out.1 with (r, None) => Some (rs_Outcome r, rs_FailureReason r, rs_HealthySamples r) | _ => None end.

Example verify_run :
  verdict_of (Verify (observed ten healthy) (stabilizing_request 1) stabilizing_db) = Some (OutcomePending, "", 1) /\
  verdict_of at_deadline = Some (OutcomeSucceeded, "", 2) /\
  verdict_of (Verify (observed (ten + minute + 1) healthy) (stabilizing_request 1) stabilizing1) =
    Some (OutcomeFailed, FailureTimeout, 0) /\
  verdict_of (Verify (observed (ten + 1) unhealthy) (stabilizing_request 1) stabilizing1) =
    Some (OutcomeFailed, FailureFlapping, 0) /\
  verdict_of (Verify (observed ten unhealthy) (stabilizing_request 3) stabilizing_db) =
    Some (OutcomeRetryScheduled, FailureUnhealthy, 0).
Proof. split_and!; vm_compute; reflexivity. Qed.

(** What the examples evaluate to. *)
Definition first_sample : returned Result * @db gmapBolt :=
  Verify (observed ten healthy) (stabilizing_request 1) stabilizing_db.
Definition retried : returned Result * @db gmapBolt :=
  Verify (observed ten unhealthy) (stabilizing_request 3) stabilizing_db.
Definition counted (n : Z) : resultRecord := new_record (stabilizing_request 1) ten <| rec_HealthySamples := n |>.

Lemma first_sample_returns : first_sample.1.2 = None.
Proof. vm_compute. reflexivity. Qed.
Lemma nothing_loaded n : load "cmd-1" (rq_Attempt (stabilizing_request n)) stabilizing_db = Ok None.
Proof. vm_compute. reflexivity. Qed.
Lemma counted_loaded : load "cmd-1" 0 stabilizing1 = Ok (Some (counted 1)).
Proof. vm_compute. reflexivity. Qed.
Lemma stabilizing_command n : cmd_CommandID (rq_Command (stabilizing_request n)) = "cmd-1".
Proof. vm_compute. reflexivity. Qed.
Lemma at_deadline_returns : at_deadline.1.2 = None.
Proof. vm_compute. reflexivity. Qed.
Lemma at_deadline_outcome : rs_Outcome at_deadline.1.1 = OutcomeSucceeded.
Proof. vm_compute. reflexivity. Qed.
Lemma retried_returns : retried.1.2 = None.
Proof. vm_compute. reflexivity. Qed.
Lemma retried_outcome : rs_Outcome retried.1.1 = OutcomeRetryScheduled.
Proof. vm_compute. reflexivity. Qed.
Lemma at_deadline_size :
  match kv_get at_deadline.2 BucketStabilizationResults (resultKey "cmd-1" 0) with
  | Some doc => doc_len doc <=? maxStabilizationDocSize
  | None => false
  end = true.
Proof. vm_compute. reflexivity. Qed.

Lemma split_returned (out : returned Result * @db gmapBolt) :
  out.1.2 = None -> out = ((out.1.1, None), out.2).
Proof. destruct out as [[r o] d]. by intros [= ->]. Qed.

#[local] Opaque Verify load.

Lemma Verify_effect_witness :
  exists record, first_sample.1.1 = record_result record /\ stored record first_sample.2.
Proof.
  destruct (Verify_effect (H := gmapBolt) _ _ _ _ _ (split_returned first_sample first_sample_returns))
    as (record & Hr & [(Hl & _ & _)|(prev & _ & _ & Hs)]).
  - rewrite stabilizing_command, nothing_loaded in Hl. discriminate Hl.
  - exists record. exact (conj Hr Hs).
Defined.

Lemma Verify_succeeds_at_one_instant_witness :
  utc (ten + minute) = time_add (rs_StartedAt at_deadline.1.1) minute /\ confirming (observed (ten + minute) healthy) (stabilizing_request 1).
Proof.
  destruct (Verify_succeeds_at_one_instant (H := gmapBolt) _ _ _ _ _
    (split_returned at_deadline at_deadline_returns) at_deadline_outcome)
    as [Hl|(Ht & _ & Hc)].
  - rewrite stabilizing_command in Hl. change (rq_Attempt (stabilizing_request 1)) with 0 in Hl.
    rewrite counted_loaded in Hl.
    apply (f_equal (fun l => match l with Ok (Some x) => rec_Outcome x | _ => "" end)) in Hl.
    change (OutcomePending = OutcomeSucceeded) in Hl. discriminate Hl.
  - exact (conj Ht Hc).
Defined.

Lemma Verify_retry_authorized_witness : rs_NextAttempt retried.1.1 = 1.
Proof.
  refine (proj1 (Verify_retry_authorized (H := gmapBolt) _ _ _ _ _
    (split_returned retried retried_returns) retried_outcome _)).
  rewrite stabilizing_command. apply nothing_loaded.
Defined.

Lemma Verify_final_witness :
  Verify (observed (ten + hour) unhealthy) (stabilizing_request 1) at_deadline.2 =
    ((at_deadline.1.1, None), at_deadline.2).
Proof.
  apply (Verify_final (H := gmapBolt) (observed (ten + minute) healthy) (stabilizing_request 1) stabilizing1).
  - exact (split_returned at_deadline at_deadline_returns).
  - rewrite at_deadline_outcome. discriminate.
  - rewrite stabilizing_command. reflexivity.
  - vm_compute. discriminate.
  - rewrite stabilizing_command. change (rq_Attempt (stabilizing_request 1)) with 0.
    intros doc Hd. pose proof at_deadline_size as Hs. rewrite Hd in Hs. apply Z.leb_le. exact Hs.
  - discriminate.
Defined.

(** A pending attempt with 256 counted samples. *)
Definition counted_db : @db gmapBolt := (persist (counted 256) stabilizing_db).2.

Lemma Verify_sample_257_witness :
  Verify (observed (ten + second) healthy) (stabilizing_request 1) counted_db =
    ((Result_zero, Some ErrCorruptResult), counted_db).
Proof.
  apply (Verify_sample_257 (H := gmapBolt) _ _ _ (counted 256)).
  - vm_compute. reflexivity.
  - discriminate.
  - vm_compute. reflexivity.
  - reflexivity.
  - reflexivity.
  - exists (mkSample true ∅). split; [reflexivity|]. split; [vm_compute; reflexivity|]. split; reflexivity.
  - vm_compute. reflexivity.
Defined.

(** The process died after the coordinator recorded the success. *)
Definition died : @db gmapBolt := (complete "cmd-1" true stabilizing1).2.

Lemma Verify_lost_result_witness :
  (Verify (observed (ten + hour) healthy) (stabilizing_request 1) died).1 =
    (Result_zero, Some errCommandNotExecutable).
Proof.
  refine (proj1 (Verify_lost_result (H := gmapBolt) (observed (ten + hour) healthy) (stabilizing_request 1) died
    (counted 1) errCommandNotExecutable _ _ _ _ _ _)).
  - vm_compute. reflexivity.
  - discriminate.
  - vm_compute. reflexivity.
  - reflexivity.
  - vm_compute. reflexivity.
  - vm_compute. reflexivity.
Defined.
