(* ===== verification/Delivery.v ===== *)
(** The outbound delivery queue of src/internal/delivery/delivery.go.

    [Dispatcher] holds what [New] keeps of its options; the payload source, the
    HTTP client and the context answer each attempt with the fields of
    [attempt_env], and [url.ParseRequestURI] is the argument [parse_uri] of
    [New].  [DeliverDue] calls are serialized by the dispatcher's mutex;
    [Enqueue] may run between any two transactions.  The request deadline only
    shortens an attempt and telemetry leaves no state. *)
From S2P Require Import Prelude GoLib GoTime Sha256 Webhook Json Contract ContractFacts Store Redaction AuditChain.
From S2P Require Import GoText.
From stdpp Require Import options.
Local Open Scope Z_scope.

Definition maxDestinationRefLength : Z := 128.
Definition maxPayloadRefLength : Z := 256.
Definition maxQueueItems : Z := 10000.
Definition maxAttempts : Z := 32.
Definition maxPayloadBytes : Z := 1048576.
Definition queueKeyPrefix : string := "delivery/".

Definition delivery_error := mkError "delivery".
Definition ErrInvalidOptions := delivery_error "invalid delivery options".
Definition ErrInvalidRequest := delivery_error "invalid delivery request".
Definition ErrQueueFull := delivery_error "delivery queue is full".
Definition ErrDeliveryConflict := delivery_error "delivery identity conflict".
Definition ErrCorruptQueue := delivery_error "corrupt delivery queue entry".
Definition ErrPayloadUnavailable := delivery_error "delivery payload source unavailable".

(** * Data *)

Record EnqueueRequest := mkEnqueueRequest {
  er_PayloadType : string;
  er_PayloadRef : string;
  er_DestinationRef : string;
  er_ExpiresAt : time;
}.

Record Dispatcher := mkDispatcher {
  dp_keyring : Keyring;
  dp_destinations : gmap string string;
  dp_maxQueueItems : Z;
  dp_maxAttempts : Z;
  dp_initialBackoff : duration;
  dp_maxBackoff : duration;
  dp_requestTimeout : duration;
  dp_maxPayloadBytes : Z;
}.

Record Result := mkResult {
  rs_Item : DeliveryQueueItem;
  rs_Sent : bool;
  rs_Retrying : bool;
  rs_ReasonCode : string;
}.

Record storedItem := mkStoredItem { si_key : string; si_item : DeliveryQueueItem }.

(** What [url.ParseRequestURI] makes of an endpoint. *)
Record uri := mkUri {
  uri_Scheme : string; uri_Host : string; uri_User : bool; uri_RawQuery : string; uri_Fragment : string;
  uri_String : string;
}.

(** The answers one [Enqueue] call reads. *)
Record enqueue_env := mkEnqueueEnv {
  ee_now : time;
  ee_deliveryID : result string;
  ee_webhookID : result string;
}.

(** The answers one delivery attempt reads: the context when the item is
    reached, after the payload is loaded and after the request; the payload; the
    response's status, if there is one; whether closing it failed; and the
    audit event identifier. *)
Record attempt_env := mkAttemptEnv {
  ae_context : option error;
  ae_payload : result document;
  ae_context_loaded : option error;
  ae_request : result unit;
  ae_response : result (option Z);
  ae_closed : bool;
  ae_context_sent : option error;
  ae_auditID : result string;
}.

(** * Validation *)

Definition validToken (value : string) (limit : Z) : bool :=
  negb (String.eqb value "") && (go_len value <=? limit) &&
  String.eqb (trim_space value) value && negb (contains_byte value 0).

Definition validateEnqueueRequest (request : EnqueueRequest) (destinations : gmap string string) : result unit :=
  if (negb (String.eqb (er_PayloadType request) DeliveryPayloadLifecycleEvent) &&
      negb (String.eqb (er_PayloadType request) DeliveryPayloadIncidentReport)) ||
     negb (validToken (er_PayloadRef request) maxPayloadRefLength) ||
     negb (validToken (er_DestinationRef request) maxDestinationRefLength) || is_zero (er_ExpiresAt request)
  then Fail ErrInvalidRequest
  else match destinations !! er_DestinationRef request with
       | None => Fail ErrInvalidRequest
       | Some _ => Ok tt
       end.

(** The loop of [validatedDestinations] over the entries. *)
Fixpoint validated_entries (parse_uri : string -> option uri) (entries : list (string * string))
    (validated : gmap string string) : result (gmap string string) :=
  match entries with
  | [] => Ok validated
  | (reference, endpoint) :: rest =>
    if negb (validToken reference maxDestinationRefLength) then Fail ErrInvalidOptions
    else match parse_uri endpoint with
         | None => Fail ErrInvalidOptions
         | Some parsed =>
           if negb (String.eqb (uri_Scheme parsed) "https") || String.eqb (uri_Host parsed) "" || uri_User parsed ||
              negb (String.eqb (uri_RawQuery parsed) "") || negb (String.eqb (uri_Fragment parsed) "")
           then Fail ErrInvalidOptions
           else validated_entries parse_uri rest (<[reference := uri_String parsed]> validated)
         end
  end.
Definition validatedDestinations (parse_uri : string -> option uri) (destinations : gmap string string) :
    result (gmap string string) :=
  let n := Z.of_nat (size destinations) in
  if (n =? 0) || (maxQueueItems <? n) then Fail ErrInvalidOptions
  else validated_entries parse_uri (map_to_list destinations) ∅.

(** [New]; its interface dependencies are present. *)
Definition New (parse_uri : string -> option uri) (options : Dispatcher) : result Dispatcher :=
  if (dp_maxQueueItems options <? 1) || (maxQueueItems <? dp_maxQueueItems options) ||
     (dp_maxAttempts options <? 1) || (maxAttempts <? dp_maxAttempts options) ||
     (dp_initialBackoff options <? millisecond) || (dp_maxBackoff options <? dp_initialBackoff options) ||
     (dp_requestTimeout options <? millisecond) || (2 * minute <? dp_requestTimeout options) ||
     (dp_maxPayloadBytes options <? 1) || (maxPayloadBytes <? dp_maxPayloadBytes options)
  then Fail ErrInvalidOptions
  else
    validatedDestinations parse_uri (dp_destinations options) ≫= fun destinations =>
    Ok (mkDispatcher (dp_keyring options) destinations (dp_maxQueueItems options) (dp_maxAttempts options)
          (dp_initialBackoff options) (dp_maxBackoff options) (dp_requestTimeout options) (dp_maxPayloadBytes options)).

(** * Backoff *)

(** The loop of [backoff]; [fuel] is the number of retries left before
    [attempt]. *)
Fixpoint backoff_loop (maxBackoff : duration) (fuel : nat) (backoff : duration) : duration :=
  match fuel with
  | O => Z.min backoff maxBackoff
  | S fuel' =>
    if backoff <? maxBackoff then
      if Z.quot maxBackoff 2 <? backoff then maxBackoff
      else backoff_loop maxBackoff fuel' (wrap64 (backoff * 2))
    else Z.min backoff maxBackoff
  end.
Definition backoff (d : Dispatcher) (attempt : Z) : duration :=
  if attempt <? 1 then dp_initialBackoff d
  else backoff_loop (dp_maxBackoff d) (Z.to_nat (attempt - 1)) (dp_initialBackoff d).

(** * The queue *)

Definition itemKey (deliveryID : string) : string := String.append queueKeyPrefix (sha256_hex deliveryID).

Definition item_options : DecodeOptions DeliveryQueueItem :=
  {| MaxBytes := MaxDocumentBytes; SchemaVersion := SchemaVersionV1; Validate := Some DeliveryQueueItem_Validate |}.
Definition decodeItem (doc : document) : result DeliveryQueueItem :=
  match Decode doc item_options with Ok item => Ok item | Fail _ => Fail ErrCorruptQueue end.

Definition pending (item : DeliveryQueueItem) : bool := String.eqb (itm_State item) DeliveryPending.

Definition checked_now (now : time) : result time :=
  if is_zero (utc now) then Fail ErrInvalidOptions else Ok (utc now).

Section Delivery.
Context `{Bolt}.

Definition countPending : st db Z :=
  ForEach BucketDeliveryQueue 0 (fun acc _ doc =>
    decodeItem doc ≫= fun item => Ok (if pending item then acc + 1 else acc)).

Definition webhookIDInUse (webhookID : string) : st db bool :=
  ForEach BucketDeliveryQueue false (fun acc _ doc =>
    decodeItem doc ≫= fun item => Ok (if String.eqb (itm_WebhookID item) webhookID then true else acc)).

Definition loadItem (key : string) : st db DeliveryQueueItem :=
  Get BucketDeliveryQueue key ≫= fun found =>
  match found with
  | None => st_fail ErrCorruptQueue
  | Some document => st_lift (decodeItem document)
  end.

Definition putItem (key : string) (item : DeliveryQueueItem) : st db unit :=
  if negb (String.eqb (itemKey (itm_DeliveryID item)) key) || negb (is_ok (DeliveryQueueItem_Validate item))
  then st_fail ErrCorruptQueue
  else match Marshal item with
       | None => st_fail (mkError "json" "unsupported value")
       | Some document => Put BucketDeliveryQueue key document
       end.

(** The transaction of [enqueue]. *)
Definition enqueue_body (d : Dispatcher) (item : DeliveryQueueItem) (mutation : option (st db unit)) : st db unit :=
  (match mutation with Some m => m | None => mret tt end) ≫= fun _ =>
  countPending ≫= fun pending =>
  if dp_maxQueueItems d <=? pending then st_fail ErrQueueFull
  else
    let key := itemKey (itm_DeliveryID item) in
    Get BucketDeliveryQueue key ≫= fun found =>
    match found with
    | Some _ => st_fail ErrDeliveryConflict
    | None =>
      webhookIDInUse (itm_WebhookID item) ≫= fun inUse =>
      if (inUse : bool) then st_fail ErrDeliveryConflict else putItem key item
    end.

(** The item [enqueue] builds. *)
Definition new_item (request : EnqueueRequest) (deliveryID webhookID : string) (now : time) : DeliveryQueueItem :=
  mkDeliveryQueueItem SchemaVersionV1 deliveryID (er_PayloadType request) (er_PayloadRef request) webhookID
    (er_DestinationRef request) 0 now (utc (er_ExpiresAt request)) DeliveryPending.

Definition enqueue (d : Dispatcher) (env : enqueue_env) (request : EnqueueRequest) (mutation : option (st db unit))
    (s : db) : result DeliveryQueueItem * db :=
  match validateEnqueueRequest request (dp_destinations d) with
  | Fail _ => (Fail ErrInvalidRequest, s)
  | Ok _ =>
    match checked_now (ee_now env) with
    | Fail e => (Fail e, s)
    | Ok now =>
      if negb (before now (er_ExpiresAt request)) then (Fail ErrInvalidRequest, s)
      else
        match ee_deliveryID env with
        | Fail _ => (Fail ErrInvalidRequest, s)
        | Ok deliveryID =>
          if negb (validToken deliveryID maxPayloadRefLength) then (Fail ErrInvalidRequest, s)
          else
            match ee_webhookID env with
            | Fail _ => (Fail ErrInvalidRequest, s)
            | Ok webhookID =>
              match Sign (dp_keyring d) webhookID now [] with
              | Fail _ => (Fail ErrInvalidRequest, s)
              | Ok _ =>
                let item := new_item request deliveryID webhookID now in
                match Update (enqueue_body d item mutation) s with
                | (Fail e, s') => (Fail e, s')
                | (Ok _, s') => (Ok item, s')
                end
              end
            end
        end
    end
  end.

Definition Enqueue (d : Dispatcher) (env : enqueue_env) (request : EnqueueRequest) (s : db) :
    result DeliveryQueueItem * db := enqueue d env request None s.
Definition EnqueueWithMutation (d : Dispatcher) (env : enqueue_env) (request : EnqueueRequest)
    (mutation : option (st db unit)) (s : db) : result DeliveryQueueItem * db :=
  match mutation with
  | None => (Fail ErrInvalidRequest, s)
  | Some _ => enqueue d env request mutation s
  end.

(** * Attempts *)

(** The transaction of [markDelivered]. *)
Definition delivered_body (key : string) (now : time) : st db DeliveryQueueItem :=
  loadItem key ≫= fun current =>
  if String.eqb (itm_State current) DeliveryDelivered then mret current
  else if negb (pending current) || negb (before now (itm_ExpiresAt current)) then st_fail ErrCorruptQueue
  else
    let current := current <| itm_AttemptCount := wrap64 (itm_AttemptCount current + 1) |>
                           <| itm_State := DeliveryDelivered |> in
    putItem key current ≫= fun _ => mret current.

Definition markDelivered (stored : storedItem) (now : time) (s : db) : result Result * db :=
  match Update (delivered_body (si_key stored) now) s with
  | (Fail e, s') => (Fail e, s')
  | (Ok updated, s') => (Ok (mkResult updated true false "delivered"), s')
  end.

(** The audit event of a delivery that failed for good. *)
Definition failure_event (auditID : string) (item : DeliveryQueueItem) (now : time) (reason : string) : AuditEvent :=
  mkAuditEvent SchemaVersionV1 auditID "delivery" (itm_DeliveryID item) "system" "delivery.failed" "failed" reason
    now "" "".

Definition auditDeliveryFailure (auditID : string) (item : DeliveryQueueItem) (now : time) (reason : string)
    (change : st db unit) : st db unit :=
  AuditChain.Append (failure_event auditID item now reason) (Some change) ≫= fun _ => mret tt.

(** The transaction of [markTerminal]. *)
Definition terminal_body (key auditID : string) (now : time) (state reason : string) : st db DeliveryQueueItem :=
  loadItem key ≫= fun current =>
  if String.eqb (itm_State current) state then mret current
  else if negb (pending current) then st_fail ErrCorruptQueue
  else
    let current := current <| itm_State := state |> in
    auditDeliveryFailure auditID current now reason (putItem key current) ≫= fun _ => mret current.

Definition markTerminal (auditID : result string) (stored : storedItem) (now : time) (state reason : string) (s : db) :
    result Result * db :=
  match auditID with
  | Fail _ => (Fail ErrInvalidRequest, s)
  | Ok auditID =>
    if negb (validToken auditID maxPayloadRefLength) then (Fail ErrInvalidRequest, s)
    else
      match Update (terminal_body (si_key stored) auditID now state reason) s with
      | (Fail e, s') => (Fail e, s')
      | (Ok updated, s') => (Ok (mkResult updated false false reason), s')
      end
  end.
Definition fail (auditID : result string) (stored : storedItem) (now : time) (reason : string) (s : db) :
    result Result * db := markTerminal auditID stored now DeliveryFailed reason s.
Definition expire (auditID : result string) (stored : storedItem) (now : time) (reason : string) (s : db) :
    result Result * db := markTerminal auditID stored now DeliveryExpired reason s.

(** The transaction that schedules a retry. *)
Definition retry_body (key : string) (nextAttempt : Z) (nextAt : time) : st db DeliveryQueueItem :=
  loadItem key ≫= fun current =>
  if negb (pending current) then st_fail ErrCorruptQueue
  else
    let current := current <| itm_AttemptCount := nextAttempt |> <| itm_NextAttemptAt := nextAt |> in
    putItem key current ≫= fun _ => mret current.

Definition retryOrFail (d : Dispatcher) (auditID : result string) (stored : storedItem) (now : time) (reason : string)
    (s : db) : result Result * db :=
  let nextAttempt := wrap64 (itm_AttemptCount (si_item stored) + 1) in
  if dp_maxAttempts d <=? nextAttempt then fail auditID stored now "attempts_exhausted" s
  else
    let nextAt := time_add now (backoff d nextAttempt) in
    if negb (before nextAt (itm_ExpiresAt (si_item stored))) then expire auditID stored now "expired" s
    else
      match Update (retry_body (si_key stored) nextAttempt nextAt) s with
      | (Fail e, s') => (Fail e, s')
      | (Ok updated, s') => (Ok (mkResult updated false true reason), s')
      end.

(** [json.Valid] on a payload. *)
Definition json_valid (body : document) : bool := match body with Text _ trailing => negb trailing | Bytes _ => false end.

(** [deliverOne], and whether a request was handed to the HTTP client. *)
Definition deliverOne (d : Dispatcher) (env : attempt_env) (stored : storedItem) (now : time) (s : db) :
    result Result * db * bool :=
  match ae_context_loaded env with
  | Some e => (Fail e, s, false)
  | None =>
    match ae_payload env with
    | Fail _ => (retryOrFail d (ae_auditID env) stored now "payload_unavailable" s, false)
    | Ok body =>
      if (doc_len body =? 0) || (dp_maxPayloadBytes d <? doc_len body) || negb (json_valid body)
      then (retryOrFail d (ae_auditID env) stored now "payload_unavailable" s, false)
      else
        match Sign (dp_keyring d) (itm_WebhookID (si_item stored)) now (bytes (doc_bytes body)) with
        | Fail e => (Fail e, s, false)
        | Ok _ =>
          match ae_request env with
          | Fail e => (Fail e, s, false)
          | Ok _ =>
            match ae_context_sent env with
            | Some e => (Fail e, s, true)
            | None =>
              match ae_response env with
              | Ok (Some status) =>
                if negb (ae_closed env) || (status <? 200) || (300 <=? status)
                then (retryOrFail d (ae_auditID env) stored now "endpoint_failed" s, true)
                else (markDelivered stored now s, true)
              | _ => (retryOrFail d (ae_auditID env) stored now "endpoint_failed" s, true)
              end
            end
          end
        end
    end
  end.

Definition pendingItems (s : db) : result (list storedItem) :=
  View (ForEach BucketDeliveryQueue [] (fun acc key doc =>
    decodeItem doc ≫= fun item =>
    if negb (String.eqb (itemKey (itm_DeliveryID item)) key) then Fail ErrCorruptQueue
    else Ok (if pending item then (acc ++ [mkStoredItem key item])%list else acc))) s.

(** A [DeliverDue] call so far: the results, the keys posted and the store. *)
Record progress := mkProgress { pg_results : list Result; pg_posted : list string; pg_db : db }.

(** The loop of [DeliverDue] over the pending items. *)
Fixpoint deliver_loop (d : Dispatcher) (env : string -> attempt_env) (now : time) (items : list storedItem)
    (p : progress) : progress * option error :=
  match items with
  | [] => (p, None)
  | stored :: rest =>
    let answers := env (si_key stored) in
    match ae_context answers with
    | Some e => (p, Some e)
    | None =>
      if negb (before now (itm_ExpiresAt (si_item stored))) then
        match expire (ae_auditID answers) stored now "expired" (pg_db p) with
        | (Fail e, s') => (mkProgress (pg_results p) (pg_posted p) s', Some e)
        | (Ok result, s') =>
          deliver_loop d env now rest (mkProgress (pg_results p ++ [result]) (pg_posted p) s')
        end
      else if before now (itm_NextAttemptAt (si_item stored)) then deliver_loop d env now rest p
      else
        let out := deliverOne d answers stored now (pg_db p) in
        let posted := if out.2 then (pg_posted p ++ [si_key stored])%list else pg_posted p in
        match out.1 with
        | (Fail e, s') => (mkProgress (pg_results p) posted s', Some e)
        | (Ok result, s') => deliver_loop d env now rest (mkProgress (pg_results p ++ [result]) posted s')
        end
    end
  end.

Definition DeliverDue (d : Dispatcher) (now : time) (env : string -> attempt_env) (s : db) :
    progress * option error :=
  match checked_now now with
  | Fail e => (mkProgress [] [] s, Some e)
  | Ok now =>
    match pendingItems s with
    | Fail e => (mkProgress [] [] s, Some e)
    | Ok items => deliver_loop d env now items (mkProgress [] [] s)
    end
  end.
End Delivery.

(** * Facts: the backoff *)

Lemma backoff_loop_closed m n b :
  1 <= b <= maxInt64 -> 1 <= m <= maxInt64 -> backoff_loop m n b = Z.min (b * 2 ^ Z.of_nat n) m.
Proof.
  revert b. induction n as [|n IH]; intros b Hb Hm.
  { cbn [backoff_loop]. change (2 ^ Z.of_nat 0) with 1. by rewrite Z.mul_1_r. }
  assert (Hpow : 2 ^ Z.of_nat (S n) = 2 * 2 ^ Z.of_nat n).
  { rewrite Nat2Z.inj_succ, Z.pow_succ_r by lia. done. }
  pose proof (Z.pow_pos_nonneg 2 (Z.of_nat n) ltac:(lia) ltac:(lia)).
  rewrite Hpow. cbn [backoff_loop]. rewrite Z.quot_div_nonneg by lia.
  destruct (Z.ltb_spec b m) as [Hlt|Hge]; [|nia].
  destruct (Z.ltb_spec (m / 2) b) as [Hhalf|Hhalf].
  - assert (m <= b * 2) by (Z.div_mod_to_equations; lia). nia.
  - assert (b * 2 <= m) by (Z.div_mod_to_equations; lia).
    rewrite wrap64_id by (unfold int64_ok, minInt64; bool_prop; lia). rewrite IH by lia. f_equal. lia.
Qed.

(** Options [New] accepts, with their machine range. *)
Record valid_dispatcher (d : Dispatcher) : Prop := {
  vd_queue : 1 <= dp_maxQueueItems d <= maxQueueItems;
  vd_attempts : 1 <= dp_maxAttempts d <= maxAttempts;
  vd_initial : millisecond <= dp_initialBackoff d;
  vd_backoff : dp_initialBackoff d <= dp_maxBackoff d;
  vd_range : dp_maxBackoff d <= maxInt64;
}.

Lemma New_valid parse_uri options d :
  New parse_uri options = Ok d -> dp_maxBackoff options <= maxInt64 -> valid_dispatcher d.
Proof.
  unfold New. pass_guard E. destruct (validatedDestinations _ _) as [destinations|]; cbn [mbind result_bind]; [|done].
  intros [= <-] Hr. bool_prop. split; cbn; lia.
Qed.

Lemma backoff_closed d attempt :
  valid_dispatcher d -> 1 <= attempt ->
  backoff d attempt = Z.min (dp_initialBackoff d * 2 ^ (attempt - 1)) (dp_maxBackoff d).
Proof.
  intros [] Ha. unfold backoff. destruct (Z.ltb_spec attempt 1); [lia|]. unfold millisecond in *.
  rewrite backoff_loop_closed by lia. by rewrite Z2Nat.id by lia.
Qed.

Lemma backoff_range d attempt :
  valid_dispatcher d -> 1 <= attempt -> 1 <= backoff d attempt <= dp_maxBackoff d.
Proof.
  intros Hd Ha. rewrite backoff_closed by done. destruct Hd. unfold millisecond in *.
  pose proof (Z.pow_pos_nonneg 2 (attempt - 1) ltac:(lia) ltac:(lia)). nia.
Qed.

(** * Facts: stored items *)

(** An item the dispatcher [d] has written. *)
Record well_formed (d : Dispatcher) (item : DeliveryQueueItem) : Prop := {
  wf_valid : DeliveryQueueItem_Validate item = Ok tt;
  wf_utf8 : valid_utf8 (itm_DeliveryID item) = true /\ valid_utf8 (itm_PayloadRef item) = true /\
    valid_utf8 (itm_WebhookID item) = true /\ valid_utf8 (itm_DestinationRef item) = true;
  wf_size : go_len (itm_DeliveryID item) <= 256 /\ go_len (itm_PayloadRef item) <= 256 /\
    go_len (itm_WebhookID item) <= 256 /\ go_len (itm_DestinationRef item) <= 256;
  wf_attempts : 0 <= itm_AttemptCount item <= dp_maxAttempts d;
  wf_pending : pending item = true -> itm_AttemptCount item < dp_maxAttempts d;
}.

Lemma Validate_inv item :
  DeliveryQueueItem_Validate item = Ok tt ->
  itm_SchemaVersion item = SchemaVersionV1 /\
  (itm_PayloadType item = DeliveryPayloadLifecycleEvent \/ itm_PayloadType item = DeliveryPayloadIncidentReport) /\
  itm_NextAttemptAt item < itm_ExpiresAt item /\
  itm_State item ∈ [DeliveryPending; DeliveryDelivered; DeliveryExpired; DeliveryFailed].
Proof.
  unfold DeliveryQueueItem_Validate. intros H. apply result_bind_ok in H as ([] & Hv%validateVersion_ok & H).
  do 4 apply result_bind_ok in H as ([] & _ & H). destruct (_ || _) eqn:E in H; [done|]. clear H.
  unfold after, validDeliveryState in *. bool_prop. split_and!; [done| |lia|].
  - match goal with X : _ \/ _ |- _ => destruct X as [X|X] end; bool_prop;
      match goal with X : String.eqb (itm_PayloadType item) _ = true |- _ => apply String.eqb_eq in X end; auto.
  - cbn [oneOf] in *. rewrite !elem_of_cons.
    repeat match goal with X : context [ String.eqb (itm_State item) ?p ] |- _ =>
      destruct (String.eqb_spec (itm_State item) p); [tauto|] end. done.
Qed.

(** Every written item decodes to itself. *)
Lemma well_formed_ok d item doc :
  valid_dispatcher d -> well_formed d item -> Marshal item = Some doc -> DeliveryQueueItem_ok item = true.
Proof.
  intros Hd [Hv (U1 & U2 & U3 & U4) _ Hatt _] Hm.
  apply Validate_inv in Hv as (Hver & Htype & _ & Hstate).
  assert (Hp : time_printable (itm_NextAttemptAt item) && time_printable (itm_ExpiresAt item) = true).
  { destruct item. unfold Marshal, DeliveryQueueItem_json in Hm. cbn in Hm. destruct (time_printable _); [|done].
    cbn in Hm. by destruct (time_printable _). }
  apply andb_true_iff in Hp as [P1 P2]. unfold DeliveryQueueItem_ok. rewrite Hver, U1, U2, U3, U4, P1, P2.
  assert (int64_ok (itm_AttemptCount item) = true) as ->.
  { destruct Hd. unfold maxAttempts, int64_ok, minInt64, maxInt64 in *. bool_prop; lia. }
  assert (valid_utf8 (itm_PayloadType item) = true) as -> by by destruct Htype as [->| ->].
  rewrite !elem_of_cons, elem_of_nil in Hstate. by destruct Hstate as [->|[->|[->|[->|[]]]]].
Qed.

Lemma itoa_small n : 0 <= n <= 32 -> go_len (itoa n) <= 2.
Proof.
  intros Hn. rewrite <- (Z2Nat.id n) by lia. assert (Hk : (Z.to_nat n < 33)%nat) by lia.
  revert Hk. generalize (Z.to_nat n). intros k Hk. do 33 (destruct k as [|k]; [vm_compute; discriminate|]). lia.
Qed.

(** The members of a marshalled item. *)
Definition item_members (item : DeliveryQueueItem) : list (string * json) :=
  [("schema_version", JStr (itm_SchemaVersion item)); ("delivery_id", JStr (itm_DeliveryID item));
   ("payload_type", JStr (itm_PayloadType item)); ("payload_ref", JStr (itm_PayloadRef item));
   ("webhook_id", JStr (itm_WebhookID item)); ("destination_ref", JStr (itm_DestinationRef item));
   ("attempt_count", JInt (itm_AttemptCount item)); ("next_attempt_at", JTime (itm_NextAttemptAt item));
   ("expires_at", JTime (itm_ExpiresAt item)); ("state", JStr (itm_State item))].

Lemma Marshal_item item :
  DeliveryQueueItem_ok item = true -> Marshal item = Some (Text (JObj (item_members item)) false).
Proof.
  destruct item. unfold DeliveryQueueItem_ok, Marshal, DeliveryQueueItem_json, item_members. cbn. intros H. bool_prop.
  repeat match goal with
  | X : time_printable ?t = true |- _ => rewrite ?X; clear X
  end. reflexivity.
Qed.

Lemma well_formed_fits d item :
  valid_dispatcher d -> well_formed d item -> go_len (render (JObj (item_members item))) <= 65536.
Proof.
  intros Hd [Hv _ (L1 & L2 & L3 & L4) Hatt _]. apply Validate_inv in Hv as (Hver & Htype & _ & Hstate).
  etransitivity; [apply render_obj_len; repeat constructor|].
  pose proof (time_render (itm_NextAttemptAt item)). pose proof (time_render (itm_ExpiresAt item)).
  pose proof (string_text_len (itm_DeliveryID item)). pose proof (string_text_len (itm_PayloadRef item)).
  pose proof (string_text_len (itm_WebhookID item)). pose proof (string_text_len (itm_DestinationRef item)).
  assert (go_len (string_text (itm_PayloadType item)) <= 100) by (destruct Htype as [->| ->]; vm_compute; discriminate).
  assert (go_len (string_text (itm_State item)) <= 100).
  { rewrite !elem_of_cons, elem_of_nil in Hstate.
    destruct Hstate as [->|[->|[->|[->|[]]]]]; vm_compute; discriminate. }
  assert (go_len (string_text (itm_SchemaVersion item)) <= 100) by (rewrite Hver; vm_compute; discriminate).
  assert (go_len (itoa (itm_AttemptCount item)) <= 2).
  { apply itoa_small. destruct Hd. unfold maxAttempts in *. lia. }
  unfold item_members. cbn [foldr fst snd]. cbn [render] in *.
  known_lengths. lia.
Qed.

Lemma decode_written d item doc :
  valid_dispatcher d -> well_formed d item -> Marshal item = Some doc -> decodeItem doc = Ok item.
Proof.
  intros Hd Hwf Hm. pose proof (well_formed_ok d item doc Hd Hwf Hm) as Hok.
  pose proof (Validate_inv item (wf_valid _ _ Hwf)) as (Hver & _).
  destruct (Decode_rtv item item_options DeliveryQueueItem_Validate) as (doc' & Hm' & Hdec); [..|];
    [cbn [SchemaVersion item_options]; rewrite <- Hver; by apply DeliveryQueueItem_rtv|done|done|apply Hwf|done|].
  rewrite Hm in Hm'. injection Hm' as <-. unfold decodeItem. rewrite Hdec; [done|].
  rewrite Marshal_item in Hm by done. injection Hm as <-. by eapply well_formed_fits.
Qed.

(** * Facts: transactions *)

(** The queue holds [item] under [key]. *)
Definition holds `{Bolt} (s : db) (key : string) (item : DeliveryQueueItem) : Prop :=
  exists doc, kv_get s BucketDeliveryQueue key = Some doc /\ Marshal item = Some doc.

(** Every entry of the queue is an item the dispatcher wrote, under its key. *)
Definition queue_inv `{Bolt} (d : Dispatcher) (s : db) : Prop :=
  forall key doc, kv_get s BucketDeliveryQueue key = Some doc ->
    exists item, Marshal item = Some doc /\ well_formed d item /\ itemKey (itm_DeliveryID item) = key.

(** An item that may be attempted at [now], and one whose turn has not come. *)
Definition due (now : time) (item : DeliveryQueueItem) : Prop := itm_NextAttemptAt item <= now < itm_ExpiresAt item.
Definition waiting (now : time) (item : DeliveryQueueItem) : Prop := now < itm_NextAttemptAt item /\ now < itm_ExpiresAt item.

(** One recorded attempt on a pending item at [now]; [posted] says that a
    request was sent.  Only an expired item changes without being due. *)
Inductive advanced (d : Dispatcher) (now : time) (item : DeliveryQueueItem) : bool -> DeliveryQueueItem -> Prop :=
| advanced_delivered :
    due now item ->
    advanced d now item true
      (item <| itm_AttemptCount := itm_AttemptCount item + 1 |> <| itm_State := DeliveryDelivered |>)
| advanced_retry posted :
    due now item ->
    itm_AttemptCount item + 1 < dp_maxAttempts d ->
    now + backoff d (itm_AttemptCount item + 1) < itm_ExpiresAt item ->
    advanced d now item posted
      (item <| itm_AttemptCount := itm_AttemptCount item + 1 |>
            <| itm_NextAttemptAt := now + backoff d (itm_AttemptCount item + 1) |>)
| advanced_failed posted :
    due now item ->
    dp_maxAttempts d <= itm_AttemptCount item + 1 ->
    advanced d now item posted (item <| itm_State := DeliveryFailed |>)
| advanced_too_late posted :
    due now item ->
    itm_AttemptCount item + 1 < dp_maxAttempts d ->
    itm_ExpiresAt item <= now + backoff d (itm_AttemptCount item + 1) ->
    advanced d now item posted (item <| itm_State := DeliveryExpired |>)
| advanced_expired :
    itm_ExpiresAt item <= now ->
    advanced d now item false (item <| itm_State := DeliveryExpired |>).

Lemma pending_state item : pending item = true <-> itm_State item = DeliveryPending.
Proof. unfold pending. by rewrite String.eqb_eq. Qed.

(** An attempt keeps an item well formed; what it stores passed validation. *)
Lemma advanced_well_formed d now item posted item' :
  well_formed d item -> pending item = true -> advanced d now item posted item' ->
  DeliveryQueueItem_Validate item' = Ok tt -> well_formed d item'.
Proof.
  intros [_ Hu Hs Ha Hp] Hpend Hadv Hv. specialize (Hp Hpend).
  destruct Hadv; split; cbn in *; try done; try lia; try (by intros).
Qed.

(** The identity of an item, which no attempt changes. *)
Definition identity (item : DeliveryQueueItem) : list string * time :=
  ([itm_DeliveryID item; itm_PayloadType item; itm_PayloadRef item; itm_WebhookID item; itm_DestinationRef item],
   itm_ExpiresAt item).
Lemma advanced_identity d now item posted item' : advanced d now item posted item' -> identity item' = identity item.
Proof. by destruct 1. Qed.

(** A posted item was due, and an advanced one is another item. *)
Lemma advanced_posted d now item item' : advanced d now item true item' -> due now item.
Proof. by inversion 1. Qed.
Lemma advanced_other d now item posted item' :
  pending item = true -> advanced d now item posted item' -> item' <> item.
Proof.
  intros Hp%pending_state Hadv He.
  destruct Hadv; apply (f_equal (fun i => (itm_AttemptCount i, itm_State i))) in He; cbn in He; rewrite ?Hp in He; injection He; (lia || done).
Qed.

Section DeliveryFacts.
Context `{BoltLaws} (d : Dispatcher).
#[local] Set Default Proof Using "Type*".
Context (Hd : valid_dispatcher d).

Lemma holds_unique s key item item' :
  well_formed d item -> well_formed d item' -> holds s key item -> holds s key item' -> item' = item.
Proof.
  intros W W' (doc & Hg & Hm) (doc' & Hg' & Hm'). rewrite Hg in Hg'. injection Hg' as <-.
  pose proof (decode_written d item doc Hd W Hm). pose proof (decode_written d item' doc Hd W' Hm'). congruence.
Qed.

Lemma inv_holds s key item :
  queue_inv d s -> holds s key item -> well_formed d item -> itemKey (itm_DeliveryID item) = key.
Proof.
  intros Hi (doc & Hg & Hm) W. destruct (Hi key doc Hg) as (item' & Hm' & W' & Hk).
  by rewrite (holds_unique s key item' item) by (try done; by exists doc).
Qed.

Lemma loadItem_ok key s item s' :
  queue_inv d s -> loadItem key s = Ok (item, s') ->
  s' = s /\ holds s key item /\ well_formed d item /\ itemKey (itm_DeliveryID item) = key.
Proof.
  intros Hi. unfold loadItem. rewrite st_bind_ok. intros (found & s0 & (_ & _ & _ & -> & ->)%Get_ok & Hl).
  destruct (kv_get s BucketDeliveryQueue key) as [doc|] eqn:Eg; [|done].
  destruct (Hi key doc Eg) as (item' & Hm & W & Hk). unfold st_lift in Hl.
  rewrite (decode_written d item' doc Hd W Hm) in Hl. injection Hl as <- <-. split_and!; [done|by exists doc|done..].
Qed.

Lemma putItem_ok key item s u s' :
  putItem key item s = Ok (u, s') ->
  itemKey (itm_DeliveryID item) = key /\ DeliveryQueueItem_Validate item = Ok tt /\
  exists doc, Marshal item = Some doc /\ Put BucketDeliveryQueue key doc s = Ok (tt, s').
Proof.
  unfold putItem. destruct (String.eqb_spec (itemKey (itm_DeliveryID item)) key); [|done]. cbn [negb orb].
  destruct (DeliveryQueueItem_Validate item) as [[]|]; [|done]. cbn [is_ok negb].
  destruct (Marshal item) as [doc|]; [|done]. destruct u. eauto.
Qed.

(** What an attempt does to the queue: one entry advances, the others stay. *)
Definition replaced (s s' : db) (key : string) (item' : DeliveryQueueItem) : Prop :=
  holds s' key item' /\ forall key', key' <> key -> kv_get s' BucketDeliveryQueue key' = kv_get s BucketDeliveryQueue key'.

Lemma putItem_replaced key item s u s' :
  putItem key item s = Ok (u, s') -> replaced s s' key item /\ DeliveryQueueItem_Validate item = Ok tt.
Proof.
  intros (Hk & Hv & doc & Hm & Hp)%putItem_ok. split; [|done]. split.
  - exists doc. split; [by eapply Put_get|done].
  - intros key' Hne. by eapply Put_get_ne.
Qed.

Lemma replaced_inv s s' key item' :
  queue_inv d s -> replaced s s' key item' -> well_formed d item' -> itemKey (itm_DeliveryID item') = key ->
  queue_inv d s'.
Proof.
  intros Hi [(doc & Hg & Hm) Hother] W Hk key' doc' Hg'.
  destruct (decide (key' = key)) as [->|Hne]; [|apply Hi; by rewrite <- Hother].
  rewrite Hg in Hg'. injection Hg' as <-. by exists item'.
Qed.

Lemma wrap_attempts item : well_formed d item -> wrap64 (itm_AttemptCount item + 1) = itm_AttemptCount item + 1.
Proof.
  intros [_ _ _ Ha _]. apply wrap64_id. destruct Hd. unfold maxAttempts, int64_ok, minInt64, maxInt64 in *.
  bool_prop; lia.
Qed.

(** The items of the three transactions are the current ones. *)
Lemma load_current key s item current s' :
  queue_inv d s -> holds s key item -> well_formed d item -> loadItem key s = Ok (current, s') ->
  current = item /\ s' = s.
Proof.
  intros Hi Hh W (-> & Hc & Wc & _)%loadItem_ok; [|done]. split; [|done]. by eapply holds_unique.
Qed.

Lemma delivered_ok key now s item r s' :
  queue_inv d s -> holds s key item -> well_formed d item -> pending item = true -> due now item ->
  delivered_body key now s = Ok (r, s') ->
  advanced d now item true r /\ replaced s s' key r /\ DeliveryQueueItem_Validate r = Ok tt.
Proof.
  intros Hi Hh W Hp Hdue. unfold delivered_body. rewrite st_bind_ok. intros (current & s0 & Hl & Hb).
  destruct (load_current key s item current s0 Hi Hh W Hl) as [-> ->].
  pose proof (proj1 (pending_state item) Hp) as Hst. rewrite Hst, Hp in Hb. cbn [negb orb] in Hb.
  change (String.eqb DeliveryPending DeliveryDelivered) with false in Hb. cbn iota in Hb.
  unfold before in Hb. destruct (Z.ltb_spec now (itm_ExpiresAt item)); [|done]. cbn [negb] in Hb. cbv zeta in Hb.
  rewrite wrap_attempts in Hb by done. apply st_bind_ok in Hb as (u & s1 & [Hr Hv]%putItem_replaced & [= <- <-]).
  split_and!; [by constructor|done|done].
Qed.

Lemma retry_ok key nextAt now s item r s' :
  queue_inv d s -> holds s key item -> well_formed d item -> pending item = true -> due now item ->
  itm_AttemptCount item + 1 < dp_maxAttempts d ->
  nextAt = now + backoff d (itm_AttemptCount item + 1) -> nextAt < itm_ExpiresAt item ->
  retry_body key (itm_AttemptCount item + 1) nextAt s = Ok (r, s') ->
  (forall posted, advanced d now item posted r) /\ replaced s s' key r /\ DeliveryQueueItem_Validate r = Ok tt.
Proof.
  intros Hi Hh W Hp Hdue Hlt -> Hx. unfold retry_body. rewrite st_bind_ok. intros (current & s0 & Hl & Hb).
  destruct (load_current key s item current s0 Hi Hh W Hl) as [-> ->]. rewrite Hp in Hb. cbn [negb] in Hb.
  apply st_bind_ok in Hb as (u & s1 & [Hr Hv]%putItem_replaced & [= <- <-]).
  split_and!; [by constructor|done|done].
Qed.

Lemma terminal_ok key auditID now state reason s item r s' :
  queue_inv d s -> holds s key item -> well_formed d item -> pending item = true -> state <> DeliveryPending ->
  terminal_body key auditID now state reason s = Ok (r, s') ->
  r = item <| itm_State := state |> /\ replaced s s' key r /\ DeliveryQueueItem_Validate r = Ok tt.
Proof.
  intros Hi Hh W Hp Hne. unfold terminal_body. rewrite st_bind_ok. intros (current & s0 & Hl & Hb).
  destruct (load_current key s item current s0 Hi Hh W Hl) as [-> ->].
  pose proof (proj1 (pending_state item) Hp) as Hst. rewrite Hst, Hp in Hb. cbn [negb] in Hb.
  destruct (String.eqb_spec DeliveryPending state); [congruence|].
  apply st_bind_ok in Hb as ([] & s1 & Ha & [= <- <-]). unfold auditDeliveryFailure in Ha.
  apply st_bind_ok in Ha as (ev & s2 & Ha & [= <-]).
  apply Append_frame in Ha as (s3 & [u Hput] & Hsame). apply putItem_replaced in Hput as [[(doc & Hg & Hm) Ho] Hv].
  split_and!; [done| |done]. split.
  - exists doc. split; [|done]. by rewrite (Hsame BucketDeliveryQueue).
  - intros key' Hk. rewrite (Hsame BucketDeliveryQueue) by done. by apply Ho.
Qed.

(** What one attempt on the pending [item] under [key] may do. *)
Definition attempted (now : time) (s : db) (key : string) (item : DeliveryQueueItem) (posted : bool)
    (out : result Result * db) : Prop :=
  match out with
  | (Fail _, s') => s' = s
  | (Ok r, s') =>
    advanced d now item posted (rs_Item r) /\ replaced s s' key (rs_Item r) /\
    DeliveryQueueItem_Validate (rs_Item r) = Ok tt
  end.

Lemma markTerminal_ok auditID now state reason s key item posted :
  queue_inv d s -> holds s key item -> well_formed d item -> pending item = true ->
  state <> DeliveryPending -> advanced d now item posted (item <| itm_State := state |>) ->
  attempted now s key item posted (markTerminal auditID (mkStoredItem key item) now state reason s).
Proof.
  intros Hi Hh W Hp Hne Hadv. unfold markTerminal. destruct auditID as [auditID|]; [|done].
  destruct (negb _); [done|]. cbn [si_key].
  destruct (Update_cases (terminal_body key auditID now state reason) s) as [(r & s' & Hb & ->)|(e & ->)]; [|done].
  destruct (terminal_ok key auditID now state reason s item r s' Hi Hh W Hp Hne Hb) as (-> & Hr & Hv). done.
Qed.

Lemma retryOrFail_ok auditID now reason s key item posted :
  queue_inv d s -> holds s key item -> well_formed d item -> pending item = true -> due now item ->
  attempted now s key item posted (retryOrFail d auditID (mkStoredItem key item) now reason s).
Proof.
  intros Hi Hh W Hp Hdue. unfold retryOrFail. cbn [si_item si_key]. rewrite wrap_attempts by done.
  unfold before, time_add.
  destruct (Z.leb_spec (dp_maxAttempts d) (itm_AttemptCount item + 1)) as [Hge|Hlt].
  { apply markTerminal_ok; [done..|]. by constructor. }
  destruct (Z.ltb_spec (now + backoff d (itm_AttemptCount item + 1)) (itm_ExpiresAt item)) as [Hb|Hb]; cbn [negb].
  2:{ apply markTerminal_ok; [done..|]. by apply advanced_too_late. }
  match goal with |- context [ Update ?b s ] => destruct (Update_cases b s) as [(r & s' & Hbody & ->)|(e & ->)] end;
    [|done].
  destruct (retry_ok key _ now s item r s' Hi Hh W Hp Hdue Hlt eq_refl Hb Hbody) as (Hadv & Hr & Hv). split_and!; auto.
Qed.

Lemma deliverOne_ok env now s key item :
  queue_inv d s -> holds s key item -> well_formed d item -> pending item = true -> due now item ->
  attempted now s key item (deliverOne d env (mkStoredItem key item) now s).2
    (deliverOne d env (mkStoredItem key item) now s).1.
Proof.
  intros Hi Hh W Hp Hdue. unfold deliverOne. destruct (ae_context_loaded env); [done|].
  destruct (ae_payload env) as [body|]; [|by apply retryOrFail_ok].
  destruct (_ || _); [by apply retryOrFail_ok|].
  destruct (Sign _ _ _ _); [|done]. destruct (ae_request env); [|done]. destruct (ae_context_sent env); [done|].
  destruct (ae_response env) as [[status|]|]; [|by apply retryOrFail_ok..].
  destruct (_ || _); [by apply retryOrFail_ok|]. cbn [fst snd]. unfold markDelivered. cbn [si_key].
  destruct (Update_cases (delivered_body key now) s) as [(r & s' & Hb & ->)|(e & ->)]; [|done].
  destruct (delivered_ok key now s item r s' Hi Hh W Hp Hdue Hb) as (Hadv & Hr & Hv). done.
Qed.

Lemma attempted_inv now s key item posted out :
  queue_inv d s -> well_formed d item -> pending item = true -> itemKey (itm_DeliveryID item) = key ->
  attempted now s key item posted out -> queue_inv d out.2.
Proof.
  intros Hi W Hp Hk Ha. destruct out as [[r|] s']; cbn in *; [|by subst].
  destruct Ha as (Hadv & Hr & Hv). eapply replaced_inv; [done|done| |].
  - by eapply advanced_well_formed.
  - pose proof (advanced_identity _ _ _ _ _ Hadv) as He. unfold identity in He. injection He as -> _ _ _ _ _. done.
Qed.
End DeliveryFacts.

(** * Facts: a whole call *)

(** An entry of a [pendingItems] snapshot that is still current. *)
Definition current `{Bolt} (d : Dispatcher) (s : db) (stored : storedItem) : Prop :=
  holds s (si_key stored) (si_item stored) /\ well_formed d (si_item stored) /\ pending (si_item stored) = true /\
  itemKey (itm_DeliveryID (si_item stored)) = si_key stored.

(** What a call at [now] did to the entry under [key]: nothing, or one recorded
    attempt.  [keys] are the keys of the requests it sent; a request without a
    recorded attempt, of an entry that was due too, means the call [failed]. *)
Definition moved `{Bolt} (d : Dispatcher) (now : time) (s s' : db) (keys : list string) (failed : bool) (key : string) :
    Prop :=
  (kv_get s' BucketDeliveryQueue key = kv_get s BucketDeliveryQueue key /\
   (key ∈ keys -> failed = true /\
      exists item, holds s key item /\ well_formed d item /\ pending item = true /\ due now item)) \/
  (exists item item', holds s key item /\ well_formed d item /\ pending item = true /\ holds s' key item' /\
     well_formed d item' /\ advanced d now item (bool_decide (key ∈ keys)) item').

(** The pending entry [item] under [key] had its turn: it was waiting, or an
    attempt on it is recorded in [s']. *)
Definition had_turn `{Bolt} (d : Dispatcher) (now : time) (s' : db) (key : string) (item : DeliveryQueueItem) : Prop :=
  waiting now item \/
  exists posted item', holds s' key item' /\ well_formed d item' /\ advanced d now item posted item'.

Section DeliveryCalls.
Context `{BoltLaws} (d : Dispatcher).
#[local] Set Default Proof Using "Type*".
Context (Hd : valid_dispatcher d).

Lemma current_kept s s' key item' stored :
  current d s stored -> replaced s s' key item' -> si_key stored <> key -> current d s' stored.
Proof.
  intros ((doc & Hg & Hm) & ? & ? & ?) [_ Ho] Hne. split_and!; [|done..]. exists doc. by rewrite Ho.
Qed.

(** One item of the loop: what it leaves for the rest. *)
Lemma attempted_step now s stored posted out rest :
  queue_inv d s -> current d s stored -> Forall (current d s) rest ->
  si_key stored ∉ map si_key rest ->
  attempted d now s (si_key stored) (si_item stored) posted out ->
  queue_inv d out.2 /\ Forall (current d out.2) rest /\
  (forall key, key <> si_key stored -> kv_get out.2 BucketDeliveryQueue key = kv_get s BucketDeliveryQueue key) /\
  (is_ok out.1 = true -> exists item', holds out.2 (si_key stored) item' /\ well_formed d item' /\
     advanced d now (si_item stored) posted item') /\
  (is_ok out.1 = false -> out.2 = s).
Proof.
  intros Hi (Hh & W & Hp & Hk) Hrest Hnin Ha. split; [by eapply attempted_inv|].
  destruct out as [[r|] s']; cbn in *; [|subst s'; by split_and!].
  destruct Ha as (Hadv & Hr & Hv). split_and!.
  - rewrite Forall_forall in *. intros st Hst. eapply current_kept; [by apply Hrest|done|].
    intros Heq. apply Hnin. rewrite <- Heq. by apply list_elem_of_fmap_2.
  - intros key Hne. by apply Hr.
  - intros _. exists (rs_Item r). split_and!; [by apply Hr| |done]. by eapply advanced_well_formed.
  - done.
Qed.

Lemma holds_same s s' key item :
  kv_get s' BucketDeliveryQueue key = kv_get s BucketDeliveryQueue key -> holds s key item <-> holds s' key item.
Proof. intros He. unfold holds. by rewrite He. Qed.

(** Moves compose when they concern different keys. *)
Lemma moved_rest now s s1 s' key0 (posted : bool) new failed key :
  key <> key0 -> kv_get s1 BucketDeliveryQueue key = kv_get s BucketDeliveryQueue key ->
  moved d now s1 s' new failed key ->
  moved d now s s' ((if posted then [key0] else []) ++ new) failed key.
Proof.
  intros Hne Hs1 Hm.
  assert (Hin : key ∈ ((if posted then [key0] else []) ++ new)%list <-> key ∈ new) by (destruct posted; set_solver).
  destruct Hm as [[He Hf]|(item & item' & Hh & Hm)]; [left|right].
  - split; [congruence|]. rewrite Hin. intros (Hfl & item & Hh & Hr)%Hf. split; [done|]. exists item.
    split; [by apply (holds_same _ _ _ _ Hs1)|done].
  - exists item, item'. split; [by apply (holds_same _ _ _ _ Hs1)|].
    destruct Hm as (? & ? & ? & ? & Hadv). split_and!; [done..|]. by rewrite (bool_decide_ext _ _ Hin).
Qed.

Lemma moved_first now s s1 s' key0 item item' (posted : bool) new failed :
  holds s key0 item -> well_formed d item -> pending item = true -> holds s1 key0 item' -> well_formed d item' ->
  advanced d now item posted item' -> key0 ∉ new ->
  kv_get s' BucketDeliveryQueue key0 = kv_get s1 BucketDeliveryQueue key0 ->
  moved d now s s' ((if posted then [key0] else []) ++ new) failed key0.
Proof.
  intros ? ? ? ? ? Hadv Hnew He. right. exists item, item'. split_and!; try done.
  - by apply (holds_same _ _ _ _ He).
  - replace (bool_decide _) with posted; [done|]. destruct posted; symmetry.
    + apply bool_decide_eq_true. set_solver.
    + apply bool_decide_eq_false. set_solver.
Qed.

(** The loop over current items with distinct keys. *)
Definition loop_spec (now : time) (items : list storedItem) (p : progress) (out : progress * option error) : Prop :=
  exists new, pg_posted out.1 = (pg_posted p ++ new)%list /\ NoDup new /\
    (forall key, key ∈ new -> key ∈ map si_key items) /\ queue_inv d (pg_db out.1) /\
    (forall key, key ∉ map si_key items ->
       kv_get (pg_db out.1) BucketDeliveryQueue key = kv_get (pg_db p) BucketDeliveryQueue key) /\
    (forall key, moved d now (pg_db p) (pg_db out.1) new (bool_decide (out.2 <> None)) key) /\
    (out.2 = None -> Forall (fun stored => had_turn d now (pg_db out.1) (si_key stored) (si_item stored)) items).

Lemma loop_stop now items p err :
  queue_inv d (pg_db p) -> (err = None -> items = []) -> loop_spec now items p (p, err).
Proof.
  intros Hi He. exists []. cbn. rewrite app_nil_r. split_and!; [done|constructor|set_solver|done|done| |].
  - intros key. left. split; [done|set_solver].
  - intros ->%He. constructor.
Qed.

(** The rest of the loop after one attempt. *)
Definition loop_next (env : string -> attempt_env) (now : time) (items : list storedItem) (p : progress)
    (keys : list string) (out : result Result * db) : progress * option error :=
  match out with
  | (Fail e, s') => (mkProgress (pg_results p) keys s', Some e)
  | (Ok r, s') => deliver_loop d env now items (mkProgress (pg_results p ++ [r]) keys s')
  end.

Lemma loop_step now env key0 item items p (posted : bool) out :
  (forall p', queue_inv d (pg_db p') -> Forall (current d (pg_db p')) items ->
     loop_spec now items p' (deliver_loop d env now items p')) ->
  queue_inv d (pg_db p) -> key0 ∉ map si_key items -> current d (pg_db p) (mkStoredItem key0 item) ->
  Forall (current d (pg_db p)) items -> attempted d now (pg_db p) key0 item posted out -> (posted = true -> due now item) ->
  loop_spec now (mkStoredItem key0 item :: items) p
    (loop_next env now items p (pg_posted p ++ (if posted then [key0] else [])) out).
Proof.
  intros IH Hi Hnin Hc Hcur Ha Hdue.
  destruct (attempted_step now (pg_db p) (mkStoredItem key0 item) posted out items Hi Hc Hcur Hnin Ha)
    as (Hi' & Hcur' & Hother & Hok & Hfail). cbn [si_key si_item] in *.
  unfold loop_next. destruct out as [[r|e] s']; cbn [fst snd is_ok] in *.
  - destruct (Hok eq_refl) as (item' & Hh' & W' & Hadv). destruct Hc as (Hh & W & Hp & Hk). cbn in Hh, W, Hp, Hk.
    destruct (IH (mkProgress (pg_results p ++ [r]) (pg_posted p ++ (if posted then [key0] else [])) s') Hi' Hcur')
      as (new & Hpost & Hndn & Hsub & Hinv & Hsame & Hmoved & Hturn). cbn [pg_posted pg_db] in *.
    assert (Hnew : key0 ∉ new) by (intros Hin%Hsub; done).
    exists ((if posted then [key0] else []) ++ new)%list. split_and!.
    + by rewrite Hpost, <- app_assoc.
    + destruct posted; [by apply NoDup_cons|done].
    + intros key Hkey. cbn [map si_key]. apply elem_of_app in Hkey as [Hkey|Hkey%Hsub]; [|set_solver].
      destruct posted; set_solver.
    + done.
    + intros key Hkey. cbn [map si_key] in Hkey. apply not_elem_of_cons in Hkey as [Hne Hkey].
      rewrite Hsame by done. by apply Hother.
    + intros key. destruct (decide (key = key0)) as [->|Hne].
      * eapply moved_first; try done. by apply Hsame.
      * eapply moved_rest; [done|by apply Hother|apply Hmoved].
    + intros Hn. constructor; [|by apply Hturn]. right. exists posted, item'. split; [|done]. cbn [si_key].
      apply (holds_same _ _ _ _ (Hsame key0 Hnin)). exact Hh'.
  - rewrite Hfail by done. exists (if posted then [key0] else []). cbn [pg_posted pg_db fst snd]. split_and!.
    + done.
    + destruct posted; [apply NoDup_singleton|constructor].
    + intros key Hkey. cbn [map si_key]. destruct posted; set_solver.
    + done.
    + done.
    + intros key. left. split; [done|]. intros Hkey. split; [by apply bool_decide_eq_true|]. destruct Hc as (Hh & W & Hp & Hk).
      destruct posted; [|set_solver]. apply list_elem_of_singleton in Hkey as ->. exists item. auto.
    + done.
Qed.

Lemma loop_weaken now stored items p out :
  waiting now (si_item stored) -> loop_spec now items p out -> loop_spec now (stored :: items) p out.
Proof.
  intros Hw (new & ? & ? & Hsub & ? & Hsame & ? & Hturn). exists new. cbn [map]. split_and!; [done|done|set_solver|done| |done|].
  - intros key [_ Hk]%not_elem_of_cons. by apply Hsame.
  - intros Hn. constructor; [by left|by apply Hturn].
Qed.

Lemma loop_ok now env items p :
  queue_inv d (pg_db p) -> NoDup (map si_key items) -> Forall (current d (pg_db p)) items ->
  loop_spec now items p (deliver_loop d env now items p).
Proof.
  revert p. induction items as [|stored items IH]; intros p Hi Hnd Hcur; [by apply loop_stop|].
  cbn [map] in Hnd. apply NoDup_cons in Hnd as [Hnin Hnd]. apply Forall_cons in Hcur as [Hc Hcur].
  destruct stored as [key0 item]. cbn [si_key] in *. cbn [deliver_loop]. cbn [si_key si_item].
  destruct (ae_context (env key0)) as [e|]; [by apply loop_stop|]. pose proof Hc as (Hh & W & Hp & Hk). cbn in Hh, W, Hp, Hk.
  unfold before. destruct (Z.ltb_spec now (itm_ExpiresAt item)) as [Hlive|Hexp]; cbn [negb].
  - destruct (Z.ltb_spec now (itm_NextAttemptAt item)) as [Hw|Hw]; [by apply loop_weaken; [|apply IH]|].
    assert (Hdue : due now item) by (unfold due; lia).
    pose proof (deliverOne_ok d Hd (env key0) now (pg_db p) key0 item Hi Hh W Hp Hdue) as Ha.
    destruct (deliverOne d (env key0) (mkStoredItem key0 item) now (pg_db p)) as [out posted]. cbn [fst snd] in *.
    pose proof (loop_step now env key0 item items p posted out) as Hs. unfold loop_next in Hs.
    destruct posted; [|rewrite app_nil_r in Hs]; apply Hs; auto.
  - pose proof (loop_step now env key0 item items p false) as Hs. unfold loop_next in Hs. rewrite app_nil_r in Hs.
    apply Hs; auto; [|done]. apply markTerminal_ok; [done..|]. by constructor.
Qed.

(** The scan of the queue. *)
Definition pick (entry : string * document) : option storedItem :=
  match decodeItem entry.2 with
  | Ok item => if pending item then Some (mkStoredItem entry.1 item) else None
  | Fail _ => None
  end.

Definition readable (entry : string * document) : Prop :=
  exists item, decodeItem entry.2 = Ok item /\ itemKey (itm_DeliveryID item) = entry.1.

Lemma pending_fold l acc :
  Forall readable l ->
  fold_entries (fun acc key doc => decodeItem doc ≫= fun item =>
    if negb (String.eqb (itemKey (itm_DeliveryID item)) key) then Fail ErrCorruptQueue
    else Ok (if pending item then (acc ++ [mkStoredItem key item])%list else acc)) acc l = Ok (acc ++ omap pick l)%list.
Proof.
  intros Hl. revert acc. induction Hl as [|[k doc] l (item & Hdec & Hk) _ IH]; intros acc; [by rewrite app_nil_r|].
  cbn [fst snd] in *. cbn [fold_entries]. rewrite Hdec. cbn [mbind result_bind].
  destruct (String.eqb_spec (itemKey (itm_DeliveryID item)) k); [|done]. cbn [negb]. rewrite IH.
  cbn [omap list_omap]. unfold pick at 2. cbn [fst snd]. rewrite Hdec.
  destruct (pending item); [by rewrite <- app_assoc|done].
Qed.

Lemma pick_keys l : sublist (map si_key (omap pick l)) (map fst l).
Proof.
  induction l as [|[k doc] l IH]; [constructor|]. cbn [omap list_omap map fst]. unfold pick at 1. cbn [fst snd].
  destruct (decodeItem doc) as [item|]; [|by constructor]. destruct (pending item); by constructor.
Qed.

Lemma entries_readable s : queue_inv d s -> Forall readable (kv_entries s BucketDeliveryQueue).
Proof.
  intros Hi. apply Forall_forall. intros [k doc] Hin%entries_get. destruct (Hi k doc Hin) as (item & Hm & W & Hk).
  exists item. split; [by eapply decode_written|done].
Qed.

Lemma pendingItems_ok s items :
  queue_inv d s -> pendingItems s = Ok items ->
  items = omap pick (kv_entries s BucketDeliveryQueue) /\ NoDup (map si_key items) /\ Forall (current d s) items.
Proof.
  intros Hi. unfold pendingItems, View.
  match goal with |- context [ match ?m s with Ok _ => _ | Fail _ => _ end ] => destruct (m s) as [[l s1]|] eqn:E end;
    [|done]. intros [= ->]. apply ForEach_ok in E as (_ & _ & _ & Hf).
  rewrite pending_fold in Hf by (by apply entries_readable). cbn in Hf. injection Hf as <-. split; [done|]. split.
  - eapply sublist_NoDup; [apply entries_distinct|apply pick_keys].
  - apply Forall_forall. intros [k item] Hin. apply list_elem_of_omap in Hin as ([k' doc] & Hin & Hp).
    apply entries_get in Hin. destruct (Hi k' doc Hin) as (item' & Hm & W & Hk).
    unfold pick in Hp. cbn [fst snd] in Hp. rewrite (decode_written d item' doc Hd W Hm) in Hp.
    destruct (pending item') eqn:Ep; [|done]. injection Hp as <- <-. split_and!; [by exists doc|done..].
Qed.

(** Under the invariant the scan succeeds. *)
Lemma pendingItems_total s :
  queue_inv d s -> has_bucket s BucketDeliveryQueue = true ->
  pendingItems s = Ok (omap pick (kv_entries s BucketDeliveryQueue)).
Proof.
  intros Hi Hb. unfold pendingItems, View.
  match goal with |- context [ match ?m s with Ok _ => _ | Fail _ => _ end ] =>
    assert (m s = Ok (omap pick (kv_entries s BucketDeliveryQueue), s)) as -> end; [|done].
  apply ForEach_ok. split_and!; [done|done|done|]. by rewrite pending_fold by (by apply entries_readable).
Qed.

Lemma DeliverDue_ok now env s p err :
  queue_inv d s -> DeliverDue d now env s = (p, err) ->
  queue_inv d (pg_db p) /\ NoDup (pg_posted p) /\
  (forall key, moved d (utc now) s (pg_db p) (pg_posted p) (bool_decide (err <> None)) key) /\
  (err = None -> forall key item, holds s key item -> well_formed d item -> pending item = true ->
     had_turn d (utc now) (pg_db p) key item).
Proof.
  intros Hi. unfold DeliverDue, checked_now.
  assert (Hstop : forall e, queue_inv d (pg_db (mkProgress [] [] s)) /\ NoDup (pg_posted (mkProgress [] [] s)) /\
    (forall key, moved d (utc now) s (pg_db (mkProgress [] [] s)) (pg_posted (mkProgress [] [] s))
      (bool_decide (Some e <> @None error)) key) /\
    (Some e = None -> forall key item, holds s key item -> well_formed d item -> pending item = true ->
       had_turn d (utc now) (pg_db (mkProgress [] [] s)) key item)).
  { intros e. split_and!; [done|constructor| |done]. intros key. left. cbn. split; [done|set_solver]. }
  destruct (is_zero (utc now)); [intros [= <- <-]; apply Hstop|].
  destruct (pendingItems s) as [items|e] eqn:Ep; [|intros [= <- <-]; apply Hstop].
  apply pendingItems_ok in Ep as (Hitems & Hnd & Hcur); [|done]. intros Hl.
  destruct (loop_ok (utc now) env items (mkProgress [] [] s) Hi Hnd Hcur) as (new & Hpost & Hndn & _ & Hinv & _ & Hmoved & Hturn).
  rewrite Hl in *. cbn [pg_posted pg_db fst snd app] in *. rewrite Hpost. split_and!; [done..|].
  intros He key item (doc & Hg & Hm) W Hp. specialize (Hturn He). rewrite Forall_forall in Hturn.
  apply (Hturn (mkStoredItem key item)). rewrite Hitems. apply list_elem_of_omap. exists (key, doc).
  split; [by apply entries_get|]. unfold pick. cbn [fst snd]. by rewrite (decode_written d item doc Hd W Hm), Hp.
Qed.
End DeliveryCalls.

(** * Facts: enqueueing *)

(** The keys of the pending entries. *)
Definition pending_keys `{Bolt} (s : db) : list string := map si_key (omap pick (kv_entries s BucketDeliveryQueue)).

(** The texts an [Enqueue] call stores are valid UTF-8. *)
Definition texts_ok (env : enqueue_env) (request : EnqueueRequest) : Prop :=
  valid_utf8 (er_PayloadRef request) = true /\ valid_utf8 (er_DestinationRef request) = true /\
  (forall id, ee_deliveryID env = Ok id -> valid_utf8 id = true) /\
  (forall id, ee_webhookID env = Ok id -> valid_utf8 id = true).

Section EnqueueFacts.
Context `{BoltLaws} (d : Dispatcher).
#[local] Set Default Proof Using "Type*".
Context (Hd : valid_dispatcher d).

Lemma pending_keys_spec s key :
  key ∈ pending_keys s <->
  exists doc item, kv_get s BucketDeliveryQueue key = Some doc /\ decodeItem doc = Ok item /\ pending item = true.
Proof.
  unfold pending_keys. rewrite list_elem_of_fmap. setoid_rewrite list_elem_of_omap. split.
  - intros (stored & -> & [k doc] & Hin%entries_get & Hp). unfold pick in Hp. cbn [fst snd] in Hp.
    destruct (decodeItem doc) as [item|] eqn:E; [|done]. destruct (pending item) eqn:Ep; [|done].
    injection Hp as <-. cbn. eauto.
  - intros (doc & item & Hg & Hdec & Hp). exists (mkStoredItem key item). split; [done|]. exists (key, doc).
    split; [by apply entries_get|]. unfold pick. cbn [fst snd]. by rewrite Hdec, Hp.
Qed.

Lemma pending_keys_NoDup s : NoDup (pending_keys s).
Proof. eapply sublist_NoDup; [apply entries_distinct|apply pick_keys]. Qed.

Lemma count_fold l acc :
  Forall readable l ->
  fold_entries (fun acc (_ : string) doc => decodeItem doc ≫= fun item => Ok (if pending item then acc + 1 else acc)) acc l
    = Ok (acc + Z.of_nat (length (omap pick l))).
Proof.
  intros Hl. revert acc. induction Hl as [|[k doc] l (item & Hdec & _) _ IH]; intros acc; [cbn; f_equal; lia|].
  cbn [fst snd] in *. cbn [fold_entries]. rewrite Hdec. cbn [mbind result_bind]. rewrite IH.
  cbn [omap list_omap]. unfold pick at 2. cbn [fst snd]. rewrite Hdec.
  destruct (pending item); cbn [length]; f_equal; lia.
Qed.

Lemma countPending_ok s n s' :
  queue_inv d s -> countPending s = Ok (n, s') -> s' = s /\ n = Z.of_nat (length (pending_keys s)).
Proof.
  intros Hi (_ & _ & -> & Hf)%ForEach_ok. rewrite count_fold in Hf by (by eapply entries_readable).
  injection Hf as <-. unfold pending_keys. by rewrite length_map.
Qed.

Lemma webhook_fold webhookID l (acc : bool) r :
  fold_entries (fun acc (_ : string) doc => decodeItem doc ≫= fun item =>
    Ok (if String.eqb (itm_WebhookID item) webhookID then true else acc)) acc l = Ok r ->
  r = false -> acc = false /\ forall k doc item, (k, doc) ∈ l -> decodeItem doc = Ok item -> itm_WebhookID item <> webhookID.
Proof.
  revert acc. induction l as [|[k doc] l IH]; intros acc; cbn [fold_entries].
  { intros [= ->] ->. split; [done|]. intros ? ? ? []%not_elem_of_nil. }
  destruct (decodeItem doc) as [item|] eqn:E; cbn [mbind result_bind]; [|done]. intros Hf Hr.
  destruct (IH _ Hf Hr) as [Ha Hl]. destruct (String.eqb_spec (itm_WebhookID item) webhookID); [done|].
  split; [done|]. intros k' doc' item' [[= -> ->]|Hin]%elem_of_cons Hdec; [congruence|by eapply Hl].
Qed.

Lemma webhookIDInUse_ok webhookID s s' :
  webhookIDInUse webhookID s = Ok (false, s') ->
  s' = s /\ forall key item, holds s key item -> well_formed d item -> itm_WebhookID item <> webhookID.
Proof.
  intros (_ & _ & -> & Hf)%ForEach_ok. split; [done|]. intros key item (doc & Hg & Hm) W.
  destruct (webhook_fold _ _ _ _ Hf eq_refl) as [_ Hl]. eapply (Hl key doc); [by apply entries_get|].
  by eapply decode_written.
Qed.

Lemma validToken_len s n : validToken s n = true -> go_len s <= n.
Proof. unfold validToken. intros. bool_prop. done. Qed.

(** What an accepted [Enqueue] checked and stored. *)
Record accepted (s s' : db) (item : DeliveryQueueItem) : Prop := {
  ac_pending : pending item = true /\ itm_AttemptCount item = 0 /\ itm_NextAttemptAt item < itm_ExpiresAt item;
  ac_room : Z.of_nat (length (pending_keys s)) < dp_maxQueueItems d;
  ac_fresh : kv_get s BucketDeliveryQueue (itemKey (itm_DeliveryID item)) = None;
  ac_webhook : forall key other, holds s key other -> well_formed d other -> itm_WebhookID other <> itm_WebhookID item;
  ac_known : is_Some (dp_destinations d !! itm_DestinationRef item);
  ac_stored : replaced s s' (itemKey (itm_DeliveryID item)) item;
  ac_well_formed : well_formed d item;
}.

Lemma enqueue_body_split item mutation s s' :
  enqueue_body d item mutation s = Ok (tt, s') ->
  exists s1, apply_change mutation s s1 /\ enqueue_body d item None s1 = Ok (tt, s').
Proof.
  unfold enqueue_body. rewrite st_bind_ok. intros ([] & s1 & Hm & Hb). exists s1. split; [|by apply st_bind_ok; exists tt, s1].
  destruct mutation as [m|]; [by exists tt|by injection Hm].
Qed.

Lemma enqueue_body_frame item s s' b :
  enqueue_body d item None s = Ok (tt, s') -> b <> BucketDeliveryQueue -> same_bucket b s s'.
Proof.
  unfold enqueue_body. rewrite st_bind_ok. intros ([] & s0 & [= <-] & Hb) Hne.
  apply st_bind_ok in Hb as (n & s0 & (_ & _ & -> & _)%ForEach_ok & Hb). destruct (_ <=? _); [done|]. cbv zeta in Hb.
  apply st_bind_ok in Hb as (found & s0 & (_ & _ & _ & _ & ->)%Get_ok & Hb). destruct found; [done|].
  apply st_bind_ok in Hb as (inUse & s0 & (_ & _ & -> & _)%ForEach_ok & Hb). destruct inUse; [done|].
  apply putItem_ok in Hb as (_ & _ & doc & _ & Hp). by eapply Put_same.
Qed.

Lemma enqueue_body_ok item s s' :
  queue_inv d s -> enqueue_body d item None s = Ok (tt, s') ->
  Z.of_nat (length (pending_keys s)) < dp_maxQueueItems d /\
  kv_get s BucketDeliveryQueue (itemKey (itm_DeliveryID item)) = None /\
  (forall key other, holds s key other -> well_formed d other -> itm_WebhookID other <> itm_WebhookID item) /\
  replaced s s' (itemKey (itm_DeliveryID item)) item /\ DeliveryQueueItem_Validate item = Ok tt.
Proof.
  intros Hi. unfold enqueue_body. rewrite st_bind_ok. intros ([] & s0 & [= <-] & Hb).
  apply st_bind_ok in Hb as (n & s0 & [-> ->]%countPending_ok & Hb); [|done].
  destruct (Z.leb_spec (dp_maxQueueItems d) (Z.of_nat (length (pending_keys s)))); [done|]. cbv zeta in Hb.
  apply st_bind_ok in Hb as (found & s0 & (_ & _ & _ & -> & ->)%Get_ok & Hb).
  destruct (kv_get s BucketDeliveryQueue (itemKey (itm_DeliveryID item))) eqn:Eg; [done|].
  apply st_bind_ok in Hb as (inUse & s0 & Hw & Hb). destruct inUse; [done|].
  apply webhookIDInUse_ok in Hw as [-> Hw]. apply putItem_replaced in Hb as [Hr Hv]. done.
Qed.

(** An enqueue with a mutation is the mutation, then an accepted item, in one
    transaction; outside the queue it is the mutation. *)
Lemma enqueue_mutation_ok env request mutation s out :
  texts_ok env request -> enqueue d env request mutation s = out ->
  match out with
  | (Ok item, s') => exists s1, apply_change mutation s s1 /\ (queue_inv d s1 -> accepted s1 s' item) /\
      (forall b, b <> BucketDeliveryQueue -> same_bucket b s1 s') /\
      exists deliveryID webhookID, item = new_item request deliveryID webhookID (utc (ee_now env))
  | (Fail _, s') => s' = s
  end.
Proof.
  intros (U1 & U2 & U3 & U4) <-. unfold enqueue.
  destruct (validateEnqueueRequest request (dp_destinations d)) as [[]|] eqn:Ev; [|done].
  unfold checked_now. destruct (is_zero (utc (ee_now env))); [done|]. unfold before.
  destruct (Z.ltb_spec (utc (ee_now env)) (er_ExpiresAt request)) as [Hlt|]; cbn [negb]; [|done].
  destruct (ee_deliveryID env) as [deliveryID|]; [|done].
  destruct (validToken deliveryID maxPayloadRefLength) eqn:Et; cbn [negb]; [|done].
  destruct (ee_webhookID env) as [webhookID|]; [|done].
  destruct (Sign (dp_keyring d) webhookID (utc (ee_now env)) []) eqn:Es; [|done].
  set (item := new_item request deliveryID webhookID (utc (ee_now env))).
  destruct (Update_cases (enqueue_body d item mutation) s) as [([] & s' & Hb & ->)|(e & ->)]; [|done].
  apply enqueue_body_split in Hb as (s1 & Happ & Hb). exists s1. split; [done|]. split; [|split; [|by eexists _, _]].
  2:{ intros b Hne. by eapply enqueue_body_frame. }
  intros Hi. apply enqueue_body_ok in Hb as (Hroom & Hfresh & Hweb & Hrep & Hv); [|done].
  unfold validateEnqueueRequest in Ev. destruct (_ || is_zero _) eqn:E in Ev; [done|]. bool_prop.
  destruct (dp_destinations d !! er_DestinationRef request) as [endpoint|] eqn:Edest; [|done].
  split; try done.
  split; [done| | | |].
  - split_and!; [by apply U3|done|by apply U4|done].
  - cbn. split_and!; [by apply validToken_len in Et|by eapply validToken_len| |].
    + apply (sign_id_len (dp_keyring d)) in Es. done.
    + match goal with X : validToken (er_DestinationRef request) _ = true |- _ =>
        apply validToken_len in X; unfold maxDestinationRefLength in X; lia end.
  - cbn. destruct Hd. lia.
  - intros _. cbn. destruct Hd. lia.
Qed.

Lemma enqueue_ok env request s out :
  queue_inv d s -> texts_ok env request -> enqueue d env request None s = out ->
  match out with
  | (Ok item, s') => accepted s s' item
  | (Fail _, s') => s' = s
  end.
Proof.
  intros Hi Ht He. apply (enqueue_mutation_ok env request None s out Ht) in He.
  destruct out as [[item|e] s']; [|done]. destruct He as (s1 & -> & Ha & _). by apply Ha.
Qed.
End EnqueueFacts.

(** * Histories of a queue *)

(** One call on the queue: the keys it sent requests for, whether it failed,
    and the store after it. *)
Inductive queue_step `{Bolt} (d : Dispatcher) (s : db) : list string -> bool -> db -> Prop :=
| step_enqueue env request :
    texts_ok env request -> queue_step d s [] false (Enqueue d env request s).2
| step_deliver now env p err :
    DeliverDue d now env s = (p, err) -> queue_step d s (pg_posted p) (bool_decide (err <> None)) (pg_db p).

(** Calls one after the other, with the keys of all requests sent. *)
Inductive history `{Bolt} (d : Dispatcher) : db -> list string -> bool -> db -> Prop :=
| history_nil s : history d s [] false s
| history_step s keys failed s1 keys' failed' s' :
    queue_step d s keys failed s1 -> history d s1 keys' failed' s' ->
    history d s (keys ++ keys') (failed || failed') s'.

(** The attempts an entry has left. *)
Definition attempts_left `{Bolt} (d : Dispatcher) (s : db) (key : string) : Z :=
  match kv_get s BucketDeliveryQueue key with
  | None => dp_maxAttempts d
  | Some doc =>
    match decodeItem doc with
    | Ok item => if pending item then dp_maxAttempts d - itm_AttemptCount item else 0
    | Fail _ => 0
    end
  end.

(** How often [key] occurs. *)
Definition occurrences (key : string) (keys : list string) : Z := Z.of_nat (count_occ String.string_dec keys key).

Section Histories.
Context `{BoltLaws} (d : Dispatcher).
#[local] Set Default Proof Using "Type*".
Context (Hd : valid_dispatcher d).

Lemma attempts_left_holds s key item :
  holds s key item -> well_formed d item ->
  attempts_left d s key = if pending item then dp_maxAttempts d - itm_AttemptCount item else 0.
Proof.
  intros (doc & Hg & Hm) W. unfold attempts_left. rewrite Hg. by rewrite (decode_written d item doc Hd W Hm).
Qed.

Lemma attempts_left_nonneg s key : queue_inv d s -> 0 <= attempts_left d s key.
Proof.
  intros Hi. unfold attempts_left. destruct (kv_get s BucketDeliveryQueue key) as [doc|] eqn:Eg; [|destruct Hd; lia].
  destruct (Hi key doc Eg) as (item & Hm & W & _). rewrite (decode_written d item doc Hd W Hm).
  destruct W. destruct (pending item); lia.
Qed.

Lemma attempts_left_max s key : queue_inv d s -> attempts_left d s key <= dp_maxAttempts d.
Proof.
  intros Hi. unfold attempts_left. destruct (kv_get s BucketDeliveryQueue key) as [doc|] eqn:Eg; [|lia].
  destruct (Hi key doc Eg) as (item & Hm & W & _). rewrite (decode_written d item doc Hd W Hm).
  destruct W. destruct (pending item); lia.
Qed.

(** A recorded attempt uses one up. *)
Lemma moved_left now s s' keys key :
  queue_inv d s -> moved d now s s' keys false key ->
  attempts_left d s' key + (if bool_decide (key ∈ keys) then 1 else 0) <= attempts_left d s key.
Proof.
  intros Hi [[He Hf]|(item & item' & Hh & W & Hp & Hh' & W' & Hadv)].
  - rewrite bool_decide_eq_false_2 by (by intros [? _]%Hf). unfold attempts_left. rewrite He. lia.
  - rewrite (attempts_left_holds s key item Hh W), Hp, (attempts_left_holds s' key item' Hh' W').
    pose proof (wf_pending _ _ W Hp).
    destruct (bool_decide (key ∈ keys)); inversion Hadv; subst; unfold pending in *; cbn in *; rewrite ?Hp; cbn; lia.
Qed.

Lemma enqueue_left s s' item key :
  queue_inv d s -> accepted d s s' item -> attempts_left d s' key <= attempts_left d s key.
Proof.
  intros Hi Ha. destruct (ac_stored _ _ _ _ Ha) as [Hh Ho].
  destruct (decide (key = itemKey (itm_DeliveryID item))) as [->|Hne].
  - rewrite (attempts_left_holds s' _ item Hh (ac_well_formed _ _ _ _ Ha)).
    unfold attempts_left. rewrite (ac_fresh _ _ _ _ Ha).
    destruct (ac_pending _ _ _ _ Ha) as (-> & -> & _). lia.
  - unfold attempts_left. rewrite Ho by done. lia.
Qed.

Lemma accepted_inv s s' item : queue_inv d s -> accepted d s s' item -> queue_inv d s'.
Proof. intros Hi Ha. eapply replaced_inv; [done|done|apply Ha|apply Ha|done]. Qed.

Lemma occurrences_app key l l' : occurrences key (l ++ l') = occurrences key l + occurrences key l'.
Proof. unfold occurrences. rewrite count_occ_app. lia. Qed.

Lemma occurrences_NoDup key l : NoDup l -> occurrences key l = if bool_decide (key ∈ l) then 1 else 0.
Proof.
  intros Hn. unfold occurrences. apply NoDup_ListNoDup in Hn.
  destruct (bool_decide_reflect (key ∈ l)) as [Hin|Hin].
  - apply list_elem_of_In in Hin. by rewrite (proj1 (NoDup_count_occ' String.string_dec l) Hn key Hin).
  - rewrite (proj1 (count_occ_not_In String.string_dec l key)); [done|]. by rewrite <- list_elem_of_In.
Qed.

Lemma queue_step_inv s keys failed s' :
  queue_inv d s -> queue_step d s keys failed s' ->
  queue_inv d s' /\ (failed = false -> forall key, attempts_left d s' key + occurrences key keys <= attempts_left d s key).
Proof.
  intros Hi Hs. destruct Hs as [env request Ht|now env p err Hp].
  - pose proof (enqueue_ok d Hd env request s (Enqueue d env request s) Hi Ht eq_refl) as Ho. cbn zeta in Ho.
    destruct (Enqueue d env request s) as [[item|e] s1]; cbn [snd].
    + split; [by eapply accepted_inv|]. intros _ key. pose proof (enqueue_left s s1 item key Hi Ho). unfold occurrences. cbn. lia.
    + subst s1. split; [done|]. intros _ key. unfold occurrences. cbn. lia.
  - destruct (DeliverDue_ok d Hd now env s p err Hi Hp) as (Hi' & Hn & Hm & _). split; [done|]. intros Hf key.
    specialize (Hm key). rewrite Hf in Hm. rewrite occurrences_NoDup by done. by apply (moved_left (utc now)).
Qed.

Lemma history_left s keys failed s' key :
  history d s keys failed s' -> queue_inv d s -> failed = false ->
  queue_inv d s' /\ attempts_left d s' key + occurrences key keys <= attempts_left d s key.
Proof.
  induction 1 as [s|s keys failed s1 keys' failed' s' Hs _ IH]; intros Hi Hf; [split; [done|unfold occurrences; cbn; lia]|].
  apply orb_false_iff in Hf as [-> ->]. destruct (queue_step_inv s keys false s1 Hi Hs) as [Hi1 Hl].
  destruct (IH Hi1 eq_refl) as [Hi' Hr]. split; [done|]. specialize (Hl eq_refl key). rewrite occurrences_app. lia.
Qed.

(** The pending entries after a call. *)
(** The turn of a pending entry, told by what happened to it. *)
Lemma turn_outcome now s s' keys key item :
  moved d now s s' keys false key -> holds s key item -> well_formed d item -> pending item = true ->
  had_turn d now s' key item ->
  waiting now item /\ holds s' key item /\ key ∉ keys \/
  exists item', holds s' key item' /\ well_formed d item' /\ advanced d now item (bool_decide (key ∈ keys)) item'.
Proof.
  intros Hm Hh W Hp Ht. destruct Hm as [[He Hf]|(item0 & item' & Hh0 & W0 & _ & Hh' & W' & Hadv)].
  - assert (Hs : holds s' key item) by by apply (holds_same _ _ _ _ He). left.
    destruct Ht as [Hw|(posted & item' & Hh' & W' & Hadv)]; [split_and!; [done..|by intros [? _]%Hf]|].
    exfalso. apply (advanced_other _ _ _ _ _ Hp Hadv). by apply (holds_unique d Hd s' key).
  - right. rewrite (holds_unique d Hd s key item item0) in Hadv by done. by exists item'.
Qed.

Lemma pending_after_deliver now env s p err key :
  queue_inv d s -> DeliverDue d now env s = (p, err) -> key ∈ pending_keys (pg_db p) -> key ∈ pending_keys s.
Proof.
  intros Hi Hp Hk. destruct (DeliverDue_ok d Hd now env s p err Hi Hp) as (_ & _ & Hm & _). specialize (Hm key).
  apply pending_keys_spec in Hk as (doc & item & Hg & Hdec & Hpend). apply pending_keys_spec.
  destruct Hm as [[He _]|(item0 & item' & (doc0 & Hg0 & Hm0) & W & Hp0 & _)].
  - rewrite He in Hg. eauto.
  - exists doc0, item0. split_and!; [done|by eapply decode_written|done].
Qed.

Lemma pending_after_enqueue s s' item key :
  accepted d s s' item -> key ∈ pending_keys s' -> key ∈ itemKey (itm_DeliveryID item) :: pending_keys s.
Proof.
  intros Ha (doc & item' & Hg & Hdec & Hpend)%pending_keys_spec. apply elem_of_cons.
  destruct (decide (key = itemKey (itm_DeliveryID item))) as [|Hne]; [by left|right].
  apply pending_keys_spec. exists doc, item'. split_and!; [|done..]. by rewrite <- (proj2 (ac_stored _ _ _ _ Ha)).
Qed.

Lemma queue_step_bound s keys failed s' :
  queue_inv d s -> Z.of_nat (length (pending_keys s)) <= dp_maxQueueItems d -> queue_step d s keys failed s' ->
  Z.of_nat (length (pending_keys s')) <= dp_maxQueueItems d.
Proof.
  intros Hi Hb Hs. destruct Hs as [env request Ht|now env p err Hp].
  - pose proof (enqueue_ok d Hd env request s (Enqueue d env request s) Hi Ht eq_refl) as Ho. cbn zeta in Ho.
    destruct (Enqueue d env request s) as [[item|e] s1]; cbn [snd]; [|by subst s1].
    pose proof (ac_room _ _ _ _ Ho).
    assert (length (pending_keys s1) <= S (length (pending_keys s)))%nat; [|lia].
    change (S (length (pending_keys s))) with (length (itemKey (itm_DeliveryID item) :: pending_keys s)).
    apply submseteq_length, NoDup_submseteq; [apply pending_keys_NoDup|]. intros key Hk. by eapply pending_after_enqueue.
  - assert (length (pending_keys (pg_db p)) <= length (pending_keys s))%nat; [|lia].
    apply submseteq_length, NoDup_submseteq; [apply pending_keys_NoDup|]. intros key Hk.
    by eapply pending_after_deliver.
Qed.
End Histories.

(** An append only succeeds for an event whose fields the chain accepts. *)
Lemma Append_fields `{BoltLaws} event change s ev s' :
  AuditChain.Append event change s = Ok (ev, s') -> validateEventFields event = Ok tt.
Proof.
  unfold AuditChain.Append. rewrite st_bind_ok. intros (state & s0 & _ & Happ).
  destruct (_ || _); [done|]. apply st_bind_ok in Happ as ([] & s1 & Hv & _). unfold st_lift in Hv.
  destruct event as [v i ty ag ac an re rc oc pd dg]. destruct (validateEventFields _) as [[]|] eqn:E; [|done].
  reflexivity.
Qed.

(** * Properties *)

(** The retry delay is the initial delay doubled for every earlier attempt
    and capped at the maximum, computed without overflow for every accepted
    configuration and every attempt number. *)
Lemma backoff_exponential d attempt :
  valid_dispatcher d -> 1 <= attempt ->
  backoff d attempt = Z.min (dp_initialBackoff d * 2 ^ (attempt - 1)) (dp_maxBackoff d) /\
  dp_initialBackoff d <= backoff d attempt <= dp_maxBackoff d /\ backoff d attempt <= backoff d (attempt + 1).
Proof.
  intros Hd Ha. rewrite !backoff_closed by (done || lia). destruct Hd. unfold millisecond in *.
  pose proof (Z.pow_pos_nonneg 2 (attempt - 1) ltac:(lia) ltac:(lia)).
  replace (attempt + 1 - 1) with (Z.succ (attempt - 1)) by lia. rewrite Z.pow_succ_r by lia. nia.
Qed.

Section Properties.
Context `{BoltLaws} (d : Dispatcher).
#[local] Set Default Proof Using "Type*".

(** An accepted [Enqueue] found room, a fresh delivery identity, an unused
    webhook ID and a configured destination, and adds exactly the new pending
    item; a rejected one changes nothing. *)
Lemma Enqueue_effect env request s :
  valid_dispatcher d -> queue_inv d s -> texts_ok env request ->
  match Enqueue d env request s with
  | (Ok item, s') => accepted d s s' item
  | (Fail _, s') => s' = s
  end.
Proof. intros Hd Hi Ht. by apply (enqueue_ok d Hd env request s). Qed.

(** C13: a [DeliverDue] call sends at most one request per queue entry, only for
    entries that were pending and due (their next attempt reached, their expiry
    not), and either leaves an entry as it was or records exactly one attempt on
    it: a due one delivered, scheduled again within the attempt and time budget,
    failed with the budget spent or expired without room for a retry, an expired
    one expired.  A call that does not fail leaves no pending entry out but those
    whose next attempt lies ahead. *)
Theorem DeliverDue_effect now env s p err :
  valid_dispatcher d -> queue_inv d s -> DeliverDue d now env s = (p, err) ->
  NoDup (pg_posted p) /\ queue_inv d (pg_db p) /\
  (forall key, key ∈ pg_posted p ->
     exists item, holds s key item /\ well_formed d item /\ pending item = true /\ due (utc now) item) /\
  (forall key, moved d (utc now) s (pg_db p) (pg_posted p) (bool_decide (err <> None)) key) /\
  (err = None -> forall key item, holds s key item -> well_formed d item -> pending item = true ->
     waiting (utc now) item /\ holds (pg_db p) key item /\ key ∉ pg_posted p \/
     exists item', holds (pg_db p) key item' /\ well_formed d item' /\
       advanced d (utc now) item (bool_decide (key ∈ pg_posted p)) item').
Proof.
  intros Hd Hi Hp. destruct (DeliverDue_ok d Hd now env s p err Hi Hp) as (Hi' & Hn & Hm & Ht).
  split_and!; [done|done| |done|].
  - intros key Hkey. destruct (Hm key) as [[_ Hf]|(item & item' & Hh & W & Hpd & _ & _ & Hadv)]; [by apply Hf|].
    rewrite bool_decide_eq_true_2 in Hadv by done. exists item. split_and!; [done..|]. by eapply advanced_posted.
  - intros -> key item Hh W Hpd. by apply (turn_outcome d Hd (utc now) s (pg_db p)); [..|apply Ht].
Qed.

(** C12: the queue never holds more pending entries than its bound, and every
    entry stays a well-formed item under its own key, through any sequence of
    calls, failing ones included. *)
Theorem queue_invariant s keys failed s' :
  history d s keys failed s' -> valid_dispatcher d -> queue_inv d s ->
  Z.of_nat (length (pending_keys s)) <= dp_maxQueueItems d ->
  queue_inv d s' /\ Z.of_nat (length (pending_keys s')) <= dp_maxQueueItems d.
Proof.
  induction 1 as [s|s keys failed s1 keys' failed' s' Hs _ IH]; intros Hd Hi Hb; [done|].
  apply IH; [done|by eapply queue_step_inv|by eapply queue_step_bound].
Qed.

(** C14: through any sequence of calls that do not fail, no more requests are
    sent for one delivery than the configured number of attempts, and a
    delivery that is no longer pending is never sent again. *)
Theorem attempts_bounded s keys s' key :
  history d s keys false s' -> valid_dispatcher d -> queue_inv d s ->
  occurrences key keys <= dp_maxAttempts d /\
  (forall item, holds s key item -> well_formed d item -> pending item = false -> key ∉ keys).
Proof.
  intros Hh Hd Hi. destruct (history_left d Hd s keys false s' key Hh Hi eq_refl) as [Hi' Hl].
  pose proof (attempts_left_nonneg d Hd s' key Hi'). split.
  - pose proof (attempts_left_max d Hd s key Hi). lia.
  - intros item Hh' W Hp Hin. rewrite (attempts_left_holds d Hd s key item Hh' W), Hp in Hl.
    assert (0 < occurrences key keys); [|lia]. unfold occurrences.
    apply list_elem_of_In, (count_occ_In String.string_dec) in Hin. lia.
Qed.

(** The queue accepts delivery identities the audit chain refuses: once
    such an entry has expired, every [DeliverDue] call fails on it before it
    reaches the entries after it, and changes nothing. *)
Lemma DeliverDue_blocked now env s stored rest auditID :
  valid_dispatcher d -> queue_inv d s -> utc now <> 0 ->
  pendingItems s = Ok (stored :: rest) -> itm_ExpiresAt (si_item stored) <= utc now ->
  validAuditField (itm_DeliveryID (si_item stored)) = false ->
  ae_context (env (si_key stored)) = None -> ae_auditID (env (si_key stored)) = Ok auditID ->
  exists e, DeliverDue d now env s = (mkProgress [] [] s, Some e).
Proof.
  intros Hd Hi Hnow Hp Hexp Hbad Hctx Haid. unfold DeliverDue, checked_now, is_zero.
  destruct (Z.eqb_spec (utc now) 0); [done|]. rewrite Hp.
  destruct (pendingItems_ok d Hd s _ Hi Hp) as (_ & _ & [Hc _]%Forall_cons). destruct Hc as (Hh & W & Hpend & Hk).
  destruct stored as [key item]. cbn in *. rewrite Hctx. unfold before.
  destruct (Z.ltb_spec (utc now) (itm_ExpiresAt item)); [lia|]. cbn [negb].
  unfold expire, markTerminal. rewrite Haid. destruct (negb _); [by eexists|]. cbn [si_key].
  match goal with |- context [ Update ?b s ] => destruct (Update_cases b s) as [(r & s' & Hb & Hu)|(e & Hu)] end;
    rewrite Hu; [|by eexists].
  exfalso. unfold terminal_body in Hb. apply st_bind_ok in Hb as (current & s0 & Hl & Hb).
  destruct (load_current d Hd key s item current s0 Hi Hh W Hl) as [-> ->].
  rewrite (proj1 (pending_state item) Hpend), Hpend in Hb. cbn [negb] in Hb.
  change (String.eqb DeliveryPending DeliveryExpired) with false in Hb. cbn iota in Hb.
  apply st_bind_ok in Hb as ([] & s1 & Ha & _). unfold auditDeliveryFailure in Ha.
  apply st_bind_ok in Ha as (ev & s2 & Ha%Append_fields & _). apply validateEventFields_ok in Ha as (_ & _ & Ha).
  unfold event_fields in Ha. rewrite !Forall_cons in Ha. cbn in Ha. destruct Ha as (_ & _ & Ha & _). congruence.
Qed.
End Properties.

(** * Examples *)

Definition demo_dispatcher : Dispatcher :=
  mkDispatcher demo_keyring {["hook" := "https://example.test/hook"]} 2 3 second (3 * second) second 1024.
Lemma demo_valid : valid_dispatcher demo_dispatcher.
Proof. split; cbn; unfold maxQueueItems, maxAttempts, millisecond, second, maxInt64; lia. Qed.

Definition queue0 : @db gmapBolt := {[BucketDeliveryQueue := ∅; BucketAudit := ∅]}.
Lemma queue0_inv : queue_inv demo_dispatcher queue0.
Proof.
  intros key doc Hg. exfalso. change (kv_get queue0 BucketDeliveryQueue key) with ((∅ : gmap string document) !! key) in Hg.
  rewrite lookup_empty in Hg. discriminate Hg.
Qed.

Definition demo_request : EnqueueRequest :=
  mkEnqueueRequest DeliveryPayloadLifecycleEvent "event-1" "hook" (demo_time + 10 * second).
Definition demo_enqueue (id webhook : string) : enqueue_env := mkEnqueueEnv demo_time (Ok id) (Ok webhook).
Lemma demo_texts id webhook :
  valid_utf8 id = true -> valid_utf8 webhook = true -> texts_ok (demo_enqueue id webhook) demo_request.
Proof. intros Hi Hw. split_and!; [done|done| |]; by intros ? [= <-]. Qed.

Definition enqueued1 : result DeliveryQueueItem * @db gmapBolt :=
  Enqueue demo_dispatcher (demo_enqueue "delivery-1" "msg_1") demo_request queue0.
Definition queue1 : @db gmapBolt := enqueued1.2.
Lemma queue1_inv : queue_inv demo_dispatcher queue1.
Proof.
  exact (proj1 (queue_step_inv (H := gmapBolt) demo_dispatcher demo_valid queue0 [] false queue1 queue0_inv
    (step_enqueue _ _ _ _ (demo_texts "delivery-1" "msg_1" eq_refl eq_refl)))).
Qed.

(** An endpoint that answers with [status]. *)
Definition answering (status : Z) (_ : string) : attempt_env :=
  mkAttemptEnv None (Ok (Text (JObj []) false)) None (Ok tt) (Ok (Some status)) true None (Ok "evt-1").
Definition delivered1 : progress * option error := DeliverDue demo_dispatcher demo_time (answering 204) queue1.
Definition retried1 : progress * option error := DeliverDue demo_dispatcher demo_time (answering 500) queue1.

(** The state, the attempts and the next attempt of the first item. *)
Definition first_item (s : @db gmapBolt) : option (string * Z * Z) :=
  match kv_get s BucketDeliveryQueue (itemKey "delivery-1") with
  | Some doc => match decodeItem doc with
    | Ok item => Some (itm_State item, itm_AttemptCount item, (itm_NextAttemptAt item - demo_time) / second)
    | Fail _ => None
    end
  | None => None
  end.
Example demo_outcomes :
  first_item queue1 = Some (DeliveryPending, 0, 0) /\
  first_item (pg_db delivered1.1) = Some (DeliveryDelivered, 1, 0) /\
  first_item (pg_db retried1.1) = Some (DeliveryPending, 1, 1) /\
  first_item (pg_db (DeliverDue demo_dispatcher (demo_time + second) (answering 500) (pg_db retried1.1)).1) =
    Some (DeliveryPending, 2, 3) /\
  first_item (pg_db (DeliverDue demo_dispatcher (demo_time + 10 * second) (answering 204) queue1).1) =
    Some (DeliveryExpired, 0, 0).
Proof. split_and!; vm_compute; reflexivity. Qed.

Lemma backoff_exponential_witness :
  backoff demo_dispatcher 2 = Z.min (second * 2 ^ (2 - 1)) (3 * second) /\
  second <= backoff demo_dispatcher 2 <= 3 * second /\ backoff demo_dispatcher 2 <= backoff demo_dispatcher (2 + 1).
Proof. apply (backoff_exponential demo_dispatcher 2); [exact demo_valid|lia]. Defined.

Lemma Enqueue_effect_witness :
  match enqueued1 with
  | (Ok item, s') => accepted demo_dispatcher queue0 s' item
  | (Fail _, s') => s' = queue0
  end.
Proof.
  apply (Enqueue_effect (H := gmapBolt) demo_dispatcher (demo_enqueue "delivery-1" "msg_1") demo_request queue0).
  - exact demo_valid.
  - exact queue0_inv.
  - exact (demo_texts "delivery-1" "msg_1" eq_refl eq_refl).
Defined.

Lemma pair_of (out : progress * option error) : out = (out.1, out.2).
Proof. by destruct out. Qed.

Lemma DeliverDue_effect_witness : NoDup (pg_posted delivered1.1) /\ queue_inv demo_dispatcher (pg_db delivered1.1).
Proof.
  destruct (DeliverDue_effect (H := gmapBolt) demo_dispatcher demo_time (answering 204) queue1 delivered1.1 delivered1.2
    demo_valid queue1_inv (pair_of delivered1)) as (Hn & Hi & _).
  exact (conj Hn Hi).
Defined.

Lemma returned_ok (out : progress * option error) : out.2 = None -> out = (out.1, None).
Proof. destruct out as [p err]. cbn. by intros ->. Qed.
Lemma delivered1_ok : delivered1.2 = None.
Proof. vm_compute. reflexivity. Qed.

(** An enqueue, then a delivery. *)
Lemma demo_history : history demo_dispatcher queue0 ([] ++ pg_posted delivered1.1 ++ []) false (pg_db delivered1.1).
Proof.
  change false with (false || (bool_decide (@None error <> None) || false)).
  eapply history_step; [apply step_enqueue, (demo_texts "delivery-1" "msg_1" eq_refl eq_refl)|].
  eapply history_step; [|apply history_nil]. apply (step_deliver _ _ demo_time (answering 204)).
  exact (returned_ok _ delivered1_ok).
Qed.

Lemma queue_invariant_witness : queue_inv demo_dispatcher (pg_db delivered1.1) /\ (Z.of_nat (length (pending_keys (pg_db delivered1.1))) <= 2).
Proof.
  apply (queue_invariant (H := gmapBolt) demo_dispatcher _ _ _ _ demo_history demo_valid queue0_inv).
  vm_compute. discriminate.
Defined.

Lemma attempts_bounded_witness : occurrences (itemKey "delivery-1") ([] ++ pg_posted delivered1.1 ++ []) <= 3.
Proof.
  exact (proj1 (attempts_bounded (H := gmapBolt) demo_dispatcher _ _ _ (itemKey "delivery-1") demo_history demo_valid
    queue0_inv)).
Defined.

(** An identity with a space is accepted, and blocks the queue once expired. *)
Definition blocked : @db gmapBolt :=
  (Enqueue demo_dispatcher (demo_enqueue "delivery 2" "msg_2") demo_request queue0).2.
Lemma blocked_inv : queue_inv demo_dispatcher blocked.
Proof.
  exact (proj1 (queue_step_inv (H := gmapBolt) demo_dispatcher demo_valid queue0 [] false blocked queue0_inv
    (step_enqueue _ _ _ _ (demo_texts "delivery 2" "msg_2" eq_refl eq_refl)))).
Qed.
Definition blocked_item : storedItem :=
  mkStoredItem (itemKey "delivery 2") (new_item demo_request "delivery 2" "msg_2" demo_time).

Lemma DeliverDue_blocked_witness :
  exists e, DeliverDue demo_dispatcher (demo_time + 10 * second) (answering 204) blocked =
    (mkProgress [] [] blocked, Some e).
Proof.
  apply (DeliverDue_blocked (H := gmapBolt) demo_dispatcher _ _ _ blocked_item [] "evt-1").
  - exact demo_valid.
  - exact blocked_inv.
  - discriminate.
  - vm_compute. reflexivity.
  - discriminate.
  - vm_compute. reflexivity.
  - reflexivity.
  - reflexivity.
Defined.
