(* ===== verification/Outbox.v ===== *)
(** The outbox pattern of the two publishers: a payload record and the
    delivery item that refers to it are stored in one transaction, by the
    mutation each publisher hands to [EnqueueWithMutation].  This file holds
    what both share: the mutation, the invariant that ties the queue to the
    payload records, and its preservation by enqueues and by deliveries. *)
From S2P Require Import Prelude GoLib GoTime Sha256 Webhook Json Contract ContractFacts Store Redaction AuditChain.
From S2P Require Import Delivery.
From stdpp Require Import options.
Local Open Scope Z_scope.

(** A kind of payload: its bucket, its payload type in the queue, the key of a
    reference, the error of a record that is already there, and what a document
    must be to be the payload of a reference. *)
Class PayloadKind := {
  pk_bucket : string;
  pk_type : string;
  pk_key : string -> string;
  pk_exists : error;
  pk_payload : string -> document -> Prop;
  pk_not_queue : pk_bucket <> BucketDeliveryQueue;
  pk_not_audit : pk_bucket <> BucketAudit;
}.

Section Outbox.
Context `{Bolt}.

(** The mutation of a publication. *)
Definition persist_payload (kind : PayloadKind) (ref : string) (document : document) : st db unit :=
  Get pk_bucket (pk_key ref) ≫= fun present =>
  match present with
  | Some _ => st_fail pk_exists
  | None => Put pk_bucket (pk_key ref) document
  end.

(** The queue holds an item of this kind for [ref] under [key]. *)
Definition queued (d : Dispatcher) (kind : PayloadKind) (s : db) (key ref : string) : Prop :=
  exists item, holds s key item /\ well_formed d item /\ itm_PayloadType item = pk_type /\ itm_PayloadRef item = ref.

(** Every queued item of this kind has its payload record, and no payload is
    queued twice. *)
Definition outbox_inv (d : Dispatcher) (kind : PayloadKind) (s : db) : Prop :=
  (forall key ref, queued d kind s key ref ->
     exists doc, kv_get s pk_bucket (pk_key ref) = Some doc /\ pk_payload ref doc) /\
  (forall key key' ref, queued d kind s key ref -> queued d kind s key' ref -> key = key').
End Outbox.

Section OutboxFacts.
Context `{BoltLaws} (d : Dispatcher).
#[local] Set Default Proof Using "Type*".
Context (Hd : valid_dispatcher d).

Lemma persist_payload_ok (kind : PayloadKind) ref doc s u s' :
  persist_payload kind ref doc s = Ok (u, s') ->
  kv_get s pk_bucket (pk_key ref) = None /\ kv_get s' pk_bucket (pk_key ref) = Some doc /\
  (forall key, key <> pk_key ref -> kv_get s' pk_bucket key = kv_get s pk_bucket key) /\
  (forall b, b <> pk_bucket -> same_bucket b s s').
Proof.
  intros (present & s0 & (_ & _ & _ & -> & ->)%Get_ok & Hp)%st_bind_ok. destruct (kv_get s _ _) eqn:Eg; [done|].
  split_and!; [done|by eapply Put_get|intros key Hne; by eapply Put_get_ne|intros b Hb; by eapply Put_same].
Qed.

(** The dispatcher sees the queue only. *)
Lemma queue_inv_same s s1 : same_bucket BucketDeliveryQueue s s1 -> queue_inv d s -> queue_inv d s1.
Proof. intros Hs Hi key doc. rewrite Hs. apply Hi. Qed.
Lemma accepted_same s s1 s' item :
  same_bucket BucketDeliveryQueue s s1 -> accepted d s1 s' item -> accepted d s s' item.
Proof.
  intros Hs [Hp Hr Hf Hw Hk [Hh Ho] W]. split; try done.
  - unfold pending_keys in *. by rewrite <- (entries_ext _ _ _ Hs).
  - by rewrite <- Hs.
  - intros key other (doc & Hg & Hm). apply (Hw key). exists doc. by rewrite Hs.
  - split; [done|]. intros key Hne. by rewrite Ho, Hs.
Qed.

(** The items after an accepted enqueue: the new one and those before. *)
Lemma queued_after (kind : PayloadKind) s s' item key ref :
  well_formed d item -> replaced s s' (itemKey (itm_DeliveryID item)) item -> queued d kind s' key ref ->
  (key = itemKey (itm_DeliveryID item) /\ itm_PayloadType item = pk_type /\ itm_PayloadRef item = ref) \/
  queued d kind s key ref.
Proof.
  intros Hw [Hh Ho] (it & Hit & Wit & Ht & Hr). destruct (decide (key = itemKey (itm_DeliveryID item))) as [->|Hne].
  - left. by rewrite (holds_unique d Hd s' _ it item Wit Hw Hit Hh).
  - right. exists it. split; [|done]. destruct Hit as (doc & Hg & Hm). exists doc. by rewrite <- Ho.
Qed.

(** An enqueue of this kind with its mutation keeps the invariant... *)
Lemma outbox_enqueue (kind : PayloadKind) s s1 s' ref doc item :
  outbox_inv d kind s -> persist_payload kind ref doc s = Ok (tt, s1) -> pk_payload ref doc -> accepted d s1 s' item ->
  itm_PayloadRef item = ref -> (forall b, b <> BucketDeliveryQueue -> same_bucket b s1 s') ->
  outbox_inv d kind s'.
Proof.
  intros [Hp Hu] (Hn & Hg & Ho & Hf)%persist_payload_ok Hpay Ha Href Hfr.
  pose proof pk_not_queue as Hnq.
  assert (Hrec : forall key doc', kv_get s pk_bucket key = Some doc' -> kv_get s' pk_bucket key = Some doc').
  { intros key doc' Hs. rewrite (Hfr pk_bucket Hnq). destruct (decide (key = pk_key ref)) as [->|Hne]; [congruence|by rewrite Ho]. }
  assert (Hold : forall key ref', queued d kind s1 key ref' -> queued d kind s key ref').
  { intros key ref' (it & (doc' & Hg' & Hm) & Hit). exists it. split; [|done]. exists doc'.
    by rewrite <- (Hf BucketDeliveryQueue (not_eq_sym Hnq)). }
  assert (Hnew : forall key, ~ queued d kind s key ref).
  { intros key Hqd. destruct (Hp _ _ Hqd) as (x & Hx & _). congruence. }
  pose proof (ac_well_formed _ _ _ _ Ha) as W. pose proof (ac_stored _ _ _ _ Ha) as Hst. split.
  - intros key ref' Hqd. destruct (queued_after _ _ _ _ _ _ W Hst Hqd) as [(_ & _ & <-)|Hqd'].
    + rewrite Href, (Hfr pk_bucket Hnq), Hg. by exists doc.
    + destruct (Hp _ _ (Hold _ _ Hqd')) as (doc' & Hx & Hy). exists doc'. split; [by apply Hrec|done].
  - intros key key' ref' H1 H2.
    destruct (queued_after _ _ _ _ _ _ W Hst H1) as [(-> & _ & R1)|H1'];
      destruct (queued_after _ _ _ _ _ _ W Hst H2) as [(-> & _ & R2)|H2'].
    + done.
    + exfalso. eapply Hnew, Hold. by rewrite <- Href, R1.
    + exfalso. eapply Hnew, Hold. by rewrite <- Href, R2.
    + by eapply Hu; apply Hold.
Qed.

(** ... an enqueue of another kind too, ... *)
Lemma outbox_other (kind other : PayloadKind) s s1 s' ref doc item :
  outbox_inv d kind s -> @pk_bucket other <> @pk_bucket kind -> @pk_type other <> @pk_type kind ->
  persist_payload other ref doc s = Ok (tt, s1) -> accepted d s1 s' item -> itm_PayloadType item = @pk_type other ->
  (forall b, b <> BucketDeliveryQueue -> same_bucket b s1 s') ->
  outbox_inv d kind s'.
Proof.
  intros [Hp Hu] Hb Ht (_ & _ & _ & Hf)%persist_payload_ok Ha Hty Hfr.
  assert (Hold : forall key ref', queued d kind s' key ref' -> queued d kind s key ref').
  { intros key ref' Hqd. apply (queued_after _ s1 _ item) in Hqd as [(_ & He & _)|(it & (doc' & Hg' & Hm) & Hit)];
      [congruence| |by apply Ha|by apply Ha].
    exists it. split; [|done]. exists doc'. rewrite <- (Hf BucketDeliveryQueue (not_eq_sym (@pk_not_queue other))). done. }
  split.
  - intros key ref' Hqd. rewrite (Hfr pk_bucket pk_not_queue), (Hf pk_bucket (not_eq_sym Hb)). by eapply Hp, Hold.
  - intros key key' ref' H1 H2. by eapply Hu; apply Hold.
Qed.

(** ... and so does a call that leaves the queue's identities and this kind's
    records alone. *)
Lemma outbox_kept (kind : PayloadKind) s s' :
  outbox_inv d kind s -> same_bucket pk_bucket s s' ->
  (forall key ref, queued d kind s' key ref -> queued d kind s key ref) -> outbox_inv d kind s'.
Proof.
  intros [Hp Hu] Hs Hq. split.
  - intros key ref Hqd. rewrite Hs. by eapply Hp, Hq.
  - intros key key' ref H1 H2. by eapply Hu; apply Hq.
Qed.

(** What an enqueue with its payload stores: the document and an item that
    refers to it, and nothing else. *)
Record fresh_payload (kind : PayloadKind) (request : EnqueueRequest) (doc : document) (s s' : db)
    (item : DeliveryQueueItem) : Prop := {
  fy_fresh : kv_get s pk_bucket (pk_key (er_PayloadRef request)) = None;
  fy_record : kv_get s' pk_bucket (pk_key (er_PayloadRef request)) = Some doc;
  fy_records : forall key, key <> pk_key (er_PayloadRef request) -> kv_get s' pk_bucket key = kv_get s pk_bucket key;
  fy_reference : itm_PayloadType item = pk_type /\ itm_PayloadRef item = er_PayloadRef request /\
    itm_DestinationRef item = er_DestinationRef request /\ itm_ExpiresAt item = er_ExpiresAt request /\ pending item = true;
  fy_accepted : queue_inv d s -> accepted d s s' item;
  fy_buckets : forall b, b <> pk_bucket -> b <> BucketDeliveryQueue -> same_bucket b s s';
  fy_outbox : queue_inv d s -> outbox_inv d kind s -> outbox_inv d kind s';
  fy_other : forall other : PayloadKind, queue_inv d s -> @pk_bucket kind <> @pk_bucket other ->
    @pk_type kind <> @pk_type other -> outbox_inv d other s -> outbox_inv d other s';
}.

Lemma enqueue_payload (kind : PayloadKind) env request doc s item s' :
  texts_ok env request -> er_PayloadType request = pk_type -> pk_payload (er_PayloadRef request) doc ->
  enqueue d env request (Some (persist_payload kind (er_PayloadRef request) doc)) s = (Ok item, s') ->
  fresh_payload kind request doc s s' item.
Proof.
  intros Ht Hty Hpay He.
  pose proof (enqueue_mutation_ok d Hd _ _ _ _ _ Ht He) as (s1 & ([] & Hc) & Ha & Hf & did & wid & ->).
  pose proof (persist_payload_ok kind _ _ _ _ _ Hc) as (Hn & Hg & Ho & Hb). pose proof (@pk_not_queue kind) as Hnq.
  assert (Hq : same_bucket BucketDeliveryQueue s s1) by by apply Hb.
  assert (Ha' : queue_inv d s -> accepted d s1 s' (new_item request did wid (utc (ee_now env))))
    by (intros Hi; apply Ha; by eapply queue_inv_same).
  split; try done.
  - rewrite (Hf pk_bucket Hnq). exact Hg.
  - intros key Hne. rewrite (Hf pk_bucket Hnq). by apply Ho.
  - intros Hi. eapply accepted_same; [exact Hq|]. by apply Ha'.
  - intros b Hb1 Hb2 k. rewrite (Hf b Hb2 k). by apply Hb.
  - intros Hi Hob. eapply (outbox_enqueue kind s s1 s'); [exact Hob|exact Hc|exact Hpay|by apply Ha'|done|exact Hf].
  - intros other Hi Hbk Htk Hob. eapply (outbox_other other kind s s1 s'); [exact Hob|exact Hbk|exact Htk|exact Hc|by apply Ha'|done|exact Hf].
Qed.

(** ** Deliveries

    A delivery touches the queue and the audit log only. *)
Definition delivery_frame (s s' : db) : Prop :=
  forall b, b <> BucketDeliveryQueue -> b <> BucketAudit -> same_bucket b s s'.

Lemma delivery_frame_refl s : delivery_frame s s.
Proof. by intros b _ _ k. Qed.
Lemma delivery_frame_trans s1 s2 s3 : delivery_frame s1 s2 -> delivery_frame s2 s3 -> delivery_frame s1 s3.
Proof. intros H1 H2 b Hq Ha k. by rewrite (H2 b Hq Ha k), (H1 b Hq Ha k). Qed.

Lemma putItem_frame key item s u s' : putItem key item s = Ok (u, s') -> delivery_frame s s'.
Proof. intros (_ & _ & doc & _ & Hp)%putItem_ok b Hb _. by eapply Put_same. Qed.
Lemma loadItem_frame key s item s' : loadItem key s = Ok (item, s') -> s' = s.
Proof.
  intros (found & s0 & (_ & _ & _ & _ & ->)%Get_ok & Hl)%st_bind_ok. destruct found as [doc|]; [|done].
  unfold st_lift in Hl. destruct (decodeItem doc); [|done]. by injection Hl as _ <-.
Qed.

Lemma Update_frame {A} (body : st db A) s out s' :
  (forall a s1, body s = Ok (a, s1) -> delivery_frame s s1) -> Update body s = (out, s') -> delivery_frame s s'.
Proof.
  intros Hb Hu. destruct out as [a|e]; [apply Update_ok in Hu; by eapply Hb|].
  apply Update_fail in Hu as ->. apply delivery_frame_refl.
Qed.

Lemma markDelivered_frame stored now s out s' : markDelivered stored now s = (out, s') -> delivery_frame s s'.
Proof.
  unfold markDelivered. destruct (Update _ s) as [r s1] eqn:Eu. intros He.
  assert (s' = s1) as -> by (destruct r; by injection He). revert Eu. apply Update_frame.
  intros a s2. unfold delivered_body. intros (item & s0 & ->%loadItem_frame & Hb)%st_bind_ok.
  destruct (String.eqb _ _); [injection Hb as <- <-; apply delivery_frame_refl|]. destruct (_ || _); [done|].
  apply st_bind_ok in Hb as (u & s3 & Hp%putItem_frame & [= _ <-]). done.
Qed.

Lemma markTerminal_frame auditID stored now state reason s out s' :
  markTerminal auditID stored now state reason s = (out, s') -> delivery_frame s s'.
Proof.
  unfold markTerminal. destruct auditID as [id|]; [|intros [= _ <-]; apply delivery_frame_refl].
  destruct (negb _); [intros [= _ <-]; apply delivery_frame_refl|]. destruct (Update _ s) as [r s1] eqn:Eu. intros He.
  assert (s' = s1) as -> by (destruct r; by injection He). revert Eu. apply Update_frame.
  intros a s2. unfold terminal_body. intros (item & s0 & ->%loadItem_frame & Hb)%st_bind_ok.
  destruct (String.eqb _ _); [injection Hb as <- <-; apply delivery_frame_refl|]. destruct (negb _); [done|].
  apply st_bind_ok in Hb as (u & s3 & Ha & [= _ <-]). apply st_bind_ok in Ha as (ev & s4 & Ha & [= _ <-]).
  apply Append_frame in Ha as (s5 & (u' & Hp%putItem_frame) & Hf). intros b Hq Hau k. rewrite (Hf b Hau k). by apply Hp.
Qed.

Lemma retryOrFail_frame auditID stored now reason s out s' :
  retryOrFail d auditID stored now reason s = (out, s') -> delivery_frame s s'.
Proof.
  unfold retryOrFail, fail, expire. destruct (_ <=? _); [apply markTerminal_frame|].
  destruct (negb _); [apply markTerminal_frame|]. destruct (Update _ s) as [r s1] eqn:Eu. intros He.
  assert (s' = s1) as -> by (destruct r; by injection He). revert Eu. apply Update_frame.
  intros a s2. unfold retry_body. intros (item & s0 & ->%loadItem_frame & Hb)%st_bind_ok. destruct (negb _); [done|].
  apply st_bind_ok in Hb as (u & s3 & Hp%putItem_frame & [= _ <-]). done.
Qed.

Lemma deliverOne_frame env stored now s out s' posted :
  deliverOne d env stored now s = (out, s', posted) -> delivery_frame s s'.
Proof.
  unfold deliverOne. intros He.
  repeat match type of He with
  | (match ?x with _ => _ end) = _ => destruct x
  | (if ?x then _ else _) = _ => destruct x
  end;
  first [ injection He as _ <- _; apply delivery_frame_refl
        | injection He as He _; by apply retryOrFail_frame in He
        | injection He as He _; by apply markDelivered_frame in He ].
Qed.

Lemma deliver_loop_frame env now items p out :
  deliver_loop d env now items p = out -> delivery_frame (pg_db p) (pg_db out.1).
Proof.
  revert p. induction items as [|stored items IH]; intros p; cbn [deliver_loop]; [intros <-; apply delivery_frame_refl|].
  destruct (ae_context _); [intros <-; apply delivery_frame_refl|]. destruct (negb _).
  - destruct (expire _ _ _ _ _) as [[r|e] s1] eqn:Ee; apply markTerminal_frame in Ee.
    + intros Hl%IH. by eapply delivery_frame_trans.
    + by intros <-.
  - destruct (before now _); [by apply IH|].
    destruct (deliverOne _ _ _ _ _) as [[[r|e] s1] posted] eqn:Eo; apply deliverOne_frame in Eo; cbn [fst snd].
    + intros Hl%IH. by eapply delivery_frame_trans.
    + by intros <-.
Qed.

Lemma DeliverDue_frame now env s p err : DeliverDue d now env s = (p, err) -> delivery_frame s (pg_db p).
Proof.
  unfold DeliverDue. destruct (checked_now now); [|intros [= <- _]; apply delivery_frame_refl].
  destruct (pendingItems s); [|intros [= <- _]; apply delivery_frame_refl].
  intros Hl. apply deliver_loop_frame in Hl. done.
Qed.

Lemma DeliverDue_queued (kind : PayloadKind) now env s p err key ref :
  queue_inv d s -> DeliverDue d now env s = (p, err) -> queued d kind (pg_db p) key ref -> queued d kind s key ref.
Proof.
  intros Hi Hdd (it & Hit & Wit & Ht & Hr). destruct (DeliverDue_ok d Hd now env s p err Hi Hdd) as (_ & _ & Hm & _).
  destruct (Hm key) as [[He _]|(item & item' & Hh & W & _ & Hh' & W' & Hadv)].
  - exists it. split; [|done]. destruct Hit as (doc & Hg & Hmm). exists doc. by rewrite <- He.
  - exists item. split; [done|]. split; [done|].
    pose proof (holds_unique d Hd _ _ it item' Wit W' Hit Hh') as ->. apply advanced_identity in Hadv.
    unfold identity in Hadv. injection Hadv as _ H1 H2 _ _ _. by rewrite <- H1, <- H2.
Qed.

Lemma outbox_deliver (kind : PayloadKind) now env s p err :
  queue_inv d s -> DeliverDue d now env s = (p, err) -> outbox_inv d kind s -> outbox_inv d kind (pg_db p).
Proof.
  intros Hi Hdd Ho. eapply outbox_kept; [exact Ho| |].
  - apply DeliverDue_frame in Hdd. apply Hdd; [apply pk_not_queue|apply pk_not_audit].
  - intros key ref. by eapply DeliverDue_queued.
Qed.
End OutboxFacts.
