(* ===== verification/Lifecycle.v ===== *)
(** The publisher of incident lifecycle events and its payload source
    (src/internal/lifecycle/publisher.go).

    A publication reads the context once, then stores the event and its
    delivery item in one transaction of the shared dispatcher.  Publications
    hold the publisher's lock, so they are one after the other.  The Unicode
    tables decide which runes beyond ASCII are letters or digits. *)
From S2P Require Import Prelude GoLib GoTime Sha256 Webhook Json Contract ContractFacts Store Redaction AuditChain.
From S2P Require Import GoText Delivery Outbox.
From stdpp Require Import options.
Local Open Scope Z_scope.

Definition defaultDeliveryTTL : duration := 24 * hour.
Definition maxDeliveryTTL : duration := 30 * 24 * hour.
Definition maxEventIDLength : Z := 128.
Definition maxReasonCodeLength : Z := 96.
Definition maxEvidenceRefLength : Z := 128.
Definition lifecycleRecordPrefix : string := "event/".

Definition lifecycle_error := mkError "lifecycle".
Definition ErrInvalidOptions := lifecycle_error "invalid lifecycle publisher options".
Definition ErrInvalidEvent := lifecycle_error "invalid lifecycle event".
Definition ErrPayloadNotFound := lifecycle_error "lifecycle payload not found".
Definition ErrCorruptPayload := lifecycle_error "corrupt lifecycle payload".
Definition errEventExists := lifecycle_error "lifecycle event already exists".

(** [unicode.IsLetter] or [unicode.IsDigit] beyond ASCII. *)
Class UnicodeTables := { other_letter : Z -> bool }.

(** * Data *)

Record Publisher := mkPublisher {
  pb_queue : Dispatcher;
  pb_destinationRef : string;
  pb_deliveryTTL : duration;
}.

Record Input := mkInput {
  ip_EventID : string;
  ip_EventType : string;
  ip_IncidentID : string;
  ip_ReasonCode : string;
  ip_EvidenceRefs : list string;
  ip_OccurredAt : time;
}.

Record Result := mkResult {
  rs_Event : LifecycleEvent;
  rs_QueueItem : DeliveryQueueItem;
  rs_Duplicate : bool;
}.

(** * Validation *)

Definition validIdentifier (value : string) (limit : Z) : bool :=
  negb (String.eqb value "") && (go_len value <=? limit) && String.eqb (trim_space value) value &&
  negb (contains_byte value 0) && negb (ContainsSensitive value).

Definition reason_rune (r : Z) : bool := is_lower r || is_digit r || (r =? 95) || (r =? 45) || (r =? 46).
Definition validReasonCode (value : string) : bool :=
  if String.eqb value "" || (maxReasonCodeLength <? go_len value) || ContainsSensitive value then false
  else forallb reason_rune (map fst (runes value)).

Lemma events_not_queue : BucketLifecycleEvents <> BucketDeliveryQueue.
Proof. discriminate. Qed.
Lemma events_not_audit : BucketLifecycleEvents <> BucketAudit.
Proof. discriminate. Qed.

Section Lifecycle.
Context `{UnicodeTables} `{Bolt}.

Definition ref_rune (r : Z) : bool :=
  (if r <? 128 then is_alnum r else other_letter r) || (r =? 45) || (r =? 95) || (r =? 46) || (r =? 58).

Fixpoint valid_refs (seen : gset string) (references : list string) : bool :=
  match references with
  | [] => true
  | reference :: rest =>
    validIdentifier reference maxEvidenceRefLength && forallb ref_rune (map fst (runes reference)) &&
    (if decide (reference ∈ seen) then false else valid_refs ({[reference]} ∪ seen) rest)
  end.
Definition validEvidenceRefs (references : list string) : bool :=
  if 64 <? Z.of_nat (length references) then false else valid_refs ∅ references.

(** The options: the dispatcher shares the publisher's store. *)
Definition New (queue : Dispatcher) (destinationRef : string) (ttl : duration) : result Publisher :=
  let ttl := if ttl =? 0 then defaultDeliveryTTL else ttl in
  if negb (validIdentifier destinationRef maxEventIDLength) || (ttl <? second) || (maxDeliveryTTL <? ttl)
  then Fail ErrInvalidOptions
  else Ok (mkPublisher queue destinationRef ttl).

(** * Events *)

Definition event (input : Input) : result LifecycleEvent :=
  if negb (validIdentifier (ip_EventID input) maxEventIDLength) ||
     negb (validIdentifier (ip_IncidentID input) maxEventIDLength) || negb (validReasonCode (ip_ReasonCode input)) ||
     is_zero (ip_OccurredAt input) || negb (validEvidenceRefs (ip_EvidenceRefs input))
  then Fail ErrInvalidEvent
  else
    let event := mkLifecycleEvent SchemaVersionV1 (ip_EventID input) (ip_EventType input) (ip_IncidentID input)
                   (utc (ip_OccurredAt input)) (ip_ReasonCode input) (ip_EvidenceRefs input) in
    if negb (is_ok (LifecycleEvent_Validate event)) then Fail ErrInvalidEvent else Ok event.

Definition event_options : DecodeOptions LifecycleEvent :=
  {| MaxBytes := MaxDocumentBytes; SchemaVersion := SchemaVersionV1; Validate := Some LifecycleEvent_Validate |}.

Definition decodeEvent (doc : document) : result LifecycleEvent :=
  match Decode doc event_options with
  | Fail _ => Fail ErrCorruptPayload
  | Ok event =>
    if negb (validIdentifier (le_EventID event) maxEventIDLength) ||
       negb (validIdentifier (le_IncidentID event) maxEventIDLength) ||
       negb (validReasonCode (le_ReasonCode event)) || negb (validEvidenceRefs (le_EvidenceRefs event))
    then Fail ErrCorruptPayload
    else Ok event
  end.

Definition recordKey (eventID : string) : string := String.append lifecycleRecordPrefix (sha256_hex eventID).

Definition sameEvent (left right : LifecycleEvent) : bool :=
  String.eqb (le_SchemaVersion left) (le_SchemaVersion right) && String.eqb (le_EventID left) (le_EventID right) &&
  String.eqb (le_EventType left) (le_EventType right) && String.eqb (le_IncidentID left) (le_IncidentID right) &&
  (le_OccurredAt left =? le_OccurredAt right) && String.eqb (le_ReasonCode left) (le_ReasonCode right) &&
  bool_decide (le_EvidenceRefs left = le_EvidenceRefs right).

(** The payload kind of lifecycle events. *)
Definition lifecycle_kind : PayloadKind :=
  {| pk_bucket := BucketLifecycleEvents; pk_type := DeliveryPayloadLifecycleEvent; pk_key := recordKey;
     pk_exists := errEventExists;
     pk_payload := fun ref doc => exists e, decodeEvent doc = Ok e /\ le_EventID e = ref;
     pk_not_queue := events_not_queue; pk_not_audit := events_not_audit |}.

(** * Loading *)

Definition load (eventID : string) (s : db) : result (option LifecycleEvent) :=
  View (Get BucketLifecycleEvents (recordKey eventID)) s ≫= fun found =>
  match found with
  | None => Ok None
  | Some document =>
    match decodeEvent document with
    | Fail _ => Fail ErrCorruptPayload
    | Ok event => if negb (String.eqb (le_EventID event) eventID) then Fail ErrCorruptPayload else Ok (Some event)
    end
  end.

(** [Source.Load]. *)
Definition Load (context : option error) (payloadType payloadRef : string) (s : db) : result document :=
  if negb (String.eqb payloadType DeliveryPayloadLifecycleEvent) || negb (validIdentifier payloadRef maxEventIDLength)
  then Fail ErrInvalidEvent
  else
  match context with
  | Some err => Fail err
  | None =>
    View (Get BucketLifecycleEvents (recordKey payloadRef)) s ≫= fun found =>
    match found with
    | None => Fail ErrPayloadNotFound
    | Some document =>
      match decodeEvent document with
      | Fail _ => Fail ErrCorruptPayload
      | Ok event => if negb (String.eqb (le_EventID event) payloadRef) then Fail ErrCorruptPayload else Ok document
      end
    end
  end.

(** * Publishing *)

Definition event_request (p : Publisher) (event : LifecycleEvent) : EnqueueRequest :=
  mkEnqueueRequest DeliveryPayloadLifecycleEvent (le_EventID event) (pb_destinationRef p)
    (time_add (le_OccurredAt event) (pb_deliveryTTL p)).

Definition Publish (p : Publisher) (context : option error) (env : enqueue_env) (input : Input) (s : db) :
    result Result * db :=
  match context with
  | Some err => (Fail err, s)
  | None =>
  match event input with
  | Fail err => (Fail err, s)
  | Ok event =>
  match Marshal event with
  | None => (Fail (mkError "json" "unsupported value"), s)
  | Some document =>
  match load (le_EventID event) s with
  | Fail err => (Fail err, s)
  | Ok (Some existing) =>
    if negb (sameEvent existing event) then (Fail ErrInvalidEvent, s)
    else (Ok (mkResult existing DeliveryQueueItem_zero true), s)
  | Ok None =>
    match EnqueueWithMutation (pb_queue p) env (event_request p event)
            (Some (persist_payload lifecycle_kind (le_EventID event) document)) s with
    | (Fail err, s') =>
      if decide (err = errEventExists) then
        match load (le_EventID event) s' with
        | Fail loadErr => (Fail loadErr, s')
        | Ok (Some existing) =>
          if sameEvent existing event then (Ok (mkResult existing DeliveryQueueItem_zero true), s')
          else (Fail ErrCorruptPayload, s')
        | Ok None => (Fail ErrCorruptPayload, s')
        end
      else (Fail err, s')
    | (Ok item, s') => (Ok (mkResult event item false), s')
    end
  end end end end.

(** The opaque identity of an event. *)
Definition StableEventID (eventType incidentID idempotencyKey : string) : string :=
  String.append "lifecycle-"
    (sha256_hex (String.append eventType (String.append (of_bytes [0]) (String.append incidentID
                   (String.append (of_bytes [0]) idempotencyKey))))).

(** The four transitions the recovery coordinator publishes. *)
Definition stable_input (eventType incidentID idempotencyKey reasonCode : string) (occurredAt : time) : Input :=
  mkInput (StableEventID eventType incidentID idempotencyKey) eventType incidentID reasonCode [] occurredAt.
Definition PublishAnalysisUnavailable (p : Publisher) context env (now : time)
    (incidentID idempotencyKey reasonCode : string) (s : db) : result unit * db :=
  match Publish p context env (stable_input LifecycleAnalysisUnavailable incidentID idempotencyKey reasonCode (utc now)) s with
  | (Fail err, s') => (Fail err, s') | (Ok _, s') => (Ok tt, s') end.
Definition PublishPolicyDenied (p : Publisher) context env (now : time)
    (incidentID idempotencyKey reasonCode : string) (s : db) : result unit * db :=
  match Publish p context env (stable_input LifecyclePolicyDenied incidentID idempotencyKey reasonCode (utc now)) s with
  | (Fail err, s') => (Fail err, s') | (Ok _, s') => (Ok tt, s') end.
Definition PublishApprovalRequested (p : Publisher) context env (command : RecoveryCommand) (s : db) : result unit * db :=
  match Publish p context env (stable_input LifecycleApprovalRequested (cmd_IncidentID command) (cmd_CommandID command)
                                 "approval_required" (cmd_IssuedAt command)) s with
  | (Fail err, s') => (Fail err, s') | (Ok _, s') => (Ok tt, s') end.
Definition PublishRecoveryStarted (p : Publisher) context env (now : time) (command : RecoveryCommand) (s : db) :
    result unit * db :=
  match Publish p context env (stable_input LifecycleRecoveryStarted (cmd_IncidentID command) (cmd_CommandID command)
                                 "recovery_started" (utc now)) s with
  | (Fail err, s') => (Fail err, s') | (Ok _, s') => (Ok tt, s') end.
End Lifecycle.

(** * Facts *)

#[local] Arguments time_printable : simpl never.
#[local] Arguments utf8_coerce : simpl never.

Lemma identifier_ok value limit :
  validIdentifier value limit = true -> valid_utf8 value = true /\ go_len value <= limit /\ value <> "".
Proof.
  unfold validIdentifier. intros Hv. bool_prop. split_and!; [|done|].
  - match goal with X : ContainsSensitive value = false |- _ => revert X end. unfold ContainsSensitive, malformed.
    destruct (valid_utf8 value); [done|]. by cbn.
  - intros ->. done.
Qed.

Section EventFacts.
Context `{UnicodeTables}.
#[local] Set Default Proof Using "Type*".

Lemma valid_refs_ok seen refs :
  valid_refs seen refs = true -> Forall (fun r => valid_utf8 r = true /\ go_len r <= maxEvidenceRefLength) refs.
Proof.
  revert seen. induction refs as [|r refs IH]; intros seen; cbn [valid_refs]; [constructor|].
  intros Hv. bool_prop. case_decide; [done|]. constructor; [|by eapply IH].
  match goal with X : validIdentifier r _ = true |- _ => apply identifier_ok in X as (? & ? & _) end. done.
Qed.

(** What an accepted event passed. *)
Record event_valid (e : LifecycleEvent) : Prop := {
  ev_version : le_SchemaVersion e = SchemaVersionV1;
  ev_id : validIdentifier (le_EventID e) maxEventIDLength = true;
  ev_incident : validIdentifier (le_IncidentID e) maxEventIDLength = true;
  ev_reason : validReasonCode (le_ReasonCode e) = true;
  ev_refs : validEvidenceRefs (le_EvidenceRefs e) = true;
  ev_validate : LifecycleEvent_Validate e = Ok tt;
}.

Lemma event_ok input e :
  event input = Ok e -> event_valid e /\ le_EventID e = ip_EventID input /\ le_OccurredAt e = ip_OccurredAt input.
Proof.
  unfold event. destruct (_ || _) eqn:Eg; [done|]. cbv zeta.
  destruct (LifecycleEvent_Validate _) as [[]|] eqn:Ev; cbn [is_ok negb]; [|done]. intros [= <-].
  rewrite !orb_false_iff, !negb_false_iff in Eg. destruct_and! Eg. split; [|done]. by split.
Qed.

Lemma event_type_ok e :
  event_valid e -> validLifecycleEvent (le_EventType e) = true /\ le_OccurredAt e <> 0.
Proof.
  intros [_ _ _ _ _ Hv]. unfold LifecycleEvent_Validate in Hv.
  apply result_bind_ok in Hv as (_ & _ & Hv). apply result_bind_ok in Hv as (_ & _ & Hv).
  apply result_bind_ok in Hv as (_ & _ & Hv). destruct (_ || _) eqn:E; [done|]. rewrite !orb_false_iff, negb_false_iff in E.
  destruct E as [[? Hz] _]. unfold is_zero in Hz. split; [done|]. by apply Z.eqb_neq.
Qed.

Lemma reason_ok value : validReasonCode value = true -> valid_utf8 value = true /\ go_len value <= 96.
Proof.
  unfold validReasonCode. destruct (_ || ContainsSensitive value) eqn:E; [done|]. intros _. rewrite !orb_false_iff in E.
  destruct E as [[_ Hl] Hs]. unfold maxReasonCodeLength in Hl. apply Z.ltb_ge in Hl. split; [|done].
  revert Hs. unfold ContainsSensitive, malformed. destruct (valid_utf8 value); [done|]. by cbn.
Qed.

Lemma refs_ok refs :
  validEvidenceRefs refs = true ->
  (length refs <= 64)%nat /\ Forall (fun r => valid_utf8 r = true /\ go_len r <= 128) refs.
Proof.
  unfold validEvidenceRefs. destruct (Z.ltb_spec 64 (Z.of_nat (length refs))); [done|]. intros Hv%valid_refs_ok.
  split; [lia|done].
Qed.

Definition lifecycle_event_types : list string :=
  [LifecycleIncidentConfirmed; LifecycleAnalysisUnavailable; LifecyclePolicyDenied; LifecycleApprovalRequested;
   LifecycleRecoveryStarted; LifecycleIncidentClosed; LifecycleIncidentFailed].

Lemma event_fields_ok e : event_valid e -> time_printable (le_OccurredAt e) = true -> LifecycleEvent_ok e = true.
Proof.
  intros He Hp. pose proof (event_type_ok e He) as [Ht _]. apply (oneOf_elem _ lifecycle_event_types) in Ht.
  destruct He as [Hv Hi Hn Hr Hf _]. apply identifier_ok in Hi as (Hi & _). apply identifier_ok in Hn as (Hn & _).
  apply reason_ok in Hr as [Hr _]. apply refs_ok in Hf as [_ Hf].
  unfold LifecycleEvent_ok. rewrite Hi, Hn, Hr, Hp, Hv. rewrite !andb_true_iff. split_and!; try done.
  - apply clean_valid_utf8. eapply choice_clean; [exact Ht|reflexivity].
  - apply forallb_forall. intros x Hx%list_elem_of_In. by eapply Forall_forall in Hf as [? _].
Qed.

Lemma event_json_ok e doc : event_valid e -> Marshal e = Some doc -> LifecycleEvent_ok e = true.
Proof.
  intros He Hm. apply event_fields_ok; [done|].
  revert Hm. destruct e. unfold Marshal, LifecycleEvent_json. cbn. by destruct (time_printable le_OccurredAt).
Qed.

Definition refs_json (refs : list string) : json := match refs with [] => JNull | _ => JArr (map JStr refs) end.
Definition event_members (e : LifecycleEvent) : list (string * json) :=
  [("schema_version", JStr (le_SchemaVersion e)); ("event_id", JStr (le_EventID e)); ("event_type", JStr (le_EventType e));
   ("incident_id", JStr (le_IncidentID e)); ("occurred_at", JTime (le_OccurredAt e));
   ("reason_code", JStr (le_ReasonCode e)); ("evidence_refs", refs_json (le_EvidenceRefs e))].

Lemma refs_to_json refs : forallb valid_utf8 refs = true -> to_json refs = Some (refs_json refs).
Proof.
  intros Hok. assert (Hm : mapM to_json refs = Some (map JStr refs)).
  { induction refs as [|r refs IH]; [done|]. cbn in Hok. bool_prop. cbn [mapM map]. by rewrite IH. }
  destruct refs as [|r refs]; [done|]. unfold to_json, slice_json. by rewrite Hm.
Qed.

Lemma Marshal_event e :
  LifecycleEvent_ok e = true -> Marshal e = Some (Text (JObj (event_members e)) false).
Proof.
  destruct e as [v i t n o r refs]. unfold LifecycleEvent_ok. cbn [le_SchemaVersion le_EventID le_EventType le_IncidentID
    le_OccurredAt le_ReasonCode le_EvidenceRefs]. rewrite !andb_true_iff. intros [[[[[[? ?] ?] ?] Ht] ?] Hf].
  pose proof (refs_to_json refs Hf) as Hr. unfold Marshal, LifecycleEvent_json, event_members. cbn. by rewrite Hr, Ht.
Qed.

Lemma event_fits e : event_valid e -> go_len (render (JObj (event_members e))) <= 65536.
Proof.
  intros He. pose proof (event_type_ok e He) as [Ht _]. apply (oneOf_elem _ lifecycle_event_types) in Ht.
  destruct He as [Hv Hi Hn Hr Hf _]. apply identifier_ok in Hi as (_ & Hi & _). apply identifier_ok in Hn as (_ & Hn & _).
  apply reason_ok in Hr as [_ Hr]. apply refs_ok in Hf as [Hl Hf]. unfold maxEventIDLength in *.
  etransitivity; [apply render_obj_len; repeat constructor|]. unfold event_members. cbn [foldr fst snd]. rewrite Hv.
  pose proof (string_render _ _ Hi). pose proof (string_render _ _ Hn). pose proof (string_render _ _ Hr).
  pose proof (time_render (le_OccurredAt e)).
  assert (go_len (render (JStr (le_EventType e))) <= 102)
    by (apply (clean_render _ 100); [by eapply choice_clean|by eapply choice_len]).
  assert (go_len (render (refs_json (le_EvidenceRefs e))) <= 50000).
  { unfold refs_json. destruct (le_EvidenceRefs e) as [|x l]; [vm_compute; discriminate|].
    etransitivity; [apply (render_arr_len _ 770)|].
    - apply Forall_map. eapply Forall_impl; [exact Hf|]. intros r [_ Hr']. by apply (string_render r 128).
    - rewrite length_map. lia. }
  change (go_len (render (JStr SchemaVersionV1))) with 4. known_lengths. lia.
Qed.

(** A published document decodes to its event. *)
Lemma decode_event e doc : event_valid e -> Marshal e = Some doc -> decodeEvent doc = Ok e.
Proof.
  intros He Hm. pose proof (event_json_ok e doc He Hm) as Hok.
  destruct (Decode_rtv e event_options LifecycleEvent_Validate) as (doc' & Hm' & Hdec); [..|];
    [cbn [SchemaVersion event_options]; rewrite <- (ev_version e He); by apply LifecycleEvent_rtv|done|done|apply He|done|].
  rewrite Hm in Hm'. injection Hm' as <-. unfold decodeEvent. rewrite Hdec.
  - rewrite (ev_id e He), (ev_incident e He), (ev_reason e He), (ev_refs e He). done.
  - rewrite Marshal_event in Hm by done. injection Hm as <-. by apply event_fits.
Qed.
End EventFacts.

Section PublishFacts.
Context `{UnicodeTables} `{BoltLaws}.
#[local] Set Default Proof Using "Type*".

(** The store holds the document of [e]. *)
Definition published (s : db) (e : LifecycleEvent) : Prop :=
  exists doc, kv_get s BucketLifecycleEvents (recordKey (le_EventID e)) = Some doc /\ decodeEvent doc = Ok e.

Lemma View_Get b key (s : db) found : View (Get b key) s = Ok found -> found = kv_get s b key.
Proof.
  unfold View. destruct (Get b key s) as [[o s']|] eqn:Eg; [|done]. intros [= ->].
  by apply Get_ok in Eg as (_ & _ & _ & -> & _).
Qed.
Lemma View_Get_some b key (s : db) doc :
  allowedBucket b = true -> key <> "" -> kv_get s b key = Some doc -> View (Get b key) s = Ok (Some doc).
Proof.
  intros Ha Hk Hg. unfold View. rewrite (proj2 (Get_ok b key s (Some doc) s)); [done|].
  split_and!; [done|by eapply get_has|done|done|done].
Qed.

Lemma load_found eventID s e : load eventID s = Ok (Some e) -> published s e /\ le_EventID e = eventID.
Proof.
  unfold load. destruct (View _ s) as [found|] eqn:Ev; [|done]. apply View_Get in Ev as ->. cbn [mbind result_bind].
  destruct (kv_get s _ _) as [doc|] eqn:Eg; [|done]. destruct (decodeEvent doc) as [e'|] eqn:Ed; [|done].
  destruct (String.eqb_spec (le_EventID e') eventID); [|done]. intros [= <-]. subst. split; [by exists doc|done].
Qed.
Lemma load_missing eventID s : load eventID s = Ok None -> kv_get s BucketLifecycleEvents (recordKey eventID) = None.
Proof.
  unfold load. destruct (View _ s) as [found|] eqn:Ev; [|done]. apply View_Get in Ev as ->. cbn [mbind result_bind].
  destruct (kv_get s _ _) as [doc|] eqn:Eg; [|done]. destruct (decodeEvent doc) as [e'|] eqn:Ed; [|done].
  by destruct (negb _).
Qed.

Lemma recordKey_nonempty eventID : recordKey eventID <> "".
Proof. done. Qed.

Lemma load_published s e : published s e -> load (le_EventID e) s = Ok (Some e).
Proof.
  intros (doc & Hg & Hd). unfold load. rewrite (View_Get_some _ _ _ doc); [|reflexivity|apply recordKey_nonempty|done].
  cbn [mbind result_bind]. rewrite Hd. by rewrite String.eqb_refl.
Qed.

Lemma Load_published s e :
  published s e -> validIdentifier (le_EventID e) maxEventIDLength = true ->
  exists doc, Load None DeliveryPayloadLifecycleEvent (le_EventID e) s = Ok doc /\ decodeEvent doc = Ok e.
Proof.
  intros (doc & Hg & Hd) Hv. exists doc. split; [|done]. unfold Load. rewrite String.eqb_refl, Hv. cbn [negb orb].
  rewrite (View_Get_some _ _ _ doc); [|reflexivity|apply recordKey_nonempty|done]. cbn [mbind result_bind]. rewrite Hd.
  by rewrite String.eqb_refl.
Qed.

Lemma sameEvent_eq left right : sameEvent left right = true <-> left = right.
Proof.
  unfold sameEvent. rewrite !andb_true_iff, !String.eqb_eq, Z.eqb_eq, bool_decide_eq_true. destruct left, right. cbn.
  split; [intros; destruct_and!; congruence|intros [=]; by subst].
Qed.

(** A fresh publication: the event's document and its item in one
    transaction. *)
Definition fresh_publication (p : Publisher) (e : LifecycleEvent) (s s' : db) (item : DeliveryQueueItem) : Prop :=
  exists doc, Marshal e = Some doc /\ decodeEvent doc = Ok e /\
    fresh_payload (pb_queue p) lifecycle_kind (event_request p e) doc s s' item.

Lemma fresh_published p e s s' item : fresh_publication p e s s' item -> published s' e.
Proof. intros (doc & _ & Hd & Hf). exists doc. split; [apply Hf|done]. Qed.

(** The generated identities are text. *)
Definition ids_ok (env : enqueue_env) : Prop :=
  (forall id, ee_deliveryID env = Ok id -> valid_utf8 id = true) /\
  (forall id, ee_webhookID env = Ok id -> valid_utf8 id = true).

(** A publisher over a valid dispatcher. *)
Definition valid_publisher (p : Publisher) : Prop :=
  valid_dispatcher (pb_queue p) /\ exists ttl, New (pb_queue p) (pb_destinationRef p) ttl = Ok p.

Lemma publisher_destination p : valid_publisher p -> valid_utf8 (pb_destinationRef p) = true.
Proof.
  intros (_ & ttl & Hn). unfold New in Hn. destruct (_ || _) eqn:E; [done|]. rewrite !orb_false_iff, negb_false_iff in E.
  destruct E as [[Hv _] _]. by apply identifier_ok in Hv as [? _].
Qed.

Lemma event_texts p env e : valid_publisher p -> ids_ok env -> event_valid e -> texts_ok env (event_request p e).
Proof.
  intros Hp [U1 U2] He. split_and!; [by apply (identifier_ok _ _ (ev_id e He))|by apply publisher_destination|done|done].
Qed.

Lemma enqueue_event p env e doc s item s' :
  valid_publisher p -> ids_ok env -> event_valid e -> Marshal e = Some doc ->
  enqueue (pb_queue p) env (event_request p e) (Some (persist_payload lifecycle_kind (le_EventID e) doc)) s = (Ok item, s') ->
  fresh_publication p e s s' item.
Proof.
  intros Hp Hids He Hm Heq. pose proof (decode_event e doc He Hm) as Hdec. exists doc. split_and!; [done|done|].
  eapply (enqueue_payload (pb_queue p) (proj1 Hp) lifecycle_kind); [by apply event_texts|done|by exists e|exact Heq].
Qed.

Lemma Publish_cases p context env input s out :
  valid_publisher p -> ids_ok env -> Publish p context env input s = out ->
  match out with
  | (Ok r, s') => event input = Ok (rs_Event r) /\ is_Some (Marshal (rs_Event r)) /\
      if rs_Duplicate r then s' = s /\ published s (rs_Event r) else fresh_publication p (rs_Event r) s s' (rs_QueueItem r)
  | (Fail _, s') => s' = s
  end.
Proof.
  intros Hp Hids <-. unfold Publish. destruct context; [done|]. destruct (event input) as [e|] eqn:Ee; [|done].
  destruct (Marshal e) as [doc|] eqn:Em; [|done]. destruct (load (le_EventID e) s) as [[existing|]|] eqn:El; [| |done].
  - destruct (sameEvent existing e) eqn:Es; cbn [negb]; [|done]. apply sameEvent_eq in Es as ->.
    apply load_found in El as [? _]. by split; [|split; [eexists|]].
  - pose proof (proj1 (event_ok _ _ Ee)) as Hv. unfold EnqueueWithMutation.
    destruct (enqueue _ _ _ _ _) as [[item|err] s'] eqn:Eq.
    + split; [done|]. split; [by eexists|]. by eapply enqueue_event.
    + assert (s' = s) as ->.
      { pose proof (event_texts p env e Hp Hids Hv) as Ht.
        by apply (enqueue_mutation_ok (pb_queue p) (proj1 Hp) _ _ _ _ _ Ht) in Eq. }
      case_decide; [|done]. by rewrite El.
Qed.

Lemma Publish_duplicate p context env input s r s' :
  Publish p context env input s = (Ok r, s') -> rs_Duplicate r = true -> rs_QueueItem r = DeliveryQueueItem_zero.
Proof.
  unfold Publish. destruct context; [done|]. destruct (event input) as [e|]; [|done].
  destruct (Marshal e) as [doc|]; [|done]. destruct (load (le_EventID e) s) as [[existing|]|]; [| |done].
  - destruct (negb _); [done|]. by intros [= <- _].
  - destruct (EnqueueWithMutation _ _ _ _ _) as [[item|err] s1]; [by intros [= <- _]|].
    case_decide; [|done]. destruct (load (le_EventID e) s1) as [[existing|]|]; [|done|done].
    destruct (sameEvent existing e); [|done]. by intros [= <- _].
Qed.

Lemma Publish_again p env input e s :
  event input = Ok e -> is_Some (Marshal e) -> published s e ->
  Publish p None env input s = (Ok (mkResult e DeliveryQueueItem_zero true), s).
Proof.
  intros He [doc Hm] Hp. unfold Publish. rewrite He, Hm, (load_published s e Hp).
  by rewrite (proj2 (sameEvent_eq e e) eq_refl).
Qed.

Lemma Publish_other p env input e e' s :
  event input = Ok e -> published s e' -> le_EventID e = le_EventID e' -> e <> e' ->
  exists err, Publish p None env input s = (Fail err, s).
Proof.
  intros He Hp Hid Hne. unfold Publish. rewrite He. destruct (Marshal e); [|by eexists].
  rewrite Hid, (load_published s e' Hp). destruct (sameEvent e' e) eqn:Es; [apply sameEvent_eq in Es; congruence|].
  by eexists.
Qed.

(** * Histories

    Publications and delivery passes of one store, in any order. *)
Inductive history (p : Publisher) : db -> list LifecycleEvent -> db -> Prop :=
| history_nil s : history p s [] s
| history_publish s events s1 context env input out s2 :
    history p s events s1 -> ids_ok env -> Publish p context env input s1 = (out, s2) ->
    history p s (match out with Ok r => rs_Event r :: events | Fail _ => events end) s2
| history_deliver s events s1 now env progress err :
    history p s events s1 -> DeliverDue (pb_queue p) now env s1 = (progress, err) ->
    history p s events (pg_db progress).

Lemma published_kept s s' e : same_bucket BucketLifecycleEvents s s' -> published s e -> published s' e.
Proof. intros Hs (doc & Hg & Hd). exists doc. by rewrite Hs. Qed.

Lemma published_later p e e' s s' item :
  fresh_publication p e s s' item -> published s e' -> published s' e'.
Proof.
  intros (d & _ & _ & Hf) (doc & Hg & Hd). exists doc. split; [|done].
  rewrite <- Hg. apply (fy_records _ _ _ _ _ _ _ Hf). cbn [pk_key lifecycle_kind er_PayloadRef event_request].
  intros Hk. pose proof (fy_fresh _ _ _ _ _ _ _ Hf) as Hn. cbn in Hn. congruence.
Qed.

Lemma fresh_inv p e s s' item :
  valid_publisher p -> fresh_publication p e s s' item -> queue_inv (pb_queue p) s -> queue_inv (pb_queue p) s'.
Proof. intros [Hd _] (doc & _ & _ & Hf) Hi. eapply accepted_inv; [exact Hd|exact Hi|]. by apply Hf. Qed.

Lemma publications_ok p s events s' :
  valid_publisher p -> queue_inv (pb_queue p) s -> outbox_inv (pb_queue p) lifecycle_kind s -> history p s events s' ->
  queue_inv (pb_queue p) s' /\ outbox_inv (pb_queue p) lifecycle_kind s' /\
  Forall (fun e => published s' e /\ is_Some (Marshal e) /\ event_valid e) events.
Proof.
  intros Hp Hi Ho. induction 1 as [s|s events s1 context env input out s2 _ IH Hids Hpub|s events s1 now env pr err _ IH Hd].
  - by split_and!.
  - destruct (IH Hi Ho) as (Hi1 & Ho1 & Hf1). apply Publish_cases in Hpub; [|done|done]. destruct out as [r|]; [|by subst].
    destruct Hpub as (He & Hm & Hr). pose proof (proj1 (event_ok _ _ He)) as Hv. destruct (rs_Duplicate r).
    + destruct Hr as [-> Hr]. split_and!; [done|done|]. by constructor.
    + pose proof Hr as (doc & _ & _ & Hpay). split_and!; [by eapply fresh_inv|by apply Hpay|].
      constructor; [by split_and!; [eapply fresh_published|done|done]|]. eapply Forall_impl; [exact Hf1|]. intros e (He' & ?).
      split; [by eapply published_later|done].
  - destruct (IH Hi Ho) as (Hi1 & Ho1 & Hf1). destruct Hp as [Hdv _].
    pose proof (DeliverDue_frame _ Hdv _ _ _ _ _ Hd) as Hfr.
    split_and!.
    + by apply (DeliverDue_ok _ Hdv now env s1 pr err Hi1 Hd).
    + by eapply outbox_deliver.
    + eapply Forall_impl; [exact Hf1|]. intros e (He & ?). split; [|done]. eapply published_kept; [|exact He].
      apply Hfr; [apply events_not_queue|apply events_not_audit].
Qed.
Lemma decoded_id doc e : decodeEvent doc = Ok e -> validIdentifier (le_EventID e) maxEventIDLength = true.
Proof.
  unfold decodeEvent. destruct (Decode _ _) as [e'|]; [|done]. destruct (_ || _) eqn:E; [done|]. intros [= <-].
  rewrite !orb_false_iff, !negb_false_iff in E. by destruct_and! E.
Qed.

Lemma event_result input : (exists e, event input = Ok e) \/ event input = Fail ErrInvalidEvent.
Proof. unfold event. destruct (_ || _); [by right|]. cbv zeta. destruct (negb _); [by right|left; by eexists]. Qed.

(** A publication that returns an event either found that very event and
    changed nothing, or stored its document and one pending delivery item that
    refers to it, addressed to the publisher's destination and expiring one
    lifetime after the event, in one transaction that touches nothing else;
    the stored document is what [Load] hands to the dispatcher.  A publication
    that fails leaves the store as it was. *)
Lemma Publish_effect p context env input s out s' :
  valid_publisher p -> ids_ok env -> Publish p context env input s = (out, s') ->
  match out with
  | Ok r =>
    event input = Ok (rs_Event r) /\
    (exists doc, Load None DeliveryPayloadLifecycleEvent (ip_EventID input) s' = Ok doc /\
       decodeEvent doc = Ok (rs_Event r)) /\
    (if rs_Duplicate r then s' = s else fresh_publication p (rs_Event r) s s' (rs_QueueItem r))
  | Fail _ => s' = s
  end.
Proof.
  intros Hp Hids Hpub. apply Publish_cases in Hpub; [|done|done]. destruct out as [r|]; [|done].
  destruct Hpub as (He & _ & Hr). destruct (event_ok _ _ He) as (Hv & <- & _).
  assert (Hpub : published s' (rs_Event r)) by (destruct (rs_Duplicate r); [by destruct Hr as [-> ?]|by eapply fresh_published]).
  split; [done|]. split; [by apply Load_published; [|apply Hv]|]. destruct (rs_Duplicate r); [apply Hr|done].
Qed.

(** Over every sequence of publications and delivery passes, each queued
    lifecycle item has its payload, which [Load] returns for the item's
    reference, no event is queued under two identities, and every event that was
    ever returned stays published: publishing it again, whatever is generated,
    reports a duplicate and changes nothing. *)
Lemma outbox_invariant p s events s' :
  valid_publisher p -> queue_inv (pb_queue p) s -> outbox_inv (pb_queue p) lifecycle_kind s -> history p s events s' ->
  (forall key ref, queued (pb_queue p) lifecycle_kind s' key ref ->
     exists doc e, Load None DeliveryPayloadLifecycleEvent ref s' = Ok doc /\ decodeEvent doc = Ok e /\ le_EventID e = ref) /\
  (forall key key' ref, queued (pb_queue p) lifecycle_kind s' key ref ->
     queued (pb_queue p) lifecycle_kind s' key' ref -> key = key') /\
  (forall e env input, e ∈ events -> event input = Ok e ->
     Publish p None env input s' = (Ok (mkResult e DeliveryQueueItem_zero true), s')).
Proof.
  intros Hp Hi Ho Hh. destruct (publications_ok p s events s' Hp Hi Ho Hh) as (_ & [Hrec Huniq] & Hev). split_and!; [|done|].
  - intros key ref Hq. destruct (Hrec _ _ Hq) as (doc & Hg & e & Hd & <-).
    destruct (Load_published s' e) as (doc' & Hl & Hd'); [by exists doc|by eapply decoded_id|]. by exists doc', e.
  - intros e env input Hin He. eapply Forall_forall in Hev as (Hp1 & Hm & _); [|exact Hin]. by apply Publish_again.
Qed.

(** The recovery-started event of a command takes its time from the clock
    of the call but its identity from the command: once it is published, any
    later attempt to publish it for the same command is refused as invalid, so a
    coordinator that stopped between this publication and its next journal
    record cannot take the command up again. *)
Lemma PublishRecoveryStarted_retry p env env' now now' command s s1 s2 :
  valid_publisher p -> ids_ok env ->
  PublishRecoveryStarted p None env now command s = (Ok tt, s1) ->
  same_bucket BucketLifecycleEvents s1 s2 -> time_printable now' = true -> now' <> now ->
  PublishRecoveryStarted p None env' now' command s2 = (Fail ErrInvalidEvent, s2).
Proof.
  intros Hp Hids Hs Hsame Ht Hne. unfold PublishRecoveryStarted in *.
  set (input := stable_input LifecycleRecoveryStarted (cmd_IncidentID command) (cmd_CommandID command) "recovery_started") in *.
  destruct (Publish p None env (input (utc now)) s) as [[r|] s1'] eqn:Ep; [|done]. injection Hs as ->.
  apply Publish_cases in Ep; [|done|done]. destruct Ep as (He & _ & Hr).
  destruct (event_ok _ _ He) as (_ & Hid & Hat).
  assert (Hpub : published s2 (rs_Event r)).
  { eapply published_kept; [exact Hsame|]. destruct (rs_Duplicate r); [by destruct Hr as [-> ?]|by eapply fresh_published]. }
  enough (Hf : Publish p None env' (input (utc now')) s2 = (Fail ErrInvalidEvent, s2)) by by rewrite Hf.
  unfold Publish. destruct (event_result (input (utc now'))) as [[e' He']|He']; rewrite He'; [|done].
  destruct (event_ok _ _ He') as (Hv' & Hid' & Hat').
  rewrite (Marshal_event e') by (apply event_fields_ok; [done|by rewrite Hat']).
  assert (Hids' : le_EventID e' = le_EventID (rs_Event r)) by (rewrite Hid, Hid'; done).
  rewrite Hids', (load_published s2 _ Hpub). destruct (sameEvent (rs_Event r) e') eqn:Es; [|done].
  apply sameEvent_eq in Es. rewrite <- Es in Hat'. rewrite Hat in Hat'. cbn in Hat'. unfold utc in Hat'. congruence.
Qed.
End PublishFacts.

(** * Examples *)

#[local] Instance ascii_only : UnicodeTables := {| other_letter _ := false |}.

Definition demo_publisher : Publisher := mkPublisher demo_dispatcher "hook" hour.
Lemma demo_publisher_valid : valid_publisher demo_publisher.
Proof. split; [exact demo_valid|]. exists hour. vm_compute. reflexivity. Qed.

Definition events0 : @db gmapBolt := {[BucketDeliveryQueue := ∅; BucketAudit := ∅; BucketLifecycleEvents := ∅]}.
Lemma events0_queue : queue_inv demo_dispatcher events0.
Proof.
  intros key doc Hg. exfalso. change (kv_get events0 BucketDeliveryQueue key) with ((∅ : gmap string document) !! key) in Hg.
  rewrite lookup_empty in Hg. discriminate Hg.
Qed.
Lemma events0_outbox : outbox_inv demo_dispatcher lifecycle_kind events0.
Proof.
  assert (Hn : forall key ref, ~ queued demo_dispatcher lifecycle_kind events0 key ref).
  { intros key ref (item & (doc & Hg & _) & _). destruct (events0_queue key doc Hg) as (? & ? & _).
    change (kv_get events0 BucketDeliveryQueue key) with ((∅ : gmap string document) !! key) in Hg.
    rewrite lookup_empty in Hg. discriminate Hg. }
  split; intros key ref; [|intros ref']; intros Hq; [|intros _]; by apply Hn in Hq.
Qed.

Definition demo_ids : enqueue_env := demo_enqueue "delivery-1" "msg_1".
Lemma demo_ids_ok : ids_ok demo_ids.
Proof. split; intros id Hid; injection Hid as <-; reflexivity. Qed.
Definition demo_input : Input :=
  mkInput "event-1" LifecycleRecoveryStarted "incident-1" "recovery_started" ["evidence:1"] demo_time.
Definition publication1 : result Result * @db gmapBolt := Publish demo_publisher None demo_ids demo_input events0.
Lemma publication1_eq : Publish demo_publisher None demo_ids demo_input events0 = (publication1.1, publication1.2).
Proof. unfold publication1. destruct (Publish _ _ _ _ _). reflexivity. Qed.

Example demo_publications :
  match publication1.1 with Ok r => (rs_Duplicate r, itm_PayloadRef (rs_QueueItem r)) | Fail _ => (true, "") end = (false, "event-1") /\
  match (Publish demo_publisher None demo_ids demo_input publication1.2).1 with Ok r => rs_Duplicate r | Fail _ => false end = true /\
  map validReasonCode ["policy_denied"; "Policy"; ""; "a b"] = [true; false; false; false] /\
  map validEvidenceRefs [["a:1"; "b"]; ["a"; "a"]; ["a b"]] = [true; false; false].
Proof. vm_compute. split_and!; reflexivity. Qed.

Lemma Publish_effect_witness :
  match publication1.1 with
  | Ok r => event demo_input = Ok (rs_Event r)
  | Fail _ => publication1.2 = events0
  end.
Proof.
  pose proof (Publish_effect (H0 := gmapBolt) demo_publisher None demo_ids demo_input events0 _ _ demo_publisher_valid
    demo_ids_ok publication1_eq) as He.
  destruct publication1.1; [exact (proj1 He)|exact He].
Defined.

Definition events1 : list LifecycleEvent := match publication1.1 with Ok r => [rs_Event r] | Fail _ => [] end.
Lemma publication_history : history demo_publisher events0 events1 publication1.2.
Proof.
  unfold events1. generalize (history_publish demo_publisher events0 [] events0 None demo_ids demo_input
    publication1.1 publication1.2 (history_nil _ events0) demo_ids_ok publication1_eq).
  exact (fun h => h).
Qed.

Definition published1 : LifecycleEvent := match publication1.1 with Ok r => rs_Event r | Fail _ => LifecycleEvent_zero end.
Lemma published1_in : published1 ∈ events1.
Proof.
  assert (Hok : is_ok publication1.1 = true) by (vm_compute; reflexivity).
  unfold published1, events1. destruct publication1.1; [constructor|discriminate Hok].
Qed.

Lemma outbox_invariant_witness :
  Publish demo_publisher None demo_ids demo_input publication1.2 =
    (Ok (mkResult published1 DeliveryQueueItem_zero true), publication1.2).
Proof.
  pose proof (outbox_invariant (H0 := gmapBolt) demo_publisher events0 events1 publication1.2 demo_publisher_valid
    events0_queue events0_outbox publication_history) as Ho.
  refine (proj2 (proj2 Ho) published1 demo_ids demo_input published1_in _).
  vm_compute. reflexivity.
Defined.

Definition demo_started : RecoveryCommand :=
  mkRecoveryCommand SchemaVersionV1 "command-1" "incident-1" "runbook-1" "digest" "checkout" 0 "R1" ""
    demo_time (demo_time + hour) "key-1" RecoveryPending.
Definition started1 : result unit * @db gmapBolt :=
  PublishRecoveryStarted demo_publisher None demo_ids demo_time demo_started events0.
Lemma started1_eq :
  PublishRecoveryStarted demo_publisher None demo_ids demo_time demo_started events0 = (Ok tt, started1.2).
Proof.
  assert (Hok : started1.1 = Ok tt) by (vm_compute; reflexivity). unfold started1 in *.
  destruct (PublishRecoveryStarted _ _ _ _ _ _) as [r s]. cbn [fst] in Hok. rewrite Hok. reflexivity.
Qed.

Lemma PublishRecoveryStarted_retry_witness :
  PublishRecoveryStarted demo_publisher None demo_ids (demo_time + 1) demo_started started1.2 =
    (Fail ErrInvalidEvent, started1.2).
Proof.
  refine (PublishRecoveryStarted_retry (H0 := gmapBolt) demo_publisher demo_ids demo_ids demo_time (demo_time + 1)
    demo_started events0 started1.2 started1.2 demo_publisher_valid demo_ids_ok started1_eq _ _ _).
  - intros k. reflexivity.
  - vm_compute. reflexivity.
  - intros Heq. apply (Z.neq_succ_diag_l demo_time). exact Heq.
Defined.
