(* ===== verification/IncidentQuery.v ===== *)
(** Incident queries (src/internal/incident/query.go).

    A query reads the records the correlator wrote, through a struct that
    declares their [incident] member only, and decodes them leniently.  [List]
    returns one page of the matching incidents in the order of their identities;
    [Show] returns one incident. *)
From S2P Require Import Prelude GoLib GoTime Webhook Json Contract ContractFacts Store GoText Correlator.
From stdpp Require Import sorting options.
Local Open Scope Z_scope.

Definition maxPageSize : Z := 100.

Definition query_error := mkError "incident".
Definition ErrInvalidQuery := query_error "invalid incident query".
Definition ErrNotFound := query_error "incident not found".

(** * Data *)

Record Filter := mkFilter {
  fl_State : string;
  fl_From : time;
  fl_To : time;
  fl_PageSize : Z;
  fl_Offset : Z;
}.
#[export] Instance Filter_eta : Updatable Filter :=
  fun r => mkFilter (fl_State r) (fl_From r) (fl_To r) (fl_PageSize r) (fl_Offset r).

Record Page := mkPage {
  pg_Incidents : list Incident;
  pg_NextOffset : Z;
}.

(** The anonymous struct both queries decode into. *)
Record incidentView := mkIncidentView { iv_Incident : Incident }.
#[export] Instance incidentView_eta : Updatable incidentView := fun r => mkIncidentView (iv_Incident r).
#[export] Instance incidentView_json : GoJson incidentView :=
  struct_json (mkIncidentView Incident_zero) [field_of "incident" iv_Incident never].

(** * Queries *)

(** The incident of a record, or the error both callbacks return. *)
Definition view_incident (document : document) : result Incident :=
  match Unmarshal document with
  | Fail _ => Fail ErrInvalidQuery
  | Ok record =>
    if negb (is_ok (Incident_Validate (iv_Incident record))) then Fail ErrInvalidQuery else Ok (iv_Incident record)
  end.

(** The incident passes the filter. *)
Definition matches (filter : Filter) (value : Incident) : bool :=
  negb ((negb (String.eqb (fl_State filter) "") && negb (String.eqb (inc_State value) (fl_State filter))) ||
        (negb (is_zero (fl_From filter)) && before (inc_OpenedAt value) (fl_From filter)) ||
        (negb (is_zero (fl_To filter)) && after (inc_OpenedAt value) (fl_To filter))).

Definition list_step (filter : Filter) (items : list Incident) (_ : string) (document : document) :
    result (list Incident) :=
  view_incident document ≫= fun value => if matches filter value then Ok (items ++ [value])%list else Ok items.

(** [sort.Slice] by identity: with the distinct identities the correlator
    generates, the order does not depend on the sorting algorithm. *)
Definition incident_le (left right : Incident) : Prop := String.le (inc_IncidentID left) (inc_IncidentID right).
#[export] Instance incident_le_dec : RelDecision incident_le.
Proof. intros a b. unfold incident_le. apply _. Defined.
Definition sort_incidents (items : list Incident) : list Incident := merge_sort incident_le items.

(** The slice [items[from:to]]. *)
Definition slice {A} (items : list A) (from to : Z) : list A :=
  take (Z.to_nat (to - from)) (drop (Z.to_nat from) items).

Definition invalid_filter (filter : Filter) : bool :=
  (fl_Offset filter <? 0) || (fl_PageSize filter <? 0) || (maxPageSize <? fl_PageSize filter) ||
  (negb (is_zero (fl_From filter)) && negb (is_zero (fl_To filter)) && before (fl_To filter) (fl_From filter)).

(** The page of the sorted items. *)
Definition page_of (filter : Filter) (items : list Incident) : Page :=
  let pageSize := if fl_PageSize filter =? 0 then 25 else fl_PageSize filter in
  let count := Z.of_nat (length items) in
  if count <=? fl_Offset filter then mkPage [] 0
  else
    let end_ := fl_Offset filter + pageSize in
    let end_ := if count <? end_ then count else end_ in
    mkPage (slice items (fl_Offset filter) end_) (if end_ <? count then end_ else 0).

(** [Show]'s callback: a later record of the same identity wins. *)
Definition show_step (id : string) (shown : option Incident) (_ : string) (document : document) :
    result (option Incident) :=
  view_incident document ≫= fun value => if String.eqb (inc_IncidentID value) id then Ok (Some value) else Ok shown.

Section Queries.
Context `{Bolt}.

Definition List (filter : Filter) (s : db) : result Page :=
  if invalid_filter filter then Fail ErrInvalidQuery
  else
    View (ForEach BucketIncidents [] (list_step filter)) s ≫= fun items =>
    Ok (page_of filter (sort_incidents items)).

Definition Show (id : string) (s : db) : result Incident :=
  if String.eqb id "" then Fail ErrInvalidQuery
  else
    View (ForEach BucketIncidents None (show_step id)) s ≫= fun found =>
    match found with
    | None => Fail ErrNotFound
    | Some value => Ok value
    end.
End Queries.

(** * Facts: lenient decoding *)

(** Decoding that reports no error under the strict rules gives the same value
    under the lenient ones. *)
Definition lax {A} (G : GoJson A) : Prop :=
  forall v j v', @of_json A G true v j = Value v' None -> @of_json A G false v j = Value v' None.

Lemma first_error_none a b : first_error a b = None -> a = None /\ b = None.
Proof. by destruct a. Qed.

Lemma lax_string : lax string_json. Proof. by intros v [] v'. Qed.
Lemma lax_time : lax time_json. Proof. by intros v [] v'. Qed.
Lemma lax_elems {A} `{G : GoJson A} (l : list json) vs :
  lax G -> decode_elems true l = Value vs None -> decode_elems false l = Value vs None.
Proof.
  intros HG. revert vs. induction l as [|j l IH]; intros vs; cbn [decode_elems]; [done|].
  destruct (of_json true go_zero j) as [x e|] eqn:Ex; [|done].
  destruct (decode_elems true l) as [xs e'|] eqn:El; [|done]. intros [= <- [-> ->]%first_error_none].
  by rewrite (HG _ _ _ Ex), (IH xs eq_refl).
Qed.
Lemma lax_slice {A} `{G : GoJson A} : lax G -> lax (@slice_json A G).
Proof. intros HG v [] v'; try done. exact (lax_elems _ _ HG). Qed.

Definition lax_field {T} (f : field T) : Prop :=
  forall j r r', fset f true j r = Value r' None -> fset f false j r = Value r' None.
Lemma lax_field_of {T A} (G : GoJson A) name (proj : T -> A) `{!Setter proj} omit :
  lax G -> lax_field (field_of name proj omit).
Proof.
  intros HG j r r'. unfold field_of. cbn. destruct (of_json true (proj r) j) as [x e|] eqn:Ex; [|done].
  intros [= <- ->]. by rewrite (HG _ _ _ Ex).
Qed.

Lemma find_first_in {A} (p : A -> bool) l x : find_first p l = Some x -> x ∈ l /\ p x = true.
Proof.
  induction l as [|y l IH]; cbn; [done|]. destruct (p y) eqn:Ey; [intros [= <-]; by split; [constructor|]|].
  intros [? ?]%IH. split; [by constructor|done].
Qed.
Lemma field_for_in {T} (fs : list (field T)) key f : field_for fs key = Some f -> f ∈ fs.
Proof.
  unfold field_for. destruct (find_first _ fs) eqn:E; [intros [= <-]; by apply find_first_in in E as [? _]|].
  by intros [? _]%find_first_in.
Qed.

Lemma decode_saved {T} strict (fs : list (field T)) v saved ms v' :
  decode_members strict fs v saved ms = Value v' None -> saved = None.
Proof.
  revert v saved. induction ms as [|[key j] ms IH]; intros v saved; cbn; [by intros [= _ ->]|].
  destruct (field_for fs key) as [f|]; [destruct (fset f strict j v); [|done]|]; by intros [? _]%IH%first_error_none.
Qed.

Lemma lax_members {T} (fs : list (field T)) v saved ms v' :
  Forall lax_field fs -> decode_members true fs v saved ms = Value v' None -> decode_members false fs v saved ms = Value v' None.
Proof.
  intros Hf. revert v saved. induction ms as [|[key j] ms IH]; intros v saved; cbn [decode_members]; [done|].
  destruct (field_for fs key) as [f|] eqn:Ef.
  - destruct (fset f true j v) as [x e|] eqn:Ex; [|done]. intros Hd.
    destruct (first_error_none _ _ (decode_saved _ _ _ _ _ _ Hd)) as [-> ->].
    eapply Forall_forall in Hf; [|by eapply field_for_in]. rewrite (Hf _ _ _ Ex). by apply IH.
  - intros Hd. destruct (first_error_none _ _ (decode_saved _ _ _ _ _ _ Hd)) as [_ Hn]. discriminate Hn.
Qed.
Lemma lax_struct {T} zero (fs : list (field T)) : Forall lax_field fs -> lax (struct_json zero fs).
Proof. intros Hf v [] v'; try done. by apply lax_members. Qed.

Lemma lax_incident : lax Incident_json.
Proof.
  unfold Incident_json. apply lax_struct.
  repeat constructor; apply lax_field_of; auto using lax_string, lax_time, lax_slice.
Qed.

Lemma Zlist_eqb_eq a b : Zlist_eqb a b = true <-> a = b.
Proof.
  revert b. induction a as [|x a IH]; intros [|y b]; cbn; try done.
  rewrite andb_true_iff, Z.eqb_eq, IH. split; [by intros [-> ->]|by intros [= -> ->]].
Qed.
Lemma field_for_fold {T} (fs : list (field T)) key f :
  field_for fs key = Some f -> fold_name (fname f) = fold_name key.
Proof.
  unfold field_for. destruct (find_first _ fs) eqn:E.
  - intros [= <-]. apply find_first_in in E as [_ ->%String.eqb_eq]. done.
  - intros [_ Hf]%find_first_in. by apply Zlist_eqb_eq.
Qed.

Definition incident_field : field incidentView := field_of "incident" iv_Incident never.
Lemma view_field key :
  field_for [incident_field] key =
    if decide (fold_name "incident" = fold_name key) then Some incident_field else None.
Proof.
  unfold field_for. cbn [find_first]. change (fname incident_field) with "incident".
  destruct (String.eqb_spec "incident" key) as [<-|_]; [by rewrite decide_True|].
  destruct (Zlist_eqb (fold_name "incident") (fold_name key)) eqn:E; case_decide as Hd; try done.
  - by apply Zlist_eqb_eq in E.
  - by rewrite <- Hd, (proj2 (Zlist_eqb_eq _ _) eq_refl) in E.
Qed.

(** A member of a record, decoded strictly into the record, is decoded
    leniently into the view. *)
Lemma view_members ms v saved v' :
  @of_json _ persistedIncident_json true v (JObj ms) = Value v' saved -> saved = None ->
  @of_json _ incidentView_json false (mkIncidentView (pi_Incident v)) (JObj ms) =
    Value (mkIncidentView (pi_Incident v')) None.
Proof.
  intros Hd ->. revert Hd. cbn [of_json persistedIncident_json incidentView_json struct_json].
  set (full := [field_of "schema_version" pi_SchemaVersion never; _; _; _]).
  change [field_of "incident" iv_Incident never] with [incident_field].
  revert v. induction ms as [|[key j] ms IH]; intros v; cbn [decode_members]; [by intros [= <-]|].
  destruct (field_for full key) as [f|] eqn:Ef; [|intros Hd; by apply decode_saved in Hd].
  pose proof (field_for_fold _ _ _ Ef) as Hfold. apply field_for_in in Ef. rewrite view_field, <- Hfold.
  destruct (fset f true j v) as [x e|] eqn:Ex; [|done].
  intros Hd. pose proof (decode_saved _ _ _ _ _ _ Hd) as He. cbn in He. subst e. apply IH in Hd. revert Ex.
  unfold full in Ef. rewrite !elem_of_cons, elem_of_nil in Ef.
  destruct Ef as [->|[->|[->|[->|[]]]]]; cbn [fname fset field_of].
  1,2,4: destruct (of_json true _ j) as [y e'|]; [|done]; intros [= <- ->]; exact Hd.
  destruct (of_json true (pi_Incident v) j) as [y e'|] eqn:Ej; [|done]. intros [= <- ->].
  rewrite decide_True by done. cbn [fset incident_field field_of iv_Incident].
  by rewrite (lax_incident _ _ _ Ej).
Qed.

(** What the correlator reads as a record, a query reads as its incident. *)
Lemma record_view doc r : decodeRecord doc = Ok r -> view_incident doc = Ok (pi_Incident r).
Proof.
  intros Hd. pose proof (decodeRecord_ok _ _ Hd) as (_ & _ & _ & Hinc & _)%validateRecord_ok. revert Hd.
  unfold decodeRecord. destruct (Decode doc record_options) as [r'|] eqn:E; [|done]. intros [= ->].
  apply Decode_ok in E as (j & _ & -> & _ & _ & _ & Hj & _).
  assert (Hview : @of_json _ incidentView_json false (mkIncidentView Incident_zero) j = Value (mkIncidentView (pi_Incident r)) None).
  { destruct j; try done; [|by eapply (view_members _ persistedIncident_zero)]. revert Hj. by intros [= <-]. }
  unfold view_incident, Unmarshal. change (@go_zero _ incidentView_json) with (mkIncidentView Incident_zero).
  rewrite Hview. cbn [iv_Incident]. by rewrite Hinc.
Qed.

(** * Facts: pages *)

#[export] Instance incident_le_total : Total incident_le.
Proof. intros a b. unfold incident_le. apply String.le_total. Qed.
#[export] Instance incident_le_trans : Transitive incident_le.
Proof. intros a b c. unfold incident_le. apply transitivity. Qed.

Lemma list_fold filter entries records items :
  Forall2 (fun entry record => decodeRecord entry.2 = Ok record) entries records ->
  fold_entries (list_step filter) items entries = Ok (items ++ List.filter (matches filter) (map pi_Incident records))%list.
Proof.
  intros Hf. revert items. induction Hf as [|[key doc] r entries records Hd _ IH]; intros items; cbn [fold_entries map List.filter].
  - by rewrite app_nil_r.
  - cbn [snd] in Hd. unfold list_step at 1. rewrite (record_view _ _ Hd). cbn [mbind result_bind].
    destruct (matches filter (pi_Incident r)); rewrite IH; [by rewrite <- app_assoc|done].
Qed.

Lemma slice_drop {A} (items : list A) from to :
  0 <= from <= to -> (slice items from to ++ drop (Z.to_nat to) items)%list = drop (Z.to_nat from) items.
Proof.
  intros Hle. unfold slice. rewrite <- (take_drop (Z.to_nat (to - from)) (drop (Z.to_nat from) items)) at 2.
  rewrite drop_drop. do 2 f_equal. lia.
Qed.

(** Following [NextOffset] from page to page. *)
Fixpoint collect `{Bolt} (fuel : nat) (filter : Filter) (s : db) : result (list Incident) :=
  match fuel with
  | O => Fail (mkError "client" "too many pages")
  | S fuel =>
    List filter s ≫= fun page =>
    if pg_NextOffset page =? 0 then Ok (pg_Incidents page)
    else collect fuel (filter <| fl_Offset := pg_NextOffset page |>) s ≫= fun rest => Ok (pg_Incidents page ++ rest)%list
  end.

Section QueryFacts.
Context `{BoltLaws}.
#[local] Set Default Proof Using "Type*".

(** The bucket holds these records, in the order of their keys. *)
Definition holds_records (s : db) (records : list persistedIncident) : Prop :=
  has_bucket s BucketIncidents = true /\
  Forall2 (fun entry record => decodeRecord entry.2 = Ok record) (kv_entries s BucketIncidents) records.

(** The matching incidents in the order of their identities. *)
Definition selected (filter : Filter) (records : list persistedIncident) : list Incident :=
  sort_incidents (List.filter (matches filter) (map pi_Incident records)).

Lemma View_ForEach {A} b (acc : A) fn (s : db) a :
  allowedBucket b = true -> has_bucket s b = true -> fold_entries fn acc (kv_entries s b) = Ok a ->
  View (ForEach b acc fn) s = Ok a.
Proof. intros Ha Hb Hf. unfold View. by rewrite (proj2 (ForEach_ok b acc fn s a s)). Qed.

Lemma List_ok filter s records :
  holds_records s records -> invalid_filter filter = false -> List filter s = Ok (page_of filter (selected filter records)).
Proof.
  intros [Hb Hf] Hi. unfold List. rewrite Hi.
  rewrite (View_ForEach BucketIncidents _ _ s _ (eq_refl : allowedBucket BucketIncidents = true) Hb (list_fold filter _ _ [] Hf)).
  done.
Qed.

Lemma selected_offset filter n records : selected (filter <| fl_Offset := n |>) records = selected filter records.
Proof. done. Qed.

(** The pages from one offset on. *)
Lemma collect_from filter s records fuel :
  holds_records s records -> invalid_filter filter = false ->
  (length (selected filter records) < fuel + Z.to_nat (fl_Offset filter))%nat -> (0 < fuel)%nat ->
  collect fuel filter s = Ok (drop (Z.to_nat (fl_Offset filter)) (selected filter records)).
Proof.
  intros Hs. revert filter. induction fuel as [|fuel IH]; intros filter Hi Hlen Hfuel; [lia|]. cbn [collect].
  rewrite (List_ok _ _ _ Hs Hi). cbn [mbind result_bind]. unfold page_of.
  set (items := selected filter records) in *. set (size := if fl_PageSize filter =? 0 then 25 else fl_PageSize filter).
  assert (Hsize : 0 < size /\ 0 <= fl_Offset filter).
  { revert Hi. unfold invalid_filter. rewrite !orb_false_iff, !Z.ltb_ge. intros [[[? ?] ?] _]. subst size.
    destruct (Z.eqb_spec (fl_PageSize filter) 0); lia. }
  destruct (Z.leb_spec (Z.of_nat (length items)) (fl_Offset filter)) as [Hle|Hgt].
  { cbn. by rewrite drop_ge by lia. }
  destruct (Z.ltb_spec (Z.of_nat (length items)) (fl_Offset filter + size)) as [Hlast|Hmore].
  - rewrite Z.ltb_irrefl. cbn. f_equal. rewrite <- (slice_drop items (fl_Offset filter) (Z.of_nat (length items))) by lia.
    by rewrite (drop_ge items (Z.to_nat (Z.of_nat (length items)))), app_nil_r by lia.
  - destruct (Z.ltb_spec (fl_Offset filter + size) (Z.of_nat (length items))) as [Hnext|Hend]; cbn [pg_NextOffset pg_Incidents].
    + destruct (Z.eqb_spec (fl_Offset filter + size) 0); [lia|].
      rewrite IH; [|clear - Hi Hsize|cbn; rewrite selected_offset; fold items; lia|lia].
      * cbn [mbind result_bind]. rewrite selected_offset. fold items. cbn. by rewrite slice_drop by lia.
      * revert Hi. unfold invalid_filter. cbn. rewrite !orb_false_iff, !Z.ltb_ge. intros [[[? ?] ?] ?]. split_and!; try done; lia.
    + cbn. f_equal. rewrite <- (slice_drop items (fl_Offset filter) (fl_Offset filter + size)) by lia.
      by rewrite (drop_ge items (Z.to_nat (fl_Offset filter + size))), app_nil_r by lia.
Qed.

(** What [Show] keeps of a run of records: the last of the identity. *)
Lemma show_fold id entries records shown :
  Forall2 (fun entry record => decodeRecord entry.2 = Ok record) entries records ->
  exists found, fold_entries (show_step id) shown entries = Ok found /\
    (found = shown /\ Forall (fun r => inc_IncidentID (pi_Incident r) <> id) records \/
     exists r, r ∈ records /\ inc_IncidentID (pi_Incident r) = id /\ found = Some (pi_Incident r)).
Proof.
  intros Hf. revert shown. induction Hf as [|[key doc] r entries records Hd _ IH]; intros shown; cbn [fold_entries].
  - exists shown. split; [done|]. left. by split.
  - cbn [snd] in Hd. unfold show_step at 1. rewrite (record_view _ _ Hd). cbn [mbind result_bind].
    destruct (String.eqb_spec (inc_IncidentID (pi_Incident r)) id) as [He|Hne].
    + destruct (IH (Some (pi_Incident r))) as (found & Hfo & [[-> _]|(r' & Hin & Hr)]); eexists; (split; [exact Hfo|]); right.
      * exists r. split; [constructor|done].
      * exists r'. split; [by constructor|done].
    + destruct (IH shown) as (found & Hfo & [[-> Hno]|(r' & Hin & Hr)]); eexists; (split; [exact Hfo|]).
      * left. split; [done|]. by constructor.
      * right. exists r'. split; [by constructor|done].
Qed.

(** What a query returns passes the contract. *)
Lemma view_valid doc v : view_incident doc = Ok v -> Incident_Validate v = Ok tt.
Proof.
  unfold view_incident. destruct (Unmarshal doc) as [record|]; [|done].
  destruct (Incident_Validate (iv_Incident record)) as [[]|] eqn:E; [|done]. intros [= <-]. exact E.
Qed.
Lemma fold_entries_inv {A} (P : A -> Prop) (fn : A -> string -> document -> result A) entries acc out :
  (forall a key doc a', P a -> fn a key doc = Ok a' -> P a') -> P acc -> fold_entries fn acc entries = Ok out -> P out.
Proof.
  intros Hstep. revert acc. induction entries as [|[key doc] entries IH]; intros acc Hp; cbn [fold_entries]; [by intros [= <-]|].
  destruct (fn acc key doc) as [acc'|] eqn:E; [|done]. apply IH. by eapply Hstep.
Qed.
Lemma ForEach_inv {A} (P : A -> Prop) b fn (acc : A) s out :
  (forall a key doc a', P a -> fn a key doc = Ok a' -> P a') -> P acc -> View (ForEach b acc fn) s = Ok out -> P out.
Proof.
  intros Hstep Hp Hv. unfold View in Hv. destruct (ForEach b acc fn s) as [[a s']|] eqn:E; [|done]. injection Hv as ->.
  apply ForEach_ok in E as (_ & _ & _ & Hf). by eapply fold_entries_inv.
Qed.
Lemma Show_valid id s v : Show id s = Ok v -> Incident_Validate v = Ok tt /\ inc_IncidentID v = id.
Proof.
  unfold Show. destruct (String.eqb id ""); [done|]. intros (found & Hv & Hf)%result_bind_ok.
  pose proof (ForEach_inv (fun o => forall i, o = Some i -> Incident_Validate i = Ok tt /\ inc_IncidentID i = id)
    BucketIncidents (show_step id) None s found) as Hinv.
  destruct found as [i|]; [|done]. injection Hf as ->. apply Hinv; [|done..].
  intros a key doc a' Ha. unfold show_step. intros (j & Hj%view_valid & Hs)%result_bind_ok.
  destruct (String.eqb_spec (inc_IncidentID j) id); injection Hs as <-; [|done]. by intros ? [= <-].
Qed.
Lemma page_of_bounds filter items :
  invalid_filter filter = false -> Forall (fun i => Incident_Validate i = Ok tt) items ->
  let page := page_of filter items in
  0 <= pg_NextOffset page /\ Z.of_nat (length (pg_Incidents page)) <= maxPageSize /\
  Forall (fun i => Incident_Validate i = Ok tt) (pg_Incidents page).
Proof.
  unfold invalid_filter, page_of. intros Hi Hf. bool_prop. cbv zeta.
  assert (0 <= fl_PageSize filter <= maxPageSize) as Hs by lia.
  set (size := if fl_PageSize filter =? 0 then 25 else fl_PageSize filter).
  assert (0 < size <= maxPageSize) as Hsize by (unfold size, maxPageSize in *; destruct (Z.eqb_spec (fl_PageSize filter) 0); lia).
  destruct (Z.leb_spec (Z.of_nat (length items)) (fl_Offset filter)) as [|Hlt]; [cbn; split_and!; [done|unfold maxPageSize; lia|constructor]|].
  cbn [pg_NextOffset pg_Incidents]. unfold slice.
  destruct (Z.ltb_spec (Z.of_nat (length items)) (fl_Offset filter + size)); split_and!;
    try (apply Forall_take, Forall_drop, Hf); try (rewrite length_take; lia); case_match; lia.
Qed.
Lemma List_valid filter s page :
  List filter s = Ok page ->
  0 <= pg_NextOffset page /\ Z.of_nat (length (pg_Incidents page)) <= maxPageSize /\
  Forall (fun i => Incident_Validate i = Ok tt) (pg_Incidents page).
Proof.
  unfold List. destruct (invalid_filter filter) eqn:Ei; [done|]. intros (items & Hv & [= <-])%result_bind_ok.
  apply page_of_bounds; [done|]. unfold sort_incidents. rewrite merge_sort_Permutation.
  apply (ForEach_inv (Forall (fun i => Incident_Validate i = Ok tt))) in Hv; [done| |constructor].
  intros a key doc a' Ha. unfold list_step. intros (i & Hi%view_valid & Hs)%result_bind_ok.
  destruct (matches filter i); injection Hs as <-; [|done]. apply Forall_app. by repeat constructor.
Qed.

(** An unreadable record makes every query fail. *)
Lemma unreadable_fold {A} (fn : A -> string -> document -> result A) entries key doc :
  (forall acc k d, view_incident d = Fail ErrInvalidQuery -> fn acc k d = Fail ErrInvalidQuery) ->
  (forall acc k d e, fn acc k d = Fail e -> e = ErrInvalidQuery) ->
  (key, doc) ∈ entries -> view_incident doc = Fail ErrInvalidQuery ->
  forall acc, fold_entries fn acc entries = Fail ErrInvalidQuery.
Proof.
  intros Hbad Hany Hin Hv. induction entries as [|[k d] entries IH]; [by apply elem_of_nil in Hin|]. intros acc.
  cbn [fold_entries]. destruct (fn acc k d) as [acc'|e] eqn:E; [|by apply Hany in E as ->].
  apply elem_of_cons in Hin as [[= <- <-]|Hin]; [rewrite (Hbad _ _ _ Hv) in E; discriminate E|by apply IH].
Qed.

(** C18: listing reads every record the correlator reads, and following
    [NextOffset] from page to page returns exactly the incidents that pass the
    filter, each once, in the order of their identities; every page is within
    the size bound. *)
Theorem List_pages filter s records :
  holds_records s records -> invalid_filter filter = false ->
  exists items, items ≡ₚ List.filter (matches filter) (map pi_Incident records) /\ Sorted incident_le items /\
    (forall fuel, (length items < fuel)%nat -> collect fuel (filter <| fl_Offset := 0 |>) s = Ok items) /\
    (exists page, List filter s = Ok page /\ Z.of_nat (length (pg_Incidents page)) <= maxPageSize /\
       (pg_NextOffset page = 0 \/ fl_Offset filter < pg_NextOffset page <= Z.of_nat (length items))).
Proof.
  intros Hs Hi. exists (selected filter records). split_and!.
  - apply merge_sort_Permutation.
  - apply Sorted_merge_sort, _.
  - intros fuel Hlen. rewrite (collect_from (filter <| fl_Offset := 0 |>) s records); [done|done| |cbn; rewrite selected_offset; lia|lia].
    revert Hi. unfold invalid_filter. cbn. rewrite !orb_false_iff. intros [[[_ ?] ?] ?]. by split_and!.
  - exists (page_of filter (selected filter records)). split; [by apply List_ok|]. revert Hi.
    unfold invalid_filter, page_of, slice. rewrite !orb_false_iff, !Z.ltb_ge. intros [[[? ?] ?] _].
    generalize (selected filter records). intros items.
    set (size := if fl_PageSize filter =? 0 then 25 else fl_PageSize filter).
    assert (0 < size <= maxPageSize) by (subst size; unfold maxPageSize in *; destruct (Z.eqb_spec (fl_PageSize filter) 0); lia).
    destruct (Z.leb_spec (Z.of_nat (length items)) (fl_Offset filter)); cbn [pg_Incidents pg_NextOffset]; [split; [cbn; lia|by left]|].
    rewrite length_take, length_drop.
    destruct (Z.ltb_spec (Z.of_nat (length items)) (fl_Offset filter + size)) as [?|?].
    + rewrite Z.ltb_irrefl. split; [lia|by left].
    + destruct (Z.ltb_spec (fl_Offset filter + size) (Z.of_nat (length items))); (split; [lia|]); [right; lia|by left].
Qed.

(** With distinct identities, [Show] returns an incident exactly when a
    stored record carries it under the requested identity. *)
Lemma Show_finds id s records i :
  holds_records s records -> NoDup (map (fun r => inc_IncidentID (pi_Incident r)) records) -> id <> "" ->
  Show id s = Ok i <-> (exists r, r ∈ records /\ pi_Incident r = i /\ inc_IncidentID i = id).
Proof.
  intros [Hb Hf] Hn Hid. unfold Show. apply String.eqb_neq in Hid as ->.
  destruct (show_fold id _ _ None Hf) as (found & Hfo & Hcase).
  rewrite (View_ForEach BucketIncidents _ _ s _ (eq_refl : allowedBucket BucketIncidents = true) Hb Hfo). cbn [mbind result_bind].
  destruct Hcase as [[-> Hno]|(r & Hr & Hrid & ->)].
  - split; [done|]. intros (r & Hr & <- & Hrid). by eapply Forall_forall in Hno.
  - split; [intros [= <-]; by exists r|]. intros (r' & Hr' & <- & Hrid').
    do 2 f_equal. eapply (fmap_NoDup_inj (fun r => inc_IncidentID (pi_Incident r))); eauto. congruence.
Qed.
End QueryFacts.

(** * Examples *)

Definition demo_filter : Filter := mkFilter "" 0 0 1 0.
Definition demo_pages : result (list Incident) := collect 3 demo_filter incidents2.
Example demo_queries :
  is_ok (List demo_filter incidents2) = true /\
  match demo_pages with Ok items => map inc_IncidentID items | Fail _ => [] end =
    match List (mkFilter "" 0 0 0 0) incidents2 with Ok page => map inc_IncidentID (pg_Incidents page) | Fail _ => ["none"] end /\
  List (mkFilter "" 0 0 101 0) incidents2 = Fail ErrInvalidQuery /\
  Show "missing" incidents2 = Fail ErrNotFound.
Proof. vm_compute. split_and!; reflexivity. Qed.

(** The records a store of correlated incidents holds. *)
Definition record_of (doc : document) : persistedIncident :=
  match decodeRecord doc with Ok record => record | Fail _ => persistedIncident_zero end.
Definition records_of (s : @db gmapBolt) : list persistedIncident :=
  map (fun entry => record_of entry.2) (kv_entries s BucketIncidents).
Lemma readable (entries : list (string * document)) :
  forallb (fun entry => is_ok (decodeRecord entry.2)) entries = true ->
  Forall2 (fun entry record => decodeRecord entry.2 = Ok record) entries (map (fun entry => record_of entry.2) entries).
Proof.
  induction entries as [|[k doc] entries IH]; cbn [forallb map snd]; [constructor|]. intros [Hd Hf]%andb_true_iff.
  constructor; [|by apply IH]. cbn [snd]. unfold record_of. by destruct (decodeRecord doc).
Qed.
Lemma incidents2_records : holds_records incidents2 (records_of incidents2).
Proof. split; [vm_compute; reflexivity|]. apply readable. vm_compute. reflexivity. Qed.

Lemma List_pages_witness :
  exists items, items ≡ₚ List.filter (matches demo_filter) (map pi_Incident (records_of incidents2)) /\
    forall fuel, (length items < fuel)%nat -> collect fuel (demo_filter <| fl_Offset := 0 |>) incidents2 = Ok items.
Proof.
  destruct (List_pages (H := gmapBolt) demo_filter incidents2 (records_of incidents2) incidents2_records eq_refl)
    as (items & Hp & _ & Hc & _).
  exists items. exact (conj Hp Hc).
Defined.

Lemma Show_finds_witness :
  Show "inc-1" incidents2 = Ok (pi_Incident (List.nth 0 (records_of incidents2) persistedIncident_zero)) <->
  exists r, r ∈ records_of incidents2 /\
    pi_Incident r = pi_Incident (List.nth 0 (records_of incidents2) persistedIncident_zero) /\
    inc_IncidentID (pi_Incident (List.nth 0 (records_of incidents2) persistedIncident_zero)) = "inc-1".
Proof.
  apply (Show_finds (H := gmapBolt) "inc-1" incidents2 (records_of incidents2) _ incidents2_records).
  - apply (bool_decide_unpack _). vm_compute. exact I.
  - discriminate.
Defined.
