(* ===== verification/Observer.v ===== *)
(** The probe scheduler (src/internal/observer/observer.go).

    Each locked section of the scheduler is one function on its state:
    [startDue], [evaluate], the sequence number and [finish].  [RunCycle]
    composes them over one registry snapshot; a step relation interleaves the
    sections of any number of concurrent cycles.  What a probe returns, the ID
    source and the context are inputs, one per rule. *)
From S2P Require Import Prelude GoLib GoTime Webhook Json Contract ContractFacts Store Redaction AuditChain GoText.
From S2P Require Import Target Correlator.
From Stdlib Require Import SpecFloat.
From stdpp Require Import options.
Local Open Scope Z_scope.

Definition maxValues : nat := 16.
Definition maxValue : Z := 1000000.
Definition maxSamples : nat := 256.

Definition observer_error := mkError "observer".
Definition ErrInvalidOptions := observer_error "invalid observer options".
Definition ErrProbeFailed := observer_error "probe failed".

(** * State *)

Record sample := mkSample { sm_observedAt : time; sm_failed : bool }.

Record ruleState := mkRuleState {
  rs_failures : Z;
  rs_recoveries : Z;
  rs_samples : list sample;
}.
#[export] Instance ruleState_eta : Updatable ruleState :=
  fun r => mkRuleState (rs_failures r) (rs_recoveries r) (rs_samples r).

Record Scheduler := mkScheduler {
  sc_lastRun : gmap string time;
  sc_running : gset string;
  sc_states : gmap string ruleState;
  sc_sequence : Z;
}.
#[export] Instance Scheduler_eta : Updatable Scheduler :=
  fun r => mkScheduler (sc_lastRun r) (sc_running r) (sc_states r) (sc_sequence r).

(** [NewScheduler]; its dependencies are present. *)
Definition NewScheduler : Scheduler := mkScheduler ∅ ∅ ∅ 0.

(** The key of a rule, as each section builds it. *)
Definition rule_key (targetID ruleID : string) : string := String.append targetID (String.append "/" ruleID).

(** * The locked sections *)

Definition startDue (s : Scheduler) (targetID : string) (rule : ProbeRule) (now : time) : bool * Scheduler :=
  let key := rule_key targetID (pr_RuleID rule) in
  if decide (key ∈ sc_running s) then (false, s)
  else
    let previous := default 0 (sc_lastRun s !! key) in
    if negb (is_zero previous) && (time_sub now previous <? pr_Interval rule) then (false, s)
    else (true, s <| sc_running := {[key]} ∪ sc_running s |>).

Definition finish (s : Scheduler) (targetID ruleID : string) (now : time) : Scheduler :=
  let key := rule_key targetID ruleID in
  s <| sc_running := sc_running s ∖ {[key]} |> <| sc_lastRun := <[key := now]> (sc_lastRun s) |>.

(** The parts of [evaluate]: a gap longer than the window ends both runs, the
    sample is kept with the newest ones of the window, and counted. *)
Definition end_runs (rule : ProbeRule) (now : time) (state : ruleState) : ruleState :=
  match last (rs_samples state) with
  | Some previous =>
    if pr_SLOWindow rule <? time_sub now (sm_observedAt previous)
    then state <| rs_failures := 0 |> <| rs_recoveries := 0 |> else state
  | None => state
  end.

Fixpoint drop_before (cutoff : time) (samples : list sample) : list sample :=
  match samples with
  | [] => []
  | s :: rest => if before (sm_observedAt s) cutoff then drop_before cutoff rest else samples
  end.
Definition keep_newest (samples : list sample) : list sample :=
  if (maxSamples <? length samples)%nat then drop (length samples - maxSamples) samples else samples.
Definition keep_sample (rule : ProbeRule) (now : time) (failed : bool) (state : ruleState) : ruleState :=
  state <| rs_samples :=
    keep_newest (drop_before (time_add now (- pr_SLOWindow rule)) (rs_samples state ++ [mkSample now failed])%list) |>.

Definition count_sample (failed : bool) (state : ruleState) : ruleState :=
  if failed then state <| rs_failures := wrap64 (rs_failures state + 1) |> <| rs_recoveries := 0 |>
  else state <| rs_recoveries := wrap64 (rs_recoveries state + 1) |> <| rs_failures := 0 |>.

Definition verdict (rule : ProbeRule) (state : ruleState) : string :=
  if pr_ConsecutiveFailures rule <=? rs_failures state then StateUnhealthy
  else if pr_RecoverySamples rule <=? rs_recoveries state then StateHealthy
  else StateUnknown.

Definition evaluate (s : Scheduler) (targetID : string) (rule : ProbeRule) (now : time) (failed : bool) :
    string * Scheduler :=
  let key := rule_key targetID (pr_RuleID rule) in
  let state := default (mkRuleState 0 0 []) (sc_states s !! key) in
  let state := count_sample failed (keep_sample rule now failed (end_runs rule now state)) in
  (verdict rule state, s <| sc_states := <[key := state]> (sc_states s) |>).

(** * Observing one rule *)

Definition boundedValues (values : gmap string float64) : gmap string float64 := clamp_values maxValues maxValue values.

(** Whether the sample failed; [None] when the probe did not measure the
    rule's signal. *)
Definition failedSample (rule : ProbeRule) (values : gmap string float64) : option bool :=
  match values !! pr_SignalType rule with
  | None => None
  | Some value =>
    if String.eqb (pr_SignalType rule) "availability" then Some (SFltb value (pr_Threshold rule))
    else Some (SFltb (pr_Threshold rule) value)
  end.

(** The surroundings of one rule: the context before its probe, what the probe
    returns, the context after a failed probe, and the next ID. *)
Record rule_env := mkRuleEnv {
  re_context : option error;
  re_probe : result (gmap string float64);
  re_cancelled : option error;
  re_id : result string;
}.

Definition observe (s : Scheduler) (candidate : ServiceTarget) (rule : ProbeRule) (snapshotVersion : Z) (now : time)
    (env : rule_env) : result HealthObservation * Scheduler :=
  match re_probe env with
  | Fail _ => (Fail (default ErrProbeFailed (re_cancelled env)), s)
  | Ok values =>
    let bounded := boundedValues values in
    match failedSample rule bounded with
    | None => (Fail ErrProbeFailed, s)
    | Some failed =>
      let '(state, s) := evaluate s (tgt_TargetID candidate) rule now failed in
      match re_id env with
      | Fail err => (Fail err, s)
      | Ok id =>
        let s := s <| sc_sequence := wrap_uint64 (sc_sequence s + 1) |> in
        (Ok (mkHealthObservation SchemaVersionV1 id (tgt_TargetID candidate) (pr_RuleID rule) snapshotVersion now state
               bounded [] (sc_sequence s)), s)
      end
    end
  end.

(** * A cycle *)

Record cycle := mkCycle { cy_scheduler : Scheduler; cy_observations : list HealthObservation }.

Fixpoint run_rules (env : string -> rule_env) (candidate : ServiceTarget) (version : Z) (now : time)
    (rules : list ProbeRule) (c : cycle) : cycle * option error :=
  match rules with
  | [] => (c, None)
  | rule :: rest =>
    let e := env (rule_key (tgt_TargetID candidate) (pr_RuleID rule)) in
    match re_context e with
    | Some err => (c, Some err)
    | None =>
      match startDue (cy_scheduler c) (tgt_TargetID candidate) rule now with
      | (false, s) => run_rules env candidate version now rest (mkCycle s (cy_observations c))
      | (true, s) =>
        let '(observation, s) := observe s candidate rule version now e in
        let s := finish s (tgt_TargetID candidate) (pr_RuleID rule) now in
        match observation with
        | Fail err => (mkCycle s (cy_observations c), Some err)
        | Ok observation => run_rules env candidate version now rest (mkCycle s (cy_observations c ++ [observation])%list)
        end
      end
    end
  end.

Fixpoint run_targets (env : string -> rule_env) (version : Z) (now : time) (targets : list ServiceTarget) (c : cycle) :
    cycle * option error :=
  match targets with
  | [] => (c, None)
  | candidate :: rest =>
    if negb (tgt_Enabled candidate) then run_targets env version now rest c
    else match run_rules env candidate version now (tgt_ProbeRules candidate) c with
         | (c, Some err) => (c, Some err)
         | (c, None) => run_targets env version now rest c
         end
  end.

(** The observations so far come back with an error too. *)
Definition RunCycle (env : string -> rule_env) (snapshot : Snapshot) (now : time) (s : Scheduler) :
    list HealthObservation * option error * Scheduler :=
  if is_zero now then ([], Some ErrInvalidOptions, s)
  else
    let '(c, err) := run_targets env (ss_Version snapshot) now (ss_Targets snapshot) (mkCycle s []) in
    (cy_observations c, err, cy_scheduler c).

(** * Facts: the counters

    A call of [evaluate]. *)
Record call := mkCall { cl_targetID : string; cl_rule : ProbeRule; cl_now : time; cl_failed : bool }.
Definition call_key (c : call) : string := rule_key (cl_targetID c) (pr_RuleID (cl_rule c)).
Definition run_call (s : Scheduler) (c : call) : Scheduler :=
  (evaluate s (cl_targetID c) (cl_rule c) (cl_now c) (cl_failed c)).2.
Definition run_calls (s : Scheduler) (calls : list call) : Scheduler := foldl run_call s calls.

(** The length of the run of equal outcomes at the head of a history, newest
    first: it ends at another outcome, and after a gap longer than the window. *)
Fixpoint run_length (outcome : bool) (history : list call) : nat :=
  match history with
  | [] => O
  | c :: earlier =>
    if Bool.eqb (cl_failed c) outcome then
      S (match earlier with
         | [] => O
         | p :: _ => if pr_SLOWindow (cl_rule c) <? time_sub (cl_now c) (cl_now p) then O else run_length outcome earlier
         end)
    else O
  end.

(** The calls on one rule, newest first. *)
Definition history_of (key : string) (calls : list call) : list call :=
  rev (List.filter (fun c => String.eqb (call_key c) key) calls).

(** The state of a rule after its history. *)
Definition counted (history : list call) (state : ruleState) : Prop :=
  rs_failures state = wrap64 (Z.of_nat (run_length true history)) /\
  rs_recoveries state = wrap64 (Z.of_nat (run_length false history)) /\
  last (rs_samples state) = (fun c => mkSample (cl_now c) (cl_failed c)) <$> head history /\
  (length (rs_samples state) <= maxSamples)%nat.

Lemma drop_before_last cutoff samples s :
  cutoff <= sm_observedAt s -> last (drop_before cutoff (samples ++ [s])) = Some s /\
  (length (drop_before cutoff (samples ++ [s])) <= length samples + 1)%nat.
Proof.
  intros Hle. induction samples as [|x samples IH]; cbn [app drop_before].
  - unfold before. destruct (Z.ltb_spec (sm_observedAt s) cutoff); [lia|]. cbn. split; [done|lia].
  - destruct (before _ _); [split; [apply IH|cbn; lia]|]. rewrite app_comm_cons, last_snoc. cbn. rewrite length_app. cbn.
    split; [done|lia].
Qed.

Lemma keep_newest_last samples s :
  last samples = Some s -> last (keep_newest samples) = Some s /\ (length (keep_newest samples) <= maxSamples)%nat.
Proof.
  intros Hl. unfold keep_newest. destruct (Nat.ltb_spec maxSamples (length samples)); [|done].
  rewrite length_drop. split; [|lia].
  apply last_Some in Hl as [init ->]. rewrite length_app in *. cbn [length] in *.
  rewrite drop_app_le by (unfold maxSamples in *; lia). apply last_snoc.
Qed.

Lemma wrap64_succ z : wrap64 (wrap64 z + 1) = wrap64 (z + 1).
Proof.
  unfold wrap64. replace ((z + 2 ^ 63) `mod` 2 ^ 64 - 2 ^ 63 + 1 + 2 ^ 63) with ((z + 2 ^ 63) `mod` 2 ^ 64 + 1) by lia.
  rewrite Zplus_mod_idemp_l. do 2 f_equal. lia.
Qed.

Lemma count_step history state c :
  counted history state -> 0 <= pr_SLOWindow (cl_rule c) ->
  counted (c :: history)
    (count_sample (cl_failed c) (keep_sample (cl_rule c) (cl_now c) (cl_failed c) (end_runs (cl_rule c) (cl_now c) state))).
Proof.
  intros (Hf & Hr & Hl & Hn) Hw. set (ended := end_runs (cl_rule c) (cl_now c) state).
  assert (Hruns : forall b, (if b : bool then rs_failures ended else rs_recoveries ended) =
    wrap64 (Z.of_nat (match history with
      | [] => O
      | p :: _ => if pr_SLOWindow (cl_rule c) <? time_sub (cl_now c) (cl_now p) then O else run_length b history
      end))).
  { intros b. subst ended. unfold end_runs. rewrite Hl. destruct history as [|p earlier]; cbn [head fmap option_fmap option_map].
    - cbn in Hf, Hr. by destruct b.
    - cbn [sm_observedAt]. destruct (_ <? _); destruct b; done. }
  set (kept := keep_sample (cl_rule c) (cl_now c) (cl_failed c) ended).
  assert (Hkept : last (rs_samples kept) = Some (mkSample (cl_now c) (cl_failed c)) /\ (length (rs_samples kept) <= maxSamples)%nat).
  { subst kept. cbn [keep_sample rs_samples]. apply keep_newest_last.
    apply drop_before_last. unfold time_add. cbn. lia. }
  pose proof (Hruns true) as Ht. pose proof (Hruns false) as Hff.
  change (rs_failures ended) with (rs_failures kept) in Ht. change (rs_recoveries ended) with (rs_recoveries kept) in Hff.
  unfold counted, count_sample. cbn [run_length head fmap option_fmap option_map].
  destruct (cl_failed c); cbn [Bool.eqb rs_failures rs_recoveries rs_samples]; (split_and!; [| |apply Hkept|apply Hkept]).
  - change (wrap64 (rs_failures kept + 1) = wrap64 (Z.of_nat (S (match history with
      | [] => O | p :: _ => if pr_SLOWindow (cl_rule c) <? time_sub (cl_now c) (cl_now p) then O else run_length true history end)))).
    rewrite Ht, wrap64_succ. f_equal. lia.
  - done.
  - done.
  - change (wrap64 (rs_recoveries kept + 1) = wrap64 (Z.of_nat (S (match history with
      | [] => O | p :: _ => if pr_SLOWindow (cl_rule c) <? time_sub (cl_now c) (cl_now p) then O else run_length false history end)))).
    rewrite Hff, wrap64_succ. f_equal. lia.
Qed.

Lemma history_snoc key calls c :
  history_of key (calls ++ [c]) = if String.eqb (call_key c) key then c :: history_of key calls else history_of key calls.
Proof.
  unfold history_of. rewrite List.filter_app. cbn [List.filter]. destruct (String.eqb _ _); [by rewrite rev_app_distr|].
  by rewrite app_nil_r.
Qed.

Definition state_of (s : Scheduler) (key : string) : ruleState := default (mkRuleState 0 0 []) (sc_states s !! key).

Lemma run_call_state s c key :
  state_of (run_call s c) key =
    if String.eqb (call_key c) key
    then count_sample (cl_failed c) (keep_sample (cl_rule c) (cl_now c) (cl_failed c)
           (end_runs (cl_rule c) (cl_now c) (state_of s key)))
    else state_of s key.
Proof.
  unfold run_call, evaluate, state_of. cbn [snd]. fold (call_key c).
  change (sc_states (s <| sc_states := ?m |>)) with m. destruct (String.eqb_spec (call_key c) key) as [<-|Hne].
  - rewrite lookup_insert_eq. reflexivity.
  - by rewrite lookup_insert_ne.
Qed.

Lemma run_calls_counted calls key :
  Forall (fun c => 0 <= pr_SLOWindow (cl_rule c)) calls ->
  counted (history_of key calls) (state_of (run_calls NewScheduler calls) key).
Proof.
  induction calls as [|c calls IH] using rev_ind; intros Hw; [by split_and!; try (vm_compute; lia)|].
  apply Forall_app in Hw as [Hw Hc]. apply Forall_cons in Hc as [Hc _]. unfold run_calls. rewrite foldl_app. cbn [foldl].
  fold (run_calls NewScheduler calls). rewrite run_call_state, history_snoc. destruct (String.eqb _ _); [|by apply IH].
  apply count_step; [by apply IH|done].
Qed.

Lemma run_length_le outcome history : (run_length outcome history <= length history)%nat.
Proof.
  induction history as [|c history IH]; cbn [run_length length]; [lia|]. destruct (Bool.eqb _ _); [|lia].
  destruct history as [|p earlier]; [lia|]. destruct (_ <? _); lia.
Qed.

Lemma history_of_le key calls : (length (history_of key calls) <= length calls)%nat.
Proof. unfold history_of. rewrite length_rev. apply List.filter_length_le. Qed.

(** The verdict the rule's parameters promise on a history. *)
Definition promised (rule : ProbeRule) (history : list call) : string :=
  if pr_ConsecutiveFailures rule <=? Z.of_nat (run_length true history) then StateUnhealthy
  else if pr_RecoverySamples rule <=? Z.of_nat (run_length false history) then StateHealthy
  else StateUnknown.

(** C19: whatever samples came before, of whatever rules, the verdict on a new
    sample is the one its rule promises on the rule's own history: unhealthy
    after enough failures in a row, healthy after enough passes in a row, where
    a gap longer than the window breaks a row; and the memory of each rule
    stays bounded. *)
Theorem evaluate_counts_runs calls c :
  Forall (fun c => 0 <= pr_SLOWindow (cl_rule c)) (c :: calls) -> Z.of_nat (length calls) < maxInt64 ->
  let '(state, s) := evaluate (run_calls NewScheduler calls) (cl_targetID c) (cl_rule c) (cl_now c) (cl_failed c) in
  state = promised (cl_rule c) (c :: history_of (call_key c) calls) /\
  (forall key, (length (rs_samples (state_of s key)) <= maxSamples)%nat).
Proof.
  intros [Hc Hw]%Forall_cons Hlen. unfold evaluate. fold (call_key c).
  fold (state_of (run_calls NewScheduler calls) (call_key c)).
  set (state := count_sample _ _).
  assert (Hn : counted (c :: history_of (call_key c) calls) state) by (apply count_step; [by apply run_calls_counted|done]).
  split.
  - destruct Hn as (Hf & Hr & _). unfold verdict, promised.
    assert (Hid : forall b, wrap64 (Z.of_nat (run_length b (c :: history_of (call_key c) calls))) =
      Z.of_nat (run_length b (c :: history_of (call_key c) calls))).
    { intros b. apply wrap64_id. pose proof (run_length_le b (c :: history_of (call_key c) calls)) as Hle.
      pose proof (history_of_le (call_key c) calls). cbn [length] in Hle. unfold int64_ok, minInt64, maxInt64 in *. bool_prop; lia. }
    by rewrite Hf, Hr, !Hid.
  - intros key. pose proof (run_call_state (run_calls NewScheduler calls) c key) as Hs.
    unfold run_call, evaluate in Hs. cbn [snd] in Hs. fold (call_key c) in Hs.
    fold (state_of (run_calls NewScheduler calls) (call_key c)) in Hs. fold state in Hs. rewrite Hs.
    destruct (String.eqb (call_key c) key); [|by apply run_calls_counted].
    by apply (count_step (history_of key calls)); [apply run_calls_counted|].
Qed.

(** * Facts: interleavings

    The probes in progress, each with the time of its cycle, and those started
    so far, newest first, each with the time and interval it started under. *)
Record started := mkStarted { st_key : string; st_now : time; st_interval : duration }.
Record world := mkWorld { w_scheduler : Scheduler; w_active : list (string * time); w_started : list started }.

(** One locked section, of any cycle. *)
Inductive section : world -> world -> Prop :=
| section_start s s' active log targetID rule now :
    startDue s targetID rule now = (true, s') -> now <> 0 -> 0 <= pr_Interval rule <= maxInt64 ->
    section (mkWorld s active log)
      (mkWorld s' ((rule_key targetID (pr_RuleID rule), now) :: active)
         (mkStarted (rule_key targetID (pr_RuleID rule)) now (pr_Interval rule) :: log))
| section_skip s s' active log targetID rule now :
    startDue s targetID rule now = (false, s') -> section (mkWorld s active log) (mkWorld s' active log)
| section_evaluate s active log targetID rule now failed :
    section (mkWorld s active log) (mkWorld (evaluate s targetID rule now failed).2 active log)
| section_sequence s active log n :
    section (mkWorld s active log) (mkWorld (s <| sc_sequence := n |>) active log)
| section_finish s before after log targetID ruleID now :
    section (mkWorld s (before ++ (rule_key targetID ruleID, now) :: after) log)
      (mkWorld (finish s targetID ruleID now) (before ++ after) log).

(** The newest probe of a rule in a log. *)
Definition newest (key : string) (log : list started) : option started := find_first (fun p => String.eqb (st_key p) key) log.

(** Each probe starts at least its interval after the rule's one before. *)
Fixpoint spaced (log : list started) : Prop :=
  match log with
  | [] => True
  | p :: earlier =>
    match newest (st_key p) earlier with Some q => st_now q + st_interval p <= st_now p | None => True end /\ spaced earlier
  end.

Record world_ok (w : world) : Prop := {
  wo_running : forall key, key ∈ sc_running (w_scheduler w) <-> key ∈ map fst (w_active w);
  wo_exclusive : NoDup (map fst (w_active w));
  wo_spaced : spaced (w_started w);
  wo_nonzero : Forall (fun p => st_now p <> 0) (w_started w);
  wo_active : forall key now, (key, now) ∈ w_active w -> st_now <$> newest key (w_started w) = Some now;
  wo_last : forall key, key ∉ map fst (w_active w) -> sc_lastRun (w_scheduler w) !! key = st_now <$> newest key (w_started w);
}.

Lemma newest_in key log p : newest key log = Some p -> p ∈ log /\ st_key p = key.
Proof.
  unfold newest. induction log as [|q log IH]; cbn [find_first]; [done|].
  destruct (String.eqb_spec (st_key q) key); [intros [= ->]; split; [constructor|done]|].
  intros [? ?]%IH. split; [by constructor|done].
Qed.
Lemma newest_cons key p log : newest key (p :: log) = if String.eqb (st_key p) key then Some p else newest key log.
Proof. done. Qed.

(** A start is due: the rule is not running, and its last run is an interval
    away. *)
Lemma startDue_true s targetID rule now s' :
  startDue s targetID rule now = (true, s') -> 0 <= pr_Interval rule <= maxInt64 ->
  let key := rule_key targetID (pr_RuleID rule) in
  key ∉ sc_running s /\ s' = s <| sc_running := {[key]} ∪ sc_running s |> /\
  (forall previous, sc_lastRun s !! key = Some previous -> previous <> 0 -> previous + pr_Interval rule <= now).
Proof.
  unfold startDue. case_decide as Hr; [done|]. destruct (_ && _) eqn:E; [done|]. intros [= <-] Hint. split_and!; [done|done|].
  intros previous Hp Hz. rewrite Hp in E. change (default 0 (Some previous)) with previous in E. unfold is_zero in E. apply andb_false_iff in E as [E|E].
  - apply negb_false_iff, Z.eqb_eq in E. done.
  - apply Z.ltb_ge in E. unfold time_sub, minInt64, maxInt64 in *. lia.
Qed.

(** In a reachable world a rule may start exactly when none of its probes is in
    progress and the time of the cycle that started its newest probe is at
    least the interval ago. *)
Lemma startDue_iff w targetID rule now :
  world_ok w -> 0 <= pr_Interval rule <= maxInt64 ->
  let key := rule_key targetID (pr_RuleID rule) in
  (startDue (w_scheduler w) targetID rule now).1 = true <->
    key ∉ map fst (w_active w) /\
    forall p, newest key (w_started w) = Some p -> st_now p + pr_Interval rule <= now.
Proof.
  intros [Hrun _ _ Hnz _ Hlast] Hint key. unfold startDue. fold key. case_decide as Hr.
  { cbn. rewrite <- Hrun. split; [done|by intros []]. }
  rewrite Hrun in Hr. set (last := sc_lastRun _ !! key).
  assert (last = st_now <$> newest key (w_started w)) as -> by by apply Hlast. destruct (newest key (w_started w)) as [q|] eqn:Eq; cbn [fmap option_fmap option_map default].
  - apply newest_in in Eq as [Hq _]. eapply Forall_forall in Hnz; [|exact Hq]. cbn in Hnz.
    unfold id.
    assert (is_zero (st_now q) = false) as -> by by apply Z.eqb_neq. cbn [negb andb].
    destruct (Z.ltb_spec (time_sub now (st_now q)) (pr_Interval rule)) as [Hl|Hl]; cbn [fst]; unfold time_sub, minInt64, maxInt64 in *.
    + split; [done|]. intros [_ Hp]. specialize (Hp q eq_refl). lia.
    + split; [|done]. intros _. split; [done|]. intros p [= <-]. lia.
  - cbn. split; [|done]. intros _. split; [done|]. by intros p.
Qed.

Lemma section_ok w w' : world_ok w -> section w w' -> world_ok w'.
Proof.
  intros [Hrun Hexc Hsp Hnz Hact Hlast] Hs.
  destruct Hs as [s s' active log targetID rule now Hd Hz Hint|s s' active log targetID rule now Hd
                 |s active log targetID rule now failed|s active log n|s act1 act2 log targetID ruleID now];
    cbn [w_scheduler w_active w_started] in *.
  - apply startDue_true in Hd as (Hfree & -> & Hdue); [|done]. set (key := rule_key targetID (pr_RuleID rule)) in *.
    assert (Hk : key ∉ map fst active) by by rewrite <- Hrun.
    split; cbn [w_scheduler w_active w_started map fst].
    + intros k. rewrite elem_of_cons, <- Hrun. cbn. set_solver.
    + by constructor.
    + cbn [spaced st_key st_now st_interval]. split; [|done]. destruct (newest key log) as [q|] eqn:Eq; [|done].
      apply Hdue; [by rewrite Hlast, Eq|]. apply newest_in in Eq as [Hq _]. by eapply Forall_forall in Hnz.
    + by constructor.
    + intros k t [[= -> ->]|Hin]%elem_of_cons; rewrite newest_cons; cbn [st_key]; [by rewrite String.eqb_refl|].
      destruct (String.eqb_spec key k) as [<-|]; [|by apply Hact].
      exfalso. apply Hk. by apply (list_elem_of_fmap_2 fst) in Hin.
    + intros k Hn. rewrite not_elem_of_cons in Hn. destruct Hn as [Hne Hn]. rewrite newest_cons. cbn [st_key].
      destruct (String.eqb_spec key k); [by subst|]. by apply Hlast.
  - assert (s' = s) as ->; [|by split].
    revert Hd. unfold startDue. case_decide; [by intros [= <-]|]. destruct (_ && _); [by intros [= <-]|done].
  - by split.
  - by split.
  - set (key := rule_key targetID ruleID) in *. rewrite map_app in *. cbn [map fst] in *.
    assert (Hk : key ∉ map fst act1 ++ map fst act2 /\ NoDup (map fst act1 ++ map fst act2)).
    { rewrite NoDup_app in Hexc. destruct Hexc as (H1 & H2 & [H3 H4]%NoDup_cons). split.
      - rewrite elem_of_app. intros [Hi|Hi]; [|done]. eapply H2; [exact Hi|constructor].
      - apply NoDup_app. split_and!; [done| |done]. intros x Hx Hx2. eapply H2; [exact Hx|by constructor]. }
    destruct Hk as [Hk Hnd]. unfold finish. fold key. split; cbn [w_scheduler w_active w_started sc_running sc_lastRun]; rewrite ?map_app.
    + intros k. cbn. specialize (Hrun k). rewrite elem_of_app, elem_of_cons in Hrun. rewrite elem_of_app in *. set_solver.
    + done.
    + done.
    + done.
    + intros k t Hin. apply Hact. rewrite elem_of_app in *. rewrite elem_of_cons. tauto.
    + intros k Hn. cbn. destruct (decide (k = key)) as [->|Hne].
      * rewrite lookup_insert_eq. symmetry. apply Hact. rewrite elem_of_app, elem_of_cons. tauto.
      * rewrite lookup_insert_ne by done. apply Hlast. rewrite elem_of_app, elem_of_cons in *. tauto.
Qed.

Lemma new_world_ok : world_ok (mkWorld NewScheduler [] []).
Proof. split; cbn; try done; try constructor; set_solver. Qed.
Lemma reachable_ok w w' : world_ok w -> rtc section w w' -> world_ok w'.
Proof. intros Hw. induction 1 as [|w w1 w2 Hs _ IH]; [done|]. apply IH. by eapply section_ok. Qed.

(** * Facts: a cycle is a run of sections *)

(** What an observation of a cycle says. *)
Record observation_ok (snapshot : Snapshot) (now : time) (o : HealthObservation) : Prop := {
  oo_target : exists candidate rule, candidate ∈ ss_Targets snapshot /\ tgt_Enabled candidate = true /\
    rule ∈ tgt_ProbeRules candidate /\ obs_TargetID o = tgt_TargetID candidate /\ obs_RuleID o = pr_RuleID rule;
  oo_version : obs_SchemaVersion o = SchemaVersionV1 /\ obs_TargetSnapshotVersion o = ss_Version snapshot;
  oo_now : obs_ObservedAt o = now;
  oo_state : obs_NormalizedState o ∈ [StateUnhealthy; StateHealthy; StateUnknown];
  oo_values : exists values, obs_BoundedValues o = boundedValues values;
}.

(** The state of a cycle that started in [s0] under [log]: sections only, one
    probe per observation, and consecutive sequence numbers. *)
Definition after_n (s0 : Scheduler) (n : nat) : Z := Nat.iter n (fun z => wrap_uint64 (z + 1)) (sc_sequence s0).
Record in_cycle (snapshot : Snapshot) (now : time) (s0 : Scheduler) (active : list (string * time)) (log : list started)
    (c : cycle) : Prop := {
  ic_sections : exists probes, rtc section (mkWorld s0 active log) (mkWorld (cy_scheduler c) active (probes ++ log)) /\
    Forall (fun o => exists p, p ∈ probes /\ st_key p = rule_key (obs_TargetID o) (obs_RuleID o) /\ st_now p = now)
      (cy_observations c);
  ic_observations : Forall (observation_ok snapshot now) (cy_observations c);
  ic_sequence : sc_sequence (cy_scheduler c) = after_n s0 (length (cy_observations c));
  ic_numbers : map obs_Sequence (cy_observations c) = map (fun i => after_n s0 (S i)) (seq 0 (length (cy_observations c)));
}.

Lemma evaluate_verdict s targetID rule now failed :
  (evaluate s targetID rule now failed).1 ∈ [StateUnhealthy; StateHealthy; StateUnknown] /\
  sc_sequence (evaluate s targetID rule now failed).2 = sc_sequence s.
Proof. unfold evaluate, verdict. cbn [fst snd]. split; [|done]. repeat case_match; set_solver. Qed.

Lemma observe_ok s candidate rule snapshot now env out s' active log :
  observe s candidate rule (ss_Version snapshot) now env = (out, s') ->
  rtc section (mkWorld s active log) (mkWorld s' active log) /\
  match out with
  | Fail _ => sc_sequence s' = sc_sequence s
  | Ok o =>
    sc_sequence s' = wrap_uint64 (sc_sequence s + 1) /\ obs_Sequence o = sc_sequence s' /\
    obs_TargetID o = tgt_TargetID candidate /\ obs_RuleID o = pr_RuleID rule /\
    (candidate ∈ ss_Targets snapshot -> tgt_Enabled candidate = true -> rule ∈ tgt_ProbeRules candidate ->
     observation_ok snapshot now o)
  end.
Proof.
  unfold observe. destruct (re_probe env) as [values|]; [|intros [= <- <-]; by split].
  cbv zeta. destruct (failedSample rule (boundedValues values)) as [failed|]; [|intros [= <- <-]; by split].
  pose proof (evaluate_verdict s (tgt_TargetID candidate) rule now failed) as [Hv Hq].
  assert (He : section (mkWorld s active log) (mkWorld (evaluate s (tgt_TargetID candidate) rule now failed).2 active log))
    by constructor.
  destruct (evaluate s (tgt_TargetID candidate) rule now failed) as [state s1]. cbn [fst snd] in *.
  destruct (re_id env) as [id|]; [|intros [= <- <-]; split; [by apply rtc_once|done]].
  intros [= <- <-]. split.
  - eapply rtc_l; [exact He|]. apply rtc_once. constructor.
  - cbn. rewrite Hq. split_and!; try done. intros. split; try done; [by exists candidate, rule|by exists values].
Qed.

Lemma run_rules_ok env candidate snapshot now rules c c' err s0 active log :
  candidate ∈ ss_Targets snapshot -> tgt_Enabled candidate = true -> now <> 0 -> rules ⊆ tgt_ProbeRules candidate ->
  Forall (fun rule => 0 <= pr_Interval rule <= maxInt64) rules ->
  in_cycle snapshot now s0 active log c ->
  run_rules env candidate (ss_Version snapshot) now rules c = (c', err) -> in_cycle snapshot now s0 active log c'.
Proof.
  intros Hc He Hnz. revert c. induction rules as [|rule rules IH]; intros c Hsub Hint Hin; cbn [run_rules]; [by intros [= <- _]|].
  apply Forall_cons in Hint as [Hi Hint]. assert (Hrule : rule ∈ tgt_ProbeRules candidate) by (apply Hsub; constructor).
  assert (Hsub' : rules ⊆ tgt_ProbeRules candidate) by (intros r Hr; apply Hsub; by constructor).
  destruct (re_context _); [by intros [= <- _]|].
  destruct (startDue _ _ _ _) as [[] s1] eqn:Es.
  - destruct (observe s1 candidate rule (ss_Version snapshot) now _) as [out s2] eqn:Eo.
    destruct Hin as [(probes & Hsec & Hpr) Hobs Hseq Hnum].
    set (key := rule_key (tgt_TargetID candidate) (pr_RuleID rule)) in *.
    assert (Hq1 : sc_sequence s1 = sc_sequence (cy_scheduler c)) by (apply startDue_true in Es as (_ & -> & _); done).
    destruct (observe_ok _ _ _ _ _ _ _ _ ((key, now) :: active) (mkStarted key now (pr_Interval rule) :: probes ++ log) Eo) as [Hsec2 Hout].
    assert (Hsec3 : rtc section (mkWorld s0 active log)
      (mkWorld (finish s2 (tgt_TargetID candidate) (pr_RuleID rule) now) active ((mkStarted key now (pr_Interval rule) :: probes) ++ log))).
    { etrans; [exact Hsec|]. eapply rtc_l; [by apply section_start|].
      eapply rtc_r; [exact Hsec2|]. apply (section_finish s2 [] active). }
    assert (Hkeep : forall o, (exists p, p ∈ probes /\ st_key p = rule_key (obs_TargetID o) (obs_RuleID o) /\ st_now p = now) ->
      exists p, p ∈ mkStarted key now (pr_Interval rule) :: probes /\ st_key p = rule_key (obs_TargetID o) (obs_RuleID o) /\ st_now p = now)
      by (intros o (p & ? & ?); exists p; split; [by constructor|done]).
    destruct out as [o|e].
    + destruct Hout as (Hs2 & Ho & Ht & Hr & Hok). apply IH; [done|done|]. split; cbn [cy_scheduler cy_observations].
      * exists (mkStarted key now (pr_Interval rule) :: probes). split; [done|]. apply Forall_app. split.
        -- eapply Forall_impl; [exact Hpr|exact Hkeep].
        -- constructor; [|constructor]. eexists. split; [constructor|]. cbn. by rewrite Ht, Hr.
      * apply Forall_app. split; [done|]. constructor; [by apply Hok|constructor].
      * cbn. rewrite length_app, Nat.add_comm. cbn. unfold after_n in *. cbn. by rewrite Hs2, Hq1, Hseq.
      * rewrite map_app, length_app, Nat.add_comm. cbn [length Nat.add]. rewrite seq_S, map_app, Hnum. cbn.
        unfold after_n in *. cbn. by rewrite Ho, Hs2, Hq1, Hseq.
    + intros [= <- _]. split; cbn [cy_scheduler cy_observations]; [|done| |done].
      * exists (mkStarted key now (pr_Interval rule) :: probes). split; [done|]. eapply Forall_impl; [exact Hpr|exact Hkeep].
      * cbn. by rewrite Hout, Hq1.
  - apply IH; [done|done|]. assert (s1 = cy_scheduler c) as ->; [|by destruct c].
    revert Es. unfold startDue. case_decide; [by intros [= <-]|]. destruct (_ && _); [by intros [= <-]|done].
Qed.

(** Registered rules have intervals a duration can hold. *)
Definition intervals_ok (snapshot : Snapshot) : Prop :=
  Forall (fun t => Forall (fun rule => 0 <= pr_Interval rule <= maxInt64) (tgt_ProbeRules t)) (ss_Targets snapshot).

Lemma run_targets_ok env snapshot now targets c c' err s0 active log :
  now <> 0 -> targets ⊆ ss_Targets snapshot -> intervals_ok snapshot -> in_cycle snapshot now s0 active log c ->
  run_targets env (ss_Version snapshot) now targets c = (c', err) -> in_cycle snapshot now s0 active log c'.
Proof.
  intros Hz Hsub Hint. revert c. induction targets as [|t targets IH]; intros c Hin; cbn [run_targets]; [by intros [= <- _]|].
  assert (Ht : t ∈ ss_Targets snapshot) by (apply Hsub; constructor).
  assert (Hsub' : targets ⊆ ss_Targets snapshot) by (intros x Hx; apply Hsub; by constructor).
  destruct (tgt_Enabled t) eqn:Ee; cbn [negb]; [|by apply IH].
  destruct (run_rules _ _ _ _ _ _) as [c1 e1] eqn:Er.
  assert (Hin1 : in_cycle snapshot now s0 active log c1).
  { eapply run_rules_ok; [exact Ht|exact Ee|exact Hz| | |exact Hin|exact Er]; [done|].
    by eapply Forall_forall in Hint; [|exact Ht]. }
  destruct e1; [by intros [= <- _]|by apply IH].
Qed.

Lemma RunCycle_in_cycle env snapshot now s obs err s' active log :
  intervals_ok snapshot -> RunCycle env snapshot now s = (obs, err, s') ->
  (obs = [] /\ s' = s) \/ in_cycle snapshot now s active log (mkCycle s' obs).
Proof.
  intros Hint. unfold RunCycle, is_zero. destruct (Z.eqb_spec now 0) as [|Hz]; [intros [= <- _ <-]; by left|].
  destruct (run_targets _ _ _ _ _) as [c e] eqn:Er. intros [= <- _ <-]. right. destruct c as [s' obs].
  eapply run_targets_ok; [exact Hz|done|exact Hint| |exact Er].
  split; cbn; try done. exists []. by split.
Qed.

(** C20: under any interleaving of concurrent cycles no rule is probed twice at
    once, and the times of the cycles that start a rule's successive probes are
    at least its interval apart (the clock of the spacing is the cycle's own
    time: a probe that runs long may end just before the next one starts). A
    rule may start exactly when none of its probes is in progress and its newest
    one was started by a cycle at least the interval earlier, so no due probe is
    held back. A cycle that runs on its own is such an interleaving, in which
    every observation it returns has its probe. *)
Theorem probes_spaced w :
  rtc section (mkWorld NewScheduler [] []) w ->
  NoDup (map fst (w_active w)) /\ spaced (w_started w) /\
  (forall targetID rule now, 0 <= pr_Interval rule <= maxInt64 ->
    (startDue (w_scheduler w) targetID rule now).1 = true <->
      rule_key targetID (pr_RuleID rule) ∉ map fst (w_active w) /\
      forall p, newest (rule_key targetID (pr_RuleID rule)) (w_started w) = Some p -> st_now p + pr_Interval rule <= now) /\
  forall env snapshot now obs err s', intervals_ok snapshot -> RunCycle env snapshot now (w_scheduler w) = (obs, err, s') ->
    exists probes, rtc section w (mkWorld s' (w_active w) (probes ++ w_started w)) /\
      Forall (fun o => exists p, p ∈ probes /\ st_key p = rule_key (obs_TargetID o) (obs_RuleID o) /\ st_now p = now) obs.
Proof.
  intros Hr. pose proof (reachable_ok _ _ new_world_ok Hr) as Hok. destruct (Hok) as [_ Hexc Hsp _ _ _].
  split_and!; [done|done|intros targetID rule now Hint; by apply startDue_iff|].
  intros env snapshot now obs err s' Hint Hc. destruct w as [s active log]. cbn [w_scheduler w_active w_started] in *.
  destruct (RunCycle_in_cycle _ _ _ _ _ _ _ active log Hint Hc) as [[-> ->]|[(probes & Hsec & Hp) _ _ _]].
  - exists []. by split.
  - by exists probes.
Qed.

(** Every observation of a cycle is of an enabled target and one of its
    rules in the cycle's snapshot, carries the snapshot's version, the cycle's
    time, bounded values and the next sequence number; and unless its verdict is
    unknown, the correlator accepts it as a signal whenever its identities are
    not blank. *)
Lemma RunCycle_observations env snapshot now s obs err s' :
  intervals_ok snapshot -> now <> 0 -> RunCycle env snapshot now s = (obs, err, s') ->
  Forall (observation_ok snapshot now) obs /\
  map obs_Sequence obs = map (fun i => after_n s (S i)) (seq 0 (length obs)) /\
  sc_sequence s' = after_n s (length obs) /\
  Forall (fun o => obs_NormalizedState o <> StateUnknown ->
    trim_space (obs_ObservationID o) <> "" -> trim_space (obs_TargetID o) <> "" -> trim_space (obs_RuleID o) <> "" ->
    is_ok (validateSignal (mkSignal "" "" "" o)) = true) obs.
Proof.
  intros Hint Hz Hc. destruct (RunCycle_in_cycle _ _ _ _ _ _ _ [] [] Hint Hc) as [[-> ->]|[_ Hobs Hseq Hnum]]; [by split_and!|].
  cbn [cy_observations cy_scheduler] in *. split_and!; [done|done|done|]. eapply Forall_impl; [exact Hobs|].
  intros o [_ [Hv _] Hn Hst _] Hu H1 H2 H3. apply String.eqb_neq in H1, H2, H3.
  unfold validateSignal. cbn [sig_Observation]. rewrite Hv, Hn, H1, H2, H3. unfold is_zero. rewrite (proj2 (Z.eqb_neq now 0) Hz).
  rewrite !elem_of_cons, elem_of_nil in Hst. destruct Hst as [->|[->|[E|[]]]]; [reflexivity|reflexivity|]. by destruct Hu.
Qed.

(** * Examples *)

Definition one : float64 := binary_normalize 53 1024 1 0 false.
Definition demo_rule : ProbeRule :=
  mkProbeRule "availability-rule" "availability" (10 * second) second (one) 2 2 minute SeverityCritical.
Definition failing (at_ : time) : call := mkCall "checkout" demo_rule at_ true.
Definition passing (at_ : time) : call := mkCall "checkout" demo_rule at_ false.
Definition verdicts (calls : list call) : list string :=
  map (fun n => match List.nth_error calls n with
    | Some c => (evaluate (run_calls NewScheduler (take n calls)) (cl_targetID c) (cl_rule c) (cl_now c) (cl_failed c)).1
    | None => "" end) (seq 0 (length calls)).
Example demo_verdicts :
  verdicts [failing 10; failing 20; passing 30; passing 40; failing (40 + 2 * minute); failing (50 + 2 * minute)] =
    [StateUnknown; StateUnhealthy; StateUnknown; StateHealthy; StateUnknown; StateUnhealthy] /\
  verdicts [failing 10; failing (10 + minute + 1)] = [StateUnknown; StateUnknown].
Proof. vm_compute. split; reflexivity. Qed.

Lemma evaluate_counts_runs_witness :
  let '(state, _) := evaluate (run_calls NewScheduler [failing 10]) "checkout" demo_rule 20 true in
  state = promised demo_rule [failing 20; failing 10].
Proof.
  pose proof (evaluate_counts_runs [failing 10] (failing 20)) as He.
  destruct (evaluate (run_calls NewScheduler [failing 10]) "checkout" demo_rule 20 true) as [state s] eqn:Ev.
  cbn [cl_targetID cl_rule cl_now cl_failed failing] in He. rewrite Ev in He. apply He.
  - apply Forall_cons. split; [discriminate|]. apply Forall_cons. split; [discriminate|constructor].
  - reflexivity.
Defined.

Definition demo_snapshot : Snapshot :=
  mkSnapshot SchemaVersionV1 1
    [mkServiceTarget SchemaVersionV1 "checkout" "docker" "container:checkout" [demo_rule]
       (mkEvidencePolicy "default" 1024) (mkStabilizationPolicy 2 minute) true].
Lemma demo_intervals : intervals_ok demo_snapshot.
Proof. repeat constructor; discriminate. Qed.
Definition healthy_env (_ : string) : rule_env :=
  mkRuleEnv None (Ok {["availability" := one]}) None (Ok "obs-1").
Definition cycle1 : list HealthObservation * option error * Scheduler :=
  RunCycle healthy_env demo_snapshot unixEpoch NewScheduler.
Lemma cycle1_eq : RunCycle healthy_env demo_snapshot unixEpoch NewScheduler = (cycle1.1.1, cycle1.1.2, cycle1.2).
Proof. unfold cycle1. destruct (RunCycle _ _ _ _) as [[obs err] s]. reflexivity. Qed.

(** A second cycle within the interval probes nothing. *)
Example demo_cycles :
  map obs_NormalizedState cycle1.1.1 = [StateUnknown] /\
  (RunCycle healthy_env demo_snapshot (unixEpoch + second) cycle1.2).1.1 = [] /\
  map obs_NormalizedState (RunCycle healthy_env demo_snapshot (unixEpoch + 10 * second) cycle1.2).1.1 = [StateHealthy].
Proof. vm_compute. split_and!; reflexivity. Qed.

Lemma RunCycle_observations_witness :
  Forall (observation_ok demo_snapshot unixEpoch) cycle1.1.1 /\ sc_sequence cycle1.2 = after_n NewScheduler 1.
Proof.
  destruct (RunCycle_observations healthy_env demo_snapshot unixEpoch NewScheduler _ _ _ demo_intervals
    ltac:(discriminate) cycle1_eq) as (Ho & _ & Hs & _).
  split; [exact Ho|]. rewrite Hs. vm_compute. reflexivity.
Defined.

Lemma probes_spaced_witness :
  exists w, rtc section (mkWorld NewScheduler [] []) w /\ w_started w <> [] /\ spaced (w_started w).
Proof.
  pose proof (probes_spaced (mkWorld NewScheduler [] []) (rtc_refl _ _)) as (_ & _ & _ & Hc).
  destruct (Hc healthy_env demo_snapshot unixEpoch _ _ _ demo_intervals cycle1_eq) as (probes & Hsec & Hp).
  exists (mkWorld cycle1.2 [] (probes ++ [])). split; [exact Hsec|]. split.
  - intros Hn. cbn [w_started] in Hn. assert (Hl : exists o os, cycle1.1.1 = o :: os) by (eexists _, _; vm_compute; reflexivity).
    destruct Hl as (o & os & Hl). rewrite Hl in Hp. apply Forall_cons in Hp as [(p & Hin & _) _].
    rewrite app_nil_r in Hn. subst probes. inversion Hin.
  - exact (proj1 (proj2 (probes_spaced _ Hsec))).
Defined.
