(* ===== verification/Report.v ===== *)
(** The publisher of terminal incident reports and its payload source
    (src/internal/report/publisher.go and source.go).

    A terminal transition is two payloads of the shared outbox: the report, then
    its paired lifecycle event, each with its delivery item in one transaction.
    Publications hold the publisher's lock.  The publisher builds every list of
    a report as a non-nil slice, so its codec writes an empty one as an array;
    telemetry is left out. *)
From S2P Require Import Prelude GoLib GoTime Sha256 Webhook Json Contract ContractFacts Store Redaction AuditChain.
From S2P Require Import GoText Delivery Outbox Lifecycle.
From stdpp Require Import options.
Local Open Scope Z_scope.

Definition maxReportIDLength : Z := 128.
Definition maxShortTextLength : Z := 512.
Definition maxPostmortemTextLength : Z := 4096.
Definition reportRecordPrefix : string := "report/".

Definition report_error := mkError "report".
Definition ErrInvalidOptions := report_error "invalid incident report options".
Definition ErrInvalidInput := report_error "invalid incident report input".
Definition ErrPayloadNotFound := report_error "incident report payload not found".
Definition ErrCorruptPayload := report_error "corrupt incident report payload".
Definition errReportExists := report_error "incident report already exists".

(** * The codec of a report *)

Definition hypothesis_json : GoJson HypothesisRec := struct_json HypothesisRec_zero [
  field_of "summary" hyp_Summary never;
  @field_of _ _ (present_json string_json) "evidence_refs" hyp_EvidenceRefs _ never].
Definition report_json : GoJson IncidentReport := struct_json IncidentReport_zero [
  field_of "schema_version" rep_SchemaVersion never;
  field_of "report_id" rep_ReportID never;
  field_of "incident_id" rep_IncidentID never;
  @field_of _ _ (present_json hypothesis_json) "hypotheses" rep_Hypotheses _ never;
  @field_of _ _ (present_json string_json) "evidence_refs" rep_EvidenceRefs _ never;
  @field_of _ _ (present_json ReportAction_json) "actions" rep_Actions _ never;
  @field_of _ _ (present_json string_json) "approvals" rep_Approvals _ never;
  field_of "verification_result" rep_VerificationResult never;
  @field_of _ _ (present_json string_json) "prevention_recommendations" rep_PreventionRecommendations _ never;
  field_of "postmortem_draft" rep_PostmortemDraft never;
  @field_of _ _ (present_json string_json) "runbook_improvement_suggestions" rep_RunbookImprovementSuggestions _ never;
  field_of "delivery_status" rep_DeliveryStatus never].
Definition Marshal_report (report : IncidentReport) : option document := @Marshal _ report_json report.

(** * Data *)

Record Publisher := mkPublisher {
  pb_queue : Dispatcher;
  pb_lifecycle : Lifecycle.Publisher;
  pb_destinationRef : string;
  pb_deliveryTTL : duration;
}.

Record Input := mkInput {
  ip_IncidentID : string;
  ip_TerminalState : string;
  ip_IdempotencyKey : string;
  ip_OccurredAt : time;
  ip_Analysis : option AnalysisResult;
  ip_AnalysisUnavailable : bool;
  ip_EvidenceRefs : list string;
  ip_Actions : list ReportAction;
  ip_ApprovalIDs : list string;
  ip_VerificationResult : string;
  ip_PreventionRecommendations : list string;
  ip_PostmortemDraft : string;
  ip_RunbookImprovementSuggestions : list string;
}.

Record Result := mkResult {
  rs_Report : IncidentReport;
  rs_ReportQueueItem : DeliveryQueueItem;
  rs_LifecycleQueueItem : DeliveryQueueItem;
  rs_Duplicate : bool;
}.
Definition Result_zero : Result := mkResult IncidentReport_zero DeliveryQueueItem_zero DeliveryQueueItem_zero false.

(** * Validation *)

Definition safeText (value : string) (limit : Z) : bool :=
  negb (String.eqb value "") && (go_len value <=? limit) && valid_utf8 value && String.eqb (trim_space value) value &&
  negb (contains_byte value 0) && negb (ContainsSensitive value).
Definition safeShortText (value : string) : bool := safeText value maxShortTextLength.
Definition validPostmortem (value : string) : bool := String.eqb value "" || safeText value maxPostmortemTextLength.
Definition validTextList (values : list string) : bool :=
  if 64 <? go_count values then false else forallb safeShortText values.

(** The copy this package keeps of the identifier check. *)
Definition validIdentifier (value : string) (limit : Z) : bool :=
  negb (String.eqb value "") && (go_len value <=? limit) && String.eqb (trim_space value) value &&
  negb (contains_byte value 0) && negb (ContainsSensitive value).
Definition validApprovalIDs (approvalIDs : list string) : bool :=
  if 64 <? go_count approvalIDs then false else forallb (fun id => validIdentifier id maxReportIDLength) approvalIDs.
Definition validActions (actions : list ReportAction) : bool :=
  if 64 <? go_count actions then false
  else forallb (fun action =>
    validIdentifier (ra_CommandID action) maxReportIDLength &&
    (String.eqb (ra_ActionType action) ActionDockerContainerRestart ||
     String.eqb (ra_ActionType action) ActionDockerComposeServiceRestart) && safeShortText (ra_Result action)) actions.

Section Report.
Context `{UnicodeTables} `{Bolt}.

Definition validHypotheses (hypotheses : list HypothesisRec) : bool :=
  if (go_count hypotheses =? 0) || (64 <? go_count hypotheses) then false
  else forallb (fun h => safeShortText (hyp_Summary h) && validEvidenceRefs (hyp_EvidenceRefs h)) hypotheses.

Definition validReportContent (report : IncidentReport) : bool :=
  validEvidenceRefs (rep_EvidenceRefs report) && validHypotheses (rep_Hypotheses report) &&
  validActions (rep_Actions report) && validApprovalIDs (rep_Approvals report) &&
  safeShortText (rep_VerificationResult report) && validTextList (rep_PreventionRecommendations report) &&
  validPostmortem (rep_PostmortemDraft report) && validTextList (rep_RunbookImprovementSuggestions report).

Definition New (queue : Dispatcher) (lifecycle : Lifecycle.Publisher) (destinationRef : string) (ttl : duration) :
    result Publisher :=
  let ttl := if ttl =? 0 then defaultDeliveryTTL else ttl in
  if negb (validIdentifier destinationRef maxReportIDLength) || (ttl <? second) || (maxDeliveryTTL <? ttl)
  then Fail ErrInvalidOptions
  else Ok (mkPublisher queue lifecycle destinationRef ttl).

(** * Composing a report *)

(** The analysis' references that are not there yet, in order. *)
Fixpoint add_references (references extra : list string) : list string :=
  match extra with
  | [] => references
  | reference :: rest =>
    add_references (if decide (reference ∈ references) then references else references ++ [reference])%list rest
  end.

Definition composeHypotheses (input : Input) : result (list HypothesisRec * list string) :=
  let references := ip_EvidenceRefs input in
  match ip_Analysis input with
  | None =>
    if negb (ip_AnalysisUnavailable input) then Fail ErrInvalidInput
    else Ok ([mkHypothesisRec "Analysis unavailable; root cause not determined." references], references)
  | Some analysis =>
    if ip_AnalysisUnavailable input || negb (is_ok (AnalysisResult_Validate analysis)) ||
       negb (String.eqb (ar_IncidentID analysis) (ip_IncidentID input)) || negb (validHypotheses (ar_Hypotheses analysis)) ||
       negb (validEvidenceRefs (ar_EvidenceRefs analysis))
    then Fail ErrInvalidInput
    else
      let references := add_references references (ar_EvidenceRefs analysis) in
      if negb (validEvidenceRefs references) then Fail ErrInvalidInput else Ok (ar_Hypotheses analysis, references)
  end.

Definition StableReportID (incidentID terminalState idempotencyKey : string) : string :=
  String.append "report-"
    (sha256_hex (String.append terminalState (String.append (of_bytes [0]) (String.append incidentID
                   (String.append (of_bytes [0]) idempotencyKey))))).

Definition cloneOrDefault (values : list string) (fallback : string) : list string :=
  match values with [] => [fallback] | _ => values end.

(** [now] is the fallback of the occurrence time. *)
Definition compose (now : time) (input : Input) : result (IncidentReport * Lifecycle.Input) :=
  let occurredAt := if is_zero (ip_OccurredAt input) then now else ip_OccurredAt input in
  if negb (validIdentifier (ip_IncidentID input) maxReportIDLength) ||
     negb (validIdentifier (ip_IdempotencyKey input) maxReportIDLength) ||
     (negb (String.eqb (ip_TerminalState input) IncidentClosed) && negb (String.eqb (ip_TerminalState input) IncidentFailed)) ||
     is_zero occurredAt || negb (validEvidenceRefs (ip_EvidenceRefs input)) || negb (validActions (ip_Actions input)) ||
     negb (validApprovalIDs (ip_ApprovalIDs input)) || negb (safeShortText (ip_VerificationResult input)) ||
     negb (validTextList (ip_PreventionRecommendations input)) || negb (validPostmortem (ip_PostmortemDraft input)) ||
     negb (validTextList (ip_RunbookImprovementSuggestions input))
  then Fail ErrInvalidInput
  else
    composeHypotheses input ≫= fun '(hypotheses, evidenceRefs) =>
    let prevention := cloneOrDefault (ip_PreventionRecommendations input) "Review recurrence controls for this incident class." in
    let postmortem :=
      if String.eqb (ip_PostmortemDraft input) ""
      then String.append "Terminal incident summary recorded for " (String.append (ip_IncidentID input) ".")
      else ip_PostmortemDraft input in
    let improvements := cloneOrDefault (ip_RunbookImprovementSuggestions input) "Review runbook coverage for this incident class." in
    let report := mkIncidentReport SchemaVersionV1
      (StableReportID (ip_IncidentID input) (ip_TerminalState input) (ip_IdempotencyKey input)) (ip_IncidentID input)
      hypotheses evidenceRefs (ip_Actions input) (ip_ApprovalIDs input) (ip_VerificationResult input) prevention postmortem
      improvements DeliveryPending in
    if negb (is_ok (IncidentReport_Validate report)) || negb (validReportContent report) then Fail ErrInvalidInput
    else
      let '(eventType, reasonCode) :=
        if String.eqb (ip_TerminalState input) IncidentFailed then (LifecycleIncidentFailed, "terminal_failed")
        else (LifecycleIncidentClosed, "terminal_closed") in
      Ok (report, Lifecycle.mkInput (StableEventID eventType (ip_IncidentID input) (ip_IdempotencyKey input)) eventType
                    (ip_IncidentID input) reasonCode evidenceRefs (utc occurredAt)).

(** * Stored reports *)

Definition report_options : DecodeOptions IncidentReport :=
  {| MaxBytes := MaxDocumentBytes; SchemaVersion := SchemaVersionV1; Validate := Some IncidentReport_Validate |}.
Definition decodeReport (doc : document) : result IncidentReport :=
  match @Decode _ report_json doc report_options with
  | Fail _ => Fail ErrCorruptPayload
  | Ok report =>
    if negb (validIdentifier (rep_ReportID report) maxReportIDLength) ||
       negb (validIdentifier (rep_IncidentID report) maxReportIDLength) || negb (validReportContent report)
    then Fail ErrCorruptPayload
    else Ok report
  end.

Definition reportRecordKey (reportID : string) : string := String.append reportRecordPrefix (sha256_hex reportID).

Definition sameReport (left right : IncidentReport) : bool :=
  match Marshal_report left, Marshal_report right with
  | Some leftDocument, Some rightDocument => String.eqb (doc_bytes leftDocument) (doc_bytes rightDocument)
  | _, _ => false
  end.

Definition load (reportID : string) (s : db) : result (option IncidentReport) :=
  View (Get BucketIncidentReports (reportRecordKey reportID)) s ≫= fun found =>
  match found with
  | None => Ok None
  | Some document =>
    match decodeReport document with
    | Fail _ => Fail ErrCorruptPayload
    | Ok report => if negb (String.eqb (rep_ReportID report) reportID) then Fail ErrCorruptPayload else Ok (Some report)
    end
  end.

(** [Source.Load]. *)
Definition Load (context : option error) (payloadType payloadRef : string) (s : db) : result document :=
  if negb (String.eqb payloadType DeliveryPayloadIncidentReport) || negb (validIdentifier payloadRef maxReportIDLength)
  then Fail ErrInvalidInput
  else
  match context with
  | Some err => Fail err
  | None =>
    View (Get BucketIncidentReports (reportRecordKey payloadRef)) s ≫= fun found =>
    match found with
    | None => Fail ErrPayloadNotFound
    | Some document =>
      match decodeReport document with
      | Fail _ => Fail ErrCorruptPayload
      | Ok report => if negb (String.eqb (rep_ReportID report) payloadRef) then Fail ErrCorruptPayload else Ok document
      end
    end
  end.

(** The payload kind of reports: what is stored under an ID is the document of
    the report composed, at some time from some input, under that ID. *)
Definition report_kind : PayloadKind :=
  {| pk_bucket := BucketIncidentReports; pk_type := DeliveryPayloadIncidentReport; pk_key := reportRecordKey;
     pk_exists := errReportExists;
     pk_payload := fun ref doc => exists now input report event,
       compose now input = Ok (report, event) /\ Marshal_report report = Some doc /\ rep_ReportID report = ref;
     pk_not_queue := ltac:(discriminate); pk_not_audit := ltac:(discriminate) |}.

(** * Publishing *)

(** What one publication reads: the clock, the two IDs of each queue item, and
    the context when the lifecycle event's turn comes. *)
Record terminal_env := mkTerminalEnv {
  te_now : time;
  te_report : enqueue_env;
  te_context : option error;
  te_event : enqueue_env;
}.

Definition report_request (p : Publisher) (report : IncidentReport) (event : Lifecycle.Input) : EnqueueRequest :=
  mkEnqueueRequest DeliveryPayloadIncidentReport (rep_ReportID report) (pb_destinationRef p)
    (time_add (Lifecycle.ip_OccurredAt event) (pb_deliveryTTL p)).

(** The paired lifecycle event; its failure comes with the result so far. *)
Definition publish_event (p : Publisher) (env : terminal_env) (event : Lifecycle.Input) (r : Result) (s : db) :
    Result * option error * db :=
  match Lifecycle.Publish (pb_lifecycle p) (te_context env) (te_event env) event s with
  | (Fail err, s) => (r, Some err, s)
  | (Ok published, s) =>
    (mkResult (rs_Report r) (rs_ReportQueueItem r) (Lifecycle.rs_QueueItem published)
       (rs_Duplicate r && Lifecycle.rs_Duplicate published), None, s)
  end.

Definition PublishTerminal (p : Publisher) (context : option error) (env : terminal_env) (input : Input) (s : db) :
    Result * option error * db :=
  match context with
  | Some err => (Result_zero, Some err, s)
  | None =>
  match compose (te_now env) input with
  | Fail err => (Result_zero, Some err, s)
  | Ok (report, event) =>
  match Marshal_report report with
  | None => (Result_zero, Some (mkError "json" "unsupported value"), s)
  | Some document =>
  match load (rep_ReportID report) s with
  | Fail err => (Result_zero, Some err, s)
  | Ok (Some existing) =>
    if negb (sameReport existing report) then (Result_zero, Some ErrInvalidInput, s)
    else publish_event p env event (mkResult existing DeliveryQueueItem_zero DeliveryQueueItem_zero true) s
  | Ok None =>
    match EnqueueWithMutation (pb_queue p) (te_report env) (report_request p report event)
            (Some (persist_payload report_kind (rep_ReportID report) document)) s with
    | (Fail err, s) =>
      if decide (err = errReportExists) then
        match load (rep_ReportID report) s with
        | Fail loadErr => (Result_zero, Some loadErr, s)
        | Ok (Some existing) =>
          if sameReport existing report
          then publish_event p env event (mkResult existing DeliveryQueueItem_zero DeliveryQueueItem_zero true) s
          else (Result_zero, Some ErrCorruptPayload, s)
        | Ok None => (Result_zero, Some ErrCorruptPayload, s)
        end
      else (Result_zero, Some err, s)
    | (Ok item, s) => publish_event p env event (mkResult report item DeliveryQueueItem_zero false) s
    end
  end end end end.
End Report.

(** * Facts: the codec *)

#[local] Arguments utf8_coerce : simpl never.
#[local] Arguments present_json : simpl never.
#[local] Arguments ReportAction_json : simpl never.

Definition hypothesis_text (h : HypothesisRec) : bool := valid_utf8 (hyp_Summary h) && forallb valid_utf8 (hyp_EvidenceRefs h).
Lemma hypothesis_rt h : hypothesis_text h = true -> json_rt hypothesis_json h.
Proof.
  destruct h as [summary refs]. unfold hypothesis_text. cbn [hyp_Summary hyp_EvidenceRefs].
  intros [Hs (j & E & S & D)%present_strings_rt]%andb_true_iff. unfold hypothesis_json, json_rt. cbn.
  rewrite E. cbn. eexists. split; [reflexivity|]. split; [struct_scan|struct_decode].
Qed.

(** Every text of a report is UTF-8. *)
Definition report_text (r : IncidentReport) : bool :=
  valid_utf8 (rep_SchemaVersion r) && valid_utf8 (rep_ReportID r) && valid_utf8 (rep_IncidentID r) &&
  forallb hypothesis_text (rep_Hypotheses r) && forallb valid_utf8 (rep_EvidenceRefs r) &&
  forallb ReportAction_ok (rep_Actions r) && forallb valid_utf8 (rep_Approvals r) &&
  valid_utf8 (rep_VerificationResult r) && forallb valid_utf8 (rep_PreventionRecommendations r) &&
  valid_utf8 (rep_PostmortemDraft r) && forallb valid_utf8 (rep_RunbookImprovementSuggestions r) &&
  valid_utf8 (rep_DeliveryStatus r).

Lemma forall_rt {T} (G : GoJson T) (ok : T -> bool) l :
  (forall x, ok x = true -> json_rt G x) -> forallb ok l = true -> json_rt (present_json G) l.
Proof.
  intros Hok Hf. apply present_rt, Forall_forall. intros x Hx. apply Hok. rewrite forallb_forall in Hf.
  apply Hf. by apply list_elem_of_In.
Qed.

Lemma report_rtv r : report_text r = true -> json_rtv report_json r (rep_SchemaVersion r).
Proof.
  destruct r as [version id incident hs refs actions approvals result prevention postmortem improvements status].
  unfold report_text. cbn [rep_SchemaVersion rep_ReportID rep_IncidentID rep_Hypotheses rep_EvidenceRefs rep_Actions
    rep_Approvals rep_VerificationResult rep_PreventionRecommendations rep_PostmortemDraft
    rep_RunbookImprovementSuggestions rep_DeliveryStatus].
  rewrite !andb_true_iff. intros [[[[[[[[[[[H1 H2] H3] H4] H5] H6] H7] H8] H9] H10] H11] H12].
  apply (forall_rt hypothesis_json _ _ hypothesis_rt) in H4 as (j4 & E4 & S4 & D4).
  apply present_strings_rt in H5 as (j5 & E5 & S5 & D5), H7 as (j7 & E7 & S7 & D7), H9 as (j9 & E9 & S9 & D9),
    H11 as (j11 & E11 & S11 & D11).
  apply (forall_rt ReportAction_json _ _ ReportAction_rt) in H6 as (j6 & E6 & S6 & D6).
  unfold report_json, json_rtv. cbn -[header_json].
  rewrite E4, E5, E6, E7, E9, E11. cbn -[header_json].
  eexists. split; [reflexivity|]. split; [struct_scan|]. split; [struct_decode|apply header_decode; [assumption|vm_compute; reflexivity]].
Qed.

(** * Facts: composed reports *)

Lemma safeText_ok value limit : safeText value limit = true -> valid_utf8 value = true /\ go_len value <= limit.
Proof. unfold safeText. intros. bool_prop. done. Qed.
Lemma forallb_weaken {A} (p q : A -> bool) l : (forall x, p x = true -> q x = true) -> forallb p l = true -> forallb q l = true.
Proof. intros Hpq. rewrite !forallb_forall. auto. Qed.
Lemma texts_utf8 l : validTextList l = true -> forallb valid_utf8 l = true.
Proof. unfold validTextList. destruct (_ <? _); [done|]. apply forallb_weaken. intros x Hx. by apply safeText_ok in Hx as [? _]. Qed.
Lemma approvals_utf8 l : validApprovalIDs l = true -> forallb valid_utf8 l = true.
Proof. unfold validApprovalIDs. destruct (_ <? _); [done|]. apply forallb_weaken. intros x Hx. by apply identifier_ok in Hx as [? _]. Qed.
Lemma actions_utf8 l : validActions l = true -> forallb ReportAction_ok l = true.
Proof.
  unfold validActions. destruct (_ <? _); [done|]. apply forallb_weaken. intros [id ty res]. unfold ReportAction_ok.
  cbn [ra_CommandID ra_ActionType ra_Result]. rewrite !andb_true_iff. intros [[Hi Ht] Hs].
  apply identifier_ok in Hi as [-> _]. apply safeText_ok in Hs as [-> _]. split_and!; try done.
  by apply orb_true_iff in Ht as [Ht|Ht]; apply String.eqb_eq in Ht as ->.
Qed.

Section ReportFacts.
Context `{UnicodeTables}.
#[local] Set Default Proof Using "Type*".

Lemma refs_utf8 l : validEvidenceRefs l = true -> forallb valid_utf8 l = true.
Proof.
  intros [_ Hf]%refs_ok. apply forallb_forall. intros x Hx%list_elem_of_In. by eapply Forall_forall in Hf as [? _].
Qed.
Lemma hypotheses_utf8 l : validHypotheses l = true -> forallb hypothesis_text l = true.
Proof.
  unfold validHypotheses. destruct (_ || _); [done|]. apply forallb_weaken. intros h [Hs Hr]%andb_true_iff.
  unfold hypothesis_text. apply safeText_ok in Hs as [-> _]. by rewrite (refs_utf8 _ Hr).
Qed.

(** What an accepted report passed, its identity aside. *)
Record report_valid (r : IncidentReport) : Prop := {
  rv_version : rep_SchemaVersion r = SchemaVersionV1;
  rv_incident : validIdentifier (rep_IncidentID r) maxReportIDLength = true;
  rv_content : validReportContent r = true;
  rv_validate : IncidentReport_Validate r = Ok tt;
  rv_status : rep_DeliveryStatus r = DeliveryPending;
}.

Lemma valid_text r : report_valid r -> valid_utf8 (rep_ReportID r) = true -> report_text r = true.
Proof.
  intros [Hv Hi Hc Hval Hst] Hid. unfold validReportContent in Hc. rewrite !andb_true_iff in Hc.
  destruct Hc as [[[[[[[H1 H2] H3] H4] H5] H6] H7] H8].
  assert (Hpm : valid_utf8 (rep_PostmortemDraft r) = true).
  { apply orb_true_iff in H7 as [->%String.eqb_eq|H7]; [done|]. by apply safeText_ok in H7 as [? _]. }
  apply identifier_ok in Hi as [Hi _]. apply safeText_ok in H5 as [H5 _].
  unfold report_text. rewrite Hv, Hst, Hid, Hi, Hpm, H5, (hypotheses_utf8 _ H2), (refs_utf8 _ H1), (actions_utf8 _ H3),
    (approvals_utf8 _ H4), (texts_utf8 _ H6), (texts_utf8 _ H8). done.
Qed.

(** A report ID is a valid identifier: no pattern finds a secret in a prefix
    and a digest. *)
Lemma StableReportID_bytes incidentID state key :
  exists digest, Forall (fun b => is_hex b = true) digest /\ length digest = 64%nat /\
    bytes (StableReportID incidentID state key) = (bytes "report-" ++ digest)%list.
Proof.
  unfold StableReportID. set (text := String.append state _). exists (bytes (sha256_hex text)).
  rewrite bytes_app. split_and!; [|by rewrite length_bytes, length_sha256_hex|done].
  rewrite bytes_sha256_hex. eapply Forall_impl; [apply hex_bytes_ok, sum256_range|]. by intros b [? _].
Qed.

Lemma is_hex_iff b : is_hex b = true <-> 48 <= b <= 57 \/ 97 <= b <= 102 \/ 65 <= b <= 70.
Proof. unfold is_hex. rewrite !orb_true_iff, !andb_true_iff, !Z.leb_le. lia. Qed.
Definition id_alphabet : list Z := bytes "report-0123456789abcdefABCDEF".
Lemma id_alphabet_ok digest :
  Forall (fun b => is_hex b = true) digest -> Forall (fun x => x ∈ id_alphabet) (bytes "report-" ++ digest)%list.
Proof.
  intros Hh. apply Forall_app. split; [by apply (bool_decide_unpack _); vm_compute|]. eapply Forall_impl; [exact Hh|].
  intros b Hb%is_hex_iff. assert (Hin : forallb (fun b => existsb (Z.eqb b) id_alphabet) (seqZ 48 10 ++ seqZ 97 6 ++ seqZ 65 6) = true)
    by (vm_compute; reflexivity).
  rewrite forallb_forall in Hin. destruct (proj1 (existsb_exists _ _) (Hin b ltac:(
    apply list_elem_of_In; rewrite !elem_of_app, !elem_of_seqZ; lia))) as (x & Hx & ->%Z.eqb_eq). by apply list_elem_of_In.
Qed.
Lemma id_visible b : b ∈ id_alphabet -> 33 <= b < 128.
Proof. revert b. apply Forall_forall. by apply (bool_decide_unpack _); vm_compute. Qed.
Lemma id_neighbours digest i x y :
  Forall (fun b => is_hex b = true) digest -> (bytes "report-" ++ digest)%list !! i = Some x ->
  (bytes "report-" ++ digest)%list !! S i = Some y -> is_digit x = true -> any_of " -" y = false.
Proof.
  intros Hh Hx Hy Hd. do 6 (destruct i as [|i]; [by injection Hx as <-|]).
  assert (Hin : y ∈ digest) by (apply (list_elem_of_lookup_2 _ i); exact Hy).
  eapply Forall_forall in Hh; [|exact Hin]. apply is_hex_iff in Hh. change (any_of " -" y) with ((y =? 32) || ((y =? 45) || false)).
  rewrite !orb_false_iff, !Z.eqb_neq. lia.
Qed.

Lemma StableReportID_clean incidentID state key : clean (StableReportID incidentID state key) = true.
Proof. unfold StableReportID. apply clean_app; [reflexivity|apply hex_clean, sha256_hex_decodable]. Qed.

Lemma StableReportID_valid incidentID state key : validIdentifier (StableReportID incidentID state key) maxReportIDLength = true.
Proof.
  destruct (StableReportID_bytes incidentID state key) as (digest & Hh & Hlen & Hb).
  pose proof (StableReportID_clean incidentID state key) as Hc. set (id := StableReportID _ _ _) in *.
  assert (Hr : rune_list id = (bytes "report-" ++ digest)%list)
    by (unfold rune_list; rewrite <- Hb; apply ascii_rune_values, clean_ascii, Hc).
  pose proof (id_alphabet_ok _ Hh) as Ha.
  assert (Hz : contains_byte id 0 = false).
  { unfold contains_byte. rewrite Hb, existsb_app. cbn [bytes existsb orb]. apply orb_false_iff. split; [reflexivity|].
    clear -Hh. induction Hh as [|b l Hb _ IH]; [done|]. cbn [existsb]. rewrite IH. apply is_hex_iff in Hb. rewrite orb_false_iff, Z.eqb_neq. lia. }
  assert (Hs : ContainsSensitive id = false).
  { unfold ContainsSensitive, malformed. rewrite Hr, (clean_valid_utf8 _ Hc), Hz.
    rewrite (no_match_string emptyLabelPattern) by (by eapply unmatched_no_match; [exact Ha|vm_compute]).
    rewrite !no_match_all by (by eapply unmatched_no_match; [exact Ha|vm_compute]). cbn [negb orb existsb].
    rewrite phone_no_match by (intros i x y; by apply id_neighbours).
    by rewrite !no_match_string by (by eapply unmatched_no_match; [exact Ha|vm_compute]). }
  assert (Hl : length (bytes id) = 71%nat) by (rewrite Hb, length_app, Hlen; reflexivity).
  unfold validIdentifier. rewrite Hs, Hz, (visible_trim id) by (rewrite Hb; eapply Forall_impl; [exact Ha|]; intros b Hin; by apply id_visible).
  rewrite String.eqb_refl. unfold go_len. rewrite <- length_bytes, Hl.
  destruct (String.eqb_spec id "") as [->|]; [by cbn in Hl|done].
Qed.

(** A composed report is valid, under the digest of its incident, state and
    key; its event has the digest identity of the same three. *)
Lemma compose_ok now input r event :
  compose now input = Ok (r, event) ->
  report_valid r /\ rep_ReportID r = StableReportID (ip_IncidentID input) (ip_TerminalState input) (ip_IdempotencyKey input) /\
  Lifecycle.ip_OccurredAt event = (if is_zero (ip_OccurredAt input) then now else ip_OccurredAt input) /\
  Lifecycle.ip_EvidenceRefs event = rep_EvidenceRefs r /\ Lifecycle.ip_IncidentID event = rep_IncidentID r.
Proof.
  unfold compose. cbv zeta. destruct (_ || negb (validTextList (ip_RunbookImprovementSuggestions input))) eqn:Eg; [done|].
  destruct (composeHypotheses input) as [[hs refs]|]; cbn [mbind result_bind]; [|done].
  destruct (_ || negb (validReportContent _)) eqn:Ev; [done|]. apply orb_false_iff in Ev as [Ev Ec].
  apply negb_false_iff in Ev, Ec. destruct (String.eqb (ip_TerminalState input) IncidentFailed); intros [= <- <-].
  all: split; [|done]; split; try done; [|by destruct (IncidentReport_Validate _) as [[]|]].
  all: rewrite !orb_false_iff, !negb_false_iff in Eg; by destruct_and! Eg.
Qed.

Lemma Marshal_report_some r : report_valid r -> valid_utf8 (rep_ReportID r) = true -> is_Some (Marshal_report r).
Proof.
  intros Hv Hid. destruct (report_rtv r (valid_text r Hv Hid)) as (j & Hj & _). unfold Marshal_report, Marshal.
  rewrite Hj. by eexists.
Qed.

(** A stored report is readable exactly when its document is within the
    decoder's bound. *)
Lemma decode_report r doc :
  report_valid r -> validIdentifier (rep_ReportID r) maxReportIDLength = true -> Marshal_report r = Some doc ->
  decodeReport doc = if doc_len doc <=? MaxDocumentBytes then Ok r else Fail ErrCorruptPayload.
Proof.
  intros Hv Hid Hm. pose proof (proj1 (identifier_ok _ _ Hid)) as Hidu.
  destruct (@Decode_rtv _ report_json r report_options IncidentReport_Validate) as (doc' & Hm' & Hdec); [..|].
  - cbn [SchemaVersion report_options]. rewrite <- (rv_version r Hv). apply report_rtv. by apply valid_text.
  - done.
  - done.
  - apply Hv.
  - done.
  - unfold Marshal_report in Hm. rewrite Hm in Hm'. injection Hm' as <-. unfold decodeReport.
    change (max_bytes report_options) with MaxDocumentBytes in Hdec. destruct (Z.leb_spec (doc_len doc) MaxDocumentBytes) as [Hle|Hgt].
    + rewrite (Hdec Hle), Hid, (rv_incident r Hv), (rv_content r Hv). done.
    + destruct (@Decode _ report_json doc report_options) as [r'|] eqn:E; [|done].
      apply (@Decode_ok _ report_json) in E as (_ & _ & _ & _ & _ & _ & _ & _ & Hle). change (max_bytes report_options) with MaxDocumentBytes in Hle. lia.
Qed.
End ReportFacts.

(** * Facts: publications *)

Section TerminalFacts.
Context `{UnicodeTables} `{BoltLaws}.
#[local] Set Default Proof Using "Type*".

(** A publisher over a valid dispatcher, which its lifecycle publisher shares. *)
Record valid_terminal (p : Publisher) : Prop := {
  vt_dispatcher : valid_dispatcher (pb_queue p);
  vt_new : exists ttl, New (pb_queue p) (pb_lifecycle p) (pb_destinationRef p) ttl = Ok p;
  vt_lifecycle : valid_publisher (pb_lifecycle p);
  vt_shared : Lifecycle.pb_queue (pb_lifecycle p) = pb_queue p;
}.
Record terminal_ids_ok (env : terminal_env) : Prop := {
  ti_report : ids_ok (te_report env);
  ti_event : ids_ok (te_event env);
}.

Lemma reports_not_events : BucketIncidentReports <> BucketLifecycleEvents.
Proof. discriminate. Qed.
Lemma reports_not_queue : BucketIncidentReports <> BucketDeliveryQueue.
Proof. discriminate. Qed.

Lemma report_texts p env r event :
  valid_terminal p -> ids_ok env -> valid_utf8 (rep_ReportID r) = true -> texts_ok env (report_request p r event).
Proof.
  intros [_ (ttl & Hn) _ _] [U1 U2] Hid. split_and!; [done| |done|done]. cbn. unfold New in Hn.
  destruct (_ || _) eqn:E; [done|]. rewrite !orb_false_iff, negb_false_iff in E. destruct E as [[Hv _] _].
  by apply identifier_ok in Hv as [? _].
Qed.

Lemma load_report reportID s r :
  load reportID s = Ok (Some r) ->
  exists doc, kv_get s BucketIncidentReports (reportRecordKey reportID) = Some doc /\ decodeReport doc = Ok r /\
    rep_ReportID r = reportID.
Proof.
  unfold load. destruct (View _ s) as [found|] eqn:Ev; [|done]. apply View_Get in Ev as ->. cbn [mbind result_bind].
  destruct (kv_get s _ _) as [doc|] eqn:Eg; [|done]. destruct (decodeReport doc) as [r'|] eqn:Ed; [|done].
  destruct (String.eqb_spec (rep_ReportID r') reportID) as [He|]; [|done]. intros [= <-]. by exists doc.
Qed.

Lemma load_of reportID s doc :
  kv_get s BucketIncidentReports (reportRecordKey reportID) = Some doc ->
  load reportID s = match decodeReport doc with
    | Fail _ => Fail ErrCorruptPayload
    | Ok r => if negb (String.eqb (rep_ReportID r) reportID) then Fail ErrCorruptPayload else Ok (Some r)
    end.
Proof. intros Hg. unfold load. by rewrite (View_Get_some _ _ _ doc). Qed.
Lemma Load_of reportID s doc :
  kv_get s BucketIncidentReports (reportRecordKey reportID) = Some doc -> validIdentifier reportID maxReportIDLength = true ->
  Load None DeliveryPayloadIncidentReport reportID s = match decodeReport doc with
    | Fail _ => Fail ErrCorruptPayload
    | Ok r => if negb (String.eqb (rep_ReportID r) reportID) then Fail ErrCorruptPayload else Ok doc
    end.
Proof. intros Hg Hv. unfold Load. rewrite String.eqb_refl, Hv. cbn [negb orb]. by rewrite (View_Get_some _ _ _ doc). Qed.

Lemma composed_identifier now input r event :
  compose now input = Ok (r, event) -> validIdentifier (rep_ReportID r) maxReportIDLength = true.
Proof. intros (_ & -> & _)%compose_ok. apply StableReportID_valid. Qed.

(** The stored document of a composed report loads exactly within the
    decoder's bound. *)
Lemma Load_composed now input r event doc ref s :
  compose now input = Ok (r, event) -> Marshal_report r = Some doc -> rep_ReportID r = ref ->
  kv_get s BucketIncidentReports (reportRecordKey ref) = Some doc ->
  Load None DeliveryPayloadIncidentReport ref s = if doc_len doc <=? MaxDocumentBytes then Ok doc else Fail ErrCorruptPayload.
Proof.
  intros Hc Hm <- Hg. pose proof (composed_identifier _ _ _ _ Hc) as Hid. destruct (compose_ok _ _ _ _ Hc) as (Hv & _).
  rewrite (Load_of _ _ _ Hg Hid), (decode_report r doc Hv Hid Hm). destruct (_ <=? _); [|done]. by rewrite String.eqb_refl.
Qed.

(** The report's transaction: the stored report of the same text, or a fresh
    payload. *)
Definition report_part (p : Publisher) (report : IncidentReport) (event : Lifecycle.Input) (s : db) (r : Result) (s1 : db) : Prop :=
  if rs_Duplicate r then
    s1 = s /\ sameReport (rs_Report r) report = true /\
    exists doc, kv_get s BucketIncidentReports (reportRecordKey (rep_ReportID report)) = Some doc /\
      decodeReport doc = Ok (rs_Report r) /\ rep_ReportID (rs_Report r) = rep_ReportID report
  else
    rs_Report r = report /\ exists doc, Marshal_report report = Some doc /\
      fresh_payload (pb_queue p) report_kind (report_request p report event) doc s s1 (rs_ReportQueueItem r).

(** The event's transaction, which a failure skips. *)
Definition event_part (p : Publisher) (event : Lifecycle.Input) (r1 : Result) (s1 : db) (r : Result) (err : option error) (s' : db) : Prop :=
  rs_Report r = rs_Report r1 /\ rs_ReportQueueItem r = rs_ReportQueueItem r1 /\
  match err with
  | Some _ => r = r1 /\ s' = s1
  | None => exists e dup, Lifecycle.event event = Ok e /\ is_Some (Marshal e) /\ rs_Duplicate r = rs_Duplicate r1 && dup /\
      if dup then s' = s1 /\ published s1 e /\ rs_LifecycleQueueItem r = DeliveryQueueItem_zero
      else fresh_publication (pb_lifecycle p) e s1 s' (rs_LifecycleQueueItem r)
  end.

Lemma publish_event_ok p env event r1 s1 r err s' :
  valid_terminal p -> terminal_ids_ok env -> publish_event p env event r1 s1 = (r, err, s') ->
  event_part p event r1 s1 r err s'.
Proof.
  intros Hp Hids. unfold publish_event. destruct (Lifecycle.Publish _ _ _ _ _) as [[lr|e] s2] eqn:Ep.
  - pose proof (Publish_cases _ _ _ _ _ _ (vt_lifecycle p Hp) (ti_event env Hids) Ep) as (He & Hm & Hr).
    intros [= <- <- <-]. split_and!; [done|done|]. exists (Lifecycle.rs_Event lr), (Lifecycle.rs_Duplicate lr).
    split_and!; [done|done|done|]. destruct (Lifecycle.rs_Duplicate lr) eqn:Ed; [|done]. destruct Hr as [-> Hr]. split_and!; [done|done|].
    cbn. by eapply Publish_duplicate.
  - pose proof (Publish_cases _ _ _ _ _ _ (vt_lifecycle p Hp) (ti_event env Hids) Ep) as ->. by intros [= <- <- <-].
Qed.

(** A publication is refused before anything is stored, or it is its two
    parts, one after the other. *)
Lemma PublishTerminal_cases p context env input s r err s' :
  valid_terminal p -> terminal_ids_ok env -> PublishTerminal p context env input s = (r, err, s') ->
  (r = Result_zero /\ is_Some err /\ s' = s) \/
  exists report event r1 s1, compose (te_now env) input = Ok (report, event) /\ context = None /\
    report_part p report event s r1 s1 /\ event_part p event r1 s1 r err s'.
Proof.
  intros Hp Hids. unfold PublishTerminal. destruct context; [intros [= <- <- <-]; by left|].
  destruct (compose (te_now env) input) as [[report event]|] eqn:Ec; [|intros [= <- <- <-]; by left].
  destruct (compose_ok _ _ _ _ Ec) as (Hv & Hid & _).
  destruct (Marshal_report report) as [doc|] eqn:Em; [|intros [= <- <- <-]; by left].
  destruct (load (rep_ReportID report) s) as [[existing|]|] eqn:El; [| |intros [= <- <- <-]; by left].
  - destruct (sameReport existing report) eqn:Es; cbn [negb]; [|intros [= <- <- <-]; by left].
    intros He. right. exists report, event, (mkResult existing DeliveryQueueItem_zero DeliveryQueueItem_zero true), s.
    split_and!; [done|done| |by eapply publish_event_ok]. unfold report_part. cbn [rs_Duplicate rs_Report].
    split_and!; [done|done|by apply load_report].
  - unfold EnqueueWithMutation. destruct (enqueue _ _ _ _ _) as [[item|e] s1] eqn:Eq.
    + intros He. right. exists report, event, (mkResult report item DeliveryQueueItem_zero false), s1.
      split_and!; [done|done| |by eapply publish_event_ok]. split; [done|]. exists doc. split; [done|].
      eapply (enqueue_payload (pb_queue p) (vt_dispatcher p Hp) report_kind); [|done|by exists (te_now env), input, report, event|exact Eq].
      eapply report_texts; [done|apply Hids|]. rewrite Hid. apply clean_valid_utf8, StableReportID_clean.
    + assert (s1 = s) as ->.
      { assert (Ht : texts_ok (te_report env) (report_request p report event)).
        { eapply report_texts; [done|apply Hids|]. rewrite Hid. apply clean_valid_utf8, StableReportID_clean. }
        by apply (enqueue_mutation_ok (pb_queue p) (vt_dispatcher p Hp) _ _ _ _ _ Ht) in Eq. }
      rewrite El. case_decide; intros [= <- <- <-]; by left.
Qed.

(** The store holds the report's document. *)
Definition stored (s : db) (report : IncidentReport) (doc : document) : Prop :=
  kv_get s BucketIncidentReports (reportRecordKey (rep_ReportID report)) = Some doc.

Lemma event_keeps_reports p event r1 s1 r err s' :
  event_part p event r1 s1 r err s' -> same_bucket BucketIncidentReports s1 s'.
Proof.
  intros (_ & _ & He). destruct err; [destruct He as [_ ->]; by intros k|]. destruct He as (e & [] & _ & _ & _ & Hd).
  - destruct Hd as (-> & _). by intros k.
  - destruct Hd as (doc & _ & _ & Hf). apply (fy_buckets _ _ _ _ _ _ _ Hf); [exact reports_not_events|exact reports_not_queue].
Qed.

(** After a publication that reached its event, the report is stored. *)
Lemma PublishTerminal_stored p event report s r1 s1 r err s' :
  report_part p report event s r1 s1 -> event_part p event r1 s1 r err s' ->
  exists doc, stored s' report doc /\
    ((rs_Duplicate r1 = true /\ decodeReport doc = Ok (rs_Report r) /\ rep_ReportID (rs_Report r) = rep_ReportID report /\
      sameReport (rs_Report r) report = true) \/
     (rs_Duplicate r1 = false /\ rs_Report r = report /\ Marshal_report report = Some doc)).
Proof.
  intros Hr He. pose proof (event_keeps_reports _ _ _ _ _ _ _ He) as Hk. destruct He as (Hrep & _ & _).
  unfold report_part in Hr. unfold stored. destruct (rs_Duplicate r1).
  - destruct Hr as (-> & Hs & doc & Hg & Hd & Hid). exists doc. split; [by rewrite Hk|]. left. by rewrite Hrep.
  - destruct Hr as (Hr & doc & Hm & Hf). exists doc. split; [rewrite Hk; apply Hf|]. right. by rewrite Hrep.
Qed.

Lemma compose_fixed now now' input : ip_OccurredAt input <> 0 -> compose now input = compose now' input.
Proof. intros Hz. unfold compose, is_zero. by rewrite (proj2 (Z.eqb_neq (ip_OccurredAt input) 0) Hz). Qed.
Lemma sameReport_refl r : is_Some (Marshal_report r) -> sameReport r r = true.
Proof. intros [doc Hm]. unfold sameReport. rewrite Hm. apply String.eqb_refl. Qed.

(** A terminal transition that was published whole, with its own occurrence
    time and a report the decoder's bound admits, is published once: publishing
    it again, under any clock and any generated identities, returns the stored
    report as a duplicate and changes nothing. *)
Lemma PublishTerminal_idempotent p env env' input s r s' :
  valid_terminal p -> terminal_ids_ok env -> ip_OccurredAt input <> 0 ->
  PublishTerminal p None env input s = (r, None, s') ->
  (forall doc, Marshal_report (rs_Report r) = Some doc -> doc_len doc <= MaxDocumentBytes) -> te_context env' = None ->
  PublishTerminal p None env' input s' = (mkResult (rs_Report r) DeliveryQueueItem_zero DeliveryQueueItem_zero true, None, s').
Proof.
  intros Hp Hids Hz Hpub Hsize Hctx.
  destruct (PublishTerminal_cases _ _ _ _ _ _ _ _ Hp Hids Hpub) as [(_ & [? [=]] & _)|Hcases].
  destruct Hcases as (report & event & r1 & s1 & Hc & _ & Hr & He). destruct (compose_ok _ _ _ _ Hc) as (Hv & _).
  pose proof (composed_identifier _ _ _ _ Hc) as Hid. pose proof (Marshal_report_some report Hv (proj1 (identifier_ok _ _ Hid))) as Hm.
  destruct (PublishTerminal_stored _ _ _ _ _ _ _ _ _ Hr He) as (doc & Hst & Hcase).
  destruct He as (_ & _ & e & dup & Hev & Hme & _ & Hpart).
  assert (Hpe : published s' e) by (destruct dup; [by destruct Hpart as (-> & ? & _)|by eapply fresh_published]).
  assert (Hload : load (rep_ReportID report) s' = Ok (Some (rs_Report r)) /\ sameReport (rs_Report r) report = true).
  { rewrite (load_of _ _ _ Hst). destruct Hcase as [(_ & -> & Hi & Hs)|(_ & Hrr & Hmm)].
    - by rewrite Hi, String.eqb_refl.
    - rewrite Hrr in *. rewrite (decode_report report doc Hv Hid Hmm). rewrite (proj2 (Z.leb_le _ _)) by by apply Hsize.
      by rewrite String.eqb_refl, sameReport_refl. }
  destruct Hload as [Hload Hsame]. unfold PublishTerminal. rewrite (compose_fixed _ (te_now env) input Hz), Hc.
  destruct Hm as [mdoc ->]. rewrite Hload, Hsame. cbn [negb]. unfold publish_event. rewrite Hctx.
  by rewrite (Publish_again (pb_lifecycle p) (te_event env') event e s' Hev Hme Hpe).
Qed.

(** The publisher bounds the parts of a report but not its document, while
    reading one back refuses documents over 64 KiB: a fresh report beyond that
    is stored and queued, and from then on neither the dispatcher can load it
    nor can the transition be published again. *)
Lemma oversized_report_unreadable p env env' input s r s' report event doc :
  valid_terminal p -> terminal_ids_ok env -> ip_OccurredAt input <> 0 ->
  PublishTerminal p None env input s = (r, None, s') -> compose (te_now env) input = Ok (report, event) ->
  kv_get s BucketIncidentReports (reportRecordKey (rep_ReportID report)) = None ->
  Marshal_report report = Some doc -> MaxDocumentBytes < doc_len doc ->
  Load None DeliveryPayloadIncidentReport (rep_ReportID report) s' = Fail ErrCorruptPayload /\
  PublishTerminal p None env' input s' = (Result_zero, Some ErrCorruptPayload, s').
Proof.
  intros Hp Hids Hz Hpub Hc Hnone Hm Hbig. pose proof (composed_identifier _ _ _ _ Hc) as Hid.
  destruct (PublishTerminal_cases _ _ _ _ _ _ _ _ Hp Hids Hpub) as [(_ & [? [=]] & _)|Hcases].
  destruct Hcases as (report' & event' & r1 & s1 & Hc' & _ & Hr & He). rewrite Hc in Hc'. injection Hc' as <- <-.
  destruct (compose_ok _ _ _ _ Hc) as (Hv & _).
  assert (Hdup : rs_Duplicate r1 = false).
  { unfold report_part in Hr. destruct (rs_Duplicate r1); [|done]. destruct Hr as (_ & _ & doc' & Hg & _). congruence. }
  destruct (PublishTerminal_stored _ _ _ _ _ _ _ _ _ Hr He) as (doc' & Hst & [(Hd & _)|(_ & _ & Hmm)]); [congruence|].
  assert (doc' = doc) as -> by congruence.
  assert (Hdec : decodeReport doc = Fail ErrCorruptPayload).
  { rewrite (decode_report report doc Hv Hid Hm). by rewrite (proj2 (Z.leb_gt _ _)). }
  split.
  - by rewrite (Load_of _ _ _ Hst Hid), Hdec.
  - unfold PublishTerminal. rewrite (compose_fixed _ (te_now env) input Hz), Hc, Hm, (load_of _ _ _ Hst), Hdec. done.
Qed.

(** ** Both outboxes

    Terminal reports, lifecycle events and delivery passes of one store, in any
    order. *)
Inductive history (p : Publisher) : db -> db -> Prop :=
| history_start s : history p s s
| history_terminal s s1 context env input r err s2 :
    history p s s1 -> terminal_ids_ok env -> PublishTerminal p context env input s1 = (r, err, s2) -> history p s s2
| history_event s s1 context env input out s2 :
    history p s s1 -> ids_ok env -> Lifecycle.Publish (pb_lifecycle p) context env input s1 = (out, s2) -> history p s s2
| history_delivery s s1 now env progress err :
    history p s s1 -> DeliverDue (pb_queue p) now env s1 = (progress, err) -> history p s (pg_db progress).

Record outboxes (p : Publisher) (s : db) : Prop := {
  ob_queue : queue_inv (pb_queue p) s;
  ob_reports : outbox_inv (pb_queue p) report_kind s;
  ob_events : outbox_inv (pb_queue p) lifecycle_kind s;
}.

Lemma fresh_event_outboxes p e s s' item :
  valid_terminal p -> fresh_publication (pb_lifecycle p) e s s' item -> outboxes p s -> outboxes p s'.
Proof.
  intros [Hd _ _ Hsh] (doc & _ & _ & Hf) [Hq Hr He]. rewrite Hsh in Hf. split.
  - eapply accepted_inv; [exact Hd|exact Hq|]. by apply Hf.
  - apply (fy_other _ _ _ _ _ _ _ Hf); [done|discriminate|discriminate|done].
  - by apply Hf.
Qed.

Lemma terminal_outboxes p report event s r1 s1 r err s' :
  valid_terminal p -> report_part p report event s r1 s1 -> event_part p event r1 s1 r err s' -> outboxes p s -> outboxes p s'.
Proof.
  intros Hp Hr (_ & _ & He) Hob. assert (Hob1 : outboxes p s1).
  { unfold report_part in Hr. destruct (rs_Duplicate r1); [by destruct Hr as [-> _]|].
    destruct Hr as (_ & doc & _ & Hf). destruct Hob as [Hq Ho Hl]. split.
    - eapply accepted_inv; [apply Hp|exact Hq|]. by apply Hf.
    - by apply Hf.
    - apply (fy_other _ _ _ _ _ _ _ Hf); [done|discriminate|discriminate|done]. }
  destruct err; [by destruct He as [_ ->]|]. destruct He as (e & [] & _ & _ & _ & Hd); [by destruct Hd as [-> _]|].
  by eapply fresh_event_outboxes.
Qed.

Lemma history_outboxes p s s' : valid_terminal p -> history p s s' -> outboxes p s -> outboxes p s'.
Proof.
  intros Hp. induction 1 as [s|s s1 context env input r err s2 _ IH Hids Hpub|s s1 context env input out s2 _ IH Hids Hpub
                            |s s1 now env pr err _ IH Hd]; intros Hob; [done| | |].
  - destruct (PublishTerminal_cases _ _ _ _ _ _ _ _ Hp Hids Hpub) as [(_ & _ & ->)|(report & event & r1 & s' & _ & _ & Hr & He)];
      [by apply IH|]. eapply terminal_outboxes; [exact Hp|exact Hr|exact He|by apply IH].
  - pose proof (Publish_cases _ _ _ _ _ _ (vt_lifecycle p Hp) Hids Hpub) as Hc. destruct out as [lr|]; [|subst; by apply IH].
    destruct Hc as (_ & _ & Hc). destruct (Lifecycle.rs_Duplicate lr); [destruct Hc as [-> _]; by apply IH|].
    eapply fresh_event_outboxes; [exact Hp|exact Hc|by apply IH].
  - destruct (IH Hob) as [Hq Hr He]. pose proof (vt_dispatcher p Hp) as Hdv. split.
    + by apply (DeliverDue_ok _ Hdv now env s1 pr err Hq Hd).
    + by eapply outbox_deliver.
    + by eapply outbox_deliver.
Qed.

(** C17: reports and lifecycle events share one queue without mixing: over every
    sequence of terminal publications, lifecycle publications and delivery
    passes, each queued item refers to exactly the stored document of its own
    type and identity, and no payload is queued twice. A queued report's
    document is that of the report composed, under that ID, from the input of a
    terminal transition; the dispatcher can load it exactly when it is at most
    64 KiB long, and a longer one is refused as corrupt. A queued lifecycle
    event can always be loaded. *)
Theorem outboxes_consistent p s s' :
  valid_terminal p -> outboxes p s -> history p s s' ->
  (forall key ref, queued (pb_queue p) report_kind s' key ref -> exists now input report event doc,
     compose now input = Ok (report, event) /\ rep_ReportID report = ref /\ Marshal_report report = Some doc /\
     kv_get s' BucketIncidentReports (reportRecordKey ref) = Some doc /\
     Load None DeliveryPayloadIncidentReport ref s' =
       if doc_len doc <=? MaxDocumentBytes then Ok doc else Fail ErrCorruptPayload) /\
  (forall key ref, queued (pb_queue p) lifecycle_kind s' key ref -> exists doc e,
     Lifecycle.Load None DeliveryPayloadLifecycleEvent ref s' = Ok doc /\ decodeEvent doc = Ok e /\ le_EventID e = ref) /\
  (forall kind key key' ref, kind = report_kind \/ kind = lifecycle_kind ->
     queued (pb_queue p) kind s' key ref -> queued (pb_queue p) kind s' key' ref -> key = key').
Proof.
  intros Hp Hob Hh. destruct (history_outboxes p s s' Hp Hh Hob) as [_ [Hr Hru] [He Heu]]. split_and!.
  - intros key ref Hq. destruct (Hr _ _ Hq) as (doc & Hg & now & input & report & event & Hc & Hm & Hid).
    exists now, input, report, event, doc. split_and!; [done|done|done|done|]. by eapply Load_composed.
  - intros key ref Hq. destruct (He _ _ Hq) as (doc & Hg & e & Hd & <-).
    destruct (Load_published s' e) as (doc' & Hl & Hd'); [by exists doc|by eapply decoded_id|]. by exists doc', e.
  - intros kind key key' ref [-> | ->]; [apply Hru|apply Heu].
Qed.
End TerminalFacts.

(** * Examples *)

#[local] Instance ascii_only : UnicodeTables := {| other_letter _ := false |}.

Definition demo_terminal : Publisher := mkPublisher demo_dispatcher demo_publisher "hook" hour.
Lemma demo_terminal_valid : valid_terminal demo_terminal.
Proof. split; [exact demo_valid| |exact demo_publisher_valid|reflexivity]. exists hour. vm_compute. reflexivity. Qed.

Definition reports0 : @db gmapBolt :=
  {[BucketDeliveryQueue := ∅; BucketAudit := ∅; BucketLifecycleEvents := ∅; BucketIncidentReports := ∅]}.
Lemma reports0_queue key doc : kv_get reports0 BucketDeliveryQueue key <> Some doc.
Proof.
  intros Hg. change (kv_get reports0 BucketDeliveryQueue key) with ((∅ : gmap string document) !! key) in Hg.
  rewrite lookup_empty in Hg. discriminate Hg.
Qed.
Lemma reports0_outboxes : outboxes demo_terminal reports0.
Proof.
  assert (Hn : forall kind key ref, ~ queued demo_dispatcher kind reports0 key ref).
  { intros kind key ref (item & (doc & Hg & _) & _). by apply reports0_queue in Hg. }
  split.
  - intros key doc Hg. by apply reports0_queue in Hg.
  - split; intros key ref; [|intros ref']; intros Hq; [|intros _]; by apply Hn in Hq.
  - split; intros key ref; [|intros ref']; intros Hq; [|intros _]; by apply Hn in Hq.
Qed.

Definition demo_env : terminal_env :=
  mkTerminalEnv demo_time (demo_enqueue "delivery-1" "msg_1") None (demo_enqueue "delivery-2" "msg_2").
Lemma demo_env_ok : terminal_ids_ok demo_env.
Proof. split; split; intros id Hid; injection Hid as <-; reflexivity. Qed.

Definition demo_input (improvements : list string) : Input :=
  mkInput "incident-1" IncidentClosed "key-1" demo_time None true ["evidence:1"] [] [] "recovered" [] "" improvements.
Definition terminal1 : Result * option error * @db gmapBolt :=
  PublishTerminal demo_terminal None demo_env (demo_input []) reports0.
Lemma terminal1_eq : PublishTerminal demo_terminal None demo_env (demo_input []) reports0 = (terminal1.1.1, terminal1.1.2, terminal1.2).
Proof. unfold terminal1. destruct (PublishTerminal _ _ _ _ _) as [[r err] s]. reflexivity. Qed.
Example demo_terminal_items :
  terminal1.1.2 = None /\ itm_PayloadType (rs_ReportQueueItem terminal1.1.1) = DeliveryPayloadIncidentReport /\
  itm_PayloadType (rs_LifecycleQueueItem terminal1.1.1) = DeliveryPayloadLifecycleEvent.
Proof. vm_compute. split_and!; reflexivity. Qed.


Lemma terminal1_ok : PublishTerminal demo_terminal None demo_env (demo_input []) reports0 = (terminal1.1.1, None, terminal1.2).
Proof.
  assert (Hok : terminal1.1.2 = None) by (vm_compute; reflexivity). rewrite terminal1_eq, Hok. reflexivity.
Qed.
Lemma terminal1_size doc : Marshal_report (rs_Report terminal1.1.1) = Some doc -> doc_len doc <= MaxDocumentBytes.
Proof.
  assert (Hs : match Marshal_report (rs_Report terminal1.1.1) with Some doc => doc_len doc <=? MaxDocumentBytes | None => false end = true)
    by (vm_compute; reflexivity).
  intros Hm. rewrite Hm in Hs. by apply Z.leb_le.
Qed.

Lemma PublishTerminal_idempotent_witness :
  PublishTerminal demo_terminal None demo_env (demo_input []) terminal1.2 =
    (mkResult (rs_Report terminal1.1.1) DeliveryQueueItem_zero DeliveryQueueItem_zero true, None, terminal1.2).
Proof.
  refine (PublishTerminal_idempotent (H0 := gmapBolt) demo_terminal demo_env demo_env (demo_input []) reports0
    terminal1.1.1 terminal1.2 demo_terminal_valid demo_env_ok _ terminal1_ok terminal1_size eq_refl).
  discriminate.
Defined.

Lemma terminal1_history : history demo_terminal reports0 terminal1.2.
Proof. eapply history_terminal; [apply history_start|exact demo_env_ok|exact terminal1_eq]. Qed.
Definition demo_ref : string := StableReportID "incident-1" IncidentClosed "key-1".
Lemma terminal1_queued : queued demo_dispatcher report_kind terminal1.2 (itemKey "delivery-1") demo_ref.
Proof.
  pose proof (ob_queue _ _ (history_outboxes _ _ _ demo_terminal_valid terminal1_history reports0_outboxes)) as Hq.
  assert (Hx : match kv_get terminal1.2 BucketDeliveryQueue (itemKey "delivery-1") with
    | Some doc => match decodeItem doc with Ok item => (itm_PayloadType item, itm_PayloadRef item) | Fail _ => ("", "") end
    | None => ("", "") end = (DeliveryPayloadIncidentReport, demo_ref)) by (vm_compute; reflexivity).
  destruct (kv_get terminal1.2 BucketDeliveryQueue (itemKey "delivery-1")) as [doc|] eqn:Eg; [|discriminate Hx].
  destruct (Hq _ _ Eg) as (item & Hm & W & _). rewrite (decode_written _ _ _ demo_valid W Hm) in Hx. injection Hx as Ht Hr.
  exists item. exact (conj (ex_intro _ doc (conj Eg Hm)) (conj W (conj Ht Hr))).
Qed.

Lemma outboxes_consistent_witness :
  exists report doc, Marshal_report report = Some doc /\ rep_ReportID report = demo_ref /\
    Load None DeliveryPayloadIncidentReport demo_ref terminal1.2 =
      if doc_len doc <=? MaxDocumentBytes then Ok doc else Fail ErrCorruptPayload.
Proof.
  destruct (proj1 (outboxes_consistent (H0 := gmapBolt) demo_terminal reports0 terminal1.2 demo_terminal_valid
    reports0_outboxes terminal1_history) (itemKey "delivery-1") demo_ref terminal1_queued)
    as (now & input & report & event & doc & _ & Hid & Hm & _ & Hl).
  exists report, doc. exact (conj Hm (conj Hid Hl)).
Defined.

(** Every text within its bound, and 64 KiB exceeded. *)
Definition wide_text : string := of_bytes (repeat 60 96).
Definition big_input : Input :=
  mkInput "incident-1" IncidentClosed "key-1" demo_time None true ["evidence:1"] [] [] "recovered" (repeat wide_text 64)
    "" (repeat wide_text 64).
Definition parts_of (composed : result (IncidentReport * Lifecycle.Input)) : option (IncidentReport * Lifecycle.Input) :=
  match composed with Ok parts => Some parts | Fail _ => None end.
Definition big_parts : option (IncidentReport * Lifecycle.Input) := parts_of (compose demo_time big_input).
Definition big_report : IncidentReport := from_option fst IncidentReport_zero big_parts.
Definition big_event : Lifecycle.Input := from_option snd (Lifecycle.mkInput "" "" "" "" [] 0) big_parts.
Definition big_some : bool := if big_parts then true else false.
Lemma big_composed : big_some = true.
Proof. vm_compute. reflexivity. Qed.
Lemma big_compose : compose demo_time big_input = Ok (big_report, big_event).
Proof.
  pose proof big_composed as Hb. unfold big_some, big_report, big_event, big_parts, parts_of in *.
  destruct (compose demo_time big_input) as [[report event]|err]; [reflexivity|discriminate Hb].
Qed.
Lemma big_id : rep_ReportID big_report = demo_ref.
Proof. exact (proj1 (proj2 (compose_ok _ _ _ _ big_compose))). Qed.
Definition marshalled_len (doc : option document) : Z := from_option doc_len 0 doc.
Lemma big_len : (MaxDocumentBytes <? marshalled_len (Marshal_report big_report)) = true.
Proof. vm_compute. reflexivity. Qed.
Definition big1 : Result * option error * @db gmapBolt :=
  PublishTerminal demo_terminal None demo_env big_input reports0.
Lemma big1_done : big1.1.2 = None.
Proof. vm_compute. reflexivity. Qed.
Lemma big1_eq : PublishTerminal demo_terminal None demo_env big_input reports0 = (big1.1.1, None, big1.2).
Proof.
  pose proof big1_done as Hb. unfold big1 in *. destruct (PublishTerminal _ _ _ _ _) as [[r err] s].
  cbn in Hb |- *. rewrite Hb. reflexivity.
Qed.

Lemma oversized_report_unreadable_witness : Load None DeliveryPayloadIncidentReport demo_ref big1.2 = Fail ErrCorruptPayload.
Proof.
  destruct (Marshal_report big_report) as [doc|] eqn:Em.
  - rewrite <- big_id.
    refine (proj1 (oversized_report_unreadable (H0 := gmapBolt) demo_terminal demo_env demo_env big_input reports0 big1.1.1 big1.2
      big_report big_event doc demo_terminal_valid demo_env_ok _ big1_eq big_compose _ Em _)).
    + discriminate.
    + rewrite big_id. vm_compute. reflexivity.
    + pose proof big_len as Hl. rewrite Em in Hl. exact (proj1 (Z.ltb_lt _ _) Hl).
  - pose proof big_len as Hl. rewrite Em in Hl. discriminate Hl.
Defined.
