(* ===== verification/Evidence.v ===== *)
(** The evidence collector (src/internal/evidence/evidence.go): local records
    are cut to a time range, to the configured fields and to a number of lines
    and bytes, and every value is redacted before it leaves the collector.

    A record's fields and the configured names are maps and sets; Go's random
    iteration order does not show, because the rendered fields are sorted and a
    value that cannot be redacted fails the record whichever comes first.  The
    evidence ID and the clock are inputs of a call; telemetry is left out. *)
From S2P Require Import Prelude GoLib GoTime Sha256 Json Contract ContractFacts Store Redaction AuditChain GoText.
From stdpp Require Import options.
Local Open Scope Z_scope.

Definition evidence_error := mkError "evidence".
Definition ErrInvalidOptions := evidence_error "invalid evidence collector options".
Definition ErrRedactionFailed := evidence_error "evidence redaction failed".

(** * Data *)

Record EvidenceRef := mkEvidenceRef {
  er_SchemaVersion : string;
  er_EvidenceID : string;
  er_SourceType : string;
  er_CollectorID : string;
  er_Start : time;
  er_End : time;
  er_RedactionProfile : string;
  er_Digest : string;
  er_ByteCount : Z;
  er_RetentionUntil : time;
}.
Definition EvidenceRef_zero : EvidenceRef := mkEvidenceRef "" "" "" "" 0 0 "" "" 0 0.

Record record := mkRecord { rc_At : time; rc_Fields : gmap string string }.

Record Result := mkResult { rs_Reference : EvidenceRef; rs_Content : string; rs_RedactionFailed : bool }.
Definition Result_zero : Result := mkResult EvidenceRef_zero "" false.

Record Collector := mkCollector {
  cl_allowed : gset string;
  cl_maxLines : Z;
  cl_maxBytes : Z;
  cl_retention : duration;
}.

(** What one call draws from outside. *)
Record surroundings := mkSurroundings { ce_id : result string; ce_now : time }.

(** * Operations *)

Definition NewCollector (allowedFields : list string) (maxLines maxBytes : Z) (retention : duration) : result Collector :=
  if (go_count allowedFields =? 0) || (maxLines <? 1) || (maxBytes <? 1) || (retention <? minute) then Fail ErrInvalidOptions
  else if existsb (String.eqb "") allowedFields then Fail ErrInvalidOptions
  else Ok (mkCollector (list_to_set allowedFields) maxLines maxBytes retention).

(** The fields of a record that are configured, each redacted. *)
Fixpoint redact_fields (keys : list string) (fields : gmap string string) : option (list string) :=
  match keys with
  | [] => Some []
  | key :: keys =>
    match fields !! key with
    | None => redact_fields keys fields
    | Some value =>
      let '(redacted, ok) := Redact value in
      if ok then cons (String.append key (String.append "=" redacted)) <$> redact_fields keys fields else None
    end
  end.

Definition redactRecord (c : Collector) (fields : gmap string string) : option string :=
  (fun values => join " " (sort_strings values)) <$> redact_fields (elements (cl_allowed c)) fields.

Definition outside (start finish : time) (r : record) : bool := before (rc_At r) start || after (rc_At r) finish.

(** The loop of [Collect]: the lines kept so far and their size. *)
Fixpoint collect_lines (c : Collector) (start finish : time) (records : list record) (lines : list string) (size : Z) :
    result (list string) :=
  match records with
  | [] => Ok lines
  | r :: records =>
    if outside start finish r then collect_lines c start finish records lines size
    else if go_count lines =? cl_maxLines c then Ok lines
    else
      match redactRecord c (rc_Fields r) with
      | None => Fail ErrRedactionFailed
      | Some line =>
        if String.eqb line "" then collect_lines c start finish records lines size
        else
          let additionalBytes := if 0 <? go_count lines then go_len line + 1 else go_len line in
          if cl_maxBytes c <? size + additionalBytes then Ok lines
          else collect_lines c start finish records (lines ++ [line])%list (size + additionalBytes)
      end
  end.

Definition newline : string := String (of_byte 10) EmptyString.

Definition Collect (c : Collector) (env : surroundings) (source profile : string) (start finish : time)
    (records : list record) : Result * option error :=
  if String.eqb source "" || String.eqb profile "" || ContainsSensitive source || ContainsSensitive profile ||
     is_zero start || is_zero finish || before finish start
  then (Result_zero, Some ErrInvalidOptions)
  else
    match collect_lines c start finish records [] 0 with
    | Fail _ => (mkResult EvidenceRef_zero "" true, Some ErrRedactionFailed)
    | Ok lines =>
      let content := join newline lines in
      match ce_id env with
      | Fail _ => (Result_zero, Some ErrInvalidOptions)
      | Ok id =>
        if String.eqb id "" || ContainsSensitive id then (Result_zero, Some ErrInvalidOptions)
        else if is_zero (ce_now env) then (Result_zero, Some ErrInvalidOptions)
        else
          (mkResult (mkEvidenceRef SchemaVersionV1 id source "local" (utc start) (utc finish) profile (sha256_hex content)
             (go_len content) (time_add (ce_now env) (cl_retention c))) content false, None)
      end
    end.

(** * Facts *)

Record valid_collector (c : Collector) : Prop := {
  vc_fields : "" ∉ cl_allowed c;
  vc_lines : 1 <= cl_maxLines c;
  vc_bytes : 1 <= cl_maxBytes c;
  vc_retention : minute <= cl_retention c;
}.

Lemma NewCollector_valid fields lines bytes retention c :
  NewCollector fields lines bytes retention = Ok c -> valid_collector c.
Proof.
  unfold NewCollector. case_match eqn:E1; [done|]. case_match eqn:E2; [done|]. intros [= <-]. bool_prop.
  split; cbn; try lia. rewrite elem_of_list_to_set. intros Hin%list_elem_of_In.
  assert (existsb (String.eqb "") fields = true) by (apply existsb_exists; eauto using String.eqb_refl). congruence.
Qed.

(** The size the loop counts is the length of the joined lines. *)
Lemma join_size lines line :
  go_len (join newline (lines ++ [line])%list) =
    go_len (join newline lines) + (if 0 <? go_count lines then go_len line + 1 else go_len line).
Proof.
  destruct lines as [|l lines]; [done|]. rewrite join_snoc, !go_len_app by done.
  unfold go_count. cbn [length]. destruct (Z.ltb_spec 0 (Z.of_nat (S (length lines)))); [|lia].
  change (go_len newline) with 1. lia.
Qed.

(** A line: some of the configured fields in order of their text, each with a
    redacted value. *)
Definition redacted_field (c : Collector) (fields : gmap string string) (part : string) : Prop :=
  exists key value redacted, key ∈ cl_allowed c /\ fields !! key = Some value /\ Redact value = (redacted, true) /\
    ContainsSensitive redacted = false /\ part = String.append key (String.append "=" redacted).

Lemma Redact_clean value redacted : Redact value = (redacted, true) -> ContainsSensitive redacted = false.
Proof. unfold Redact. case_match; [done|]. cbv zeta. case_match eqn:E; [done|]. intros [= <-]. done. Qed.

Lemma redact_fields_ok c keys fields parts :
  (forall key, key ∈ keys -> key ∈ cl_allowed c) -> redact_fields keys fields = Some parts ->
  Forall (redacted_field c fields) parts.
Proof.
  revert parts. induction keys as [|key keys IH]; intros parts Hk; cbn; [intros [= <-]; constructor|].
  destruct (fields !! key) as [value|] eqn:Ef; [|apply IH; set_solver].
  destruct (Redact value) as [redacted ok] eqn:Er. destruct ok; [|done].
  intros (rest & Hr & ->)%fmap_Some. constructor; [|apply IH; [set_solver|done]].
  exists key, value, redacted. split_and!; [set_solver|done|done|by eapply Redact_clean|done].
Qed.

Lemma redactRecord_ok c fields line :
  redactRecord c fields = Some line ->
  exists parts, line = join " " parts /\ Sorted String.le parts /\ Forall (redacted_field c fields) parts.
Proof.
  unfold redactRecord. intros (values & Hv & ->)%fmap_Some. exists (sort_strings values). split_and!; [done| |].
  - apply Sorted_merge_sort. intros a b. apply String.le_total.
  - unfold sort_strings. rewrite merge_sort_Permutation. eapply redact_fields_ok; [|done]. intros key. by rewrite elem_of_elements.
Qed.

(** The part of the records the loop reads: [used] are the records it redacted,
    [rest] those it never looked at. *)
Definition eligible (start finish : time) (records : list record) : list record :=
  List.filter (fun r => negb (outside start finish r)) records.
Definition rendered (c : Collector) (used : list record) : option (list string) :=
  mapM (fun r => redactRecord c (rc_Fields r)) used.
Definition nonempty (lines : list string) : list string := List.filter (fun line => negb (String.eqb line "")) lines.
Definition fits (c : Collector) (lines : list string) : Prop :=
  go_count lines <= cl_maxLines c /\ go_len (join newline lines) <= cl_maxBytes c.

(** Why the loop stopped before [rest]. *)
Definition full (c : Collector) (lines : list string) (rest : list record) : Prop :=
  match rest with
  | [] => True
  | r :: _ =>
    go_count lines = cl_maxLines c \/
    exists line, redactRecord c (rc_Fields r) = Some line /\ line <> "" /\ ~ fits c (lines ++ [line])%list
  end.

Lemma collect_lines_ok c start finish records lines size out :
  size = go_len (join newline lines) -> fits c lines ->
  collect_lines c start finish records lines size = Ok out ->
  exists used rest new, eligible start finish records = (used ++ rest)%list /\ rendered c used = Some new /\
    out = (lines ++ nonempty new)%list /\ fits c out /\ full c out rest.
Proof.
  revert lines size. induction records as [|r records IH]; intros lines size Hs Hf; cbn [collect_lines].
  { intros [= <-]. exists [], [], []. cbn. by rewrite app_nil_r. }
  unfold eligible. cbn [List.filter]. fold (eligible start finish records).
  destruct (outside start finish r); cbn [negb]; [by apply IH|].
  destruct (Z.eqb_spec (go_count lines) (cl_maxLines c)) as [El|El].
  { intros [= <-]. exists [], (r :: eligible start finish records), []. cbn [nonempty List.filter app]. rewrite app_nil_r. split_and!; try done. by left. }
  destruct (redactRecord c (rc_Fields r)) as [line|] eqn:Er; [|done].
  destruct (String.eqb_spec line "") as [->|Hne].
  { intros (used & rest & new & He & Hr & -> & Hfit & Hfull)%IH; [|done|done].
    exists (r :: used), rest, ("" :: new). rewrite He. unfold rendered in *. cbn [mapM]. rewrite Er. cbn. by rewrite Hr. }
  rewrite Hs, <- join_size. destruct (Z.ltb_spec (cl_maxBytes c) (go_len (join newline (lines ++ [line])))) as [Hb|Hb].
  { intros [= <-]. exists [], (r :: eligible start finish records), []. cbn [nonempty List.filter app]. rewrite app_nil_r. split_and!; try done.
    right. exists line. split_and!; [done|done|]. unfold fits. lia. }
  intros (used & rest & new & He & Hr & -> & Hfit & Hfull)%IH; [|done|].
  - exists (r :: used), rest, (line :: new). rewrite He. unfold rendered, nonempty in *. cbn [mapM List.filter]. rewrite Er. cbn.
    rewrite Hr. apply String.eqb_neq in Hne as ->. cbn [negb]. rewrite <- app_assoc in *. done.
  - destruct Hf as [Hc _]. split; [|done]. unfold go_count in *. rewrite length_app. cbn. lia.
Qed.

Lemma collect_lines_fail c start finish records lines size e :
  collect_lines c start finish records lines size = Fail e ->
  e = ErrRedactionFailed /\ exists r, r ∈ eligible start finish records /\ redactRecord c (rc_Fields r) = None.
Proof.
  revert lines size. induction records as [|r records IH]; intros lines size; cbn [collect_lines]; [done|].
  unfold eligible. cbn [List.filter]. fold (eligible start finish records).
  destruct (outside start finish r); cbn [negb]; [by apply IH|].
  case_match; [done|]. destruct (redactRecord c (rc_Fields r)) as [line|] eqn:Er.
  - intros Hl. assert (Ht : exists lines size, collect_lines c start finish records lines size = Fail e).
    { revert Hl. case_match; [by eauto|]. case_match; [done|]. by eauto. }
    destruct Ht as (lines' & size' & (-> & r' & Hin & Hr)%IH). split; [done|]. exists r'. split; [by constructor|done].
  - intros [= <-]. split; [done|]. exists r. split; [constructor|done].
Qed.

(** C22: what a successful collection returns: the longest prefix of the records
    in the time range whose rendered lines keep within the line and byte
    limits, every line made of configured fields with redacted values only, and
    a reference with the digest and size of exactly that content. *)
Theorem Collect_bounded c env source profile start finish records res :
  valid_collector c -> Collect c env source profile start finish records = (res, None) ->
  exists used rest lines,
    eligible start finish records = (used ++ rest)%list /\ rendered c used = Some lines /\
    rs_Content res = join newline (nonempty lines) /\ fits c (nonempty lines) /\ full c (nonempty lines) rest /\
    (forall line, line ∈ lines -> exists r parts, r ∈ used /\ line = join " " parts /\ Sorted String.le parts /\
       Forall (redacted_field c (rc_Fields r)) parts) /\
    er_Digest (rs_Reference res) = sha256_hex (rs_Content res) /\
    er_ByteCount (rs_Reference res) = go_len (rs_Content res) /\
    er_RetentionUntil (rs_Reference res) = ce_now env + cl_retention c.
Proof.
  intros V. unfold Collect. case_match eqn:Eg; [done|]. destruct (collect_lines _ _ _ _ _ _) as [out|] eqn:El; [|done].
  destruct (ce_id env) as [id|]; [|done]. case_match; [done|]. case_match; [done|]. intros [= <-].
  apply collect_lines_ok in El as (used & rest & new & He & Hr & -> & Hfit & Hfull); [|done|].
  2: { destruct V. unfold fits, go_count, go_len. cbn. lia. }
  exists used, rest, new. split_and!; try done. intros line Hin. apply mapM_Some in Hr.
  apply list_elem_of_lookup in Hin as [i Hi]. destruct (Forall2_lookup_r _ _ _ _ _ Hr Hi) as (r & Hr' & Hl).
  apply redactRecord_ok in Hl as (parts & -> & Hs & Hf). exists r, parts. split_and!; try done. by eapply list_elem_of_lookup_2.
Qed.

(** A failed collection releases nothing: it returns an empty content and no
    reference, and reports a redaction failure exactly when a record it had to
    read could not be redacted. *)
Lemma Collect_fails_closed c env source profile start finish records res e :
  Collect c env source profile start finish records = (res, Some e) ->
  rs_Content res = "" /\ rs_Reference res = EvidenceRef_zero /\
  (rs_RedactionFailed res = true <-> e = ErrRedactionFailed) /\
  (e = ErrRedactionFailed -> exists r, r ∈ eligible start finish records /\ redactRecord c (rc_Fields r) = None).
Proof.
  unfold Collect. case_match eqn:Eg; [by intros [= <- <-]|].
  destruct (collect_lines _ _ _ _ _ _) as [out|e'] eqn:El.
  - destruct (ce_id env) as [id|]; [|by intros [= <- <-]]. case_match; [by intros [= <- <-]|].
    case_match; [by intros [= <- <-]|done].
  - intros [= <- <-]. apply collect_lines_fail in El as [_ H]. done.
Qed.

(** * Examples *)

Definition demo_time : time := 738000 * 86400 * second.
Definition demo_collector : Collector := mkCollector {["level"; "message"]} 2 64 hour.
Definition demo_record (text : string) : record := mkRecord demo_time {["message" := text; "host" := "db-1"]}.
Definition demo_collect (records : list record) : Result * option error :=
  Collect demo_collector (mkSurroundings (Ok "evidence-1") demo_time) "docker" "standard" demo_time demo_time records.
Definition demo_records : list record :=
  [demo_record "started"; mkRecord 1 {["message" := "old"]}; demo_record "password=hunter2"; demo_record "third"].


Definition demo_content : string := String.append "message=started" (String (of_byte 10) "message=password=[REDACTED]").
Lemma demo_collected : rs_Content (demo_collect demo_records).1 = demo_content /\ (demo_collect demo_records).2 = None.
Proof. vm_compute. split; reflexivity. Qed.
Lemma demo_collector_valid : valid_collector demo_collector.
Proof. split; [by vm_compute|done..]. Qed.

Lemma collected (out : Result * option error) err : out.2 = err -> out = (out.1, err).
Proof. destruct out. by intros <-. Qed.

Lemma Collect_bounded_witness :
  exists lines, rs_Content (demo_collect demo_records).1 = join newline (nonempty lines) /\ fits demo_collector (nonempty lines).
Proof.
  destruct (Collect_bounded demo_collector (mkSurroundings (Ok "evidence-1") demo_time) "docker" "standard" demo_time demo_time
    demo_records (demo_collect demo_records).1 demo_collector_valid (collected _ _ (proj2 demo_collected)))
    as (used & rest & lines & _ & _ & Hc & Hf & _).
  exact (ex_intro _ lines (conj Hc Hf)).
Defined.

(** A value that stays sensitive fails the whole collection. *)
Definition bad_records : list record := [demo_record "started"; demo_record "password="].
Lemma demo_failed : (demo_collect bad_records).2 = Some ErrRedactionFailed.
Proof. vm_compute. reflexivity. Qed.
Lemma Collect_fails_closed_witness : rs_Content (demo_collect bad_records).1 = "".
Proof.
  exact (proj1 (Collect_fails_closed demo_collector (mkSurroundings (Ok "evidence-1") demo_time) "docker" "standard" demo_time
    demo_time bad_records (demo_collect bad_records).1 ErrRedactionFailed (collected _ _ demo_failed))).
Defined.
