(* ===== verification/Docker.v ===== *)
(** The bounded Docker adapter (src/internal/docker/adapter.go): the registered
    selector of a target is resolved to exactly one container, which is the
    only thing the adapter reads or restarts.

    The engine is behind the interface [Client], whose calls may answer
    anything and change the engine in any way; [DockerLaws] states what the
    engine's documentation says of them.  An operation takes and returns the
    adapter's one piece of state, whether the API version has been negotiated,
    together with the engine.  The request context is read through
    [context_error] after a failed call; telemetry is left out. *)
From S2P Require Import Prelude GoLib GoTime Sha256 Json Contract ContractFacts Store Redaction AuditChain GoText Journal Target Evidence Observer.
From Stdlib Require Import SpecFloat.
From stdpp Require Import options.
Local Open Scope Z_scope.

Definition AdapterType : string := "docker".
Definition composeServiceLabel : string := "com.docker.compose.service".

Definition docker_error := mkError "docker".
Definition ErrInvalidOptions := docker_error "invalid docker adapter options".
Definition ErrInvalidTarget := docker_error "invalid docker target".
Definition ErrAmbiguousTarget := docker_error "ambiguous docker target".
Definition ErrPrecondition := docker_error "docker action precondition failed".
Definition ErrUnsafeAction := docker_error "unsafe docker action".
Definition ErrUnavailable := docker_error "docker engine unavailable".
Definition ErrTimeout := docker_error "docker request timed out".
Definition context_DeadlineExceeded := mkError "context" "context deadline exceeded".
Definition context_Canceled := mkError "context" "context canceled".

(** * Data *)

Record Container := mkContainer { ct_ID : string; ct_Running : bool; ct_Health : string; ct_Labels : gmap string string }.

(** A log stream: what it delivers, and the error it then breaks off with. *)
Record stream := mkStream { st_contents : string; st_failure : option error }.

Class Client := {
  engine : Type;
  NegotiateAPIVersion : engine -> option error * engine;
  Inspect : string -> engine -> result Container * engine;
  ListByLabel : string -> string -> engine -> result (list Container) * engine;
  Logs : string -> engine -> result stream * engine;
  Restart : string -> duration -> engine -> option error * engine;
  context_error : engine -> option error;
}.

Record Adapter := mkAdapter { ad_evidence : Collector; ad_maxLogBytes : Z; ad_timeout : duration }.

Definition NewAdapter (evidence : Collector) (maxLogBytes : Z) (timeout : duration) : result Adapter :=
  if (maxLogBytes <? 1) || (timeout <? millisecond) then Fail ErrInvalidOptions
  else Ok (mkAdapter evidence maxLogBytes timeout).

(** * Selectors and actions *)

Definition selector_rune (first : bool) (r : Z) : bool :=
  is_lower r || is_upper r || is_digit r || (negb first && ((r =? 46) || (r =? 95) || (r =? 45))).

Definition validSelectorValue (value : string) : bool :=
  if String.eqb value "" || (96 <? go_len value) || contains_str ".." value then false
  else match map fst (runes value) with
       | [] => true
       | first :: rest => selector_rune true first && forallb (selector_rune false) rest
       end.

Definition selector (target : ServiceTarget) : option (string * string) :=
  if negb (String.eqb (tgt_SchemaVersion target) SchemaVersionV1) ||
     negb (String.eqb (tgt_AdapterType target) AdapterType) || negb (tgt_Enabled target)
  then None
  else match cut_byte 58 (tgt_Selector target) with
       | None => None
       | Some (kind, value) =>
         if negb (validSelectorValue value) ||
            (negb (String.eqb kind "container") && negb (String.eqb kind "compose_service"))
         then None else Some (kind, value)
       end.

Definition validAction (target : ServiceTarget) (action : TypedAction) : result unit :=
  match selector target with
  | None => Fail ErrUnsafeAction
  | Some (kind, _) =>
    if negb (String.eqb (act_TargetSelector action) (tgt_Selector target)) || (act_StopTimeout action <? 0) ||
       (act_Cooldown action <? 0)
    then Fail ErrUnsafeAction
    else if (String.eqb kind "container" && negb (String.eqb (act_ActionType action) ActionDockerContainerRestart)) ||
            (String.eqb kind "compose_service" && negb (String.eqb (act_ActionType action) ActionDockerComposeServiceRestart))
    then Fail ErrUnsafeAction
    else Ok tt
  end.

Definition snapshot (targetID : string) (container : Container) : DockerSnapshot :=
  mkDockerSnapshot targetID (ct_Running container)
    (ct_Running container && negb (String.eqb (ct_Health container) "unhealthy")).

Definition mapError (context : option error) (err : error) : error :=
  if decide (err = context_DeadlineExceeded \/ context = Some context_DeadlineExceeded) then ErrTimeout
  else if decide (err = context_Canceled \/ context = Some context_Canceled) then context_Canceled
  else ErrUnavailable.

Definition logLimit (a : Adapter) (target : ServiceTarget) : Z :=
  let max := ep_MaxBytes (tgt_EvidencePolicy target) in
  if (0 <? max) && (max <? ad_maxLogBytes a) then max else ad_maxLogBytes a.

(** [io.ReadAll(io.LimitReader(stream, limit))]: the stream's failure is only
    met when it delivers less than the limit. *)
Definition read_all (limit : Z) (s : stream) : result string :=
  if limit <=? go_len (st_contents s) then Ok (of_bytes (take (Z.to_nat limit) (bytes (st_contents s))))
  else match st_failure s with Some err => Fail err | None => Ok (st_contents s) end.

(** * Operations *)

Section Operations.
Context `{Client}.

Record world := mkWorld { wd_negotiated : bool; wd_engine : engine }.

(** A fallible operation, whose effects stay when it fails. *)
Definition call (A : Type) : Type := world -> result A * world.
Definition ret {A} (r : result A) : call A := fun w => (r, w).
Definition bind {A B} (m : call A) (f : A -> call B) : call B := fun w =>
  match m w with
  | (Ok a, w) => f a w
  | (Fail e, w) => (Fail e, w)
  end.
(** A call of the engine, with its error mapped. *)
Definition request {A} (f : engine -> result A * engine) : call A := fun w =>
  let '(r, e) := f (wd_engine w) in
  (match r with Ok a => Ok a | Fail err => Fail (mapError (context_error e) err) end, mkWorld (wd_negotiated w) e).
Definition as_result (f : engine -> option error * engine) (e : engine) : result unit * engine :=
  let '(err, e) := f e in (match err with Some err => Fail err | None => Ok tt end, e).

Definition negotiate : call unit := fun w =>
  if wd_negotiated w then (Ok tt, w)
  else match request (as_result NegotiateAPIVersion) w with
       | (Ok _, w) => (Ok tt, mkWorld true (wd_engine w))
       | (Fail e, w) => (Fail e, w)
       end.

Definition resolve (target : ServiceTarget) : call Container :=
  match selector target with
  | None => ret (Fail ErrInvalidTarget)
  | Some (kind, value) =>
    bind negotiate (fun _ =>
    if String.eqb kind "container" then
      bind (request (Inspect value)) (fun container =>
      if String.eqb (ct_ID container) "" then ret (Fail ErrAmbiguousTarget) else ret (Ok container))
    else
      bind (request (ListByLabel composeServiceLabel value)) (fun containers =>
      match containers with
      | [container] =>
        if String.eqb (ct_ID container) "" ||
           negb (String.eqb (default "" (ct_Labels container !! composeServiceLabel)) value)
        then ret (Fail ErrAmbiguousTarget) else ret (Ok container)
      | _ => ret (Fail ErrAmbiguousTarget)
      end))
  end.

Definition Discover (target : ServiceTarget) : call DockerSnapshot :=
  bind (resolve target) (fun container => ret (Ok (snapshot (tgt_TargetID target) container))).

Definition Observe (target : ServiceTarget) (rule : ProbeRule) : call (gmap string float64) :=
  if negb (String.eqb (pr_SignalType rule) "availability") then ret (Fail ErrInvalidTarget)
  else
    bind (Discover target) (fun state =>
    ret (Ok {["availability" := if ds_Healthy state then float_of 1 else float_of 0]})).

Definition Verify (target : ServiceTarget) : call DockerSnapshot := Discover target.

Definition validatedContainer (target : ServiceTarget) (action : TypedAction) : call Container :=
  match validAction target action with
  | Fail e => ret (Fail e)
  | Ok _ =>
    bind (resolve target) (fun container =>
    if negb (ct_Running container) then ret (Fail ErrPrecondition) else ret (Ok container))
  end.

Definition ValidateAction (target : ServiceTarget) (action : TypedAction) : call unit :=
  bind (validatedContainer target action) (fun _ => ret (Ok tt)).

Definition Execute (target : ServiceTarget) (action : TypedAction) : call unit :=
  bind (validatedContainer target action) (fun container =>
  request (as_result (Restart (ct_ID container) (act_StopTimeout action)))).

(** The records of a log: one per line that is not empty. *)
Definition log_records (now : time) (contents : string) : list record :=
  map (fun line => mkRecord now {["message" := line]})
    (List.filter (fun line => negb (String.eqb line "")) (split_byte 10 contents)).

Definition CollectEvidence (a : Adapter) (env : surroundings) (now : time) (target : ServiceTarget) :
    call Evidence.Result :=
  bind (resolve target) (fun container =>
  bind (request (Logs (ct_ID container))) (fun s w =>
  match read_all (logLimit a target) s with
  | Fail err => (Fail (mapError (context_error (wd_engine w)) err), w)
  | Ok contents =>
    if is_zero now then (Fail ErrInvalidOptions, w)
    else
      match Collect (ad_evidence a) env "docker" (ep_RedactionProfile (tgt_EvidencePolicy target)) now now
              (log_records now contents) with
      | (result, None) => (Ok result, w)
      | (_, Some err) => (Fail err, w)
      end
  end)).
End Operations.

(** * The calls of an operation

    [reads]: only calls that look something up. *)
Section Calls.
Context `{Client}.

Inductive reads : engine -> engine -> Prop :=
| reads_none e : reads e e
| reads_negotiate e e' : reads (NegotiateAPIVersion e).2 e' -> reads e e'
| reads_inspect value e e' : reads (Inspect value e).2 e' -> reads e e'
| reads_list key value e e' : reads (ListByLabel key value e).2 e' -> reads e e'.

#[export] Instance reads_trans : Transitive reads.
Proof. intros e e' e''. induction 1; eauto using reads. Qed.

(** The answer by which the engine identified the container of a target. *)
Definition identified (target : ServiceTarget) (c : Container) (e e' : engine) : Prop :=
  ct_ID c <> "" /\
  ((exists value, selector target = Some ("container", value) /\ Inspect value e = (Ok c, e')) \/
   (exists value, selector target = Some ("compose_service", value) /\
      ct_Labels c !! composeServiceLabel = Some value /\ ListByLabel composeServiceLabel value e = (Ok [c], e'))).

Lemma selector_cases target kind value :
  selector target = Some (kind, value) ->
  (kind = "container" \/ kind = "compose_service") /\ validSelectorValue value = true /\ value <> "" /\
  tgt_Enabled target = true /\ tgt_AdapterType target = AdapterType /\
  cut_byte 58 (tgt_Selector target) = Some (kind, value).
Proof.
  unfold selector. case_match eqn:Eg; [done|]. destruct (cut_byte _ _) as [[k v]|]; [|done]. case_match eqn:Ek; [done|].
  intros [= -> ->]. apply orb_false_iff in Eg as [[_ Ha]%orb_false_iff He]. apply orb_false_iff in Ek as [Hv Hk].
  rewrite negb_false_iff in *. apply String.eqb_eq in Ha. split_and!; try done.
  - destruct (String.eqb_spec kind "container"); [by left|]. destruct (String.eqb_spec kind "compose_service"); [by right|]. done.
  - intros ->. done.
Qed.

Lemma negotiate_reads w r w' : negotiate w = (r, w') -> reads (wd_engine w) (wd_engine w').
Proof.
  unfold negotiate, request, as_result. destruct (wd_negotiated w); [intros [= <- <-]; constructor|].
  pose proof (reads_negotiate (wd_engine w) (NegotiateAPIVersion (wd_engine w)).2 (reads_none _)) as Hr.
  destruct (NegotiateAPIVersion (wd_engine w)) as [[err|] e]; intros [= <- <-]; done.
Qed.

Lemma resolve_cases target w r w' :
  resolve target w = (r, w') ->
  (reads (wd_engine w) (wd_engine w') /\ exists e, r = Fail e) \/
  (exists c e, r = Ok c /\ reads (wd_engine w) e /\ identified target c e (wd_engine w')).
Proof.
  unfold resolve. destruct (selector target) as [[kind value]|] eqn:Es.
  2: { intros [= <- <-]. left. split; [constructor|by eexists]. }
  apply selector_cases in Es as Hs. destruct Hs as (Hk & _ & Hne & _). unfold bind at 1.
  destruct (negotiate w) as [[u|err] w1] eqn:En; apply negotiate_reads in En.
  2: { intros [= <- <-]. left. split; [done|by eexists]. }
  destruct (String.eqb_spec kind "container") as [->|Hc].
  - unfold bind, request. pose proof (reads_inspect value (wd_engine w1) _ (reads_none _)) as Hr.
    destruct (Inspect value (wd_engine w1)) as [[c|err] e] eqn:Ei; cbn [snd] in Hr;
      [|intros [= <- <-]; left; split; [by etrans|by eexists]].
    destruct (String.eqb_spec (ct_ID c) "") as [Hid|Hid]; intros [= <- <-]; [left; split; [by etrans|by eexists]|].
    right. exists c, (wd_engine w1). split_and!; [done|done|]. split; [done|]. left. by exists value.
  - destruct Hk as [Hk|Hk]; [done|subst kind]. unfold bind, request.
    pose proof (reads_list composeServiceLabel value (wd_engine w1) _ (reads_none _)) as Hr.
    destruct (ListByLabel composeServiceLabel value (wd_engine w1)) as [[cs|err] e] eqn:Ei; cbn [snd] in Hr;
      [|intros [= <- <-]; left; split; [by etrans|by eexists]].
    assert (Hrest : reads (wd_engine w) e) by by etrans.
    destruct cs as [|c cs]; [intros [= <- <-]; left; split; [done|by eexists]|].
    destruct cs as [|c' cs]; [|intros [= <- <-]; left; split; [done|by eexists]].
    destruct (String.eqb (ct_ID c) "" || _) eqn:Eg; intros [= <- <-]; [left; split; [done|by eexists]|].
    apply orb_false_iff in Eg as [Hid%String.eqb_neq Hl]. apply negb_false_iff, String.eqb_eq in Hl.
    right. exists c, (wd_engine w1). split_and!; [done|done|]. split; [done|]. right. exists value. split_and!; [done| |done].
    destruct (ct_Labels c !! composeServiceLabel); cbn in Hl; congruence.
Qed.

(** When a container has been found the operation restarts it, once. *)
Lemma Execute_cases target action w r w' :
  Execute target action w = (r, w') ->
  (reads (wd_engine w) (wd_engine w') /\ exists e, r = Fail e) \/
  (exists c e e1 err,
     validAction target action = Ok tt /\ reads (wd_engine w) e /\ identified target c e e1 /\ ct_Running c = true /\
     Restart (ct_ID c) (act_StopTimeout action) e1 = (err, wd_engine w') /\
     r = match err with None => Ok tt | Some err => Fail (mapError (context_error (wd_engine w')) err) end).
Proof.
  unfold Execute, validatedContainer, bind at 1. destruct (validAction target action) as [[]|err] eqn:Ea.
  2: { intros [= <- <-]. left. split; [constructor|by eexists]. }
  unfold bind. destruct (resolve target w) as [[c|err] w1] eqn:Er.
  2: { intros [= <- <-]. apply resolve_cases in Er as [[Hr _]|(? & ? & ? & _)]; [|done]. left. split; [done|by eexists]. }
  apply resolve_cases in Er as [[_ [? ?]]|(c' & e & [= <-] & Hr & Hi)]; [done|].
  assert (Hrest : reads (wd_engine w) (wd_engine w1)).
  { etrans; [exact Hr|]. destruct Hi as (_ & [(value & _ & Hi)|(value & _ & _ & Hi)]).
    - apply (reads_inspect value). rewrite Hi. constructor.
    - apply (reads_list composeServiceLabel value). rewrite Hi. constructor. }
  destruct (ct_Running c) eqn:Erun; cbn [negb ret].
  2: { intros [= <- <-]. left. split; [done|by eexists]. }
  unfold request, as_result. destruct (Restart _ _ _) as [err e2] eqn:Ex. intros [= <- <-].
  right. exists c, e, (wd_engine w1), err. cbn. split_and!; try done. by destruct err.
Qed.
End Calls.

(** * Every call in a log

    [traced] is any client together with the log of its calls and answers. *)
Inductive engine_call :=
| CallNegotiate
| CallInspect (value : string) (answer : result Container)
| CallList (key value : string) (answer : result (list Container))
| CallLogs (id : string)
| CallRestart (id : string) (timeout : duration) (answer : option error).

Definition traced (C : Client) : Client := {|
  engine := engine * list engine_call;
  NegotiateAPIVersion s := let '(err, e) := NegotiateAPIVersion s.1 in (err, (e, s.2 ++ [CallNegotiate])%list);
  Inspect value s := let '(r, e) := Inspect value s.1 in (r, (e, s.2 ++ [CallInspect value r])%list);
  ListByLabel key value s :=
    let '(r, e) := ListByLabel key value s.1 in (r, (e, s.2 ++ [CallList key value r])%list);
  Logs id s := let '(r, e) := Logs id s.1 in (r, (e, s.2 ++ [CallLogs id])%list);
  Restart id timeout s :=
    let '(err, e) := Restart id timeout s.1 in (err, (e, s.2 ++ [CallRestart id timeout err])%list);
  context_error s := context_error s.1;
|}.

Definition log_of {C} (s : @engine (traced C)) : list engine_call := snd (s : @engine C * list engine_call).

Definition restarts (log : list engine_call) : list (string * duration) :=
  omap (fun c => match c with CallRestart id timeout _ => Some (id, timeout) | _ => None end) log.

(** The last lookup of a log is the answer that identified the container. *)
Definition found_by (target : ServiceTarget) (c : Container) (log : list engine_call) : Prop :=
  exists value, (selector target = Some ("container", value) /\ last log = Some (CallInspect value (Ok c))) \/
    (selector target = Some ("compose_service", value) /\ ct_Labels c !! composeServiceLabel = Some value /\
     last log = Some (CallList composeServiceLabel value (Ok [c]))).

Section Traced.
Context (C : Client).

Lemma restarts_app l l' : restarts (l ++ l') = (restarts l ++ restarts l')%list.
Proof. apply omap_app. Qed.

Lemma traced_reads (s s' : @engine (traced C)) :
  @reads (traced C) s s' -> exists log, log_of s' = (log_of s ++ log)%list /\ restarts log = [].
Proof.
  assert (Hstep : forall (s1 s2 s3 : @engine (traced C)) x, log_of s2 = (log_of s1 ++ [x])%list -> restarts [x] = [] ->
    (exists log, log_of s3 = (log_of s2 ++ log)%list /\ restarts log = []) ->
    exists log, log_of s3 = (log_of s1 ++ log)%list /\ restarts log = []).
  { intros s1 s2 s3 x Hx Hr (log & Hlog & Hl). exists (x :: log). rewrite Hlog, Hx, <- app_assoc. split; [done|].
    change (x :: log) with ([x] ++ log)%list. by rewrite restarts_app, Hr, Hl. }
  induction 1 as [e|e e' _ IH|value e e' _ IH|key value e e' _ IH]; [exists []; by rewrite app_nil_r|..];
    destruct e as [e l]; cbn [NegotiateAPIVersion Inspect ListByLabel traced fst snd] in IH.
  - refine (Hstep _ _ _ CallNegotiate _ _ IH); [|done]. by destruct (NegotiateAPIVersion e).
  - refine (Hstep _ _ _ (CallInspect value (Inspect value e).1) _ _ IH); [|done]. by destruct (Inspect value e).
  - refine (Hstep _ _ _ (CallList key value (ListByLabel key value e).1) _ _ IH); [|done]. by destruct (ListByLabel key value e).
Qed.

(** C21: an execution restarts at most one container, whatever the engine
    answers: it looks things up and fails, or it looks things up until the
    registered selector of an enabled Docker target has identified one running
    container, and restarts exactly that one, once, for an action that matches
    the selector. *)
Theorem Execute_restarts_resolved target action (w : @world (traced C)) r w' :
  @Execute (traced C) target action w = (r, w') ->
  exists lookups rest, log_of (wd_engine w') = (log_of (wd_engine w) ++ lookups ++ rest)%list /\ restarts lookups = [] /\
    ((rest = [] /\ exists e, r = Fail e) \/
     (exists c answer, rest = [CallRestart (ct_ID c) (act_StopTimeout action) answer] /\ found_by target c lookups /\
        ct_Running c = true /\ validAction target action = Ok tt /\ tgt_Enabled target = true /\
        (is_ok r = true <-> answer = None))).
Proof.
  intros [[Hr He]|(c & e & e1 & err & Ha & Hr & (_ & Hi) & Hrun & Hx & ->)]%Execute_cases.
  - apply traced_reads in Hr as (log & -> & Hl). exists log, []. rewrite app_nil_r. split_and!; [done|done|by left].
  - apply traced_reads in Hr as (log & Hlog & Hl).
    assert (Hfound : exists x, log_of e1 = (log_of e ++ [x])%list /\ restarts [x] = [] /\ found_by target c (log ++ [x])).
    { destruct Hi as [(value & Hs & Hi)|(value & Hs & Hlab & Hi)]; cbn in Hi.
      - destruct e as [e l]. cbn in Hi. destruct (Inspect value e) as [a e']. injection Hi as -> <-. eexists. split_and!; [done|done|].
        exists value. left. by rewrite last_snoc.
      - destruct e as [e l]. cbn in Hi. destruct (ListByLabel _ value e) as [a e']. injection Hi as -> <-. eexists. split_and!; [done|done|].
        exists value. right. by rewrite last_snoc. }
    destruct Hfound as (x & Hx1 & Hx0 & Hf). destruct e1 as [e1 l1]. cbn in Hx. destruct (Restart (ct_ID c) _ e1) as [err' e2].
    injection Hx as -> Hw. rewrite <- Hw.
    exists (log ++ [x])%list, [CallRestart (ct_ID c) (act_StopTimeout action) err].
    change (log_of (e2, (l1 ++ [CallRestart (ct_ID c) (act_StopTimeout action) err])%list)) with
      (log_of (C := C) (e1, l1) ++ [CallRestart (ct_ID c) (act_StopTimeout action) err])%list.
    rewrite Hx1, Hlog, <- !app_assoc. split_and!; [done|by rewrite restarts_app, Hl, Hx0|].
    right. exists c, err. split_and!; try done.
    + unfold validAction in Ha. destruct (selector target) as [[k v]|] eqn:Es; [|done]. by apply selector_cases in Es as (_ & _ & _ & ? & _).
    + by destruct err.
Qed.
End Traced.

(** * The engine's documented behaviour *)

Class DockerLaws `{Client} := {
  containers : engine -> list Container;
  negotiate_frame e : containers (NegotiateAPIVersion e).2 = containers e;
  inspect_frame value e : containers (Inspect value e).2 = containers e;
  list_frame key value e : containers (ListByLabel key value e).2 = containers e;
  inspect_found value e c : (Inspect value e).1 = Ok c -> c ∈ containers e;
  list_all key value e cs :
    (ListByLabel key value e).1 = Ok cs -> forall c, c ∈ cs <-> c ∈ containers e /\ ct_Labels c !! key = Some value;
  restart_frame id timeout e c : ct_ID c <> id -> c ∈ containers (Restart id timeout e).2 <-> c ∈ containers e;
}.

Section Laws.
Context `{DockerLaws}.
#[local] Set Default Proof Using "Type*".

Lemma reads_frame e e' : reads e e' -> containers e' = containers e.
Proof.
  induction 1 as [| | |]; [done|..]; [by rewrite <- (negotiate_frame e)|by rewrite <- (inspect_frame value e)|
    by rewrite <- (list_frame key value e)].
Qed.

(** What an execution can touch: on an engine that works as documented
    either nothing changes, or exactly one container was selected, an existing,
    running one (and for a compose service the only one with that service's
    label), and every other container is as before. *)
Lemma Execute_touches_only_target target action w r w' :
  Execute target action w = (r, w') ->
  (containers (wd_engine w') = containers (wd_engine w) /\ is_ok r = false) \/
  (exists c value, c ∈ containers (wd_engine w) /\ ct_Running c = true /\
     (selector target = Some ("container", value) \/
      (selector target = Some ("compose_service", value) /\
       forall c', c' ∈ containers (wd_engine w) -> ct_Labels c' !! composeServiceLabel = Some value -> c' = c)) /\
     forall c', ct_ID c' <> ct_ID c -> c' ∈ containers (wd_engine w') <-> c' ∈ containers (wd_engine w)).
Proof.
  intros [[Hr [e ->]]|(c & e & e1 & err & Ha & Hr & (_ & Hi) & Hrun & Hx & ->)]%Execute_cases.
  - left. split; [by apply reads_frame|done].
  - right. apply reads_frame in Hr. rewrite <- Hr.
    assert (Hframe : forall c', ct_ID c' <> ct_ID c -> c' ∈ containers (wd_engine w') <-> c' ∈ containers e1).
    { intros c' Hne. pose proof (restart_frame (ct_ID c) (act_StopTimeout action) e1 c' Hne) as Hf. by rewrite Hx in Hf. }
    destruct Hi as [(value & Hs & Hi)|(value & Hs & Hlab & Hi)].
    + pose proof (inspect_frame value e) as Hf. pose proof (inspect_found value e c) as Hin. rewrite Hi in Hf, Hin. cbn in Hf, Hin.
      rewrite Hf in Hframe. exists c, value. split_and!; [by apply Hin|done|by left|done].
    + pose proof (list_frame composeServiceLabel value e) as Hf. pose proof (list_all composeServiceLabel value e [c]) as Hall.
      rewrite Hi in Hf, Hall. cbn in Hf. specialize (Hall eq_refl). rewrite Hf in Hframe. exists c, value.
      split_and!; [by apply Hall, list_elem_of_singleton|done| |done]. right. split; [done|]. intros c' Hc Hl.
      apply list_elem_of_singleton. by apply Hall.
Qed.
End Laws.

(** * With the registry and the scheduler *)

Lemma contains_app_r sub p s : contains_str sub (String.append p s) = false -> contains_str sub s = false.
Proof.
  induction p as [|c p IH]; [done|]. intros Hc. apply IH. cbn [String.append contains_str] in Hc.
  apply orb_false_iff in Hc as [_ Hc]. exact Hc.
Qed.
Lemma cut_byte_app sep p s :
  byte_of (of_byte sep) = sep -> forallb (fun b => negb (b =? sep)) (bytes p) = true ->
  cut_byte sep (String.append p (String (of_byte sep) s)) = Some (p, s).
Proof.
  intros Hs. induction p as [|c p IH]; intros Hp.
  - change (String.append "" (String (of_byte sep) s)) with (String (of_byte sep) s). cbn -[byte_of of_byte].
    by rewrite Hs, Z.eqb_refl.
  - cbn -[byte_of] in Hp. apply andb_true_iff in Hp as [Hc%negb_true_iff Hp].
    change (String.append (String c p) (String (of_byte sep) s)) with (String c (String.append p (String (of_byte sep) s))).
    cbn -[byte_of of_byte String.append]. by rewrite Hc, IH.
Qed.

Lemma identifier_selector value :
  matches_identifier value = true -> contains_str ".." value = false -> validSelectorValue value = true.
Proof.
  intros Hm Hd. pose proof (matches_identifier_inv _ Hm) as (Hc & Hl & Hne).
  pose proof (matches_identifier_clean _ Hm) as Hclean. unfold validSelectorValue.
  rewrite (ascii_rune_values value (clean_ascii _ Hclean)), Hd, (proj2 (Z.ltb_ge _ _)) by lia.
  unfold matches_identifier in Hm. destruct (bytes value) as [|b rest]; [done|].
  apply andb_true_iff in Hm as [[Hb Hr]%andb_true_iff _].
  destruct (String.eqb_spec value "") as [->|_]; cbn [orb]; [done|]. apply andb_true_iff. split.
  - unfold selector_rune, is_alnum in *. by rewrite Hb.
  - apply forallb_forall. intros x Hx. apply (proj1 (forallb_forall _ _) Hr) in Hx. unfold selector_rune.
    unfold identifier_rest, is_alnum in Hx. cbn [negb andb]. by rewrite <- !orb_assoc in *.
Qed.

(** Every registered, enabled target has a selector the adapter accepts. *)
Lemma registered_selector r target :
  validateTarget r target = Ok tt -> tgt_Enabled target = true -> exists kind value, selector target = Some (kind, value).
Proof.
  intros Hv He. pose proof (validateTarget_ok _ _ Hv) as Hok. unfold selector.
  rewrite (to_version _ _ Hok), (to_adapter _ _ Hok), He. cbn [negb orb String.eqb].
  assert (Hd : contains_str ".." (tgt_Selector target) = false).
  { revert Hv. unfold validateTarget. pass_guard E1. destruct (rg_allowedTargets r !! _); [|done]. pass_guard E2. pass_guard E3.
    intros _. by apply orb_false_iff in E3 as [_ E3]. }
  pose proof (to_selector _ _ Hok) as Hsel. unfold matches_selector in Hsel.
  generalize dependent (tgt_Selector target). intros s Hd Hsel.
  assert (Hcut : forall kind, has_prefix (String.append kind ":") s = true ->
    matches_identifier (drop_bytes (S (String.length kind)) s) = true -> forallb (fun b => negb (b =? 58)) (bytes kind) = true ->
    cut_byte 58 s = Some (kind, drop_bytes (S (String.length kind)) s) /\
    validSelectorValue (drop_bytes (S (String.length kind)) s) = true).
  { intros kind Hp Hm Hk. pose proof (prefix_split _ _ Hp) as Es. rewrite string_app_length, Nat.add_1_r in Es.
    rewrite string_app_assoc in Es. split.
    - rewrite Es at 1. by apply cut_byte_app.
    - apply identifier_selector; [done|]. rewrite Es in Hd. by do 2 apply contains_app_r in Hd. }
  apply orb_true_iff in Hsel as [[Hp Hm]%andb_true_iff|[Hp Hm]%andb_true_iff].
  - destruct (Hcut "container" Hp Hm eq_refl) as [-> ->]. by eexists _, _.
  - destruct (Hcut "compose_service" Hp Hm eq_refl) as [-> ->]. by eexists _, _.
Qed.

(** The two values the adapter reports survive the scheduler's bounds. *)
Lemma availability_bounded value :
  value = float_of 1 \/ value = float_of 0 -> boundedValues {["availability" := value]} = {["availability" := value]}.
Proof. intros [-> | ->]; vm_compute; reflexivity. Qed.

Lemma positive_threshold rule :
  validateProbeRule rule = Ok tt -> SFltb (float_of 0) (pr_Threshold rule) = true.
Proof.
  unfold validateProbeRule. pass_guard E. intros _. repeat (apply orb_false_iff in E as [E ?]).
  destruct (pr_Threshold rule) as [[]|[]| |[] m e]; done.
Qed.

Section Verdict.
Context `{Client}.

(** The health verdict of a Docker probe: for a registered rule the sample
    the scheduler counts is a failed one exactly when the identified container
    is stopped or reports itself unhealthy, unless the rule's threshold exceeds
    the largest availability there is, 1, when every sample fails. *)
Lemma probe_verdict target rule w values w' :
  validateProbeRule rule = Ok tt -> Observe target rule w = (Ok values, w') ->
  exists c e, reads (wd_engine w) e /\ identified target c e (wd_engine w') /\
    failedSample rule (boundedValues values) =
      Some (negb (ct_Running c && negb (String.eqb (ct_Health c) "unhealthy")) || SFltb (float_of 1) (pr_Threshold rule)).
Proof.
  intros Hv. unfold Observe. destruct (String.eqb_spec (pr_SignalType rule) "availability") as [Hs|]; cbn [negb]; [|done].
  unfold Discover, bind. destruct (resolve target w) as [[c|] w1] eqn:Er; [|done]. cbn [ret snapshot ds_Healthy].
  intros [= <- <-]. apply resolve_cases in Er as [[_ [? ?]]|(c' & e & [= <-] & Hr & Hi)]; [done|].
  exists c, e. split_and!; [done|done|]. rewrite availability_bounded by (case_match; auto).
  unfold failedSample. rewrite Hs, lookup_singleton_eq. cbn [String.eqb Ascii.eqb Bool.eqb].
  destruct (ct_Running c && _); cbn [negb orb]; [done|]. by rewrite positive_threshold.
Qed.
End Verdict.

(** * Examples *)

(** An engine that holds its containers and restarts them at once. *)
#[local] Instance list_client : Client := {|
  engine := list Container;
  NegotiateAPIVersion e := (None, e);
  Inspect value e :=
    (match find_first (fun c => String.eqb (ct_ID c) value) e with Some c => Ok c | None => Fail (mkError "docker" "no such container") end, e);
  ListByLabel key value e := (Ok (List.filter (fun c => bool_decide (ct_Labels c !! key = Some value)) e), e);
  Logs id e := (Ok (mkStream "" None), e);
  Restart id timeout e :=
    (None, map (fun c => if String.eqb (ct_ID c) id then mkContainer id true "starting" (ct_Labels c) else c) e);
  context_error _ := None;
|}.
#[local] Instance list_laws : DockerLaws.
Proof.
  refine {| containers e := e |}; try done.
  - intros value e c. cbn. destruct (find_first _ e) as [c'|] eqn:Ef; intros [= <-]. by apply find_first_some in Ef as [? _].
  - intros key value e cs. cbn. intros [= <-] c. rewrite !list_elem_of_In, filter_In, bool_decide_eq_true. done.
  - intros id timeout e c Hne. cbn. rewrite list_elem_of_fmap. split.
    + intros (c' & -> & Hin). revert Hne. by destruct (String.eqb_spec (ct_ID c') id).
    + intros Hin. exists c. destruct (String.eqb_spec (ct_ID c) id); [done|]. done.
Defined.

Definition demo_docker : ServiceTarget := Target.demo_target "checkout".
Definition demo_label (service : string) : gmap string string := {[composeServiceLabel := service]}.
Definition demo_engine : list Container :=
  [mkContainer "checkout" true "unhealthy" (demo_label "checkout"); mkContainer "c2" true "healthy" (demo_label "billing")].
Definition demo_action : TypedAction := mkTypedAction ActionDockerContainerRestart (tgt_Selector demo_docker) second 0.

Definition demo_world : @world list_client := @mkWorld list_client false demo_engine.
Definition demo_executed : result unit * @world list_client := @Execute list_client demo_docker demo_action demo_world.
Example demo_restarted :
  demo_executed = (Ok tt, @mkWorld list_client true
    [mkContainer "checkout" true "starting" (demo_label "checkout"); mkContainer "c2" true "healthy" (demo_label "billing")]).
Proof. vm_compute. reflexivity. Qed.
Example demo_refused :
  (@Execute list_client demo_docker (demo_action <| act_ActionType := ActionDockerComposeServiceRestart |>) demo_world).1 =
    Fail ErrUnsafeAction /\
  (@Execute list_client (demo_docker <| tgt_Selector := "compose_service:cart" |>)
     (mkTypedAction ActionDockerComposeServiceRestart "compose_service:cart" second 0) demo_world).1 = Fail ErrAmbiguousTarget /\
  (@Execute list_client (demo_docker <| tgt_Enabled := false |>) demo_action demo_world).1 = Fail ErrUnsafeAction.
Proof. vm_compute. split_and!; reflexivity. Qed.

Lemma demo_execute : @Execute list_client demo_docker demo_action demo_world = (demo_executed.1, demo_executed.2).
Proof. by destruct (@Execute list_client demo_docker demo_action demo_world) eqn:E; unfold demo_executed; rewrite E. Qed.
Lemma Execute_touches_only_target_witness :
  exists c : Container, ct_Running c = true /\
    forall c', ct_ID c' <> ct_ID c -> c' ∈ (wd_engine demo_executed.2 : list Container) <-> c' ∈ demo_engine.
Proof.
  destruct (@Execute_touches_only_target list_client list_laws demo_docker demo_action demo_world _ _ demo_execute)
    as [[_ Hf]|(c & value & _ & Hrun & _ & Hall)].
  - vm_compute in Hf. discriminate Hf.
  - exact (ex_intro _ c (conj Hrun Hall)).
Defined.

Definition traced_world : @world (traced list_client) := @mkWorld (traced list_client) false (demo_engine, []).
Definition traced_executed : result unit * @world (traced list_client) :=
  @Execute (traced list_client) demo_docker demo_action traced_world.
Lemma traced_execute :
  @Execute (traced list_client) demo_docker demo_action traced_world = (traced_executed.1, traced_executed.2).
Proof. unfold traced_executed. by destruct (@Execute (traced list_client) demo_docker demo_action traced_world). Qed.
Example traced_log :
  restarts (log_of (wd_engine traced_executed.2)) = [("checkout", second)] /\
  length (log_of (wd_engine traced_executed.2)) = 3%nat.
Proof. vm_compute. split; reflexivity. Qed.
Lemma Execute_restarts_resolved_witness :
  exists c lookups, restarts lookups = [] /\ found_by demo_docker c lookups /\ validAction demo_docker demo_action = Ok tt.
Proof.
  destruct (Execute_restarts_resolved list_client demo_docker demo_action traced_world _ _ traced_execute)
    as (lookups & rest & _ & Hn & [[_ [e Hf]]|(c & answer & _ & Hfound & _ & Ha & _)]).
  - vm_compute in Hf. discriminate Hf.
  - exact (ex_intro _ c (ex_intro _ lookups (conj Hn (conj Hfound Ha)))).
Defined.

Definition demo_observed : result (gmap string float64) * @world list_client :=
  @Observe list_client demo_docker Target.demo_rule demo_world.
Lemma demo_observe :
  @Observe list_client demo_docker Target.demo_rule demo_world = (Ok {["availability" := float_of 0]}, demo_observed.2).
Proof. vm_compute. reflexivity. Qed.
Lemma probe_verdict_witness :
  exists c, failedSample Target.demo_rule (boundedValues {["availability" := float_of 0]}) =
    Some (negb (ct_Running c && negb (String.eqb (ct_Health c) "unhealthy")) || SFltb (float_of 1) (pr_Threshold Target.demo_rule)).
Proof.
  destruct (@probe_verdict list_client demo_docker Target.demo_rule demo_world _ _ (eq_refl (Ok tt)) demo_observe)
    as (c & e & _ & _ & Hv).
  exact (ex_intro _ c Hv).
Defined.

(** A log cut inside a character is refused as a whole. *)
Definition umlaut : string := of_bytes [195; 188].
Definition cut_adapter : Adapter := mkAdapter Evidence.demo_collector 3 second.
#[local] Instance log_client : Client := {|
  engine := list Container;
  NegotiateAPIVersion e := (None, e);
  Inspect value e := @Inspect list_client value e;
  ListByLabel key value e := @ListByLabel list_client key value e;
  Logs id e := (Ok (mkStream (String.append "ab" umlaut) None), e);
  Restart id timeout e := (None, e);
  context_error _ := None;
|}.
Lemma cut_log_refused :
  (@CollectEvidence log_client cut_adapter (mkSurroundings (Ok "evidence-1") Evidence.demo_time) Evidence.demo_time demo_docker
     (@mkWorld log_client false demo_engine)).1 = Fail Evidence.ErrRedactionFailed.
Proof. vm_compute. reflexivity. Qed.
