(* ===== verification/JsonText.v ===== *)
(** The text of a JSON tree determines the tree: [render] is injective on the
    trees of valid strings, reading an instant or a duration as the string it
    is written as.  Digests over JSON texts rest on this. *)
From S2P Require Import Prelude GoLib GoTime GoNumber Sha256 Base64 Webhook Json Contract ContractFacts AuditChain GoText.
From stdpp Require Import options.
Local Open Scope Z_scope.

(** * Runes *)

Definition scalar (r : Z) : Prop := 0 <= r <= 1114111 /\ ~ (55296 <= r <= 57343).

Lemma encode_scalar r : scalar r ->
  encode_rune r =
    if r <? 128 then [r] else if r <? 2048 then [192 + r / 64; 128 + r mod 64]
    else if r <? 65536 then [224 + r / 4096; 128 + (r / 64) mod 64; 128 + r mod 64]
    else [240 + r / 262144; 128 + (r / 4096) mod 64; 128 + (r / 64) mod 64; 128 + r mod 64].
Proof.
  intros [Hr Hs]. unfold encode_rune. destruct (_ || _) eqn:E; [|done]. exfalso.
  apply orb_true_iff in E as [[E|E]%orb_true_iff|E]; [apply Z.ltb_lt in E; lia..|].
  apply andb_true_iff in E as [E1 E2]. apply Z.leb_le in E1, E2. lia.
Qed.

(** The decoder reads an encoded rune back, whatever follows. *)
Lemma decode_encode r rest :
  scalar r -> decode_rune (encode_rune r ++ rest)%list = (r, length (encode_rune r)).
Proof.
  intros Hsc. rewrite (encode_scalar r Hsc). destruct Hsc as [Hr Hs].
  assert (Hc : forall x, cont (128 + x mod 64) = true).
  { intros x. unfold cont. pose proof (Z.mod_pos_bound x 64). rewrite andb_true_iff, !Z.leb_le. lia. }
  destruct (Z.ltb_spec r 128) as [H1|H1].
  { cbn. by rewrite (proj2 (Z.ltb_lt _ _)). }
  destruct (Z.ltb_spec r 2048) as [H2|H2].
  { assert (2 <= r / 64 < 32) by (split; [apply Z.div_le_lower_bound|apply Z.div_lt_upper_bound]; lia).
    cbn [decode_rune app length]. rewrite (proj2 (Z.ltb_ge _ 128)), (proj2 (Z.leb_le 194 _)), (proj2 (Z.leb_le _ 223)), Hc by lia.
    cbn [andb]. f_equal. pose proof (Z.div_mod r 64). lia. }
  destruct (Z.ltb_spec r 65536) as [H3|H3].
  { assert (0 <= r / 4096 < 16) by (split; [apply Z.div_le_lower_bound|apply Z.div_lt_upper_bound]; lia).
    pose proof (Z.div_mod r 64). pose proof (Z.div_mod (r / 64) 64). pose proof (Z.mod_pos_bound r 64).
    pose proof (Z.mod_pos_bound (r / 64) 64). assert (Hdd : r / 64 / 64 = r / 4096) by (rewrite Z.div_div by lia; done).
    cbn [decode_rune app length]. rewrite (proj2 (Z.ltb_ge _ 128)), (proj2 (Z.leb_gt _ 223)) by lia. rewrite andb_false_r.
    rewrite (proj2 (Z.leb_le 224 _)), (proj2 (Z.leb_le _ 239)), Hc by lia. cbn [andb].
    destruct (Z.eqb_spec (224 + r / 4096) 224), (Z.eqb_spec (224 + r / 4096) 237); try lia;
      rewrite (proj2 (Z.leb_le _ (128 + (r / 64) mod 64))), (proj2 (Z.leb_le (128 + (r / 64) mod 64) _)) by lia;
      cbn [andb]; f_equal; lia. }
  assert (0 <= r / 262144 < 5) by (split; [apply Z.div_le_lower_bound|apply Z.div_lt_upper_bound]; lia).
  pose proof (Z.div_mod r 64). pose proof (Z.div_mod (r / 64) 64). pose proof (Z.div_mod (r / 4096) 64).
  pose proof (Z.mod_pos_bound r 64). pose proof (Z.mod_pos_bound (r / 64) 64). pose proof (Z.mod_pos_bound (r / 4096) 64).
  assert (Hdd : r / 64 / 64 = r / 4096) by (rewrite Z.div_div by lia; done).
  assert (Hdd' : r / 4096 / 64 = r / 262144) by (rewrite Z.div_div by lia; done).
  cbn [decode_rune app length]. rewrite (proj2 (Z.ltb_ge _ 128)), (proj2 (Z.leb_gt _ 223)), (proj2 (Z.leb_gt _ 239)) by lia.
  rewrite !andb_false_r, (proj2 (Z.leb_le 240 _)), (proj2 (Z.leb_le _ 244)), !Hc by lia. cbn [andb].
  destruct (Z.eqb_spec (240 + r / 262144) 240), (Z.eqb_spec (240 + r / 262144) 244); try lia;
    rewrite (proj2 (Z.leb_le _ (128 + (r / 4096) mod 64))), (proj2 (Z.leb_le (128 + (r / 4096) mod 64) _)) by lia;
    cbn [andb]; f_equal; lia.
Qed.

(** A decoded rune is a scalar value, and its encoding is the bytes it was read
    from. *)
Lemma decode_valid b l r w :
  Forall (fun x => 0 <= x < 256) (b :: l) -> decode_rune (b :: l) = (r, w) -> (r =? runeError) && (w =? 1)%nat = false ->
  scalar r /\ encode_rune r = take w (b :: l) /\ (0 < w)%nat.
Proof.
  intros Hb Hd Hnot. assert (Hbad : (runeError, 1%nat) <> (r, w)) by (intros [= <- <-]; done).
  assert (Hsplit : forall r' w', scalar r' -> encode_rune r' = take w' (b :: l) -> (0 < w')%nat ->
    (r', w') = (r, w) -> scalar r /\ encode_rune r = take w (b :: l) /\ (0 < w)%nat).
  { intros r' w' ? ? ? [= <- <-]. done. }
  revert Hd.
  apply Forall_cons in Hb as [Hb Hl]. unfold decode_rune, cont, scalar in *.
  destruct (Z.ltb_spec b 128) as [H1|H1].
  { apply Hsplit; [lia| |lia]. unfold encode_rune. rewrite (proj2 (Z.ltb_ge _ 0)), (proj2 (Z.ltb_ge 1114111 _)),
      (proj2 (Z.leb_gt 55296 _)), (proj2 (Z.ltb_lt b 128)) by lia. done. }
  destruct ((194 <=? b) && (b <=? 223)) eqn:E2.
  { destruct l as [|b1 l]; [by intros ?%Hbad|]. match goal with |- (if ?x then _ else _) = _ -> _ => destruct x eqn:Ec end; [|by intros ?%Hbad].
    bool_prop. assert (Hs : scalar ((b - 192) * 64 + (b1 - 128))) by (unfold scalar; lia).
    apply Hsplit; [exact Hs| |lia]. rewrite (encode_scalar _ Hs).
    rewrite (proj2 (Z.ltb_ge _ 128)), (proj2 (Z.ltb_lt _ 2048)) by lia. cbn [take].
    rewrite (Z.add_comm _ (b1 - 128)), Z.mod_add, Z.div_add, Z.mod_small, Z.div_small by lia. repeat f_equal; lia. }
  destruct ((224 <=? b) && (b <=? 239)) eqn:E3.
  { destruct l as [|b1 [|b2 l]]; [by intros ?%Hbad..|].
    match goal with |- (if ?x then _ else _) = _ -> _ => destruct x eqn:Ec end; [|by intros ?%Hbad].
    bool_prop. assert (Hs : scalar ((b - 224) * 4096 + (b1 - 128) * 64 + (b2 - 128)) /\ 2048 <= (b - 224) * 4096 + (b1 - 128) * 64 + (b2 - 128)).
    { unfold scalar. destruct (Z.eqb_spec b 224), (Z.eqb_spec b 237); lia. }
    destruct Hs as [Hs Hlow]. assert (128 <= b1 <= 191) by (destruct (b =? 224), (b =? 237); lia).
    apply Hsplit; [exact Hs| |lia]. rewrite (encode_scalar _ Hs).
    rewrite (proj2 (Z.ltb_ge _ 128)), (proj2 (Z.ltb_ge _ 2048)), (proj2 (Z.ltb_lt _ 65536)) by lia. cbn [take].
    set (r3 := (b - 224) * 4096 + (b1 - 128) * 64 + (b2 - 128)).
    assert (r3 / 64 = (b - 224) * 64 + (b1 - 128)) as -> by (symmetry; apply (Z.div_unique _ _ _ (b2 - 128)); unfold r3; lia).
    assert (r3 / 4096 = b - 224) as -> by (symmetry; apply (Z.div_unique _ _ _ ((b1 - 128) * 64 + (b2 - 128))); unfold r3; lia).
    assert (r3 mod 64 = b2 - 128) as -> by (symmetry; apply (Z.mod_unique _ _ ((b - 224) * 64 + (b1 - 128))); unfold r3; lia).
    rewrite (Z.add_comm _ (b1 - 128)), Z.mod_add, Z.mod_small by lia. repeat f_equal; lia. }
  destruct ((240 <=? b) && (b <=? 244)) eqn:E4; [|by intros ?%Hbad].
  destruct l as [|b1 [|b2 [|b3 l]]]; [by intros ?%Hbad..|].
  match goal with |- (if ?x then _ else _) = _ -> _ => destruct x eqn:Ec end; [|by intros ?%Hbad].
  bool_prop. set (r4 := (b - 240) * 262144 + (b1 - 128) * 4096 + (b2 - 128) * 64 + (b3 - 128)).
  assert (Hs : scalar r4 /\ 65536 <= r4). { unfold scalar, r4. destruct (Z.eqb_spec b 240), (Z.eqb_spec b 244); lia. }
  destruct Hs as [Hs Hlow]. assert (128 <= b1 <= 191) by (destruct (b =? 240), (b =? 244); lia).
  apply Hsplit; [exact Hs| |lia]. rewrite (encode_scalar _ Hs).
  rewrite (proj2 (Z.ltb_ge _ 128)), (proj2 (Z.ltb_ge _ 2048)), (proj2 (Z.ltb_ge _ 65536)) by lia. cbn [take].
  assert (r4 / 64 = (b - 240) * 4096 + (b1 - 128) * 64 + (b2 - 128)) as -> by (symmetry; apply (Z.div_unique _ _ _ (b3 - 128)); unfold r4; lia).
  assert (r4 / 4096 = (b - 240) * 64 + (b1 - 128)) as -> by (symmetry; apply (Z.div_unique _ _ _ ((b2 - 128) * 64 + (b3 - 128))); unfold r4; lia).
  assert (r4 / 262144 = b - 240) as -> by (symmetry; apply (Z.div_unique _ _ _ ((b1 - 128) * 4096 + (b2 - 128) * 64 + (b3 - 128))); unfold r4; lia).
  assert (r4 mod 64 = b3 - 128) as -> by (symmetry; apply (Z.mod_unique _ _ ((b - 240) * 4096 + (b1 - 128) * 64 + (b2 - 128))); unfold r4; lia).
  assert (((b - 240) * 4096 + (b1 - 128) * 64 + (b2 - 128)) mod 64 = b2 - 128) as ->
    by (symmetry; apply (Z.mod_unique _ _ ((b - 240) * 64 + (b1 - 128))); lia).
  rewrite (Z.add_comm _ (b1 - 128)), Z.mod_add, Z.mod_small by lia. repeat f_equal; lia.
Qed.

(** * Strings *)

Lemma runes_valid fuel l :
  (length l <= fuel)%nat -> Forall (fun x => 0 <= x < 256) l ->
  forallb (fun rw => negb ((fst rw =? runeError) && (snd rw =? 1)%nat)) (runes_fuel fuel l) = true ->
  Forall scalar (map fst (runes_fuel fuel l)) /\ concat (map encode_rune (map fst (runes_fuel fuel l))) = l.
Proof.
  revert l. induction fuel as [|fuel IH]; intros [|b l] Hf Hb Hv; try (by split; [constructor|]); [cbn in Hf; lia|].
  cbn [runes_fuel] in *. destruct (decode_rune (b :: l)) as [r w] eqn:Ed. cbn [forallb fst snd map concat] in *.
  apply andb_true_iff in Hv as [Hn%negb_true_iff Hv]. destruct (decode_valid _ _ _ _ Hb Ed Hn) as (Hs & He & Hw).
  destruct (IH (drop w (b :: l))) as [IHs IHc]; [rewrite length_drop; cbn in *; lia|by apply Forall_drop|done|].
  split; [by constructor|]. rewrite He, IHc. apply take_drop.
Qed.

Lemma string_runes s :
  valid_utf8 s = true -> Forall scalar (map fst (runes s)) /\ concat (map encode_rune (map fst (runes s))) = bytes s.
Proof. intros Hv. unfold runes. rewrite <- length_bytes. apply runes_valid; [done|apply bytes_range|]. by rewrite length_bytes. Qed.

Lemma runes_inj s t : valid_utf8 s = true -> valid_utf8 t = true -> map fst (runes s) = map fst (runes t) -> s = t.
Proof.
  intros Hs Ht He. apply bytes_inj. by rewrite <- (proj2 (string_runes s Hs)), <- (proj2 (string_runes t Ht)), He.
Qed.

(** Reading one rune of an encoded string back. *)
Definition unhex (c : Z) : Z := if c <? 58 then c - 48 else c - 87.
Definition read_rune (l : list Z) : Z * list Z :=
  match l with
  | 92 :: 117 :: a :: b :: c :: d :: rest => (unhex a * 4096 + unhex b * 256 + unhex c * 16 + unhex d, rest)
  | 92 :: 98 :: rest => (8, rest)
  | 92 :: 102 :: rest => (12, rest)
  | 92 :: 110 :: rest => (10, rest)
  | 92 :: 114 :: rest => (13, rest)
  | 92 :: 116 :: rest => (9, rest)
  | 92 :: c :: rest => (c, rest)
  | _ => let '(r, w) := decode_rune l in (r, drop w l)
  end.

Lemma unhex_hex n : 0 <= n < 16 -> unhex (if n <? 10 then 48 + n else 87 + n) = n.
Proof. intros Hn. unfold unhex. destruct (Z.ltb_spec n 10); [rewrite (proj2 (Z.ltb_lt _ _))|rewrite (proj2 (Z.ltb_ge _ _))]; lia. Qed.

Lemma read_hex4 r rest : 0 <= r < 65536 -> read_rune (hex4 r ++ rest)%list = (r, rest).
Proof.
  intros Hr. unfold hex4. cbn [app read_rune].
  assert (Hb : forall x, 0 <= x mod 16 < 16) by (intros; apply Z.mod_pos_bound; lia). rewrite !unhex_hex by apply Hb.
  f_equal. pose proof (Z.div_mod r 16). pose proof (Z.div_mod (r / 16) 16). pose proof (Z.div_mod (r / 256) 16).
  assert (r / 16 / 16 = r / 256) by (rewrite Z.div_div by lia; done).
  assert (r / 256 / 16 = r / 4096) by (rewrite Z.div_div by lia; done).
  assert (0 <= r / 4096 < 16) by (split; [apply Z.div_le_lower_bound|apply Z.div_lt_upper_bound]; lia).
  rewrite (Z.mod_small (r / 4096) 16) by lia. lia.
Qed.

Lemma encode_head r : scalar r -> exists b rest, encode_rune r = b :: rest /\ (b = r \/ 128 <= b) /\ (r < 128 -> b = r).
Proof.
  intros Hs. rewrite (encode_scalar r Hs). destruct (Z.ltb_spec r 128); [by eexists _, _; split_and!; [done|left|]|].
  destruct Hs as [Hr _]. assert (0 <= r / 64 /\ 0 <= r / 4096 /\ 0 <= r / 262144) by (split_and!; apply Z.div_pos; lia).
  repeat case_match; eexists _, _; (split_and!; [done|right; lia|lia]).
Qed.

Lemma read_plain b l : b <> 92 -> read_rune (b :: l) = let '(r, w) := decode_rune (b :: l) in (r, drop w (b :: l)).
Proof.
  intros Hb. unfold read_rune.
  destruct b as [|p|p]; try done. repeat (destruct p as [p|p|]; try done).
Qed.

Lemma read_escape r rest : scalar r -> read_rune (escape_rune r ++ rest)%list = (r, rest).
Proof.
  intros Hs. unfold escape_rune.
  repeat match goal with
  | |- context [if ?r =? ?n then _ else _] => destruct (Z.eqb_spec r n) as [->|?]; [reflexivity|]
  end.
  destruct (_ || _) eqn:E.
  - apply read_hex4. destruct Hs as [Hr _]. repeat (apply orb_true_iff in E as [E|E]);
      rewrite ?Z.ltb_lt, ?Z.eqb_eq in E; lia.
  - destruct (encode_head r Hs) as (b & tail & He & Hb & Hlow). pose proof (decode_encode r rest Hs) as Hd.
    rewrite He in Hd |- *. cbn [app]. rewrite read_plain by lia. cbn [app] in Hd. rewrite Hd.
    by rewrite app_comm_cons, drop_app_length.
Qed.

Lemma escape_head r : scalar r -> exists b rest, escape_rune r = b :: rest /\ b <> 34.
Proof.
  intros Hs. unfold escape_rune.
  repeat match goal with
  | |- context [if ?r =? ?n then _ else _] => destruct (Z.eqb_spec r n) as [->|?]; [by eexists _, _|]
  end.
  destruct (_ || _); [by eexists _, _|]. destruct (encode_head r Hs) as (b & tail & -> & Hb & _). exists b, tail. split; [done|lia].
Qed.

Lemma escapes_inj rs rs' y y' :
  Forall scalar rs -> Forall scalar rs' ->
  (concat (map escape_rune rs) ++ 34 :: y)%list = (concat (map escape_rune rs') ++ 34 :: y')%list -> rs = rs' /\ y = y'.
Proof.
  intros Hs. revert rs'. induction Hs as [|r rs Hr Hs IH]; intros rs' Hs' He.
  - destruct Hs' as [|r' rs' Hr' _]; [by injection He|]. exfalso. destruct (escape_head r' Hr') as (b & t & Hb & Hne).
    cbn [map concat] in He. rewrite Hb in He. injection He. congruence.
  - destruct Hs' as [|r' rs' Hr' Hs'].
    + exfalso. destruct (escape_head r Hr) as (b & t & Hb & Hne). cbn [map concat] in He. rewrite Hb in He. injection He. congruence.
    + cbn [map concat] in He. rewrite <- !app_assoc in He. apply (f_equal read_rune) in He.
      rewrite !read_escape in He by done. injection He as -> He. destruct (IH rs' Hs' He) as [-> ->]. done.
Qed.

Definition byte_range (x : Z) : Prop := 0 <= x < 256.
Lemma encode_bytes r : scalar r -> Forall byte_range (encode_rune r).
Proof.
  intros Hs. rewrite (encode_scalar r Hs). destruct Hs as [Hr _]. unfold byte_range.
  assert (Hc : forall x, 0 <= 128 + x mod 64 < 256) by (intros x; pose proof (Z.mod_pos_bound x 64); lia).
  assert (r / 262144 < 5) by (apply Z.div_lt_upper_bound; lia). assert (0 <= r / 262144) by (apply Z.div_pos; lia).
  destruct (Z.ltb_spec r 128); [by repeat constructor; lia|].
  destruct (Z.ltb_spec r 2048).
  { assert (0 <= r / 64 < 32) by (split; [apply Z.div_pos|apply Z.div_lt_upper_bound]; lia). repeat constructor; try apply Hc; lia. }
  destruct (Z.ltb_spec r 65536).
  { assert (0 <= r / 4096 < 16) by (split; [apply Z.div_pos|apply Z.div_lt_upper_bound]; lia). repeat constructor; try apply Hc; lia. }
  repeat constructor; try apply Hc; lia.
Qed.
Lemma escape_bytes r : scalar r -> Forall byte_range (escape_rune r).
Proof.
  intros Hs. unfold escape_rune, byte_range.
  repeat match goal with |- context [if ?r =? ?n then _ else _] => destruct (r =? n); [repeat constructor; lia|] end.
  destruct (_ || _); [|by apply encode_bytes]. unfold hex4.
  assert (Hh : forall x, 0 <= (if x mod 16 <? 10 then 48 + x mod 16 else 87 + x mod 16) < 256).
  { intros x. pose proof (Z.mod_pos_bound x 16). case_match; lia. }
  repeat constructor; try apply Hh; lia.
Qed.

Lemma string_text_bytes s :
  valid_utf8 s = true -> bytes (string_text s) = (34 :: concat (map escape_rune (map fst (runes s))) ++ [34])%list.
Proof.
  intros Hv. destruct (string_runes s Hv) as [Hs _]. unfold string_text. rewrite !bytes_app. change (bytes quote) with [34]. cbn [app].
  assert (He : map escape_unit (runes s) = map escape_rune (map fst (runes s))).
  { rewrite map_map. apply map_ext_in. intros rw Hrw. unfold valid_utf8 in Hv. rewrite forallb_forall in Hv.
    apply Hv, negb_true_iff in Hrw. unfold escape_unit. by rewrite Hrw. }
  f_equal. rewrite He, bytes_of_bytes; [done|]. apply Forall_concat, Forall_map.
  eapply Forall_impl; [exact Hs|]. intros r Hr. by apply escape_bytes.
Qed.

Lemma string_text_inj s s' y y' :
  valid_utf8 s = true -> valid_utf8 s' = true ->
  (bytes (string_text s) ++ y)%list = (bytes (string_text s') ++ y')%list -> s = s' /\ y = y'.
Proof.
  intros Hs Hs'. rewrite !string_text_bytes by done. cbn [app]. rewrite <- !app_assoc. intros [= He].
  apply escapes_inj in He as [Hr Hy]; [|by apply string_runes..]. split; [by apply runes_inj|done].
Qed.

(** * Trees *)

(** Instants and durations as the strings they are written as. *)
Fixpoint norm (j : json) : json :=
  match j with
  | JTime t => JStr (rfc3339 t)
  | JDur d => JStr (duration_text d)
  | JArr l => JArr (map norm l)
  | JObj ms => JObj (map (fun m => (m.1, norm m.2)) ms)
  | _ => j
  end.

(** Normal trees: no floats, instants or durations, and valid strings. *)
Fixpoint plain (j : json) : Prop :=
  match j with
  | JFloat _ | JTime _ | JDur _ => False
  | JStr s => valid_utf8 s = true
  | JArr l => (fix all (l : list json) : Prop := match l with [] => True | j :: l => plain j /\ all l end) l
  | JObj ms =>
    (fix all (ms : list (string * json)) : Prop :=
       match ms with [] => True | m :: ms => valid_utf8 m.1 = true /\ plain m.2 /\ all ms end) ms
  | _ => True
  end.
Lemma plain_arr l : plain (JArr l) <-> Forall plain l.
Proof. split; [induction l; cbn; constructor; naive_solver|induction 1; cbn; naive_solver]. Qed.
Lemma plain_obj ms : plain (JObj ms) <-> Forall (fun m => valid_utf8 m.1 = true /\ plain m.2) ms.
Proof. split; [induction ms; cbn; constructor; naive_solver|induction 1; cbn; naive_solver]. Qed.

Section JsonInd.
Context (P : json -> Prop).
Context (Hnull : P JNull) (Hbool : forall b, P (JBool b)) (Hint : forall z, P (JInt z)) (Hfloat : forall f, P (JFloat f)).
Context (Hstr : forall s, P (JStr s)) (Htime : forall t, P (JTime t)) (Hdur : forall d, P (JDur d)).
Context (Harr : forall l, Forall P l -> P (JArr l)) (Hobj : forall ms, Forall (fun m => P m.2) ms -> P (JObj ms)).

Fixpoint json_induction (j : json) : P j :=
  match j with
  | JNull => Hnull
  | JBool b => Hbool b
  | JInt z => Hint z
  | JFloat f => Hfloat f
  | JStr s => Hstr s
  | JTime t => Htime t
  | JDur d => Hdur d
  | JArr l => Harr l ((fix all (l : list json) : Forall P l :=
      match l with [] => Forall_nil_2 _ | j :: l => Forall_cons_2 _ _ _ (json_induction j) (all l) end) l)
  | JObj ms => Hobj ms ((fix all (ms : list (string * json)) : Forall (fun m => P m.2) ms :=
      match ms with [] => Forall_nil_2 _ | m :: ms => Forall_cons_2 _ _ _ (json_induction m.2) (all ms) end) ms)
  end.
End JsonInd.

Lemma render_norm j : render (norm j) = render j.
Proof.
  induction j as [| | | | |t| |l IH|ms IH] using json_induction; try done; cbn [norm render].
  - apply bytes_inj. rewrite clean_text by apply rfc3339_clean. by rewrite !bytes_app.
  - f_equal. f_equal. f_equal. rewrite map_map. by apply map_ext_Forall.
  - f_equal. f_equal. f_equal. rewrite map_map. apply map_ext_Forall. eapply Forall_impl; [exact IH|]. by intros [k v] Hv; cbn in *; rewrite Hv.
Qed.

(** What may follow a value inside a document. *)
Definition ended (y : list Z) : Prop :=
  match y with [] => True | b :: _ => b = 44 \/ b = 93 \/ b = 125 end.

(** Two texts made of characters of one kind, each followed by another kind. *)
Lemma span_split (p : Z -> bool) l l' y y' :
  forallb p l = true -> forallb p l' = true ->
  match y with [] => True | b :: _ => p b = false end -> match y' with [] => True | b :: _ => p b = false end ->
  (l ++ y)%list = (l' ++ y')%list -> l = l' /\ y = y'.
Proof.
  revert l'. induction l as [|b l IH]; intros [|b' l'] Hl Hl' Hy Hy' He; cbn in *; subst; try done.
  - apply andb_true_iff in Hl' as [Hb _]. congruence.
  - apply andb_true_iff in Hl as [Hb _]. congruence.
  - apply andb_true_iff in Hl as [_ Hl], Hl' as [_ Hl']. injection He as -> He.
    destruct (IH l' Hl Hl' Hy Hy' He) as [-> ->]. done.
Qed.

Definition number_byte (b : Z) : bool := ((48 <=? b) && (b <=? 57)) || (b =? 45).
Lemma itoa_negative z : z < 0 -> itoa z = String.append "-" (itoa (- z)).
Proof. destruct z as [|p|p]; try lia. intros _. reflexivity. Qed.
Lemma itoa_number z : forallb number_byte (bytes (itoa z)) = true.
Proof.
  assert (Hp : forall z, 0 <= z -> forallb number_byte (bytes (itoa z)) = true).
  { intros x Hx. apply forallb_forall. intros b Hb. destruct (itoa_digits x Hx) as [Hd _].
    eapply Forall_forall in Hd; [|by apply list_elem_of_In]. unfold number_byte.
    apply orb_true_iff. left. rewrite andb_true_iff, !Z.leb_le. lia. }
  destruct (Z.ltb_spec z 0); [|by apply Hp]. rewrite itoa_negative, bytes_app by done. cbn. by rewrite Hp by lia.
Qed.
Lemma itoa_clean_all z : clean (itoa z) = true.
Proof.
  destruct (Z.ltb_spec z 0); [|by apply itoa_clean]. rewrite itoa_negative by done.
  apply clean_app; [reflexivity|]. apply itoa_clean. lia.
Qed.
Lemma itoa_head z : exists b rest, bytes (itoa z) = b :: rest.
Proof.
  destruct (Z.ltb_spec z 0); [rewrite itoa_negative, bytes_app by done; by eexists _, _|].
  destruct (bytes (itoa z)) as [|b rest] eqn:E; [|by eexists _, _]. exfalso.
  assert (itoa z = "") as Ez by (apply bytes_inj; exact E). pose proof (atoi_itoa z) as Ha. rewrite Ez in Ha. discriminate Ha.
Qed.

(** ** The first byte tells the kind of a value *)

Definition kind_of (j : json) : nat :=
  match j with JNull => 0 | JBool _ => 1 | JInt _ => 2 | JArr _ => 4 | JObj _ => 5 | _ => 3 end%nat.
Definition kind_byte (b : Z) : nat :=
  if b =? 110 then 0 else if (b =? 116) || (b =? 102) then 1 else if number_byte b then 2 else if b =? 34 then 3
  else if b =? 91 then 4 else if b =? 123 then 5 else 6.

Lemma string_text_head s : exists rest, bytes (string_text s) = (34 :: rest)%list.
Proof. unfold string_text. rewrite bytes_app. by eexists. Qed.
Lemma render_head j : plain j -> exists b rest, bytes (render j) = (b :: rest)%list /\ kind_byte b = kind_of j.
Proof.
  destruct j as [|[]|z| |s| | |l|ms]; try done; intros Hp; cbn [render kind_of]; try (by eexists _, _).
  destruct (itoa_head z) as (b & rest & Hb). exists b, rest. split; [done|]. pose proof (itoa_number z) as Hn.
  rewrite Hb in Hn. cbn [forallb] in Hn. apply andb_true_iff in Hn as [Hn _]. unfold kind_byte. rewrite Hn.
  unfold number_byte in Hn. rewrite (proj2 (Z.eqb_neq _ 110)), (proj2 (Z.eqb_neq _ 116)), (proj2 (Z.eqb_neq _ 102)); [done|..];
      intros ->; discriminate Hn.
Qed.

(** ** Separated lists *)

Section Lists.
Context {A : Type} (f : A -> string) (good : A -> Prop) (close : Z).
Context (Hclose : close = 93 \/ close = 125) (Hhead : forall a, good a -> exists b rest, bytes (f a) = (b :: rest)%list /\ b <> close).

Definition splits (a : A) : Prop := forall a' y y', good a' -> ended y -> ended y' ->
  (bytes (f a) ++ y)%list = (bytes (f a') ++ y')%list -> a = a' /\ y = y'.

Definition items (l : list A) (y : list Z) : list Z := (bytes (sep_concat (map f l)) ++ close :: y)%list.
Definition after_item (l : list A) (y : list Z) : list Z := match l with [] => close :: y | _ => 44 :: items l y end.

Lemma items_cons a l y : items (a :: l) y = (bytes (f a) ++ after_item l y)%list.
Proof.
  unfold items, after_item. destruct l as [|a' l]; [done|].
  change (sep_concat (map f (a :: a' :: l))) with (String.append (f a) (String.append "," (sep_concat (map f (a' :: l))))).
  rewrite !bytes_app. change (bytes ",") with [44]. by rewrite <- !app_assoc.
Qed.
Lemma after_item_ended l y : ended (after_item l y).
Proof using Hclose. destruct l; cbn; tauto. Qed.

Lemma items_split l l' y y' :
  Forall splits l -> Forall good l -> Forall good l' -> items l y = items l' y' -> l = l' /\ y = y'.
Proof using Hclose Hhead.
  intros Hs. revert l'. induction Hs as [|a l Ha Hs IH]; intros l' Hg Hg'.
  - destruct Hg' as [|a' l' Ha' _]; [by intros [= ->]|]. rewrite items_cons.
    destruct (Hhead a' Ha') as (b & rest & -> & Hb). intros [= He _]. congruence.
  - apply Forall_cons in Hg as [Hga Hg]. destruct Hg' as [|a' l' Ha' Hg'].
    { rewrite items_cons. destruct (Hhead a Hga) as (b & rest & -> & Hb). intros [= He _]. congruence. }
    rewrite !items_cons. intros He. apply Ha in He as [-> He]; [|done|apply after_item_ended..].
    unfold after_item in He. destruct l as [|x l], l' as [|x' l']; injection He; try lia.
    + by intros ->.
    + intros Hi. destruct (IH (x' :: l') Hg Hg' Hi) as [-> ->]. done.
Qed.
End Lists.

Definition member_text (m : string * json) : string := String.append (string_text m.1) (String.append ":" (render m.2)).
Definition good_member (m : string * json) : Prop := valid_utf8 m.1 = true /\ plain m.2.

Lemma member_splits m : good_member m -> splits render plain m.2 -> splits member_text good_member m.
Proof.
  destruct m as [k v]. intros [Hk Hv] Hs [k' v'] y y' [Hk' Hv'] Hy Hy' He. cbn in Hk, Hv, Hk', Hv'.
  unfold member_text in He. cbn [fst snd] in He. rewrite !bytes_app, <- !app_assoc in He.
  apply string_text_inj in He as [-> He]; [|done..]. injection He as He.
  destruct (Hs v' y y' Hv' Hy Hy' He) as [Hv1 ->]. cbn in Hv1. by subst v'.
Qed.

(** * The text determines the tree *)

Lemma render_splits j : plain j -> splits render plain j.
Proof.
  induction j as [|b|z|f|s|t|d|l IH|ms IH] using json_induction; intros Hp j' y y' Hp' Hy Hy' He; try done;
    (destruct (render_head _ Hp) as (b1 & r1 & Hr1 & Hk1), (render_head _ Hp') as (b2 & r2 & Hr2 & Hk2);
     pose proof He as Hh; rewrite Hr1, Hr2 in Hh; injection Hh as -> _; rewrite Hk1 in Hk2; clear Hr1 Hr2 Hk1 r1 r2;
     destruct j' as [|b'|z'|f'|s'|t'|d'|l'|ms']; try discriminate Hk2; try done); cbn [render] in He.
  - injection He as ->. done.
  - destruct b, b'; injection He; intros; simplify_eq; done.
  - destruct (span_split number_byte (bytes (itoa z)) (bytes (itoa z')) y y') as [Hz ->]; try done;
      [apply itoa_number..|destruct y as [|c ?]; [done|destruct Hy as [->|[->| ->]]; done]|
       destruct y' as [|c ?]; [done|destruct Hy' as [->|[->| ->]]; done]|].
    by apply bytes_inj, itoa_inj in Hz as ->.
  - apply string_text_inj in He as [-> ->]; done.
  - rewrite !bytes_app, <- !app_assoc in He. injection He as He. apply plain_arr in Hp, Hp'.
    destruct (items_split render plain 93 (or_introl eq_refl)) with (l := l) (l' := l') (y := y) (y' := y') as [-> ->]; try done.
    + intros a Ha. destruct (render_head a Ha) as (c & rest & Hc & Hk). exists c, rest. split; [done|]. intros ->.
      destruct a; done.
    + eapply Forall_impl; [|exact (fun a H => H)]. apply Forall_forall. intros a Ha.
      rewrite Forall_forall in IH, Hp. by apply IH; [|apply Hp].
  - rewrite !bytes_app, <- !app_assoc in He. injection He as He. apply plain_obj in Hp, Hp'.
    destruct (items_split member_text good_member 125 (or_intror eq_refl)) with (l := ms) (l' := ms') (y := y) (y' := y') as [-> ->]; try done.
    + intros [k v] _. unfold member_text. cbn [fst snd]. rewrite bytes_app. destruct (string_text_head k) as [rest ->]. by eexists _, _.
    + apply Forall_forall. intros m Hm. rewrite Forall_forall in IH, Hp. apply member_splits; [by apply Hp|].
      apply IH; [done|]. by apply Hp.
Qed.

(** Two normal trees with the same text are the same tree. *)
Lemma render_inj j j' : plain (norm j) -> plain (norm j') -> render j = render j' -> norm j = norm j'.
Proof.
  intros Hp Hp' He. rewrite <- (render_norm j), <- (render_norm j') in He.
  destruct (render_splits (norm j) Hp (norm j') [] []) as [Hn _]; try done. by rewrite He.
Qed.

(** * Encoded values

    A codec is textual when a value's text determines the value. *)
Record textual {T} (G : GoJson T) (ok : T -> bool) : Prop := {
  tx_plain x j : ok x = true -> to_json x = Some j -> plain (norm j);
  tx_inj x y j j' :
    ok x = true -> ok y = true -> to_json x = Some j -> to_json y = Some j' -> norm j = norm j' -> x = y;
}.

Lemma string_textual : textual string_json valid_utf8.
Proof.
  split.
  - by intros x j Hx [= <-].
  - by intros x y j j' Hx Hy [= <-] [= <-] [= He].
Qed.
Lemma bool_textual : textual bool_json (fun _ => true).
Proof. split; [by intros x j _ [= <-]|by intros x y j j' _ _ [= <-] [= <-] [= ->]]. Qed.
Lemma int_textual : textual int_json (fun _ => true).
Proof. split; [by intros x j _ [= <-]|by intros x y j j' _ _ [= <-] [= <-] [= ->]]. Qed.
Lemma dur_textual : textual dur_json (fun _ => true).
Proof.
  split.
  - intros x j _ [= <-]. apply duration_utf8.
  - intros x y j j' _ _ [= <-] [= <-] [= He]. by apply duration_text_inj.
Qed.

Lemma slice_textual {T} (G : GoJson T) ok : textual G ok -> textual (@slice_json T G) (forallb ok).
Proof.
  intros [Hp Hi]. assert (Hm : forall l js, forallb ok l = true -> mapM to_json l = Some js -> Forall (fun j => plain (norm j)) js).
  { induction l as [|x l IH]; cbn; intros js Hok Hm; [injection Hm as <-; constructor|]. apply andb_true_iff in Hok as [Hx Hl].
    destruct (to_json x) as [j|] eqn:Ex; [|done]. cbn in Hm. destruct (mapM to_json l) as [js'|] eqn:El; [|done].
    injection Hm as <-. constructor; eauto. }
  split.
  - intros [|x l] j Hok; unfold to_json, slice_json; [by intros [= <-]|]. intros (js & Hjs & ->)%fmap_Some.
    cbn [norm]. apply plain_arr, Forall_map. by eapply Hm.
  - intros x y j j' Hx Hy Hjx Hjy He.
    assert (Hl : forall l l' js js', forallb ok l = true -> forallb ok l' = true -> mapM to_json l = Some js ->
      mapM to_json l' = Some js' -> map norm js = map norm js' -> l = l').
    { induction l as [|a l IH]; intros [|a' l'] js js' Ha Ha' Hjs Hjs' Hn; cbn in Hjs, Hjs', Ha, Ha'; try done.
      - injection Hjs as <-. destruct (to_json a'); [|done]. cbn in Hjs'. destruct (mapM to_json l'); [|done]. by injection Hjs' as <-.
      - injection Hjs' as <-. destruct (to_json a); [|done]. cbn in Hjs. destruct (mapM to_json l); [|done]. by injection Hjs as <-.
      - apply andb_true_iff in Ha as [Ha Hl], Ha' as [Ha' Hl'].
        destruct (to_json a) as [ja|] eqn:Ea; [|done]. cbn in Hjs. destruct (mapM to_json l) as [jl|] eqn:El; [|done]. injection Hjs as <-.
        destruct (to_json a') as [ja'|] eqn:Ea'; [|done]. cbn in Hjs'. destruct (mapM to_json l') as [jl'|] eqn:El'; [|done]. injection Hjs' as <-.
        injection Hn as Hna Hnl. f_equal; [by eapply Hi|by eapply IH]. }
    unfold to_json, slice_json in Hjx, Hjy. destruct x as [|a x], y as [|b y]; [done|..].
    + apply fmap_Some in Hjy as (js & _ & ->). injection Hjx as <-. discriminate He.
    + apply fmap_Some in Hjx as (js & _ & ->). injection Hjy as <-. discriminate He.
    + apply fmap_Some in Hjx as (js & Hjs & ->), Hjy as (js' & Hjs' & ->). injection He as He. by eapply Hl.
Qed.
