(* ===== verification/JsonStruct.v ===== *)
(** Records with optional members in JSON: the encoding of a struct read member
    by member, and the framing of a document by lines (used by the
    administrative protocol, src/internal/adminipc/protocol.go). *)
From S2P Require Import Prelude GoLib GoTime GoNumber Json Contract ContractFacts AuditChain GoText JsonText.
From stdpp Require Import options.
Local Open Scope Z_scope.

(** * Records member by member

    A record's encoding is the list of its members that are not omitted; the
    decoder sets them one after the other, starting from the zero value. *)
Lemma pointer_rt {T} (G : GoJson T) x :
  json_rt G x -> (forall j, to_json x = Some j -> j <> JNull) -> json_rt (@pointer_json T G) (Some x).
Proof.
  intros (j & E & S & D) Hn. specialize (Hn j E). exists j. split_and!; [exact E|exact S|].
  intros strict. specialize (D strict). destruct j; try done; cbn in *; by rewrite D.
Qed.
Lemma struct_not_null {T} zero (fs : list (field T)) x j : @to_json T (struct_json zero fs) x = Some j -> j <> JNull.
Proof. cbn. destruct (encode_fields fs x); [|done]. by intros [= <-]. Qed.

(** The member [f] of [r]: it is left out, or written as [j], which set into
    [v] gives [v']. *)
Inductive stage {T} (f : field T) (r v : T) : T -> option json -> Prop :=
| stage_omitted : fget f r = Some None -> stage f r v v None
| stage_written j v' : fget f r = Some (Some j) -> scanValue j = Ok tt -> (forall strict, fset f strict j v = Value v' None) ->
    stage f r v v' (Some j).
Inductive stages {T} (r : T) : list (field T) -> T -> T -> list (string * json) -> Prop :=
| stages_done v : stages r [] v v []
| stages_omitted f fs v v' ms : stage f r v v None -> stages r fs v v' ms -> stages r (f :: fs) v v' ms
| stages_written f fs v v1 v' j ms : stage f r v v1 (Some j) -> stages r fs v1 v' ms ->
    stages r (f :: fs) v v' ((fname f, j) :: ms).

Lemma stages_encode {T} r (fs : list (field T)) v v' ms : stages r fs v v' ms -> encode_fields fs r = Some ms.
Proof.
  induction 1 as [|f fs v v' ms Hf _ IH|f fs v v1 v' j ms Hf _ IH]; [done|..]; inversion Hf as [E|? ? E]; subst; cbn; by rewrite E, IH.
Qed.
Lemma stages_names {T} r (fs : list (field T)) v v' ms : stages r fs v v' ms -> sublist (map fst ms) (map fname fs).
Proof. induction 1; cbn; by constructor. Qed.
Lemma stages_scan {T} r (fs : list (field T)) v v' ms : stages r fs v v' ms -> Forall (fun m => scanValue m.2 = Ok tt) ms.
Proof. induction 1 as [|f fs v v' ms Hf _ IH|f fs v v1 v' j ms Hf _ IH]; [done..|]. inversion Hf; subst. by constructor. Qed.
Lemma find_name {T} (fs : list (field T)) f :
  NoDup (map fname fs) -> f ∈ fs -> find_first (fun g => String.eqb (fname g) (fname f)) fs = Some f.
Proof.
  induction fs as [|g fs IH]; intros Hn Hin; [by apply not_elem_of_nil in Hin|]. cbn in *. apply NoDup_cons in Hn as [Hg Hn].
  apply elem_of_cons in Hin as [<-|Hin]; [by rewrite String.eqb_refl|].
  destruct (String.eqb_spec (fname g) (fname f)) as [E|]; [|by apply IH].
  exfalso. apply Hg. rewrite E. by apply list_elem_of_fmap_2.
Qed.
Lemma stages_decode {T} r (all fs : list (field T)) v v' ms strict :
  NoDup (map fname all) -> (forall f, f ∈ fs -> f ∈ all) -> stages r fs v v' ms ->
  decode_members strict all v None ms = Value v' None.
Proof.
  intros Hn Hin Hs. induction Hs as [|f fs v v' ms Hf _ IH|f fs v v1 v' j ms Hf _ IH]; [done|..].
  - apply IH. intros g Hg. apply Hin. by constructor.
  - cbn [decode_members]. unfold field_for. rewrite find_name; [|done|apply Hin; by constructor].
    inversion Hf as [|? ? _ _ Hset]; subst. rewrite Hset. apply IH. intros g Hg. apply Hin. by constructor.
Qed.

(** A record whose members survive one after the other survives. *)
Lemma struct_stages_rt {T} zero (fs : list (field T)) r :
  NoDup (map fname fs) -> (exists ms, stages r fs zero r ms) -> json_rt (struct_json zero fs) r.
Proof.
  intros Hn (ms & Hs). exists (JObj ms). split_and!.
  - cbn. by rewrite (stages_encode _ _ _ _ _ Hs).
  - apply scanValue_obj; [|by eapply stages_scan]. eapply sublist_NoDup; [|by eapply stages_names]. done.
  - intros strict. eapply (stages_decode r fs fs); [done..|exact Hs].
Qed.
Lemma struct_stages_rtv {T} zero (f : field T) fs r v ms :
  NoDup (map fname (f :: fs)) -> fname f = "schema_version" -> valid_utf8 v = true -> forallb other_key (map fname fs) = true ->
  stages r (f :: fs) zero r (("schema_version", JStr v) :: ms) -> json_rtv (struct_json zero (f :: fs)) r v.
Proof.
  intros Hn Hv Hu Ho Hs. exists (JObj (("schema_version", JStr v) :: ms)). split_and!.
  - cbn [to_json struct_json]. by rewrite (stages_encode _ _ _ _ _ Hs).
  - apply scanValue_obj; [|by eapply stages_scan]. eapply sublist_NoDup; [|by eapply stages_names]. done.
  - intros strict. eapply (stages_decode r _ (f :: fs)); [done..|exact Hs].
  - apply header_decode; [exact Hu|]. apply stages_names in Hs. cbn [map fst] in Hs. rewrite Hv in Hs.
    apply forallb_forall. intros key Hkey.
    rewrite forallb_forall in Ho. apply Ho. apply list_elem_of_In in Hkey. apply list_elem_of_In.
    inversion Hs as [|? ? ? Hs'|? ? ? Hs']; subst; [by eapply elem_of_sublist|eapply elem_of_sublist; [|exact Hs']; by constructor].
Qed.

(** The member of a [field_of] field. *)
Lemma stage_field {T A} (G : GoJson A) name (proj : T -> A) `{!Setter proj} omit r v :
  proj v = go_zero -> v <| proj := proj v |> = v -> (omit (proj r) = true -> proj r = go_zero) ->
  (omit (proj r) = false -> json_rt G (proj r)) ->
  exists o, stage (field_of name proj omit) r v (v <| proj := proj r |>) o.
Proof.
  intros Hz Hid Homit Hrt. destruct (omit (proj r)) eqn:E.
  - exists None. rewrite (Homit eq_refl), <- Hz, Hid. apply stage_omitted. cbn. by rewrite E.
  - destruct (Hrt eq_refl) as (j & Ej & Sj & Dj). exists (Some j). apply stage_written; [cbn; by rewrite E, Ej|done|].
    intros strict. cbn. by rewrite Hz, Dj.
Qed.
Lemma stages_field {T A} (G : GoJson A) name (proj : T -> A) `{!Setter proj} omit r v fs v' :
  proj v = go_zero -> v <| proj := proj v |> = v -> (omit (proj r) = true -> proj r = go_zero) ->
  (omit (proj r) = false -> json_rt G (proj r)) ->
  (exists ms, stages r fs (v <| proj := proj r |>) v' ms) ->
  exists ms, stages r (field_of name proj omit :: fs) v v' ms.
Proof.
  intros Hz Hid Homit Hrt (ms & Hms).
  destruct (stage_field G name proj omit r v Hz Hid Homit Hrt) as ([j|] & Hst).
  - exists ((name, j) :: ms). exact (stages_written r (field_of name proj omit) fs _ _ v' j ms Hst Hms).
  - exists ms. apply stages_omitted; [|inversion Hst; congruence]. inversion Hst as [Hf Hv|]; subst. by apply stage_omitted.
Qed.
Lemma stages_versioned {T} zero (proj : T -> string) `{!Setter proj} fs r :
  NoDup ("schema_version" :: map fname fs) -> forallb other_key (map fname fs) = true -> valid_utf8 (proj r) = true ->
  (exists ms, stages r fs (zero <| proj := proj r |>) r ms) ->
  json_rtv (struct_json zero (field_of "schema_version" proj never :: fs)) r (proj r).
Proof.
  intros Hn Ho Hv (ms & Hms). eapply (struct_stages_rtv zero (field_of "schema_version" proj never) fs r (proj r) ms); [done..|].
  eapply (stages_written r (field_of "schema_version" proj never)); [|exact Hms].
  apply stage_written; [done|done|]. intros strict. cbn. by rewrite utf8_coerce_valid.
Qed.
Lemma empty_string_zero s : empty_string s = true -> s = go_zero.
Proof. apply String.eqb_eq. Qed.
Lemma nil_pointer_zero {A} `{GoJson A} (o : option A) : nil_pointer o = true -> o = go_zero.
Proof. by destruct o. Qed.

(** * Lines *)

Lemma no_newline_app a b : no_byte 10 (String.append a b) = no_byte 10 a && no_byte 10 b.
Proof. unfold no_byte. by rewrite bytes_app, forallb_app. Qed.
Lemma clean_no_newline s : clean s = true -> no_byte 10 s = true.
Proof.
  unfold clean, no_byte. intros H. apply forallb_forall. intros b Hb. rewrite forallb_forall in H. specialize (H b Hb).
  unfold clean_byte in H. bool_prop. destruct (Z.eqb_spec b 10); [lia|done].
Qed.
Lemma encode_high r : 128 <= r -> Forall (fun b => 128 <= b) (encode_rune r).
Proof.
  intros Hr. unfold encode_rune.
  assert (forall n, 0 < n -> 0 <= r / n) by (intros; apply Z.div_pos; lia).
  assert (forall x, 0 <= x mod 64) by (intros x; pose proof (Z.mod_pos_bound x 64); lia).
  repeat match goal with |- context [if ?b then _ else _] => destruct b eqn:? end; bool_prop; try lia;
    repeat constructor; try lia; match goal with |- 128 <= ?c + ?x => assert (0 <= x) by auto with zarith; lia end.
Qed.
Lemma not_scalar_text r : ~ scalar r -> encode_rune r = [239; 191; 189].
Proof.
  intros Hn. unfold encode_rune. destruct (_ || _) eqn:E; [done|]. exfalso. apply Hn. unfold scalar. bool_prop.
  split; [lia|]. destruct (Z.leb_spec 55296 r), (Z.leb_spec r 57343); cbn in *; try done; lia.
Qed.
Lemma escape_rune_line r : Forall (fun b => byte_range b /\ b <> 10) (escape_rune r).
Proof.
  destruct (decide (r = 10)) as [->|Hr]; [repeat constructor; unfold byte_range; lia|].
  apply Forall_and. split.
  - destruct (decide (0 <= r <= 1114111 /\ ~ (55296 <= r <= 57343))) as [Hs|Hs]; [by apply escape_bytes|].
    unfold escape_rune.
    repeat match goal with |- context [if ?r =? ?n then _ else _] => destruct (Z.eqb_spec r n); [subst; repeat constructor; unfold byte_range; lia|] end.
    destruct (_ || _); [|rewrite not_scalar_text by done; repeat constructor; unfold byte_range; lia].
    unfold hex4, byte_range. assert (Hh : forall x, 0 <= (if x mod 16 <? 10 then 48 + x mod 16 else 87 + x mod 16) < 256).
    { intros x. pose proof (Z.mod_pos_bound x 16). case_match; lia. }
    repeat constructor; try apply Hh; lia.
  - unfold escape_rune.
    repeat match goal with |- context [if ?r =? ?n then _ else _] => destruct (Z.eqb_spec r n); [subst; repeat constructor; lia|] end.
    destruct (_ || _) eqn:E.
    + unfold hex4. assert (Hh : forall x, (if x mod 16 <? 10 then 48 + x mod 16 else 87 + x mod 16) <> 10).
      { intros x. pose proof (Z.mod_pos_bound x 16). case_match; lia. }
      repeat constructor; try apply Hh; lia.
    + bool_prop. destruct (Z.leb_spec 128 r).
      * eapply Forall_impl; [by apply encode_high|]. cbn. lia.
      * unfold encode_rune. destruct (_ || _); [repeat constructor; lia|]. destruct (Z.ltb_spec r 128); [by repeat constructor|lia].
Qed.

Lemma string_text_line s : no_byte 10 (string_text s) = true.
Proof.
  unfold string_text. rewrite !no_newline_app. change (no_byte 10 quote) with true. rewrite andb_true_r. cbn [andb].
  assert (Hall : Forall (fun b => byte_range b /\ b <> 10) (concat (map escape_unit (runes s)))).
  { apply Forall_concat, Forall_map, Forall_forall. intros rw _. unfold escape_unit.
    destruct (_ && _); [repeat constructor; unfold byte_range; lia|apply escape_rune_line]. }
  unfold no_byte. rewrite bytes_of_bytes by (eapply Forall_impl; [exact Hall|]; by intros ? []).
  apply forallb_forall. intros b Hb. apply list_elem_of_In in Hb. eapply Forall_forall in Hall; [|exact Hb].
  destruct (Z.eqb_spec b 10); [|done]. by destruct Hall.
Qed.
Lemma sep_concat_line l : Forall (fun s => no_byte 10 s = true) l -> no_byte 10 (sep_concat l) = true.
Proof.
  induction 1 as [|s l Hs Hl IH]; [done|]. destruct l as [|t l]; [done|]. cbn [sep_concat] in *.
  rewrite !no_newline_app, Hs. exact IH.
Qed.

(** The text of a document is one line. *)
Lemma render_line j : no_byte 10 (render j) = true.
Proof.
  induction j as [|b|z|f|s|t|d|l IH|ms IH] using json_induction; cbn [render]; try done.
  - by destruct b.
  - apply clean_no_newline, itoa_clean_all.
  - destruct (float_text_ok f) as [_ Hf]. unfold no_byte. apply forallb_forall. intros b Hb%list_elem_of_In.
    rewrite Forall_forall in Hf. apply Hf in Hb. unfold number_text_byte in Hb. destruct (Z.eqb_spec b 10); [lia|done].
  - apply string_text_line.
  - rewrite !no_newline_app, (clean_no_newline (rfc3339 t)) by apply rfc3339_clean. done.
  - apply string_text_line.
  - rewrite !no_newline_app, sep_concat_line; [done|]. by apply Forall_map.
  - rewrite !no_newline_app, sep_concat_line; [done|]. apply Forall_map. eapply Forall_impl; [exact IH|].
    intros [key v] Hv. cbn [fst snd] in *. by rewrite !no_newline_app, string_text_line, Hv.
Qed.
Lemma render_nonempty j : render j <> "".
Proof.
  destruct j as [|b|z|f|s|t|d|l|ms]; try done; [by destruct b| |]; cbn [render]; intros E.
  2:{ destruct (float_text_ok f) as [Hl _]. rewrite E in Hl. change (go_len "") with 0 in Hl. lia. }
  destruct (itoa_head z) as (b & rest & Hb). by rewrite E in Hb.
Qed.
Lemma cut_line line rest :
  no_byte 10 line = true -> cut_byte 10 (String.append line (String (of_byte 10) rest)) = Some (line, rest).
Proof.
  induction line as [|c line IH]; intros Hl; [done|]. unfold no_byte in *. cbn [bytes forallb] in Hl.
  apply andb_true_iff in Hl as [Hc Hl].
  change (String.append (String c line) (String (of_byte 10) rest)) with (String c (String.append line (String (of_byte 10) rest))). cbn [cut_byte].
  destruct (byte_of c =? 10); [done|]. by rewrite (IH Hl).
Qed.

(** The members of a record, one after the other; [rt] proves the round trip of
    a member that is written. *)
Ltac distinct := cbn; apply (bool_decide_unpack _); vm_compute; exact I.
Ltac members rt :=
  repeat (eapply stages_field; [reflexivity|reflexivity|
    first [apply empty_string_zero|apply nil_pointer_zero|by intros ?%Z.eqb_eq|discriminate]|intros ?; rt|]);
  eexists; apply stages_done.
