(* ===== verification/Runbook.v ===== *)
(** The registry of recovery runbooks (src/internal/runbook/runbook.go): the
    validation of a documentation and contract pair, its canonical digest, and
    the audited transaction that stores a runbook once.

    A pair is decoded from the two files' contents; reading the files and
    drawing audit IDs are left out.  The registry itself has no state but the
    store, and [Register] holds its lock, so calls are one after the other. *)
From S2P Require Import Prelude GoLib GoTime GoNumber Sha256 Json Contract ContractFacts Store Redaction AuditChain GoText JsonText.
From stdpp Require Import options.
Local Open Scope Z_scope.

Definition runbook_error := mkError "runbook".
Definition ErrInvalidPair := runbook_error "invalid runbook pair".
Definition ErrDuplicate := runbook_error "duplicate runbook".
Definition ErrInvalidOpts := runbook_error "invalid runbook registry options".

(** * Data *)

Record Pair := mkPair { pr_Runbook : Runbook; pr_Digest : string }.

Record Registration := mkRegistration {
  rn_Pair : Pair;
  rn_ActorIdentity : string;
  rn_RequestID : string;
  rn_ReasonCode : string;
}.

#[export] Instance Registration_eta : Updatable Registration :=
  fun r => mkRegistration (rn_Pair r) (rn_ActorIdentity r) (rn_RequestID r) (rn_ReasonCode r).

Record RegistrationResult := mkRegistrationResult {
  rr_SchemaVersion : string;
  rr_RunbookID : string;
  rr_Digest : string;
}.
Definition RegistrationResult_zero : RegistrationResult := mkRegistrationResult "" "" "".

(** What one call draws from outside: a fresh audit event ID and the clock. *)
Record surroundings := mkSurroundings { at_auditID : result string; at_now : time }.

(** * Validation *)

Definition validCode (value : string) : bool :=
  negb (String.eqb value "") && (go_len value <=? 128) && negb (contains_str ".." value).

Definition validContext (value : Registration) : bool :=
  validCode (rn_ActorIdentity value) && validCode (rn_RequestID value) && validCode (rn_ReasonCode value).

Definition valid_action (action : TypedAction) : result unit :=
  if (negb (String.eqb (act_ActionType action) ActionDockerContainerRestart) &&
      negb (String.eqb (act_ActionType action) ActionDockerComposeServiceRestart)) ||
     (negb (has_prefix "container:" (act_TargetSelector action)) &&
      negb (has_prefix "compose_service:" (act_TargetSelector action))) ||
     contains_str ".." (act_TargetSelector action) || (act_StopTimeout action <=? 0) || (act_Cooldown action <? 0)
  then Fail ErrInvalidPair else Ok tt.

Definition validateRunbook (value : Runbook) : result unit :=
  if negb (String.eqb (rb_SchemaVersion value) SchemaVersionV1) || negb (validCode (rb_RunbookID value)) ||
     negb (validCode (rb_Version value)) || negb (String.eqb (rb_AdapterType value) "docker") ||
     (go_count (rb_TypedActions value) =? 0) || (64 <? go_count (rb_TypedActions value)) ||
     (negb (String.eqb (rb_RiskTier value) RiskLow) && negb (String.eqb (rb_RiskTier value) RiskMedium) &&
      negb (String.eqb (rb_RiskTier value) RiskHigh)) ||
     (rp_MaxAttempts (rb_RetryPolicy value) <? 1) || (10 <? rp_MaxAttempts (rb_RetryPolicy value))
  then Fail ErrInvalidPair
  else for_each valid_action (rb_TypedActions value).

(** ** The front matter of the documentation

    [metadataPattern] on one line, at its start: the key and the value. *)
Definition lit (s : string) : regex := seqs (map (fun b => Class (Z.eqb b)) (bytes s)).
Definition metadataPattern : regex :=
  seqs [star is_space; Group 1 (alts [lit "runbook_id"; lit "version"]); star is_space; lit ":"; star is_space;
        Group 2 (plus identifier_rest); star is_space; EndText].
Definition metadata (line : string) : option (string * string) :=
  let s := rune_list line in
  match matches metadataPattern s 0 [] with
  | (_, c) :: _ => Some (of_runes (group s c 1), of_runes (group s c 2))
  | [] => None
  end.

Fixpoint metadata_lines (values : gmap string string) (lines : list string) : option (gmap string string) :=
  match lines with
  | [] => None
  | line :: lines =>
    if String.eqb (trim_space line) "---" then Some values
    else
      match metadata line with
      | None => metadata_lines values lines
      | Some (key, value) =>
        match values !! key with
        | Some _ => None
        | None => metadata_lines (<[key := value]> values) lines
        end
      end
  end.

Definition markdownMetadata (markdown : string) : option (gmap string string) :=
  let lines := split_byte 10 markdown in
  if (go_count lines <? 4) || negb (String.eqb (trim_space (default "" (head lines))) "---") then None
  else metadata_lines ∅ (tail lines).

(** * The canonical digest

    An object is written again with its names in order, one value per name
    (the last one), without the digest. *)
Definition CanonicalDigest (doc : document) : result string :=
  match doc with
  | Text (JObj members) false =>
    let object : gmap string json := foldl (fun m kv => <[kv.1 := kv.2]> m) ∅ members in
    Ok (sha256_hex (render (JObj (merge_sort entry_le (map_to_list (delete "digest" object))))))
  | Text JNull false => Ok (sha256_hex (render JNull))
  | _ => Fail ErrInvalidPair
  end.

Definition Digest (value : Runbook) : result string :=
  match Marshal (value <| rb_Digest := "" |>) with
  | None => Fail ErrInvalidPair
  | Some document => CanonicalDigest document
  end.

Definition runbook_options : DecodeOptions Runbook :=
  {| MaxBytes := MaxDocumentBytes; SchemaVersion := SchemaVersionV1; Validate := Some validateRunbook |}.

Definition Decode (markdown : string) (doc : document) : result Pair :=
  if (go_len markdown =? 0) || (MaxDocumentBytes <? go_len markdown) || (doc_len doc =? 0) || (MaxDocumentBytes <? doc_len doc)
  then Fail ErrInvalidPair
  else
    match Json.Decode doc runbook_options with
    | Fail _ => Fail ErrInvalidPair
    | Ok runbook =>
      match markdownMetadata markdown with
      | None => Fail ErrInvalidPair
      | Some metadata =>
        if negb (String.eqb (default "" (metadata !! "runbook_id")) (rb_RunbookID runbook)) ||
           negb (String.eqb (default "" (metadata !! "version")) (rb_Version runbook))
        then Fail ErrInvalidPair
        else
          match Digest runbook with
          | Fail _ => Fail ErrInvalidPair
          | Ok digest =>
            if negb (String.eqb (rb_Digest runbook) "") && negb (String.eqb (rb_Digest runbook) digest)
            then Fail ErrInvalidPair
            else Ok (mkPair (runbook <| rb_Digest := digest |>) digest)
          end
      end
    end.

(** * Registration *)

Section Registry.
Context `{Bolt}.

Definition appendAudit (env : surroundings) (registration : Registration) (res reason : string)
    (change : option (st db unit)) : st db unit :=
  st_lift (at_auditID env) ≫= fun id =>
  if is_zero (at_now env) then st_fail ErrInvalidOpts
  else
    AuditChain.Append
      (mkAuditEvent SchemaVersionV1 id "runbook" (rb_RunbookID (pr_Runbook (rn_Pair registration)))
         (rn_ActorIdentity registration) "runbook.register" res reason (at_now env) "" "") change ≫= fun _ => mret tt.

(** The transaction: whether the runbook was there already. *)
Definition register_body (env : surroundings) (registration : Registration) : st db bool :=
  let runbook := pr_Runbook (rn_Pair registration) in
  Get BucketRunbooks (rb_RunbookID runbook) ≫= fun found =>
  match found with
  | Some _ => appendAudit env registration "rejected" "duplicate_runbook" None ≫= fun _ => mret true
  | None =>
    match Marshal runbook with
    | None => st_fail (mkError "json" "unsupported value")
    | Some document =>
      appendAudit env registration "accepted" (rn_ReasonCode registration)
        (Some (Put BucketRunbooks (rb_RunbookID runbook) document)) ≫= fun _ => mret false
    end
  end.

Definition Register (env : surroundings) (registration : Registration) (d : db) : result RegistrationResult * db :=
  let pair := rn_Pair registration in
  match Digest (pr_Runbook pair) with
  | Fail _ => (Fail ErrInvalidOpts, d)
  | Ok digest =>
    if negb (validContext registration) || negb (is_ok (validateRunbook (pr_Runbook pair))) ||
       String.eqb (pr_Digest pair) "" || negb (String.eqb (pr_Digest pair) digest) ||
       negb (String.eqb (rb_Digest (pr_Runbook pair)) (pr_Digest pair))
    then (Fail ErrInvalidOpts, d)
    else
      match Update (register_body env registration) d with
      | (Fail err, d) => (Fail err, d)
      | (Ok true, d) => (Fail ErrDuplicate, d)
      | (Ok false, d) => (Ok (mkRegistrationResult SchemaVersionV1 (rb_RunbookID (pr_Runbook pair)) (pr_Digest pair)), d)
      end
  end.
End Registry.

(** * Facts *)

(** The digest does not depend on the digest member. *)
Lemma Digest_ignores digest rb : Digest (rb <| rb_Digest := digest |>) = Digest rb.
Proof. by destruct rb. Qed.

Lemma Marshal_digest rb doc : Marshal rb = Some doc -> exists digest, Digest rb = Ok digest.
Proof.
  intros Hm. unfold Digest, Marshal in *. destruct rb as [v i ver dig ad tc ta rt ae ap pre rp sp].
  unfold Runbook_json in *. cbn -[merge_sort] in *.
  destruct (to_json tc); [|done]. destruct (to_json ta); [|done]. destruct (to_json pre); [|done].
  cbn -[merge_sort] in *. by eexists.
Qed.

(** What a stored runbook satisfies under its key. *)
Record stored_runbook (key : string) (doc : document) (rb : Runbook) : Prop := {
  sr_marshalled : Marshal rb = Some doc;
  sr_key : rb_RunbookID rb = key;
  sr_valid : validateRunbook rb = Ok tt;
  sr_digest : Digest rb = Ok (rb_Digest rb);
}.

Section Facts.
Context `{BoltLaws}.
#[local] Set Default Proof Using "Type*".

Definition registry_ok (d : db) : Prop :=
  forall key doc, kv_get d BucketRunbooks key = Some doc -> exists rb, stored_runbook key doc rb.

(** The audit event of a registration. *)
Definition register_event (env : surroundings) (registration : Registration) (id res reason : string) : AuditEvent :=
  mkAuditEvent SchemaVersionV1 id "runbook" (rb_RunbookID (pr_Runbook (rn_Pair registration)))
    (rn_ActorIdentity registration) "runbook.register" res reason (at_now env) "" "".

(** One audit event was added to the log, unless its ID was taken. *)
Definition audited (env : surroundings) (registration : Registration) (res reason : string) (d d' : db) : Prop :=
  exists id, at_auditID env = Ok id /\
    forall evs, holds_log d evs -> id ∉ map ev_EventID evs ->
      holds_log d' (evs ++ [stamped evs (register_event env registration id res reason)]).

Lemma register_audit env registration res reason change d u d' :
  (change = None \/ exists key doc, change = Some (Put BucketRunbooks key doc)) ->
  appendAudit env registration res reason change d = Ok (u, d') ->
  audited env registration res reason d d' /\
  exists d1, apply_change change d d1 /\ forall b, b <> BucketAudit -> same_bucket b d1 d'.
Proof.
  intros Hc. unfold appendAudit. intros (id & d0 & Hid & Happ)%st_bind_ok. unfold st_lift in Hid.
  destruct (at_auditID env) as [id'|] eqn:Ei; [|done]. injection Hid as -> <-. destruct (is_zero _); [done|].
  apply st_bind_ok in Happ as (ev & d1 & Happ & [= _ <-]). split; [|by eapply Append_frame].
  exists id. split; [done|]. intros evs Hlog Hfresh.
  assert (Hcalls : store_calls change).
  { intros c d0 u0 d2 -> Hp. destruct Hc as [|(key & doc & [= ->])]; [done|]. destruct u0. eapply rtc_once, op_put, Hp. }
  by destruct (Append_log (register_event env registration id res reason) _ _ _ _ _ Hcalls Hlog Hfresh Happ) as (-> & Hl & _).
Qed.

(** The three ways a registration ends. *)
Inductive outcome (env : surroundings) (registration : Registration) (d d' : db) : result RegistrationResult -> Prop :=
| outcome_accepted doc :
    let rb := pr_Runbook (rn_Pair registration) in
    validContext registration = true -> stored_runbook (rb_RunbookID rb) doc rb ->
    kv_get d BucketRunbooks (rb_RunbookID rb) = None -> kv_get d' BucketRunbooks (rb_RunbookID rb) = Some doc ->
    (forall b key, b <> BucketAudit -> (b, key) <> (BucketRunbooks, rb_RunbookID rb) -> kv_get d' b key = kv_get d b key) ->
    audited env registration "accepted" (rn_ReasonCode registration) d d' ->
    outcome env registration d d' (Ok (mkRegistrationResult SchemaVersionV1 (rb_RunbookID rb) (rb_Digest rb)))
| outcome_duplicate doc :
    kv_get d BucketRunbooks (rb_RunbookID (pr_Runbook (rn_Pair registration))) = Some doc ->
    (forall b, b <> BucketAudit -> same_bucket b d d') ->
    audited env registration "rejected" "duplicate_runbook" d d' ->
    outcome env registration d d' (Fail ErrDuplicate)
| outcome_refused err : d' = d -> outcome env registration d d' (Fail err).

Lemma Register_outcome env registration d res d' :
  Register env registration d = (res, d') -> outcome env registration d d' res.
Proof.
  unfold Register. cbv zeta. destruct (Digest _) as [digest|] eqn:Ed; [|intros [= <- <-]; by constructor].
  destruct (_ || negb (String.eqb (rb_Digest _) _)) eqn:Eg; [intros [= <- <-]; by constructor|].
  repeat (apply orb_false_iff in Eg as [Eg ?]). rewrite !negb_false_iff, ?String.eqb_eq in *.
  destruct (Update _ _) as [[dup|err] d1] eqn:Eu.
  2: { apply Update_fail in Eu. intros [= <- <-]. by constructor. }
  apply Update_ok in Eu. unfold register_body in Eu. cbv zeta in Eu.
  apply st_bind_ok in Eu as (found & d0 & (_ & _ & _ & -> & ->)%Get_ok & Eu).
  destruct (kv_get d _ _) as [old|] eqn:Eold.
  - apply st_bind_ok in Eu as (u & d2 & (Ha & d3 & -> & Hs)%register_audit & [= <- <-]); [|by left].
    intros [= <- <-]. by eapply outcome_duplicate.
  - destruct (Marshal _) as [doc|] eqn:Em; [|done].
    apply st_bind_ok in Eu as (u & d2 & (Ha & d3 & (u' & Hput) & Hs)%register_audit & [= <- <-]); [|by right; eauto].
    intros [= <- <-]. assert (Hdig : pr_Digest (rn_Pair registration) = rb_Digest (pr_Runbook (rn_Pair registration))) by done.
    rewrite Hdig. apply (outcome_accepted _ _ _ _ doc); try done.
    + split; try done; [by destruct (validateRunbook _) as [[]|]|by congruence].
    + rewrite (Hs BucketRunbooks) by done. by eapply Put_get.
    + intros b key Hb Hne. rewrite (Hs b) by done. apply Put_ok in Hput as (_ & _ & _ & _ & Hput). by eapply get_put_ne.
Qed.

Lemma outcome_kept env registration d d' res key doc :
  outcome env registration d d' res -> kv_get d BucketRunbooks key = Some doc -> kv_get d' BucketRunbooks key = Some doc.
Proof.
  destruct 1 as [doc' rb _ _ Hn _ Hs _|doc' _ Hs _|err ->]; intros Hg; [|by rewrite Hs|done].
  destruct (decide (key = rb_RunbookID rb)) as [->|Hne]; [unfold rb in *; congruence|]. rewrite Hs; [done|done|congruence].
Qed.

Lemma outcome_registry env registration d d' res :
  outcome env registration d d' res -> registry_ok d -> registry_ok d'.
Proof.
  destruct 1 as [doc' rb _ Hst _ Hp Hs _|doc' _ Hs _|err ->]; intros Hok key doc Hg; [|apply Hok; by rewrite <- Hs|by apply Hok].
  destruct (decide (key = rb_RunbookID rb)) as [->|Hne]; [exists rb; congruence|].
  apply Hok. rewrite <- Hg. symmetry. apply Hs; [done|congruence].
Qed.
End Facts.

(** ** Decoded pairs *)

Lemma validateRunbook_codes rb :
  validateRunbook rb = Ok tt -> rb_SchemaVersion rb = SchemaVersionV1 /\ rb_RunbookID rb <> "" /\ rb_Version rb <> "".
Proof.
  unfold validateRunbook, validCode. pass_guard E. intros _. repeat (apply orb_false_iff in E as [E ?]).
  rewrite negb_false_iff, !andb_true_iff, ?negb_true_iff, ?String.eqb_eq, ?String.eqb_neq in *. naive_solver.
Qed.
Lemma validateRunbook_digest rb digest : validateRunbook (rb <| rb_Digest := digest |>) = validateRunbook rb.
Proof. by destruct rb. Qed.
Lemma Marshal_nonempty (rb : Runbook) doc : Marshal rb = Some doc -> 0 < doc_len doc.
Proof.
  unfold Marshal, Runbook_json. cbn [to_json struct_json]. intros (j & (ms & _ & ->)%fmap_Some & ->)%fmap_Some. unfold doc_len. cbn [doc_bytes render].
  rewrite go_len_app. change (go_len "{") with 1. unfold go_len. lia.
Qed.
Lemma decode_runbook (rb : Runbook) doc :
  Marshal rb = Some doc -> Runbook_ok rb = true -> validateRunbook rb = Ok tt -> doc_len doc <= MaxDocumentBytes ->
  Json.Decode doc runbook_options = Ok rb.
Proof.
  intros Hm Hok Hv Hl. pose proof (validateRunbook_codes _ Hv) as (Hs & _). pose proof (Runbook_rtv rb Hok) as Hrt.
  rewrite Hs in Hrt. destruct (Decode_rtv rb runbook_options validateRunbook Hrt) as (doc' & Hm' & Hd); try done.
  rewrite Hm in Hm'. injection Hm' as <-. by apply Hd.
Qed.

Lemma known_default (meta : gmap string string) key value :
  negb (String.eqb (default "" (meta !! key)) value) = false -> value <> "" -> meta !! key = Some value.
Proof. rewrite negb_false_iff, String.eqb_eq. destruct (meta !! key); cbn; congruence. Qed.

(** A decoded pair is a valid runbook whose identity and version the
    documentation repeats and whose digest is its own, exactly as registration
    demands; written down again it decodes to the same pair. *)
Lemma Decode_pair markdown doc pair :
  Decode markdown doc = Ok pair ->
  let rb := pr_Runbook pair in
  validateRunbook rb = Ok tt /\ Digest rb = Ok (pr_Digest pair) /\ rb_Digest rb = pr_Digest pair /\
  (exists meta, markdownMetadata markdown = Some meta /\ meta !! "runbook_id" = Some (rb_RunbookID rb) /\
     meta !! "version" = Some (rb_Version rb)) /\
  forall doc', Marshal rb = Some doc' -> Runbook_ok rb = true -> doc_len doc' <= MaxDocumentBytes ->
    Decode markdown doc' = Ok pair.
Proof.
  unfold Decode at 1. pass_guard El. destruct (Json.Decode doc _) as [rb|] eqn:Ed; [|done].
  destruct (markdownMetadata markdown) as [meta|] eqn:Em; [|done]. pass_guard Emeta.
  destruct (Digest rb) as [digest|] eqn:Edig; [|done]. pass_guard Eown. intros [= <-]. cbv zeta. cbn [pr_Runbook pr_Digest].
  apply Decode_ok in Ed as (j & validate & _ & [= <-] & Hv & _).
  pose proof (validateRunbook_codes _ Hv) as (_ & Hid & Hver). apply orb_false_iff in Emeta as [Hmid Hmver].
  apply known_default in Hmid; [|done]. apply known_default in Hmver; [|done].
  rewrite validateRunbook_digest, Digest_ignores. split_and!; [done|done|by destruct rb|exists meta; by destruct rb|].
  intros doc' Hm Hok Hl. unfold Decode. apply orb_false_iff in El as [[-> _]%orb_false_iff _]. cbn [orb].
  pose proof (Marshal_nonempty _ _ Hm). rewrite (proj2 (Z.eqb_neq _ _)), (proj2 (Z.ltb_ge _ _)) by lia. cbn [orb].
  rewrite (decode_runbook _ _ Hm) by (rewrite ?validateRunbook_digest; done). rewrite Em, Digest_ignores, Edig.
  replace (rb_RunbookID (rb <| rb_Digest := digest |>)) with (rb_RunbookID rb) by by destruct rb.
  replace (rb_Version (rb <| rb_Digest := digest |>)) with (rb_Version rb) by by destruct rb.
  replace (rb_Digest (rb <| rb_Digest := digest |>)) with digest by by destruct rb.
  rewrite Hmid, Hmver. cbn [default]. rewrite !String.eqb_refl. cbn [negb orb]. rewrite andb_false_r. by destruct rb.
Qed.

(** ** The digest identifies the runbook *)

Lemma constraint_textual : textual TargetConstraint_json TargetConstraint_ok.
Proof.
  split.
  - intros [f v] j Hok [= <-]. unfold TargetConstraint_ok in Hok. cbn in Hok. bool_prop. done.
  - intros [f v] [f' v'] j j' Hok Hok' [= <-] [= <-] He. unfold TargetConstraint_ok in *. cbn in Hok, Hok'. bool_prop.
    cbn in He. by injection He as -> ->.
Qed.
Lemma action_textual : textual TypedAction_json TypedAction_ok.
Proof.
  split.
  - intros [a t s c] j Hok [= <-]. unfold TypedAction_ok in Hok. cbn in Hok. bool_prop. cbn.
    split_and!; try done; apply duration_utf8.
  - intros [a t s c] [a' t' s' c'] j j' Hok Hok' [= <-] [= <-] He. unfold TypedAction_ok in *. cbn in Hok, Hok'. bool_prop.
    cbn in He. injection He as -> -> Hs Hc.
    apply duration_text_inj in Hs as ->. by apply duration_text_inj in Hc as ->.
Qed.

(** The members of a runbook's text, in the order of their names. *)
Definition canonical_members (rb : Runbook) (constraints actions preconditions : json) : list (string * json) :=
  [("adapter_type", JStr (rb_AdapterType rb));
   ("approval_policy", JObj [("required", JBool (ap_Required (rb_ApprovalPolicy rb)))]);
   ("auto_execute", JBool (rb_AutoExecute rb)); ("preconditions", preconditions);
   ("retry_policy", JObj [("max_attempts", JInt (rp_MaxAttempts (rb_RetryPolicy rb)))]);
   ("risk_tier", JStr (rb_RiskTier rb)); ("runbook_id", JStr (rb_RunbookID rb));
   ("schema_version", JStr (rb_SchemaVersion rb));
   ("stabilization_policy", JObj [("recovery_samples", JInt (sp_RecoverySamples (rb_StabilizationPolicy rb)));
                                  ("window", JDur (sp_Window (rb_StabilizationPolicy rb)))]);
   ("target_constraints", constraints); ("typed_actions", actions);
   ("version", JStr (rb_Version rb))].

Lemma canonical_order v1 v2 v3 v4 v5 v6 v7 v8 v9 v10 v11 v12 v13 :
  merge_sort entry_le (map_to_list (delete "digest" (foldl (fun (m : gmap string json) kv => <[kv.1 := kv.2]> m) ∅
    [("schema_version", v1); ("runbook_id", v2); ("version", v3); ("digest", v4); ("adapter_type", v5);
     ("target_constraints", v6); ("typed_actions", v7); ("risk_tier", v8); ("auto_execute", v9); ("approval_policy", v10);
     ("preconditions", v11); ("retry_policy", v12); ("stabilization_policy", v13)]))) =
  [("adapter_type", v5); ("approval_policy", v10); ("auto_execute", v9); ("preconditions", v11); ("retry_policy", v12);
   ("risk_tier", v8); ("runbook_id", v2); ("schema_version", v1); ("stabilization_policy", v13);
   ("target_constraints", v6); ("typed_actions", v7); ("version", v3)].
Proof. vm_compute. reflexivity. Qed.

Lemma Ok_inj {A} (a b : A) : Ok a = Ok b -> a = b.
Proof. congruence. Qed.
Lemma Digest_members rb digest :
  Digest rb = Ok digest ->
  exists constraints actions preconditions,
    to_json (rb_TargetConstraints rb) = Some constraints /\ to_json (rb_TypedActions rb) = Some actions /\
    to_json (rb_Preconditions rb) = Some preconditions /\
    digest = sha256_hex (render (JObj (canonical_members rb constraints actions preconditions))).
Proof.
  unfold Digest, Marshal. destruct rb as [v i ver dig ad tc ta rt ae [ap] pre [rp] [s w]]. unfold Runbook_json.
  cbn -[merge_sort foldl utf8_coerce entry_le delete]. destruct (to_json tc) as [tcj|]; [|done]. destruct (to_json ta) as [taj|]; [|done].
  destruct (to_json pre) as [prej|]; [|done].
  cbn -[merge_sort foldl utf8_coerce entry_le delete render sha256_hex]. intros Hd%Ok_inj. rewrite <- Hd. exists tcj, taj, prej. split_and!; [done..|].
  rewrite canonical_order. reflexivity.
Qed.

Lemma canonical_plain rb constraints actions preconditions :
  Runbook_ok rb = true -> to_json (rb_TargetConstraints rb) = Some constraints ->
  to_json (rb_TypedActions rb) = Some actions -> to_json (rb_Preconditions rb) = Some preconditions ->
  plain (norm (JObj (canonical_members rb constraints actions preconditions))).
Proof.
  unfold Runbook_ok. intros Hok Hc Ha Hp. bool_prop.
  apply (tx_plain _ _ (slice_textual _ _ constraint_textual)) in Hc; [|done].
  apply (tx_plain _ _ (slice_textual _ _ action_textual)) in Ha; [|done].
  apply (tx_plain _ _ (slice_textual _ _ string_textual)) in Hp; [|done].
  unfold canonical_members. cbn [norm map fst snd].
  cbn [plain fst snd]. split_and!; try done. apply duration_utf8.
Qed.

Lemma runbook_canonical_inj a b ca aa pa cb ab pb :
  Runbook_ok a = true -> Runbook_ok b = true ->
  to_json (rb_TargetConstraints a) = Some ca -> to_json (rb_TypedActions a) = Some aa -> to_json (rb_Preconditions a) = Some pa ->
  to_json (rb_TargetConstraints b) = Some cb -> to_json (rb_TypedActions b) = Some ab -> to_json (rb_Preconditions b) = Some pb ->
  norm (JObj (canonical_members a ca aa pa)) = norm (JObj (canonical_members b cb ab pb)) ->
  a <| rb_Digest := "" |> = b <| rb_Digest := "" |>.
Proof.
  unfold Runbook_ok. intros Ha Hb Hca Haa Hpa Hcb Hab Hpb He. bool_prop. unfold canonical_members in He. cbn [norm map fst snd] in He.
  injection He as Had Hap Hae Hpre Hrp Hrt Hid Hver Hrs Hw Htc Hta Hv.
  assert (rb_TargetConstraints a = rb_TargetConstraints b) by (eapply (tx_inj _ _ (slice_textual _ _ constraint_textual)); [| |exact Hca|exact Hcb|exact Htc]; done).
  assert (rb_TypedActions a = rb_TypedActions b) by (eapply (tx_inj _ _ (slice_textual _ _ action_textual)); [| |exact Haa|exact Hab|exact Hta]; done).
  assert (rb_Preconditions a = rb_Preconditions b) by (eapply (tx_inj _ _ (slice_textual _ _ string_textual)); [| |exact Hpa|exact Hpb|exact Hpre]; done).
  apply duration_text_inj in Hw. destruct a as [? ? ? ? ? ? ? ? ? [] ? [] []], b as [? ? ? ? ? ? ? ? ? [] ? [] []]. cbn in *. subst. reflexivity.
Qed.

(** A digest identifies a runbook: two runbooks with the same digest are
    equal in every member but the digest itself, unless SHA-256 collides. *)
Lemma Digest_identifies a b digest :
  Runbook_ok a = true -> Runbook_ok b = true -> Digest a = Ok digest -> Digest b = Ok digest ->
  a <| rb_Digest := "" |> = b <| rb_Digest := "" |> \/ sha256_collision.
Proof.
  intros Ha Hb (ca & aa & pa & Hca & Haa & Hpa & Hda)%Digest_members (cb & ab & pb & Hcb & Hab & Hpb & Hdb)%Digest_members.
  destruct (decide (render (JObj (canonical_members a ca aa pa)) = render (JObj (canonical_members b cb ab pb)))) as [He|Hne].
  - left. apply render_inj in He; [|by apply canonical_plain..]. by eapply runbook_canonical_inj.
  - right. exists (render (JObj (canonical_members a ca aa pa))), (render (JObj (canonical_members b cb ab pb))).
    exact (conj Hne (eq_trans (eq_sym Hda) Hdb)).
Qed.

(** ** The registry over time *)

Section Properties.
Context `{BoltLaws}.
#[local] Set Default Proof Using "Type*".

(** What a registration does: it stores a valid runbook under its own
    digest and identity, where none was, and one accepted audit event; or it
    finds the identity taken, changes no record and adds a rejected audit
    event; or it changes nothing. *)
Lemma Registration_effect env registration d res d' :
  Register env registration d = (res, d') -> outcome env registration d d' res.
Proof. apply Register_outcome. Qed.

(** The store over time: registrations, and anything that leaves the runbooks
    alone. *)
Inductive history : db -> db -> Prop :=
| history_start d : history d d
| history_register d d1 env registration res d2 :
    history d d1 -> Register env registration d1 = (res, d2) -> history d d2
| history_other d d1 d2 : history d d1 -> same_bucket BucketRunbooks d1 d2 -> history d d2.

(** C23: a registered runbook is immutable: over any number of registrations the
    record stored under an identity never changes, and every record stays a
    valid runbook under its identity with the digest of its own content. *)
Theorem runbooks_immutable d d' :
  history d d' -> registry_ok d ->
  registry_ok d' /\ forall key doc, kv_get d BucketRunbooks key = Some doc -> kv_get d' BucketRunbooks key = Some doc.
Proof.
  intros Hh Hok. induction Hh as [d|d d1 env registration res d2 _ IH Hr|d d1 d2 _ IH Hs]; [done|..].
  - apply Register_outcome in Hr. destruct (IH Hok) as [Hok1 Hkept]. split; [by eapply outcome_registry|].
    intros key doc Hg. eapply outcome_kept; [done|]. by apply Hkept.
  - destruct (IH Hok) as [Hok1 Hkept]. split.
    + intros key doc. rewrite Hs. apply Hok1.
    + intros key doc Hg. rewrite Hs. by apply Hkept.
Qed.
End Properties.

(** * Examples *)

Definition demo_runbook : Runbook :=
  mkRunbook SchemaVersionV1 "restart-checkout" "1" "" "docker" [mkTargetConstraint "target_id" "checkout"]
    [mkTypedAction ActionDockerContainerRestart "container:checkout" (10 * second) (5 * minute)] RiskLow false
    (mkApprovalPolicy true) ["container running"] (mkRetryPolicy 2) (mkStabilizationPolicy 2 minute).
Definition line (l : list string) : string := join (String (of_byte 10) EmptyString) l.
Definition demo_markdown : string :=
  line ["---"; "runbook_id: restart-checkout"; "version: 1 "; "owner: sre"; "---"; "# Restart"].

Example demo_metadata :
  (fun meta : gmap string string => (meta !! "runbook_id", meta !! "version")) <$> markdownMetadata demo_markdown =
    Some (Some "restart-checkout", Some "1") /\
  markdownMetadata (line ["---"; "version: 1"; "version: 2"; "---"]) = None /\
  markdownMetadata (line ["---"; "runbook_id: a"; "version: 1"]) = None.
Proof. vm_compute. split_and!; reflexivity. Qed.

Definition digest_of (rb : Runbook) : string := match Digest rb with Ok digest => digest | Fail _ => "" end.
Definition demo_registered : Runbook := demo_runbook <| rb_Digest := digest_of demo_runbook |>.
Definition demo_document : document := default (Bytes "") (Marshal demo_runbook).
Definition demo_pair : Pair := mkPair demo_registered (digest_of demo_runbook).
Lemma demo_decode : Decode demo_markdown demo_document = Ok demo_pair.
Proof. vm_compute. reflexivity. Qed.
Lemma Decode_pair_witness :
  Digest demo_registered = Ok (digest_of demo_runbook) /\ validateRunbook demo_registered = Ok tt.
Proof.
  destruct (Decode_pair demo_markdown demo_document demo_pair demo_decode) as (Hv & Hd & _). exact (conj Hd Hv).
Defined.

Lemma demo_digest : Digest demo_runbook = Ok (digest_of demo_runbook).
Proof. vm_compute. reflexivity. Qed.
Lemma demo_runbook_texts : Runbook_ok demo_registered = true /\ Runbook_ok demo_runbook = true.
Proof. vm_compute. split; reflexivity. Qed.
Lemma Digest_identifies_witness :
  demo_registered <| rb_Digest := "" |> = demo_runbook <| rb_Digest := "" |> \/ sha256_collision.
Proof.
  exact (Digest_identifies demo_registered demo_runbook (digest_of demo_runbook) (proj1 demo_runbook_texts) (proj2 demo_runbook_texts)
    (eq_trans (Digest_ignores _ demo_runbook) demo_digest) demo_digest).
Defined.

Definition demo_env (id : string) : surroundings := mkSurroundings (Ok id) (738000 * 86400 * second).
Definition demo_registration : Registration := mkRegistration demo_pair "uid:0/gid:0" "request-1" "operator_requested".
Definition demo_store : @db gmapBolt := {[BucketRunbooks := ∅; BucketAudit := ∅]}.
Definition registered1 : result RegistrationResult * @db gmapBolt := Register (demo_env "runbook-1") demo_registration demo_store.
Definition registered2 : result RegistrationResult * @db gmapBolt := Register (demo_env "runbook-2") demo_registration registered1.2.
Example demo_register :
  is_ok registered1.1 = true /\ registered2.1 = Fail ErrDuplicate /\
  (Register (demo_env "runbook-3") (demo_registration <| rn_RequestID := "" |>) demo_store).1 = Fail ErrInvalidOpts.
Proof. vm_compute. split_and!; reflexivity. Qed.
Lemma split_result (out : result RegistrationResult * @db gmapBolt) : out = (out.1, out.2).
Proof. by destruct out. Qed.

Lemma Registration_effect_witness :
  exists doc, kv_get registered1.2 BucketRunbooks "restart-checkout" = Some doc /\ stored_runbook "restart-checkout" doc demo_registered.
Proof.
  pose proof (Registration_effect (H := gmapBolt) (demo_env "runbook-1") demo_registration demo_store _ _ (split_result registered1)) as Ho.
  assert (Hok : is_ok registered1.1 = true) by (exact (proj1 demo_register)).
  destruct Ho as [doc rb _ Hst _ Hg _ _|doc _ _ _|err _].
  - exact (ex_intro _ doc (conj Hg Hst)).
  - discriminate Hok.
  - discriminate Hok.
Defined.

Lemma demo_store_ok : registry_ok demo_store.
Proof. intros key doc Hg. vm_compute in Hg. destruct key; discriminate Hg. Qed.
Lemma demo_registrations : history demo_store registered2.2.
Proof.
  eapply history_register; [eapply history_register; [apply history_start|exact (split_result registered1)]|exact (split_result registered2)].
Qed.
Lemma runbooks_immutable_witness : registry_ok registered2.2.
Proof. exact (proj1 (runbooks_immutable (H := gmapBolt) demo_store registered2.2 demo_registrations demo_store_ok)). Defined.
