(* ===== verification/AdminProtocol.v ===== *)
(** The administrative protocol (src/internal/adminipc/protocol.go): requests
    and responses with their validation and codecs, the framing of messages by
    lines, and the identity of a peer.

    A received message is its bytes up to the end of the stream and the document
    its first line parses to. *)
From S2P Require Import Prelude GoLib GoTime GoNumber Sha256 Json Contract ContractFacts Store Redaction AuditChain GoText Approval Correlator IncidentQuery JsonText JsonStruct Runbook.
From stdpp Require Import options.
Local Open Scope Z_scope.

Definition DefaultReasonCode : string := "operator_requested".
Definition maxRequestIDBytes : Z := 96.
Definition maxReasonCodeBytes : Z := 96.
Definition maxWireLineBytes : Z := MaxDocumentBytes + 1.

Definition admin_error := mkError "adminipc".
Definition ErrInvalidOptions := admin_error "invalid administrative IPC options".
Definition ErrDaemonUnavailable := admin_error "administrative daemon unavailable".
Definition ErrMalformedRequest := admin_error "malformed administrative request".
Definition ErrMalformedResponse := admin_error "malformed administrative response".
Definition ErrRequestRejected := admin_error "administrative request rejected".
Definition ErrIncidentNotFound := admin_error "incident not found".

Definition OperationStatus : string := "status".
Definition OperationBackup : string := "backup".
Definition OperationTargetRegister : string := "target.register".
Definition OperationRunbookRegister : string := "runbook.register".
Definition OperationApprovalGrant : string := "approval.grant".
Definition OperationApprovalDeny : string := "approval.deny".
Definition OperationIncidentList : string := "incident.list".
Definition OperationIncidentShow : string := "incident.show".
Definition StatusRunning : string := "running".
Definition resultSuccess : string := "success".
Definition resultFailure : string := "failure".

(** * Data *)

Record Actor := mkActor { ac_UID : Z; ac_GID : Z }.

(** [decimal]: the digits of a 32-bit number, the last one first. *)
Fixpoint decimal_digits (fuel : nat) (value : Z) (digits : list Z) : list Z :=
  match fuel with
  | O => digits
  | S fuel => if value =? 0 then digits else decimal_digits fuel (value / 10) (value mod 10 + 48 :: digits)
  end.
Definition decimal (value : Z) : string := if value =? 0 then "0" else of_bytes (decimal_digits 10 value []).

Definition Identity (a : Actor) : string :=
  String.append "uid:" (String.append (decimal (ac_UID a)) (String.append "/gid:" (decimal (ac_GID a)))).

Record ApprovalRequest := mkApprovalRequest { aq_CommandID : string; aq_Decision : string; aq_ExpiresAt : time }.
#[export] Instance ApprovalRequest_eta : Updatable ApprovalRequest :=
  fun r => mkApprovalRequest (aq_CommandID r) (aq_Decision r) (aq_ExpiresAt r).
#[export] Instance ApprovalRequest_json : GoJson ApprovalRequest := struct_json (mkApprovalRequest "" "" 0) [
  field_of "command_id" aq_CommandID never;
  field_of "decision" aq_Decision never;
  field_time "expires_at" aq_ExpiresAt].

Record ApprovalResult := mkApprovalResult {
  as_SchemaVersion : string;
  as_ApprovalID : string;
  as_CommandID : string;
  as_Decision : string;
  as_CommandState : string;
  as_ExpiresAt : time;
}.
#[export] Instance ApprovalResult_eta : Updatable ApprovalResult :=
  fun r => mkApprovalResult (as_SchemaVersion r) (as_ApprovalID r) (as_CommandID r) (as_Decision r) (as_CommandState r) (as_ExpiresAt r).
#[export] Instance ApprovalResult_json : GoJson ApprovalResult := struct_json (mkApprovalResult "" "" "" "" "" 0) [
  field_of "schema_version" as_SchemaVersion never;
  field_of "approval_id" as_ApprovalID never;
  field_of "command_id" as_CommandID never;
  field_of "decision" as_Decision never;
  field_of "command_state" as_CommandState never;
  field_time "expires_at" as_ExpiresAt].

Record Status := mkStatus {
  su_SchemaVersion : string;
  su_State : string;
  su_Capabilities : list string;
  su_Warnings : list string;
  su_Unsupported : list string;
}.
#[export] Instance Status_eta : Updatable Status :=
  fun r => mkStatus (su_SchemaVersion r) (su_State r) (su_Capabilities r) (su_Warnings r) (su_Unsupported r).
#[export] Instance Status_json : GoJson Status := struct_json (mkStatus "" "" [] [] []) [
  field_of "schema_version" su_SchemaVersion never;
  field_of "state" su_State never;
  field_of "capabilities" su_Capabilities never;
  field_of "warnings" su_Warnings never;
  field_of "unsupported" su_Unsupported never].

(** [target.RegistrationResult]. *)
Record TargetResult := mkTargetResult { tr_SchemaVersion : string; tr_Version : Z; tr_TargetID : string }.
#[export] Instance TargetResult_eta : Updatable TargetResult :=
  fun r => mkTargetResult (tr_SchemaVersion r) (tr_Version r) (tr_TargetID r).
#[export] Instance TargetResult_json : GoJson TargetResult := struct_json (mkTargetResult "" 0 "") [
  field_of "schema_version" tr_SchemaVersion never;
  @field_of _ _ uint64_json "version" tr_Version _ never;
  field_of "target_id" tr_TargetID never].

#[export] Instance RegistrationResult_eta : Updatable RegistrationResult :=
  fun r => mkRegistrationResult (rr_SchemaVersion r) (rr_RunbookID r) (rr_Digest r).
#[export] Instance RegistrationResult_json : GoJson RegistrationResult := struct_json RegistrationResult_zero [
  field_of "schema_version" rr_SchemaVersion never;
  field_of "runbook_id" rr_RunbookID never;
  field_of "digest" rr_Digest never].

(** [incident.Filter] on the wire; [omitempty] leaves a zero instant in. *)
#[export] Instance Filter_json : GoJson Filter := struct_json (mkFilter "" 0 0 0 0) [
  field_of "state" fl_State empty_string;
  field_time "from" fl_From;
  field_time "to" fl_To;
  field_of "page_size" fl_PageSize never;
  field_of "offset" fl_Offset never].
(** [incident.Page]: the list of a page is never nil. *)
#[export] Instance Page_eta : Updatable Page := fun r => mkPage (pg_Incidents r) (pg_NextOffset r).
#[export] Instance Page_json : GoJson Page := struct_json (mkPage [] 0) [
  @field_of _ _ (present_json Incident_json) "incidents" pg_Incidents _ never;
  field_of "next_offset" pg_NextOffset never].

Record Request := mkRequest {
  rq_SchemaVersion : string;
  rq_RequestID : string;
  rq_Operation : string;
  rq_ReasonCode : string;
  rq_Target : option ServiceTarget;
  rq_Runbook : option Contract.Runbook;
  rq_Approval : option ApprovalRequest;
  rq_IncidentFilter : option Filter;
  rq_IncidentID : string;
}.
#[export] Instance Request_eta : Updatable Request :=
  fun r => mkRequest (rq_SchemaVersion r) (rq_RequestID r) (rq_Operation r) (rq_ReasonCode r) (rq_Target r) (rq_Runbook r) (rq_Approval r) (rq_IncidentFilter r) (rq_IncidentID r).
Definition Request_zero : Request := mkRequest "" "" "" "" None None None None "".
#[export] Instance Request_json : GoJson Request := struct_json Request_zero [
  field_of "schema_version" rq_SchemaVersion never;
  field_of "request_id" rq_RequestID never;
  field_of "operation" rq_Operation never;
  field_of "reason_code" rq_ReasonCode never;
  field_of "target" rq_Target nil_pointer;
  field_of "runbook" rq_Runbook nil_pointer;
  field_of "approval" rq_Approval nil_pointer;
  field_of "incident_filter" rq_IncidentFilter nil_pointer;
  field_of "incident_id" rq_IncidentID empty_string].

Record response := mkResponse {
  rp_SchemaVersion : string;
  rp_RequestID : string;
  rp_Result : string;
  rp_ErrorCode : string;
  rp_Status : option Status;
  rp_BackupSize : Z;
  rp_TargetResult : option TargetResult;
  rp_RunbookResult : option RegistrationResult;
  rp_ApprovalResult : option ApprovalResult;
  rp_IncidentPage : option Page;
  rp_Incident : option Incident;
}.
#[export] Instance response_eta : Updatable response :=
  fun r => mkResponse (rp_SchemaVersion r) (rp_RequestID r) (rp_Result r) (rp_ErrorCode r) (rp_Status r) (rp_BackupSize r) (rp_TargetResult r) (rp_RunbookResult r) (rp_ApprovalResult r) (rp_IncidentPage r) (rp_Incident r).
Definition response_zero : response := mkResponse "" "" "" "" None 0 None None None None None.
#[export] Instance response_json : GoJson response := struct_json response_zero [
  field_of "schema_version" rp_SchemaVersion never;
  field_of "request_id" rp_RequestID empty_string;
  field_of "result" rp_Result never;
  field_of "error_code" rp_ErrorCode empty_string;
  field_of "status" rp_Status nil_pointer;
  field_of "backup_size" rp_BackupSize (fun size => size =? 0);
  field_of "target_result" rp_TargetResult nil_pointer;
  field_of "runbook_result" rp_RunbookResult nil_pointer;
  field_of "approval_result" rp_ApprovalResult nil_pointer;
  field_of "incident_page" rp_IncidentPage nil_pointer;
  field_of "incident" rp_Incident nil_pointer].

(** * Validation *)

Definition validCode (value : string) (maximum : Z) : bool :=
  if String.eqb value "" || (maximum <? go_len value) then false else forallb audit_rune (map fst (runes value)).
Definition validRequestID (value : string) : bool := validCode value maxRequestIDBytes.
Definition validReasonCode (value : string) : bool := validCode value maxReasonCodeBytes.

Definition validOperation (operation : string) : bool :=
  existsb (String.eqb operation)
    [OperationStatus; OperationBackup; OperationTargetRegister; OperationRunbookRegister; OperationApprovalGrant;
     OperationApprovalDeny; OperationIncidentList; OperationIncidentShow].

Definition validIncidentFilter (filter : Filter) : bool :=
  (0 <=? fl_Offset filter) && (0 <=? fl_PageSize filter) && (fl_PageSize filter <=? 100) &&
  (String.eqb (fl_State filter) "" ||
   existsb (String.eqb (fl_State filter))
     [IncidentOpen; IncidentAnalyzing; IncidentAwaitingApproval; IncidentRecovering; IncidentStabilizing; IncidentClosed;
      IncidentFailed]) &&
  (is_zero (fl_From filter) || is_zero (fl_To filter) || negb (before (fl_To filter) (fl_From filter))).
Definition validIncidentPage (page : Page) : bool :=
  if (pg_NextOffset page <? 0) || (100 <? go_count (pg_Incidents page)) then false
  else forallb (fun value => is_ok (Incident_Validate value)) (pg_Incidents page).

Definition validApprovalRequest (request : option ApprovalRequest) (decision : string) : bool :=
  match request with
  | None => false
  | Some request =>
    validCode (aq_CommandID request) maxRequestIDBytes && String.eqb (aq_Decision request) decision &&
    negb (is_zero (aq_ExpiresAt request))
  end.
Definition validApprovalResult (result : ApprovalResult) : bool :=
  String.eqb (as_SchemaVersion result) SchemaVersionV1 && validCode (as_ApprovalID result) maxRequestIDBytes &&
  validCode (as_CommandID result) maxRequestIDBytes &&
  (String.eqb (as_Decision result) ApprovalGranted || String.eqb (as_Decision result) ApprovalDenied) &&
  (String.eqb (as_CommandState result) RecoveryPending || String.eqb (as_CommandState result) RecoveryDenied) &&
  negb (is_zero (as_ExpiresAt result)).
Definition validTargetResult (result : TargetResult) : bool :=
  if negb (String.eqb (tr_SchemaVersion result) SchemaVersionV1) || (tr_Version result =? 0) ||
     String.eqb (tr_TargetID result) ""
  then false else true.
Definition validRunbookResult (result : RegistrationResult) : bool :=
  String.eqb (rr_SchemaVersion result) SchemaVersionV1 && negb (String.eqb (rr_RunbookID result) "") &&
  negb (String.eqb (rr_Digest result) "").
Definition valid_status (s : Status) : bool :=
  if negb (String.eqb (su_SchemaVersion s) SchemaVersionV1) || negb (String.eqb (su_State s) StatusRunning) ||
     (go_count (su_Capabilities s) =? 0)
  then false
  else
    forallb (fun code => validCode code maxReasonCodeBytes) (su_Capabilities s) &&
    forallb (fun code => validCode code maxReasonCodeBytes) (su_Warnings s) &&
    forallb (fun code => validCode code maxReasonCodeBytes) (su_Unsupported s).

Definition absent {A} (o : option A) : bool := match o with None => true | Some _ => false end.

(** [Request.validate]: the payload of the operation and no other. *)
Definition Request_validate (r : Request) : result unit :=
  if negb (String.eqb (rq_SchemaVersion r) SchemaVersionV1) || negb (validRequestID (rq_RequestID r)) ||
     negb (validOperation (rq_Operation r)) || negb (validReasonCode (rq_ReasonCode r))
  then Fail ErrMalformedRequest
  else
  let no_target := absent (rq_Target r) in
  let no_runbook := absent (rq_Runbook r) in
  let no_approval := absent (rq_Approval r) in
  let no_filter := absent (rq_IncidentFilter r) in
  let no_incident := String.eqb (rq_IncidentID r) "" in
  let version_ok (v : option string) := match v with Some v => String.eqb v SchemaVersionV1 | None => false end in
  let ok :=
    if String.eqb (rq_Operation r) OperationTargetRegister then
      version_ok (tgt_SchemaVersion <$> rq_Target r) && no_runbook && no_approval && no_filter && no_incident
    else if String.eqb (rq_Operation r) OperationRunbookRegister then
      version_ok (rb_SchemaVersion <$> rq_Runbook r) && no_target && no_approval && no_filter && no_incident
    else if String.eqb (rq_Operation r) OperationApprovalGrant then
      validApprovalRequest (rq_Approval r) ApprovalGranted && no_target && no_runbook && no_filter && no_incident
    else if String.eqb (rq_Operation r) OperationApprovalDeny then
      validApprovalRequest (rq_Approval r) ApprovalDenied && no_target && no_runbook && no_filter && no_incident
    else if String.eqb (rq_Operation r) OperationIncidentList then
      no_incident && no_target && no_runbook && no_approval &&
      match rq_IncidentFilter r with Some filter => validIncidentFilter filter | None => false end
    else if String.eqb (rq_Operation r) OperationIncidentShow then
      negb no_incident && no_filter && no_target && no_runbook && no_approval
    else no_target && no_runbook && no_approval && no_filter && no_incident in
  if ok then Ok tt else Fail ErrMalformedRequest.

Definition responsePayloadCount (value : response) : Z :=
  let one (present : bool) : Z := if present then 1 else 0 in
  one (negb (absent (rp_Status value))) + one (negb (rp_BackupSize value =? 0)) +
  one (negb (absent (rp_TargetResult value))) + one (negb (absent (rp_RunbookResult value))) +
  one (negb (absent (rp_ApprovalResult value))) + one (negb (absent (rp_IncidentPage value))) +
  one (negb (absent (rp_Incident value))).

Definition opt_valid {A} (valid : A -> bool) (o : option A) : bool :=
  match o with None => true | Some a => valid a end.

Definition response_validate (r : response) : result unit :=
  if negb (String.eqb (rp_SchemaVersion r) SchemaVersionV1) ||
     (negb (String.eqb (rp_RequestID r) "") && negb (validRequestID (rp_RequestID r)))
  then Fail ErrMalformedResponse
  else
  let counted :=
    if String.eqb (rp_Result r) resultSuccess then String.eqb (rp_ErrorCode r) "" && (responsePayloadCount r =? 1)
    else if String.eqb (rp_Result r) resultFailure then validReasonCode (rp_ErrorCode r) && (responsePayloadCount r =? 0)
    else false in
  if negb counted then Fail ErrMalformedResponse
  else if negb (opt_valid valid_status (rp_Status r)) then Fail ErrMalformedResponse
  else if (rp_BackupSize r <? 0) || negb (opt_valid validTargetResult (rp_TargetResult r)) ||
          negb (opt_valid validRunbookResult (rp_RunbookResult r)) ||
          negb (opt_valid validApprovalResult (rp_ApprovalResult r)) ||
          negb (opt_valid validIncidentPage (rp_IncidentPage r)) ||
          negb (opt_valid (fun incident => is_ok (Incident_Validate incident)) (rp_Incident r))
  then Fail ErrMalformedResponse
  else Ok tt.

(** * Messages *)

Record message := mkMessage { ms_bytes : string; ms_document : document }.

(** [readMessage]: the first line, without its newline. *)
Definition readMessage (m : message) : result document :=
  match cut_byte 10 (ms_bytes m) with
  | None => Fail ErrMalformedRequest
  | Some (line, _) =>
    if maxWireLineBytes <? go_len line + 1 then Fail ErrMalformedRequest
    else if (go_len line =? 0) || (MaxDocumentBytes <? go_len line) then Fail ErrMalformedRequest
    else Ok (ms_document m)
  end.

(** [writeMessage]: the line to write, unless the value is too large. *)
Definition writeMessage {T} `{GoJson T} (value : T) : result message :=
  match Marshal value with
  | None => Fail ErrMalformedResponse
  | Some document =>
    if MaxDocumentBytes <? doc_len document then Fail ErrMalformedResponse
    else Ok (mkMessage (String.append (doc_bytes document) (String (of_byte 10) EmptyString)) document)
  end.

Definition request_options : DecodeOptions Request :=
  {| MaxBytes := MaxDocumentBytes; SchemaVersion := SchemaVersionV1; Validate := Some Request_validate |}.
Definition decodeRequest (doc : document) : result Request :=
  match Json.Decode doc request_options with Ok request => Ok request | Fail _ => Fail ErrMalformedRequest end.
Definition response_options : DecodeOptions response :=
  {| MaxBytes := MaxDocumentBytes; SchemaVersion := SchemaVersionV1; Validate := Some response_validate |}.
Definition decodeResponse (doc : document) : result response :=
  match Json.Decode doc response_options with Ok decoded => Ok decoded | Fail _ => Fail ErrMalformedResponse end.

(** * Facts *)

(** ** Messages *)

Lemma validCode_clean value maximum :
  validCode value maximum = true -> clean value = true /\ go_len value <= maximum /\ value <> "".
Proof.
  unfold validCode. destruct (_ || _) eqn:E; [done|]. unfold runes, clean. rewrite <- length_bytes. intros Ha. bool_prop.
  split_and!; [|done|by intros ->]. eapply audit_runes_clean; [|apply bytes_range|exact Ha]. done.
Qed.
Lemma validCode_utf8 value maximum : validCode value maximum = true -> valid_utf8 value = true.
Proof. intros (? & _)%validCode_clean. by apply clean_valid_utf8. Qed.

(** A written message is read back, whatever follows it on the stream. *)
Lemma readMessage_written {T} `{GoJson T} (value : T) m rest :
  writeMessage value = Ok m ->
  exists j, to_json value = Some j /\ go_len (render j) <= MaxDocumentBytes /\
    readMessage (mkMessage (String.append (ms_bytes m) rest) (ms_document m)) = Ok (Text j false).
Proof.
  unfold writeMessage, Marshal. destruct (to_json value) as [j|] eqn:E; [|done]. cbn [fmap option_fmap option_map].
  destruct (Z.ltb_spec MaxDocumentBytes (doc_len (Text j false))) as [|Hl]; [done|]. intros [= <-].
  exists j. split_and!; [done|exact Hl|]. unfold readMessage. cbn [ms_bytes ms_document].
  rewrite string_app_assoc. cbn [doc_bytes].
  change (String.append (String (of_byte 10) "") rest) with (String (of_byte 10) rest).
  rewrite cut_line by apply render_line. unfold doc_len in Hl. cbn [doc_bytes] in Hl. unfold maxWireLineBytes.
  destruct (Z.ltb_spec (MaxDocumentBytes + 1) (go_len (render j) + 1)); [lia|].
  destruct (Z.ltb_spec MaxDocumentBytes (go_len (render j))); [lia|]. rewrite orb_false_r.
  destruct (Z.eqb_spec (go_len (render j)) 0) as [Hz|]; [|done]. exfalso. apply (render_nonempty j). by destruct (render j).
Qed.

(** ** Codecs *)

Definition ApprovalRequest_ok (r : ApprovalRequest) : bool :=
  valid_utf8 (aq_CommandID r) && valid_utf8 (aq_Decision r) && time_printable (aq_ExpiresAt r).
Lemma ApprovalRequest_rt r : ApprovalRequest_ok r = true -> json_rt ApprovalRequest_json r.
Proof. destruct r. unfold ApprovalRequest_ok, ApprovalRequest_json. struct_rt. Qed.
Definition ApprovalResult_ok (r : ApprovalResult) : bool :=
  valid_utf8 (as_SchemaVersion r) && valid_utf8 (as_ApprovalID r) && valid_utf8 (as_CommandID r) &&
  valid_utf8 (as_Decision r) && valid_utf8 (as_CommandState r) && time_printable (as_ExpiresAt r).
Lemma ApprovalResult_rt r : ApprovalResult_ok r = true -> json_rt ApprovalResult_json r.
Proof. destruct r. unfold ApprovalResult_ok, ApprovalResult_json. struct_rt. Qed.
Definition Status_ok (r : Status) : bool :=
  valid_utf8 (su_SchemaVersion r) && valid_utf8 (su_State r) && forallb valid_utf8 (su_Capabilities r) &&
  forallb valid_utf8 (su_Warnings r) && forallb valid_utf8 (su_Unsupported r).
Lemma Status_rt r : Status_ok r = true -> json_rt Status_json r.
Proof. destruct r. unfold Status_ok, Status_json. struct_rt. Qed.
Definition RegistrationResult_ok (r : RegistrationResult) : bool :=
  valid_utf8 (rr_SchemaVersion r) && valid_utf8 (rr_RunbookID r) && valid_utf8 (rr_Digest r).
Lemma RegistrationResult_rt r : RegistrationResult_ok r = true -> json_rt RegistrationResult_json r.
Proof. destruct r. unfold RegistrationResult_ok, RegistrationResult_json. struct_rt. Qed.
Definition TargetResult_ok (r : TargetResult) : bool :=
  valid_utf8 (tr_SchemaVersion r) && (0 <=? tr_Version r) && (tr_Version r <=? maxUint64) && valid_utf8 (tr_TargetID r).
Lemma TargetResult_rt r : TargetResult_ok r = true -> json_rt TargetResult_json r.
Proof.
  destruct r as [version number id]. unfold TargetResult_ok. cbn. intros. bool_prop. apply struct_stages_rt; [distinct|].
  members ltac:(first [by apply string_rt|by apply uint64_rt]).
Qed.
Definition Filter_ok (r : Filter) : bool :=
  valid_utf8 (fl_State r) && time_printable (fl_From r) && time_printable (fl_To r) && int64_ok (fl_PageSize r) &&
  int64_ok (fl_Offset r).
Lemma Filter_rt r : Filter_ok r = true -> json_rt Filter_json r.
Proof.
  destruct r as [state from to size offset]. unfold Filter_ok. cbn. intros. bool_prop. apply struct_stages_rt; [distinct|].
  members ltac:(first [by apply string_rt|by apply int_rt|by apply time_rt]).
Qed.
Definition Page_ok (r : Page) : bool := forallb Incident_ok (pg_Incidents r) && int64_ok (pg_NextOffset r).
Lemma Page_rt r : Page_ok r = true -> json_rt Page_json r.
Proof.
  destruct r as [incidents next]. unfold Page_ok. cbn. intros. bool_prop. apply struct_stages_rt; [distinct|].
  members ltac:(first [by apply int_rt|apply present_rt, Forall_forall; intros i Hi; apply Incident_rt;
    eapply forallb_forall; [eassumption|by apply list_elem_of_In]]).
Qed.

(** What the codecs keep of a request and of a response. *)
Definition Request_ok (r : Request) : bool :=
  valid_utf8 (rq_SchemaVersion r) && valid_utf8 (rq_RequestID r) && valid_utf8 (rq_Operation r) && valid_utf8 (rq_ReasonCode r) &&
  opt_valid ServiceTarget_ok (rq_Target r) && opt_valid Runbook_ok (rq_Runbook r) &&
  opt_valid ApprovalRequest_ok (rq_Approval r) && opt_valid Filter_ok (rq_IncidentFilter r) && valid_utf8 (rq_IncidentID r).
Definition response_ok (r : response) : bool :=
  valid_utf8 (rp_SchemaVersion r) && valid_utf8 (rp_RequestID r) && valid_utf8 (rp_Result r) && valid_utf8 (rp_ErrorCode r) &&
  opt_valid Status_ok (rp_Status r) && int64_ok (rp_BackupSize r) && opt_valid TargetResult_ok (rp_TargetResult r) &&
  opt_valid RegistrationResult_ok (rp_RunbookResult r) && opt_valid ApprovalResult_ok (rp_ApprovalResult r) &&
  opt_valid Page_ok (rp_IncidentPage r) && opt_valid Incident_ok (rp_Incident r).
Lemma opt_rt {T} zero (fs : list (field T)) (ok : T -> bool) (o : option T) :
  (forall x, ok x = true -> json_rt (struct_json zero fs) x) -> opt_valid ok o = true ->
  json_rt (@pointer_json T (struct_json zero fs)) o.
Proof.
  intros Hrt Ho. destruct o as [x|]; [|by apply pointer_none_rt]. apply pointer_rt; [by apply Hrt|].
  intros j. apply struct_not_null.
Qed.
Lemma Request_rtv r : Request_ok r = true -> json_rtv Request_json r (rq_SchemaVersion r).
Proof.
  destruct r as [v id op reason t rb ap f i]. unfold Request_ok. cbn. intros. bool_prop.
  apply (stages_versioned Request_zero rq_SchemaVersion); [distinct|by vm_compute|done|].
  members ltac:(first [by apply string_rt|by eapply opt_rt; [|eassumption]; eauto using ServiceTarget_rt, Runbook_rt, ApprovalRequest_rt, Filter_rt]).
Qed.
Lemma response_rtv r : response_ok r = true -> json_rtv response_json r (rp_SchemaVersion r).
Proof.
  destruct r as [v id res code st size t rb ap pg i]. unfold response_ok. cbn. intros. bool_prop.
  apply (stages_versioned response_zero rp_SchemaVersion); [distinct|by vm_compute|done|].
  members ltac:(first [by apply string_rt|by apply int_rt|
    by eapply opt_rt; [|eassumption]; eauto using Status_rt, TargetResult_rt, RegistrationResult_rt, ApprovalResult_rt, Page_rt, Incident_rt]).
Qed.

Lemma decodeRequest_written r m rest :
  Request_ok r = true -> Request_validate r = Ok tt -> writeMessage r = Ok m ->
  exists doc, readMessage (mkMessage (String.append (ms_bytes m) rest) (ms_document m)) = Ok doc /\ decodeRequest doc = Ok r.
Proof.
  intros Hok Hv (j & Ej & Hl & Hr)%(readMessage_written _ _ rest). exists (Text j false). split; [exact Hr|].
  destruct (Request_rtv r Hok) as (j' & Ej' & Sj & Dj & Hj). assert (j' = j) as -> by congruence.
  unfold decodeRequest. rewrite (Decode_Marshal r request_options Request_validate j); try done.
  unfold request_options. cbn [SchemaVersion]. rewrite Hj. do 2 f_equal.
  unfold Request_validate in Hv. destruct (String.eqb_spec (rq_SchemaVersion r) SchemaVersionV1); [done|discriminate Hv].
Qed.
Lemma decodeResponse_written r m rest :
  response_ok r = true -> response_validate r = Ok tt -> writeMessage r = Ok m ->
  exists doc, readMessage (mkMessage (String.append (ms_bytes m) rest) (ms_document m)) = Ok doc /\ decodeResponse doc = Ok r.
Proof.
  intros Hok Hv (j & Ej & Hl & Hr)%(readMessage_written _ _ rest). exists (Text j false). split; [exact Hr|].
  destruct (response_rtv r Hok) as (j' & Ej' & Sj & Dj & Hj). assert (j' = j) as -> by congruence.
  unfold decodeResponse. rewrite (Decode_Marshal r response_options response_validate j); try done.
  unfold response_options. cbn [SchemaVersion]. rewrite Hj. do 2 f_equal.
  unfold response_validate in Hv. destruct (String.eqb_spec (rp_SchemaVersion r) SchemaVersionV1); [done|discriminate Hv].
Qed.

(** ** Identities *)

Definition digits_value (digits : list Z) : Z := foldl (fun n d => 10 * n + (d - 48)) 0 digits.
Definition digit (d : Z) : Prop := 48 <= d < 58.
Lemma digits_value_app l r : digits_value (l ++ r) = foldl (fun n d => 10 * n + (d - 48)) (digits_value l) r.
Proof. apply foldl_app. Qed.
Lemma decimal_digits_spec fuel value rest :
  0 <= value < 10 ^ Z.of_nat fuel ->
  exists digits, decimal_digits fuel value rest = (digits ++ rest)%list /\ digits_value digits = value /\ Forall digit digits.
Proof.
  revert value rest. induction fuel as [|fuel IH]; intros value rest Hv.
  { exists []. split_and!; [done|cbn in *; lia|constructor]. }
  cbn [decimal_digits]. destruct (Z.eqb_spec value 0) as [->|Hn]; [exists []; split_and!; [done..|constructor]|].
  rewrite Nat2Z.inj_succ, Z.pow_succ_r in Hv by lia. pose proof (Z.mod_pos_bound value 10).
  destruct (IH (value / 10) (value mod 10 + 48 :: rest)) as (digits & E & Hval & Hd).
  { split; [apply Z.div_pos; lia|apply Z.div_lt_upper_bound; lia]. }
  exists (digits ++ [value mod 10 + 48])%list. split_and!.
  - rewrite E, <- app_assoc. done.
  - rewrite digits_value_app, Hval. cbn. pose proof (Z.div_mod value 10). lia.
  - apply Forall_app. split; [done|]. constructor; [unfold digit; lia|constructor].
Qed.
Definition uint32 (value : Z) : Prop := 0 <= value < 2 ^ 32.
Lemma decimal_spec value : uint32 value -> Forall digit (bytes (decimal value)) /\ digits_value (bytes (decimal value)) = value.
Proof.
  intros Hv. unfold decimal. destruct (Z.eqb_spec value 0) as [->|_].
  { split; [|done]. change (bytes "0") with [48]. constructor; [unfold digit; lia|constructor]. }
  destruct (decimal_digits_spec 10 value []) as (digits & -> & Hval & Hd).
  { destruct Hv. split; [done|]. eapply Z.lt_trans; [eassumption|]. reflexivity. }
  rewrite app_nil_r, bytes_of_bytes; [done|]. eapply Forall_impl; [exact Hd|]. unfold digit. intros; lia.
Qed.

(** * Properties *)

(** C26: what one side of the protocol writes the other side reads, whatever
    follows on the stream: a valid request reaches the server, and a valid
    response the client, unchanged. *)
Theorem messages_roundtrip (request : Request) (reply : response) m n rest :
  Request_ok request = true -> Request_validate request = Ok tt -> writeMessage request = Ok m ->
  response_ok reply = true -> response_validate reply = Ok tt -> writeMessage reply = Ok n ->
  (readMessage (mkMessage (String.append (ms_bytes m) rest) (ms_document m)) ≫= decodeRequest) = Ok request /\
  (readMessage (mkMessage (String.append (ms_bytes n) rest) (ms_document n)) ≫= decodeResponse) = Ok reply.
Proof.
  intros Hq Vq Wq Hp Vp Wp. destruct (decodeRequest_written request m rest) as (doc & Hr & Hd); [done..|].
  destruct (decodeResponse_written reply n rest) as (doc' & Hr' & Hd'); [done..|].
  rewrite Hr, Hr'. done.
Qed.

(** The identity recorded for a peer names its user and its group: two peers
    with the same identity are the same user and group. *)
Lemma Identity_faithful a b :
  uint32 (ac_UID a) -> uint32 (ac_GID a) -> uint32 (ac_UID b) -> uint32 (ac_GID b) ->
  Identity a = Identity b -> a = b.
Proof.
  intros Hua Hga Hub Hgb E. destruct a as [ua ga], b as [ub gb]. unfold Identity in E. cbn in *.
  apply (f_equal bytes) in E. rewrite !bytes_app in E. apply app_inv_head in E. cbn [app] in E.
  destruct (decimal_spec ua Hua) as [Dua Vua], (decimal_spec ub Hub) as [Dub Vub].
  assert (Hs : forall l, Forall digit l -> Forall (fun b => b <> 47) l).
  { intros l Hl. eapply Forall_impl; [exact Hl|]. unfold digit. lia. }
  apply (sep_split 47) in E as [Eu Eg]; [|by apply Hs..]. injection Eg as Eg.
  destruct (decimal_spec ga Hga) as [_ Vga], (decimal_spec gb Hgb) as [_ Vgb]. congruence.
Qed.

(** * Examples *)

Definition demo_status_request : Request :=
  mkRequest SchemaVersionV1 "request-1" OperationStatus DefaultReasonCode None None None None "".
Definition demo_status_response : response :=
  mkResponse SchemaVersionV1 "request-1" resultSuccess ""
    (Some (mkStatus SchemaVersionV1 StatusRunning ["admin_ipc"; "approval"] ["docker_socket_high_privilege"] [])) 0 None None None None None.
Definition message_of {T} `{GoJson T} (value : T) : message :=
  match writeMessage value with Ok m => m | Fail _ => mkMessage "" (Bytes "") end.
Lemma message_of_ok {T} `{GoJson T} (value : T) : is_ok (writeMessage value) = true -> writeMessage value = Ok (message_of value).
Proof. unfold message_of. by destruct (writeMessage value). Qed.

Lemma messages_roundtrip_witness :
  (readMessage (mkMessage (String.append (ms_bytes (message_of demo_status_request)) "tail") (ms_document (message_of demo_status_request)))
     ≫= decodeRequest) = Ok demo_status_request.
Proof.
  refine (proj1 (messages_roundtrip demo_status_request demo_status_response (message_of demo_status_request)
    (message_of demo_status_response) "tail" _ _ _ _ _ _)); [vm_compute; reflexivity|vm_compute; reflexivity| |
    vm_compute; reflexivity|vm_compute; reflexivity|]; apply message_of_ok; vm_compute; reflexivity.
Defined.
Lemma Identity_faithful_witness : uint32 4294967295 /\ mkActor 0 4294967295 = mkActor 0 4294967295.
Proof.
  assert (Hz : uint32 0) by (unfold uint32; lia). assert (Hm : uint32 4294967295) by (unfold uint32; lia).
  exact (conj Hm (Identity_faithful (mkActor 0 4294967295) (mkActor 0 4294967295) Hz Hm Hz Hm eq_refl)).
Defined.
