(* ===== verification/AdminServer.v ===== *)
(** The administrative server (src/internal/adminipc/server.go): the peers it
    admits, the routing of a request to the registries, the approval manager,
    the incident queries and the backup, and the audit event of each request.

    One connection is served as one step: its peer, clock, identifiers and the
    fate of its writes are the step's surroundings, the state is the store and
    the target registry. *)
From S2P Require Import Prelude GoLib GoTime GoNumber Sha256 Json Contract ContractFacts Store Redaction AuditChain GoText Target Journal Approval Correlator IncidentQuery JsonText JsonStruct Runbook AdminProtocol.
From stdpp Require Import options.
Local Open Scope Z_scope.

Definition auditAggregateType : string := "admin_request".
Definition auditActionRequest : string := "admin.request".
Definition auditActionStatus : string := "admin.status".
Definition auditActionBackup : string := "admin.backup".
Definition auditResultAccepted : string := "accepted".
Definition auditResultRejected : string := "rejected".
Definition auditReasonMalformed : string := "malformed_request".
Definition auditReasonUnauthorized : string := "peer_unauthorized".
Definition errorAuthentication : string := "authentication_failed".
Definition errorPermissionDenied : string := "permission_denied".
Definition errorMalformedRequest : string := "malformed_request".
Definition errorTargetRejected : string := "target_rejected".
Definition errorApprovalRejected : string := "approval_rejected".
Definition errorIncidentNotFound : string := "incident_not_found".
Definition auditReasonUnsupported : string := "unsupported_operation".
Definition statusCapabilityAdminIPC : string := "admin_ipc".
Definition statusWarningDocker : string := "docker_socket_high_privilege".
Definition statusUnsupportedCommand : string := "raw_host_command".
Definition statusUnsupportedHost : string := "host_power_os_network_outage".
Definition defaultRequestTimeout : duration := 5 * second.

(** * The server *)

(** [Options]: the check of the socket path and the identity of the process are
    the system's; the registries and the approval manager may be missing. *)
Record Options := mkOptions {
  op_SocketPath : result unit;
  op_AllowedUIDs : list Z;
  op_AllowedGIDs : list Z;
  op_Targets : option Registry;
  op_Runbooks : bool;
  op_Approvals : bool;
  op_RequestTimeout : duration;
  op_ownerUID : Z;
  op_ownerGID : Z;
}.

Record Server := mkServer {
  sv_allowedUIDs : gset Z;
  sv_allowedGIDs : gset Z;
  sv_targets : option Registry;
  sv_runbooks : bool;
  sv_approvals : bool;
  sv_requestTimeout : duration;
}.
#[export] Instance Server_eta : Updatable Server :=
  fun r => mkServer (sv_allowedUIDs r) (sv_allowedGIDs r) (sv_targets r) (sv_runbooks r) (sv_approvals r) (sv_requestTimeout r).

(** [identitySet]: no identity, or the same twice, is refused. *)
Fixpoint add_identities (set : gset Z) (identities : list Z) : option (gset Z) :=
  match identities with
  | [] => Some set
  | identity :: identities => if decide (identity ∈ set) then None else add_identities ({[identity]} ∪ set) identities
  end.
Definition identitySet (identities : list Z) : option (gset Z) :=
  if Z.of_nat (length identities) =? 0 then None else add_identities ∅ identities.

Definition NewServer (options : Options) : result Server :=
  match op_SocketPath options with
  | Fail _ => Fail ErrInvalidOptions
  | Ok _ =>
    match identitySet (op_AllowedUIDs options), identitySet (op_AllowedGIDs options) with
    | Some allowedUIDs, Some allowedGIDs =>
      if (op_ownerUID options <? 0) || (op_ownerGID options <? 0) then Fail ErrInvalidOptions
      else
        let timeout := if op_RequestTimeout options =? 0 then defaultRequestTimeout else op_RequestTimeout options in
        if timeout <? 0 then Fail ErrInvalidOptions
        else Ok (mkServer allowedUIDs allowedGIDs (op_Targets options) (op_Runbooks options) (op_Approvals options) timeout)
    | _, _ => Fail ErrInvalidOptions
    end
  end.

Definition authorized (s : Server) (actor : Actor) : bool :=
  bool_decide (ac_UID actor ∈ sv_allowedUIDs s) && bool_decide (ac_GID actor ∈ sv_allowedGIDs s).

Definition capabilities (s : Server) : list string :=
  if sv_approvals s then [statusCapabilityAdminIPC; "approval"] else [statusCapabilityAdminIPC].

Definition failureResponse (requestID code : string) : response :=
  mkResponse SchemaVersionV1 requestID resultFailure code None 0 None None None None None.
(** The successful response to a request, before its payload is set. *)
Definition successResponse (requestID : string) : response :=
  mkResponse SchemaVersionV1 requestID resultSuccess "" None 0 None None None None None.

Definition auditAggregateID (requestID : string) : string :=
  if String.eqb requestID "" then "request-unknown" else String.append "request-" requestID.

(** What serving one connection draws from outside: the socket check and the
    deadline, the credentials of the peer, the audit event ID and the clock, what
    the registries and the approval manager draw themselves, the bytes of a
    snapshot of the store, and the outcome of the write to the peer. *)
Record surroundings := mkSurroundings {
  at_socket : bool;
  at_deadline : result unit;
  at_peer : result Actor;
  at_auditID : result string;
  at_now : time;
  at_target : Target.surroundings;
  at_runbook : Runbook.surroundings;
  at_approval : decision_env;
  at_snapshot : string;
  at_write : result unit;
}.

(** A message written to the connection of the peer. *)
Definition reply (env : surroundings) (value : response) : result message :=
  writeMessage value ≫= fun m => at_write env ≫= fun _ => Ok m.

(** [Store.BackupWithSize] with the callback of the server: the response with
    the size, then as many bytes of the snapshot. *)
Definition BackupWithSize (env : surroundings) (ready : Z -> result message) : result message :=
  normalized (ready (go_len (at_snapshot env)) ≫= fun m =>
    Ok (mkMessage (String.append (ms_bytes m) (at_snapshot env)) (ms_document m))).

Section Server.
Context `{Bolt}.

(** The store and the server after a call. *)
Definition state : Type := Server * db.

Definition admin_event (env : surroundings) (actor : Actor) (id requestID action outcome reason : string) : AuditEvent :=
  mkAuditEvent SchemaVersionV1 id auditAggregateType (auditAggregateID requestID) (Identity actor) action outcome reason
    (at_now env) "" "".
Definition appendAudit (env : surroundings) (actor : Actor) (requestID action outcome reason : string) (d : db) :
    result unit * db :=
  match at_auditID env with
  | Fail err => (Fail err, d)
  | Ok id => Update (AuditChain.Append (admin_event env actor id requestID action outcome reason) None ≫= fun _ => mret tt) d
  end.

(** [if err := s.appendAudit(...); err != nil { return err }], then the rest. *)
Definition audited_then (env : surroundings) (actor : Actor) (requestID action outcome reason : string)
    (answer : result message) (st : state) : result message * state :=
  let '(s, d) := st in
  match appendAudit env actor requestID action outcome reason d with
  | (Fail err, d) => (Fail err, (s, d))
  | (Ok _, d) => (answer, (s, d))
  end.

Definition running (s : Server) : Status :=
  mkStatus SchemaVersionV1 StatusRunning (capabilities s) [statusWarningDocker] [statusUnsupportedCommand; statusUnsupportedHost].

(** [route]: the message written, or the error recorded, and the state. *)
Definition route_status (env : surroundings) (actor : Actor) (request : Request) (st : state) : result message * state :=
  audited_then env actor (rq_RequestID request) auditActionStatus auditResultAccepted (rq_ReasonCode request)
    (reply env (successResponse (rq_RequestID request) <| rp_Status := Some (running st.1) |>)) st.

Definition route_backup (env : surroundings) (actor : Actor) (request : Request) (st : state) : result message * state :=
  audited_then env actor (rq_RequestID request) auditActionBackup auditResultAccepted (rq_ReasonCode request)
    (BackupWithSize env (fun size => reply env (successResponse (rq_RequestID request) <| rp_BackupSize := size |>))) st.

Definition route_target (env : surroundings) (actor : Actor) (request : Request) (st : state) : result message * state :=
  let '(s, d) := st in
  match sv_targets s, rq_Target request with
  | Some targets, Some target =>
    match Target.Register targets (at_target env)
            (Target.mkRegistration target (Identity actor) (rq_RequestID request) (rq_ReasonCode request)) d with
    | (_, Some _, targets, d) =>
      (reply env (failureResponse (rq_RequestID request) errorTargetRejected), (s <| sv_targets := Some targets |>, d))
    | (snapshot, None, targets, d) =>
      let result := mkTargetResult SchemaVersionV1 (ss_Version snapshot) (tgt_TargetID target) in
      (reply env (successResponse (rq_RequestID request) <| rp_TargetResult := Some result |>),
       (s <| sv_targets := Some targets |>, d))
    end
  | _, _ =>
    audited_then env actor (rq_RequestID request) auditActionRequest auditResultRejected auditReasonUnsupported
      (reply env (failureResponse (rq_RequestID request) errorTargetRejected)) st
  end.

Definition route_runbook (env : surroundings) (actor : Actor) (request : Request) (st : state) : result message * state :=
  let '(s, d) := st in
  match sv_runbooks s, rq_Runbook request with
  | true, Some runbook =>
    match Runbook.Register (at_runbook env)
            (Runbook.mkRegistration (mkPair runbook (rb_Digest runbook)) (Identity actor) (rq_RequestID request)
               (rq_ReasonCode request)) d with
    | (Fail _, d) => (reply env (failureResponse (rq_RequestID request) errorTargetRejected), (s, d))
    | (Ok result, d) =>
      (reply env (successResponse (rq_RequestID request) <| rp_RunbookResult := Some result |>), (s, d))
    end
  | _, _ =>
    audited_then env actor (rq_RequestID request) auditActionRequest auditResultRejected auditReasonUnsupported
      (reply env (failureResponse (rq_RequestID request) errorTargetRejected)) st
  end.

Definition approval_result (decision : ApprovalDecisionResult) : ApprovalResult :=
  let approval := res_Approval decision in
  mkApprovalResult SchemaVersionV1 (apr_ApprovalID approval) (apr_CommandID approval) (apr_Decision approval)
    (cmd_State (res_Command decision)) (apr_ExpiresAt approval).
Definition route_approval (env : surroundings) (actor : Actor) (request : Request) (st : state) : result message * state :=
  let '(s, d) := st in
  match sv_approvals s, rq_Approval request with
  | true, Some approval =>
    match Decide (at_approval env)
            (mkApprovalDecisionRequest (aq_CommandID approval) (aq_Decision approval) (Identity actor)
               (rq_RequestID request) (rq_ReasonCode request) (aq_ExpiresAt approval)) d with
    | (Fail _, d) => (reply env (failureResponse (rq_RequestID request) errorApprovalRejected), (s, d))
    | (Ok decision, d) =>
      (reply env (successResponse (rq_RequestID request) <| rp_ApprovalResult := Some (approval_result decision) |>), (s, d))
    end
  | _, _ =>
    audited_then env actor (rq_RequestID request) auditActionRequest auditResultRejected auditReasonUnsupported
      (reply env (failureResponse (rq_RequestID request) errorApprovalRejected)) st
  end.

(** A request without its filter would be a nil dereference; none is decoded. *)
Definition route_list (env : surroundings) (actor : Actor) (request : Request) (st : state) : result message * state :=
  match rq_IncidentFilter request with
  | None => (Fail (mkError "runtime" "nil pointer dereference"), st)
  | Some filter =>
    match List filter st.2 with
    | Fail _ => (reply env (failureResponse (rq_RequestID request) errorTargetRejected), st)
    | Ok page =>
      audited_then env actor (rq_RequestID request) "incident.list" auditResultAccepted (rq_ReasonCode request)
        (reply env (successResponse (rq_RequestID request) <| rp_IncidentPage := Some page |>)) st
    end
  end.

Definition route_show (env : surroundings) (actor : Actor) (request : Request) (st : state) : result message * state :=
  match Show (rq_IncidentID request) st.2 with
  | Fail _ =>
    audited_then env actor (rq_RequestID request) "incident.show" auditResultRejected "not_found"
      (reply env (failureResponse (rq_RequestID request) errorIncidentNotFound)) st
  | Ok value =>
    audited_then env actor (rq_RequestID request) "incident.show" auditResultAccepted (rq_ReasonCode request)
      (reply env (successResponse (rq_RequestID request) <| rp_Incident := Some value |>)) st
  end.

Definition route (env : surroundings) (actor : Actor) (request : Request) (st : state) : result message * state :=
  if String.eqb (rq_Operation request) OperationStatus then route_status env actor request st
  else if String.eqb (rq_Operation request) OperationBackup then route_backup env actor request st
  else if String.eqb (rq_Operation request) OperationTargetRegister then route_target env actor request st
  else if String.eqb (rq_Operation request) OperationRunbookRegister then route_runbook env actor request st
  else if String.eqb (rq_Operation request) OperationApprovalGrant ||
          String.eqb (rq_Operation request) OperationApprovalDeny then route_approval env actor request st
  else if String.eqb (rq_Operation request) OperationIncidentList then route_list env actor request st
  else if String.eqb (rq_Operation request) OperationIncidentShow then route_show env actor request st
  else (Fail ErrMalformedRequest, st).

(** [recordWorkerError]: a connection closed under the worker is no error. *)
Definition ErrClosed := mkError "net" "use of closed network connection".
Definition recordWorkerError (err : error) : option error := if decide (err = ErrClosed) then None else Some err.

(** What serving a connection leaves: the message the peer can read, and the
    error recorded for the server. *)
Record served := mkServed { sd_reply : option message; sd_workerErr : option error }.
Definition answered (written : result message) : served :=
  match written with Ok m => mkServed (Some m) None | Fail _ => mkServed None None end.

(** A request turned away: audited first, the error of the audit recorded. *)
Definition turned_away (env : surroundings) (actor : Actor) (reason code : string) (st : state) : served * state :=
  let '(s, d) := st in
  match appendAudit env actor "" auditActionRequest auditResultRejected reason d with
  | (Fail err, d) => (mkServed None (recordWorkerError err), (s, d))
  | (Ok _, d) => (answered (reply env (failureResponse "" code)), (s, d))
  end.

Definition serveConnection (env : surroundings) (received : message) (st : state) : served * state :=
  if negb (at_socket env) then (mkServed None None, st)
  else
  match at_deadline env with
  | Fail _ => (mkServed None None, st)
  | Ok _ =>
    match at_peer env with
    | Fail _ => (answered (reply env (failureResponse "" errorAuthentication)), st)
    | Ok actor =>
      if negb (authorized st.1 actor) then turned_away env actor auditReasonUnauthorized errorPermissionDenied st
      else
        match readMessage received ≫= decodeRequest with
        | Fail _ => turned_away env actor auditReasonMalformed errorMalformedRequest st
        | Ok request =>
          match route env actor request st with
          | (Fail err, st) => (mkServed None (recordWorkerError err), st)
          | (Ok m, st) => (mkServed (Some m) None, st)
          end
        end
    end
  end.
End Server.

(** * Facts *)

(** The response a client reads is the one written. *)
Lemma written_decodes value n read :
  response_ok value = true -> writeMessage value = Ok n -> decodeResponse (ms_document n) = Ok read -> read = value.
Proof.
  intros (j & Ej & _ & Dj & _)%response_rtv Hw Hd. unfold writeMessage, Marshal in Hw. rewrite Ej in Hw.
  cbn [fmap option_fmap option_map] in Hw. destruct (_ <? _); [done|]. injection Hw as <-. cbn [ms_document] in Hd.
  unfold decodeResponse in Hd. destruct (Json.Decode _ _) as [v|] eqn:Ed; [|done]. injection Hd as ->.
  apply Decode_ok in Ed as (j' & validate & [= <-] & _ & _ & _ & Hread & _). rewrite Dj in Hread. by injection Hread.
Qed.
Lemma reply_written env value m :
  reply env value = Ok m -> writeMessage value = Ok m /\ at_write env = Ok tt.
Proof.
  unfold reply. intros (n & Hw & (u & Hu & [= ->])%result_bind_ok)%result_bind_ok. by destruct u.
Qed.
Lemma refusal_ok code : valid_utf8 code = true -> response_ok (failureResponse "" code) = true.
Proof. intros Hc. unfold response_ok, failureResponse. cbn. by rewrite Hc. Qed.
Lemma failure_read env id code m value :
  valid_utf8 id = true -> valid_utf8 code = true -> reply env (failureResponse id code) = Ok m ->
  decodeResponse (ms_document m) = Ok value -> rp_Result value = resultFailure.
Proof.
  intros Hi Hc (Hw & _)%reply_written Hd. apply (written_decodes (failureResponse id code)) in Hd as ->; [done| |done].
  unfold response_ok, failureResponse. cbn. by rewrite Hi, Hc.
Qed.
Lemma decodeRequest_valid doc request : decodeRequest doc = Ok request -> Request_validate request = Ok tt.
Proof.
  unfold decodeRequest. destruct (Json.Decode _ _) as [v|] eqn:Ed; [|done]. intros [= ->].
  by apply Decode_ok in Ed as (j & validate & _ & [= <-] & Hv & _).
Qed.
Lemma valid_request_codes request :
  Request_validate request = Ok tt ->
  valid_utf8 (rq_RequestID request) = true /\ valid_utf8 (rq_ReasonCode request) = true /\
  go_len (rq_RequestID request) <= 96 /\ rq_RequestID request <> "".
Proof.
  unfold Request_validate. destruct (_ || negb (validReasonCode _)) eqn:E; [done|]. intros _. bool_prop.
  unfold validRequestID, validReasonCode in *.
  match goal with X : validCode (rq_RequestID request) _ = true |- _ => pose proof (validCode_utf8 _ _ X); apply validCode_clean in X as (_ & ? & ?) end.
  match goal with X : validCode (rq_ReasonCode request) _ = true |- _ => pose proof (validCode_utf8 _ _ X) end. done.
Qed.

Section Facts.
Context `{BoltLaws}.
#[local] Set Default Proof Using "Type*".

(** The log gets one event more, unless its ID was taken. *)
Definition log_grows (d d' : db) (event : AuditEvent) : Prop :=
  forall evs, holds_log d evs -> ev_EventID event ∉ map ev_EventID evs -> holds_log d' (evs ++ [stamped evs event]).
Definition only_audit (d d' : db) : Prop := forall b, b <> BucketAudit -> same_bucket b d d'.

Lemma append_grows event change d ev d' :
  store_calls change -> AuditChain.Append event change d = Ok (ev, d') -> log_grows d d' event.
Proof. intros Hc Happ evs Hlog Hfresh. by destruct (Append_log event change d evs ev d' Hc Hlog Hfresh Happ) as (-> & Hl & _). Qed.

Lemma appendAudit_cases env actor requestID action outcome reason d out d' :
  appendAudit env actor requestID action outcome reason d = (out, d') ->
  (exists id, out = Ok tt /\ at_auditID env = Ok id /\ only_audit d d' /\
     log_grows d d' (admin_event env actor id requestID action outcome reason)) \/
  (exists err, out = Fail err /\ d' = d).
Proof.
  unfold appendAudit. destruct (at_auditID env) as [id|err]; [|intros [= <- <-]; by right; exists err].
  destruct out as [[]|err]; intros Hu; [|apply Update_fail in Hu as ->; by right; exists err].
  left. exists id. apply Update_ok in Hu. apply st_bind_ok in Hu as (ev & d1 & Ha & [= <-]). split_and!; [done..| |].
  - apply Append_frame in Ha as (d2 & -> & Hs). exact Hs.
  - by eapply append_grows; [|exact Ha].
Qed.
Lemma audited_then_cases env actor requestID action outcome reason answer s d out s' d' :
  audited_then env actor requestID action outcome reason answer (s, d) = (out, (s', d')) ->
  s' = s /\ only_audit d d' /\
  ((exists id, out = answer /\ log_grows d d' (admin_event env actor id requestID action outcome reason)) \/
   (exists err, out = Fail err /\ d' = d)).
Proof.
  unfold audited_then. destruct (appendAudit _ _ _ _ _ _ _) as [res d1] eqn:Ea. apply appendAudit_cases in Ea as [(id & -> & _ & Hs & Hg)|(err & -> & ->)].
  - intros [= <- <- <-]. split_and!; [done|done|]. left. by exists id.
  - intros [= <- <- <-]. split_and!; [done|by intros b _ k|]. right. by exists err.
Qed.
Lemma turned_away_cases env actor reason code s d out s' d' :
  turned_away env actor reason code (s, d) = (out, (s', d')) ->
  s' = s /\ only_audit d d' /\
  (sd_reply out = None \/ exists id m, reply env (failureResponse "" code) = Ok m /\ sd_reply out = Some m /\
     log_grows d d' (admin_event env actor id "" auditActionRequest auditResultRejected reason)).
Proof.
  unfold turned_away. destruct (appendAudit _ _ _ _ _ _ _) as [res d1] eqn:Ea. apply appendAudit_cases in Ea as [(id & -> & _ & Hs & Hg)|(err & -> & ->)].
  - intros [= <- <- <-]. split_and!; [done|done|]. destruct (reply _ _) as [m|err] eqn:Er; [|by left]. right. by exists id, m.
  - intros [= <- <- <-]. split_and!; [done|by intros b _ k|]. by left.
Qed.

(** ** The registries *)

(** An accepted audit event in the name of the peer. *)
Definition accepted_for (actor : Actor) (reason : string) (event : AuditEvent) : Prop :=
  ev_ActorIdentity event = Identity actor /\ ev_Result event = "accepted" /\ ev_ReasonCode event = reason.

Lemma target_accepted r env registration d snapshot r' d' :
  Target.Register r env registration d = (snapshot, None, r', d') ->
  exists event, log_grows d d' event /\ ev_ActorIdentity event = rg_ActorIdentity registration /\
    ev_Result event = "accepted" /\ ev_ReasonCode event = rg_ReasonCode registration.
Proof.
  unfold Target.Register. destruct (negb _); [done|]. destruct (validateTarget _ _) as [u|e].
  2: { by destruct (Target.recordRejected _ _ _ _ _) as [[?|?] ?]. }
  destruct (Update _ _) as [[[e|]|e] d1] eqn:Eu; try done. intros [= _ _ <-]. apply Update_ok in Eu.
  unfold Target.register_body in Eu. cbv zeta in Eu. apply st_bind_ok in Eu as (found & d0 & (_ & _ & _ & -> & ->)%Get_ok & Eu).
  destruct (kv_get d _ _).
  { apply st_bind_ok in Eu as (u' & d2 & _ & Hx). discriminate Hx. }
  destruct (_ <=? _). { apply st_bind_ok in Eu as (u' & d2 & _ & Hx). discriminate Hx. }
  destruct (encodePersistedTarget _) as [doc|]; [|done]. apply st_bind_ok in Eu as (u' & d2 & Ha & [= <-]).
  unfold Target.appendAudit in Ha. apply st_bind_ok in Ha as (id & d3 & Hid & Ha). unfold st_lift in Hid.
  destruct (Target.at_auditID env); [|done]. injection Hid as -> <-. destruct (is_zero _); [done|].
  apply st_bind_ok in Ha as (ev & d3 & Ha & [= _ <-]). eexists. split; [eapply append_grows; [|exact Ha]|done].
  intros c dx ux dy [= <-] Hp. destruct ux. eapply rtc_once, op_put, Hp.
Qed.
Lemma runbook_accepted env registration d result d' :
  Runbook.Register env registration d = (Ok result, d') ->
  exists event, log_grows d d' event /\ ev_ActorIdentity event = rn_ActorIdentity registration /\
    ev_Result event = "accepted" /\ ev_ReasonCode event = rn_ReasonCode registration.
Proof.
  intros Hr. apply Register_outcome in Hr. inversion Hr as [doc rb _ _ _ _ _ Ha| |]; subst.
  destruct Ha as (id & _ & Hg). exists (register_event env registration id "accepted" (rn_ReasonCode registration)).
  split; [exact Hg|done].
Qed.
Lemma store_decision_calls approval doc key record : store_calls (Some (store_decision approval doc key record)).
Proof.
  intros c d u d' [= <-] Hs. destruct u. apply store_decision_ok in Hs as (d1 & d2 & H1 & H2 & H3).
  apply putRecord_ok in H3 as (_ & _ & doc' & _ & H3).
  eapply rtc_l; [eapply op_put, H1|]. eapply rtc_l; [eapply op_put, H2|]. eapply rtc_once, op_put, H3.
Qed.
Lemma reject_not_accepted env request reason e mutation d decision d' :
  reject env request reason e mutation d <> Ok (inl decision, d').
Proof. intros (Hx & _)%reject_ok. discriminate Hx. Qed.
Lemma decide_accepts env request now approvalID d decision d' :
  decide_body env request now approvalID d = Ok (inl decision, d') ->
  exists key record, accept env request now approvalID key record d = Ok (inl decision, d').
Proof.
  unfold decide_body. rewrite st_bind_ok. intros (found & d0 & Hf & Hb).
  destruct found as [stored|]; [|by apply reject_not_accepted in Hb].
  pose proof (findRecord_some _ _ _ _ Hf) as (-> & _).
  destruct (_ || _); [by apply reject_not_accepted in Hb|].
  destruct (_ || _).
  { apply st_bind_ok in Hb as (record & d1 & _ & Hb). by apply reject_not_accepted in Hb. }
  destruct (after _ _); [by apply reject_not_accepted in Hb|].
  apply st_bind_ok in Hb as (taken & d1 & (_ & _ & _ & -> & ->)%Get_ok & Hb). destruct (kv_get d _ _); [done|].
  apply st_bind_ok in Hb as (ex & d1 & (_ & _ & _ & -> & ->)%Get_ok & Hb).
  destruct (kv_get d BucketApprovals _); [by apply reject_not_accepted in Hb|]. by eexists _, _.
Qed.
Lemma approval_accepted env request d decision d' :
  Decide env request d = (Ok decision, d') ->
  exists event, log_grows d d' event /\ ev_ActorIdentity event = adr_ActorIdentity request /\
    ev_Result event = "accepted" /\ ev_ReasonCode event = adr_ReasonCode request.
Proof.
  unfold Decide. destruct (negb _). { by destruct (Approval.recordRejected _ _ _ _) as [[?|?] ?]. }
  destruct (checked_now _) as [now|]; [|done]. destruct (de_approvalID env) as [approvalID|]; [|done].
  destruct (negb _); [done|]. destruct (Update _ _) as [[[dec|e]|e] d1] eqn:Eu; try done. intros [= -> ->]. apply Update_ok in Eu.
  apply decide_accepts in Eu as (key & record & Ha). unfold accept in Ha. cbv zeta in Ha. destruct (negb _); [done|].
  apply st_bind_ok in Ha as (record' & d0 & Hr & Ha). unfold st_lift in Hr. destruct (if String.eqb _ _ then _ else _); [|done].
  injection Hr as -> <-. destruct (Marshal _) as [doc|]; [|done]. apply st_bind_ok in Ha as (u & d2 & Ha & [= _ <-]).
  unfold Approval.appendAudit in Ha. destruct (de_auditEventID env) as [id|]; [|done]. destruct (negb _); [done|].
  apply st_bind_ok in Ha as (at_ & d3 & Hn & Ha). unfold st_lift in Hn. destruct (checked_now _); [|done]. injection Hn as -> <-.
  apply st_bind_ok in Ha as (ev & d4 & Ha & [= _ <-]). eexists. split; [eapply append_grows; [|exact Ha]|done].
  apply store_decision_calls.
Qed.

(** The decision an accepted request leaves. *)
Lemma decision_facts env request d decision d' :
  Decide env request d = (Ok decision, d') ->
  let approval := res_Approval decision in
  de_approvalID env = Ok (apr_ApprovalID approval) /\ apr_CommandID approval = adr_CommandID request /\
  apr_Decision approval = adr_Decision request /\ apr_ExpiresAt approval = adr_ExpiresAt request /\
  (cmd_State (res_Command decision) = RecoveryPending \/ cmd_State (res_Command decision) = RecoveryDenied).
Proof.
  unfold Decide. destruct (negb _). { by destruct (Approval.recordRejected _ _ _ _) as [[?|?] ?]. }
  destruct (checked_now _) as [now|]; [|done]. destruct (de_approvalID env) as [approvalID|]; [|done].
  destruct (negb _); [done|]. destruct (Update _ _) as [[[dec|e]|e] d1] eqn:Eu; try done. intros [= -> ->]. apply Update_ok in Eu.
  apply decide_body_effect in Eu. inversion Eu as [| |stored record' doc d1 Hf Hp _ _ _ _ _ _ a _ _ Ht _ _]; subst.
  cbn [res_Approval res_Command]. unfold a, approval_of. cbn. split_and!; [done| |done|done|].
  - by apply findRecord_some in Hf as (_ & doc' & _ & _ & _ & ->).
  - unfold in_phase in Hp. bool_prop. destruct (String.eqb (adr_Decision request) ApprovalDenied).
    + right. unfold transitionToDenied in Ht. destruct (negb _); [done|]. apply result_bind_ok in Ht as (u & _ & [= <-]). done.
    + left. injection Ht as <-. cbn. by apply String.eqb_eq.
Qed.

(** ** Routing *)

(** A message that a client reads as a success. *)
Definition reads_success (m : message) : Prop :=
  exists value, decodeResponse (ms_document m) = Ok value /\ rp_Result value = resultSuccess.
Lemma failure_not_success env request code m :
  Request_validate request = Ok tt -> valid_utf8 code = true -> reply env (failureResponse (rq_RequestID request) code) = Ok m ->
  ~ reads_success m.
Proof.
  intros (Hi & _)%valid_request_codes Hc Hr (value & Hd & Hs). rewrite (failure_read _ _ _ _ _ Hi Hc Hr Hd) in Hs. discriminate Hs.
Qed.

(** What routing leaves when the answer reads as a success: an accepted event. *)
Definition success_logged (actor : Actor) (request : Request) (d d' : db) : Prop :=
  exists event, log_grows d d' event /\ accepted_for actor (rq_ReasonCode request) event.
Lemma audited_answer env actor request action answer s d m s' d' :
  audited_then env actor (rq_RequestID request) action auditResultAccepted (rq_ReasonCode request) answer (s, d) = (Ok m, (s', d')) ->
  success_logged actor request d d'.
Proof. intros (_ & _ & [(id & _ & Hg)|(err & Hx & _)])%audited_then_cases; [|done]. eexists. by split. Qed.
Lemma audited_refusal env actor request action outcome reason code s d m s' d' :
  Request_validate request = Ok tt -> valid_utf8 code = true ->
  audited_then env actor (rq_RequestID request) action outcome reason (reply env (failureResponse (rq_RequestID request) code)) (s, d) =
    (Ok m, (s', d')) -> ~ reads_success m.
Proof. intros Hv Hc (_ & _ & [(id & Hr & _)|(err & Hx & _)])%audited_then_cases; [|done]. by eapply failure_not_success. Qed.

Lemma route_success env actor request s d m s' d' :
  Request_validate request = Ok tt -> route env actor request (s, d) = (Ok m, (s', d')) -> reads_success m ->
  success_logged actor request d d'.
Proof.
  intros Hv Hroute Hs. unfold route in Hroute.
  destruct (String.eqb _ OperationStatus); [by eapply audited_answer|].
  destruct (String.eqb _ OperationBackup); [by eapply audited_answer|].
  destruct (String.eqb _ OperationTargetRegister).
  { unfold route_target in Hroute. destruct (sv_targets s) as [targets|]; [destruct (rq_Target request) as [target|]|].
    2,3: by apply audited_refusal in Hroute.
    destruct (Target.Register _ _ _ _) as [[[snapshot [err|]] targets'] d1] eqn:Er; injection Hroute as Hroute <- <-.
    - by apply failure_not_success in Hroute.
    - apply target_accepted in Er as (event & Hg & Ha & Hr & Hc). by exists event. }
  destruct (String.eqb _ OperationRunbookRegister).
  { unfold route_runbook in Hroute. destruct (sv_runbooks s); [destruct (rq_Runbook request) as [runbook|]|].
    2,3: by apply audited_refusal in Hroute.
    destruct (Runbook.Register _ _ _) as [[result|err] d1] eqn:Er; injection Hroute as Hroute <- <-.
    - apply runbook_accepted in Er as (event & Hg & Ha & Hr & Hc). by exists event.
    - by apply failure_not_success in Hroute. }
  destruct (_ || _).
  { unfold route_approval in Hroute. destruct (sv_approvals s); [destruct (rq_Approval request) as [approval|]|].
    2,3: by apply audited_refusal in Hroute.
    destruct (Decide _ _ _) as [[decision|err] d1] eqn:Er; injection Hroute as Hroute <- <-.
    - apply approval_accepted in Er as (event & Hg & Ha & Hr & Hc). by exists event.
    - by apply failure_not_success in Hroute. }
  destruct (String.eqb _ OperationIncidentList).
  { unfold route_list in Hroute. destruct (rq_IncidentFilter request) as [filter|]; [|done]. cbn [snd] in Hroute.
    destruct (List filter d) as [page|err]; [by eapply audited_answer|]. injection Hroute as Hroute <- <-. by apply failure_not_success in Hroute. }
  destruct (String.eqb _ OperationIncidentShow); [|done].
  unfold route_show in Hroute. cbn [snd] in Hroute. destruct (Show _ d); [by eapply audited_answer|by apply audited_refusal in Hroute].
Qed.
End Facts.

(** * Properties *)

Section Properties.
Context `{BoltLaws}.
#[local] Set Default Proof Using "Type*".

(** A peer whose credentials are unknown, or whose user or group is not
    allowed, is turned away without its message being looked at: the target
    registry and every record outside the audit log stay as they are, and the
    only answers are the two refusals, permission denied not before the peer's
    rejection is in the audit log. *)
Lemma unadmitted_harmless env received s d out s' d' :
  serveConnection env received (s, d) = (out, (s', d')) ->
  (forall actor, at_peer env = Ok actor -> authorized s actor = false) ->
  s' = s /\ only_audit d d' /\ (forall other, serveConnection env other (s, d) = (out, (s', d'))) /\
  forall m value, sd_reply out = Some m -> decodeResponse (ms_document m) = Ok value ->
    value = failureResponse "" errorAuthentication \/
    value = failureResponse "" errorPermissionDenied /\ exists actor id, at_peer env = Ok actor /\
      log_grows d d' (admin_event env actor id "" auditActionRequest auditResultRejected auditReasonUnauthorized).
Proof.
  intros Hserve Hpeer. unfold serveConnection in *.
  destruct (negb (at_socket env)); [by injection Hserve as <- <- <-|].
  destruct (at_deadline env); [|by injection Hserve as <- <- <-].
  destruct (at_peer env) as [actor|].
  - cbn [fst] in *. rewrite (Hpeer actor eq_refl) in *. cbn [negb] in *. pose proof (turned_away_cases _ _ _ _ _ _ _ _ _ Hserve) as (-> & Hs & Hout).
    split_and!; [done|done|done|]. intros m value Hm Hd. right. destruct Hout as [Hx|(id & m' & Hr & Hx & Hg)]; [congruence|].
    assert (m' = m) as -> by congruence. apply reply_written in Hr as (Hw & _).
    split; [exact (written_decodes _ _ _ (refusal_ok errorPermissionDenied eq_refl) Hw Hd)|exists actor, id; exact (conj eq_refl Hg)].
  - destruct (reply env (failureResponse "" errorAuthentication)) as [m0|e0] eqn:Hr; cbn [answered] in *;
      injection Hserve as <- <- <-; (split_and!; [done|by intros b _ k|done|]); intros m value Hm Hd; [left|discriminate Hm].
    injection Hm as ->. apply reply_written in Hr as (Hw & _).
    exact (written_decodes _ _ _ (refusal_ok errorAuthentication eq_refl) Hw Hd).
Qed.

(** C25: no answer that a client reads as a success goes out unless the peer was
    admitted, its message was a valid request, and the audit log received an
    accepted event that names the peer and the reason of the request. *)
Theorem success_audited env received s d out s' d' m :
  serveConnection env received (s, d) = (out, (s', d')) -> sd_reply out = Some m -> reads_success m ->
  exists actor request event, at_peer env = Ok actor /\ authorized s actor = true /\
    (readMessage received ≫= decodeRequest) = Ok request /\ log_grows d d' event /\
    accepted_for actor (rq_ReasonCode request) event.
Proof.
  intros Hserve Hm Hsuccess. unfold serveConnection in Hserve.
  destruct (negb (at_socket env)); [by injection Hserve as <- <- <-|].
  destruct (at_deadline env); [|by injection Hserve as <- <- <-].
  assert (Hno : forall code, valid_utf8 code = true -> reply env (failureResponse "" code) <> Ok m).
  { intros code Hc Hr. destruct Hsuccess as (value & Hd & Hs). rewrite (failure_read _ "" _ _ _ eq_refl Hc Hr Hd) in Hs. discriminate Hs. }
  destruct (at_peer env) as [actor|].
  2: { destruct (reply env (failureResponse "" errorAuthentication)) as [m0|e0] eqn:Hr; cbn [answered] in *;
         injection Hserve as <- <- <-; [|discriminate Hm]. injection Hm as ->. by apply Hno in Hr. }
  cbn [fst] in Hserve. destruct (authorized s actor) eqn:Eauth; cbn [negb] in Hserve.
  2: { apply turned_away_cases in Hserve as (_ & _ & [Hx|(id & m' & Hr & Hx & _)]); [congruence|].
       assert (m' = m) as -> by congruence. by apply Hno in Hr. }
  destruct (readMessage received ≫= decodeRequest) as [request|] eqn:Eq.
  2: { apply turned_away_cases in Hserve as (_ & _ & [Hx|(id & m' & Hr & Hx & _)]); [congruence|].
       assert (m' = m) as -> by congruence. by apply Hno in Hr. }
  destruct (route env actor request (s, d)) as [[m'|err] st] eqn:Er; [|by injection Hserve as <- ->].
  injection Hserve as <- ->. injection Hm as ->. apply route_success in Er as (event & Hg & Ha); [|..|done].
  - exists actor, request, event. exact (conj eq_refl (conj Eauth (conj eq_refl (conj Hg Ha)))).
  - apply result_bind_ok in Eq as (doc & _ & Hd). by eapply decodeRequest_valid.
Qed.
End Properties.

(** * Examples *)

Definition demo_actor : Actor := mkActor 1000 1000.
Definition demo_server : Server := mkServer {[1000]} {[1000]} (Some Target.demo_registry) true true defaultRequestTimeout.
Definition demo_state : @state gmapBolt :=
  (demo_server, {[BucketServiceTargets := ∅; BucketRunbooks := ∅; BucketIncidents := ∅; BucketAudit := ∅]}).
Definition demo_now : time := 738000 * 86400 * second.
Definition demo_surroundings (actor : Actor) : surroundings :=
  mkSurroundings true (Ok tt) (Ok actor) (Ok "admin-1") demo_now (Target.mkSurroundings (Ok "target-1") demo_now)
    (Runbook.mkSurroundings (Ok "runbook-1") demo_now) (mkDecisionEnv demo_now demo_now (Ok "approval-1") (Ok "audit-1"))
    "bolt" (Ok tt).
Definition demo_request : Request :=
  mkRequest SchemaVersionV1 "request-1" OperationTargetRegister DefaultReasonCode (Some (Target.demo_target "checkout")) None None None "".
Definition demo_message : message := message_of demo_request.
Definition served1 : served * @state gmapBolt := serveConnection (demo_surroundings demo_actor) demo_message demo_state.
Definition refused1 : served * @state gmapBolt := serveConnection (demo_surroundings (mkActor 1000 7)) demo_message demo_state.
Definition reply1 : message := default (mkMessage "" (Bytes "")) (sd_reply served1.1).

Lemma served_parts (out : served * @state gmapBolt) : out = (out.1, (out.2.1, out.2.2)).
Proof. by destruct out as [? []]. Qed.

Lemma unadmitted_harmless_witness : refused1.2.1 = demo_server /\ only_audit demo_state.2 refused1.2.2.
Proof.
  destruct (unadmitted_harmless (H := gmapBolt) (demo_surroundings (mkActor 1000 7)) demo_message
    demo_state.1 demo_state.2 refused1.1 refused1.2.1 refused1.2.2) as (Hs & Hd & _).
  - exact (served_parts refused1).
  - intros actor [= <-]. vm_compute. reflexivity.
  - exact (conj Hs Hd).
Defined.

Lemma reply1_sent : sd_reply served1.1 = Some reply1.
Proof.
  assert (Hs : (if sd_reply served1.1 then true else false) = true) by (vm_compute; reflexivity).
  unfold reply1. destruct (sd_reply served1.1); [reflexivity|discriminate Hs].
Qed.
Definition reply1_result : option string :=
  match decodeResponse (ms_document reply1) with Ok value => Some (rp_Result value) | Fail _ => None end.
Lemma reply1_success : reads_success reply1.
Proof.
  assert (Hr : reply1_result = Some resultSuccess) by (vm_compute; reflexivity).
  unfold reply1_result, reads_success in *. destruct (decodeResponse (ms_document reply1)) as [value|]; [|discriminate Hr].
  exists value. split; [reflexivity|]. by injection Hr.
Qed.
Lemma success_audited_witness :
  exists actor request event, at_peer (demo_surroundings demo_actor) = Ok actor /\ authorized demo_server actor = true /\
    (readMessage demo_message ≫= decodeRequest) = Ok request /\ log_grows demo_state.2 served1.2.2 event /\
    accepted_for actor (rq_ReasonCode request) event.
Proof.
  exact (success_audited (H := gmapBolt) (demo_surroundings demo_actor) demo_message demo_state.1 demo_state.2
    served1.1 served1.2.1 served1.2.2 reply1 (served_parts served1) reply1_sent reply1_success).
Defined.

(** A request ID the protocol accepts and the audit log refuses (it reads as a
    telephone number): the request is neither answered nor audited. *)
Definition phone_message : message :=
  message_of (mkRequest SchemaVersionV1 "555-1234" OperationStatus DefaultReasonCode None None None None "").
Definition phone_served : served * @state gmapBolt := serveConnection (demo_surroundings demo_actor) phone_message demo_state.
Lemma phone_request_unanswered :
  (validRequestID "555-1234", sd_reply phone_served.1, phone_served.2) = (true, None, demo_state).
Proof. vm_compute. reflexivity. Qed.
