(* ===== verification/AdminClient.v ===== *)
(** The administrative client (src/internal/adminipc/client.go), and the two ends
    together: what a call of the client does to the daemon and returns.

    The transport is an argument: the result of connecting, and the message the
    peer answers to the message written, if the connection yields one. *)
From S2P Require Import Prelude GoLib GoTime GoNumber Sha256 Json Contract ContractFacts Store Redaction AuditChain GoText Target Journal Approval Correlator IncidentQuery JsonText JsonStruct Runbook AdminProtocol AdminServer.
From stdpp Require Import options.
Local Open Scope Z_scope.

Definition ErrResponseTruncated := admin_error "administrative response truncated".

Record Client := mkClient { cl_requestTimeout : duration }.

Definition NewClient (timeout : duration) : result Client :=
  if timeout <=? 0 then Fail ErrInvalidOptions else Ok (mkClient timeout).
(** [NewRequestID] and [NewAuditID] from their 16 random bytes. *)
Definition hex_text (random : list Z) : string :=
  of_bytes (concat (map (fun b => let h := fun n => if n <? 10 then 48 + n else 87 + n in [h (b / 16); h (b mod 16)]) random)).
Definition NewRequestID (random : list Z) : string := String.append "request-" (hex_text random).
Definition NewAuditID (random : list Z) : string := String.append "admin-" (hex_text random).

(** What one call meets: its request ID, the socket and the connection, the error
    of its context, and the peer. *)
Record transport := mkTransport {
  tp_requestID : result string;
  tp_connect : result unit;
  tp_context : option error;
  tp_exchange : message -> option message;
}.

Definition transportError (env : transport) : error := default ErrDaemonUnavailable (tp_context env).

(** The bytes after the first line, still to be read. *)
Definition remaining (m : message) : string :=
  match cut_byte 10 (ms_bytes m) with Some (_, rest) => rest | None => "" end.

(** [request]: the response, with the error of a refusal or the rest of the
    stream; or an error. *)
Definition request (c : Client) (env : transport) (operation reasonCode : string) (submitted : option ServiceTarget)
    (submittedRunbook : option Contract.Runbook) (filter : option Filter) (incidentID : string)
    (approval : option ApprovalRequest) : response * result string :=
  if (cl_requestTimeout c <=? 0) || negb (validOperation operation) || negb (validReasonCode reasonCode)
  then (response_zero, Fail ErrInvalidOptions)
  else
  match tp_requestID env with
  | Fail _ => (response_zero, Fail ErrDaemonUnavailable)
  | Ok requestID =>
    match tp_connect env with
    | Fail err => (response_zero, Fail err)
    | Ok _ =>
      let request := mkRequest SchemaVersionV1 requestID operation reasonCode submitted submittedRunbook approval filter incidentID in
      match writeMessage request with
      | Fail _ => (response_zero, Fail (transportError env))
      | Ok m =>
        match tp_exchange env m with
        | None => (response_zero, Fail (transportError env))
        | Some answer =>
          match readMessage answer with
          | Fail _ => (response_zero, Fail (transportError env))
          | Ok document =>
            match decodeResponse document with
            | Fail _ => (response_zero, Fail ErrMalformedResponse)
            | Ok decoded =>
              if negb (String.eqb (rp_RequestID decoded) requestID) &&
                 negb (String.eqb (rp_Result decoded) resultFailure && String.eqb (rp_RequestID decoded) "")
              then (response_zero, Fail ErrMalformedResponse)
              else if String.eqb (rp_Result decoded) resultFailure then (decoded, Fail ErrRequestRejected)
              else (decoded, Ok (remaining answer))
            end
          end
        end
      end
    end
  end.

(** The payload of a response without error. *)
Definition payload {A} (called : response * result string) (check : response -> option A) : result A :=
  match called with
  | (_, Fail err) => Fail err
  | (response, Ok _) => match check response with Some a => Ok a | None => Fail ErrMalformedResponse end
  end.
Definition when {A} (b : bool) (o : option A) : option A := if b then o else None.

Definition Status (c : Client) (env : transport) (reasonCode : string) : result AdminProtocol.Status :=
  payload (request c env OperationStatus reasonCode None None None "" None)
    (fun r => when ((rp_BackupSize r =? 0) && absent (rp_TargetResult r)) (rp_Status r)).

(** [Backup]: what was written to the destination, and the error. *)
Definition Backup (c : Client) (env : transport) (reasonCode : string) : string * option error :=
  match request c env OperationBackup reasonCode None None None "" None with
  | (_, Fail err) => ("", Some err)
  | (response, Ok rest) =>
    if negb (absent (rp_Status response)) || (rp_BackupSize response <=? 0) || negb (absent (rp_TargetResult response))
    then ("", Some ErrMalformedResponse)
    else
      let copied := of_bytes (take (Z.to_nat (rp_BackupSize response)) (bytes rest)) in
      if go_len copied <? rp_BackupSize response then (copied, Some ErrResponseTruncated) else (copied, None)
  end.

Definition Register (c : Client) (env : transport) (reasonCode : string) (submitted : ServiceTarget) : result TargetResult :=
  payload (request c env OperationTargetRegister reasonCode (Some submitted) None None "" None)
    (fun r => when (absent (rp_Status r) && (rp_BackupSize r =? 0)) (rp_TargetResult r)).

Definition RegisterRunbook (c : Client) (env : transport) (reasonCode : string) (submitted : Contract.Runbook) :
    result RegistrationResult :=
  payload (request c env OperationRunbookRegister reasonCode None (Some submitted) None "" None)
    (fun r => when (absent (rp_Status r) && (rp_BackupSize r =? 0) && absent (rp_TargetResult r)) (rp_RunbookResult r)).

Definition ListIncidents (c : Client) (env : transport) (reasonCode : string) (filter : Filter) : result Page :=
  payload (request c env OperationIncidentList reasonCode None None (Some filter) "" None) rp_IncidentPage.

Definition ShowIncident (c : Client) (env : transport) (reasonCode id : string) : result Incident :=
  match request c env OperationIncidentShow reasonCode None None None id None with
  | (response, Fail err) =>
    if bool_decide (err = ErrRequestRejected) && String.eqb (rp_ErrorCode response) errorIncidentNotFound
    then Fail ErrIncidentNotFound else Fail err
  | called => payload called rp_Incident
  end.

Definition DecideApproval (c : Client) (env : transport) (reasonCode commandID decision : string) (expiresAt : time) :
    result ApprovalResult :=
  let operation := if String.eqb decision ApprovalDenied then OperationApprovalDeny else OperationApprovalGrant in
  if (negb (String.eqb decision ApprovalGranted) && negb (String.eqb decision ApprovalDenied)) ||
     negb (validCode commandID maxRequestIDBytes) || is_zero expiresAt
  then Fail ErrInvalidOptions
  else
    payload (request c env operation reasonCode None None None "" (Some (mkApprovalRequest commandID decision expiresAt)))
      (fun r => when (absent (rp_Status r) && (rp_BackupSize r =? 0) && absent (rp_TargetResult r) &&
                      absent (rp_RunbookResult r) && absent (rp_IncidentPage r) && absent (rp_Incident r))
                  (rp_ApprovalResult r)).

(** * The two ends together *)

Section Remote.
Context `{BoltLaws}.
#[local] Set Default Proof Using "Type*".

(** A client connected to the daemon, as an admitted peer: the connection works,
    and what the client writes is what the server serves. *)
Record connection (c : Client) (tp : transport) (env : surroundings) (st : state) (actor : Actor) (id : string) : Prop := {
  cn_timeout : 0 < cl_requestTimeout c;
  cn_id : tp_requestID tp = Ok id;
  cn_connect : tp_connect tp = Ok tt;
  cn_exchange : forall m, tp_exchange tp m = sd_reply (serveConnection env m st).1;
  cn_socket : at_socket env = true;
  cn_deadline : at_deadline env = Ok tt;
  cn_peer : at_peer env = Ok actor;
  cn_allowed : authorized st.1 actor = true;
  cn_write : at_write env = Ok tt;
}.

(** The state the daemon is left in by a message. *)
Definition after_call (env : surroundings) (m : message) (st : state) : state := (serveConnection env m st).2.

Lemma readMessage_whole m doc : readMessage (mkMessage (String.append (ms_bytes m) "") (ms_document m)) = doc -> readMessage m = doc.
Proof.
  destruct m as [b d]. cbn [ms_bytes ms_document]. intros <-. f_equal. f_equal. apply bytes_inj. by rewrite bytes_app, app_nil_r.
Qed.

(** An admitted peer's valid request is routed. *)
Lemma request_served c tp env st actor id rq m :
  connection c tp env st actor id -> Request_ok rq = true -> Request_validate rq = Ok tt -> writeMessage rq = Ok m ->
  serveConnection env m st =
    match route env actor rq st with
    | (Fail err, st) => (mkServed None (recordWorkerError err), st)
    | (Ok n, st) => (mkServed (Some n) None, st)
    end.
Proof.
  intros [] Hok Hv Hw. destruct (decodeRequest_written rq m "" Hok Hv Hw) as (doc & Hr%readMessage_whole & Hd).
  unfold serveConnection. rewrite cn_socket0, cn_deadline0, cn_peer0, cn_allowed0, Hr. cbn [negb mbind result_bind]. by rewrite Hd.
Qed.

Lemma validate_codes rq :
  Request_validate rq = Ok tt -> validOperation (rq_Operation rq) = true /\ validReasonCode (rq_ReasonCode rq) = true.
Proof. unfold Request_validate. destruct (_ || negb (validReasonCode _)) eqn:E; [done|]. intros _. by bool_prop. Qed.

Lemma validate_request_id rq : Request_validate rq = Ok tt -> validRequestID (rq_RequestID rq) = true.
Proof. unfold Request_validate. destruct (_ || negb (validReasonCode _)) eqn:E; [done|]. intros _. by bool_prop. Qed.

(** ** Small responses fit into a line *)

Lemma code_render value maximum : validCode value maximum = true -> go_len (render (JStr value)) <= maximum + 2.
Proof.
  intros Hc. apply validCode_clean in Hc as (Hc & Hl & _).
  by apply clean_render.
Qed.
Lemma fits {T} `{GoJson T} (value : T) ms :
  to_json value = Some (JObj ms) -> forallb clean (map fst ms) = true ->
  2 + foldr (fun m n => go_len m.1 + go_len (render m.2) + 4 + n) 0 ms <= MaxDocumentBytes ->
  exists n, writeMessage value = Ok n.
Proof.
  intros Hj Hc Hl. unfold writeMessage, Marshal. rewrite Hj. cbn [fmap option_fmap option_map].
  destruct (Z.ltb_spec MaxDocumentBytes (doc_len (Text (JObj ms) false))) as [Hgt|]; [|by eexists].
  exfalso. unfold doc_len in Hgt. cbn [doc_bytes] in Hgt. pose proof (render_obj_len ms) as Hr.
  assert (Forall (fun m : string * json => clean m.1 = true) ms) as Hf.
  { apply Forall_forall. intros x Hx. rewrite forallb_forall in Hc. apply Hc. apply list_elem_of_In. by apply list_elem_of_fmap_2. }
  specialize (Hr Hf). lia.
Qed.
Lemma failure_members id code :
  id <> "" -> code <> "" ->
  to_json (failureResponse id code) = Some (JObj [("schema_version", JStr SchemaVersionV1); ("request_id", JStr id);
    ("result", JStr resultFailure); ("error_code", JStr code)]).
Proof.
  intros Hi Hc. unfold failureResponse. cbn. unfold empty_string.
  destruct (String.eqb_spec id ""); [done|]. destruct (String.eqb_spec code ""); [done|]. reflexivity.
Qed.
Lemma failure_fits id code : validRequestID id = true -> validReasonCode code = true -> exists n, writeMessage (failureResponse id code) = Ok n.
Proof.
  intros Hi Hc. unfold validRequestID, validReasonCode in *.
  pose proof (code_render _ _ Hi). pose proof (code_render _ _ Hc).
  apply validCode_clean in Hi as (_ & _ & Hi), Hc as (_ & _ & Hc).
  eapply fits; [by apply failure_members|reflexivity|]. cbn [foldr fst snd]. known_lengths.
  change (go_len (render (JStr SchemaVersionV1))) with 4. change (go_len (render (JStr resultFailure))) with 9.
  unfold maxRequestIDBytes, maxReasonCodeBytes, MaxDocumentBytes in *. lia.
Qed.
Lemma failure_valid id code :
  validRequestID id = true -> validReasonCode code = true ->
  response_ok (failureResponse id code) = true /\ response_validate (failureResponse id code) = Ok tt.
Proof.
  intros Hi Hc. split.
  - unfold response_ok, failureResponse. cbn. by rewrite (validCode_utf8 _ _ Hi), (validCode_utf8 _ _ Hc).
  - unfold response_validate, failureResponse. cbn. rewrite Hi, Hc. cbn. by rewrite andb_false_r.
Qed.

(** The request of a call. *)
Definition call_request (id operation reason : string) (target : option ServiceTarget) (runbook : option Contract.Runbook)
    (filter : option Filter) (incidentID : string) (approval : option ApprovalRequest) : Request :=
  mkRequest SchemaVersionV1 id operation reason target runbook approval filter incidentID.

Section Call.
Context (c : Client) (tp : transport) (env : surroundings) (st : state) (actor : Actor) (id : string).
Context (operation reason : string) (target : option ServiceTarget) (runbook : option Contract.Runbook).
Context (filter : option Filter) (incidentID : string) (approval : option ApprovalRequest) (m : message).
Let rq := call_request id operation reason target runbook filter incidentID approval.
Context (Hcn : connection c tp env st actor id).
Context (Hok : Request_ok rq = true) (Hv : Request_validate rq = Ok tt) (Hw : writeMessage rq = Ok m).

(** The answer of the server reaches the client. *)
Lemma request_answered value n rest st' :
  route env actor rq st = (Ok (mkMessage (String.append (ms_bytes n) rest) (ms_document n)), st') ->
  writeMessage value = Ok n -> response_ok value = true -> response_validate value = Ok tt -> rp_RequestID value = id ->
  request c tp operation reason target runbook filter incidentID approval =
    (value, if String.eqb (rp_Result value) resultFailure then Fail ErrRequestRejected else Ok rest) /\
  after_call env m st = st'.
Proof using Type*.
  intros Hroute Hn Hrok Hrv Hid. unfold after_call. pose proof (request_served c tp env st actor id rq m Hcn Hok Hv Hw) as Hs.
  rewrite Hroute in Hs. split; [|by rewrite Hs].
  destruct Hcn as [Ht Hrid Hco Hex _ _ _ _ _]. destruct (validate_codes rq Hv) as [Hop Hre].
  change (rq_Operation rq) with operation in Hop. change (rq_ReasonCode rq) with reason in Hre.
  unfold request. rewrite Hop, Hre, Hrid, Hco. destruct (Z.leb_spec (cl_requestTimeout c) 0); [lia|]. cbn [negb orb].
  change (mkRequest SchemaVersionV1 id operation reason target runbook approval filter incidentID) with rq.
  rewrite Hw, Hex, Hs. cbn [fst sd_reply].
  destruct (decodeResponse_written value n rest Hrok Hrv Hn) as (doc & Hread & Hdec). rewrite Hread, Hdec.
  rewrite Hid, String.eqb_refl. cbn [negb andb].
  destruct (String.eqb (rp_Result value) resultFailure); [done|]. unfold remaining. cbn [ms_bytes].
  unfold writeMessage in Hn. destruct (Marshal value) as [d|] eqn:Em; [|done]. destruct (_ <? _); [done|]. injection Hn as <-.
  cbn [ms_bytes]. unfold Marshal in Em. destruct (to_json value) as [j|]; [|done]. injection Em as <-. cbn [doc_bytes].
  rewrite string_app_assoc. change (String.append (String (of_byte 10) "") rest) with (String (of_byte 10) rest).
  by rewrite cut_line by apply render_line.
Qed.
Lemma request_answered_line value n st' :
  route env actor rq st = (Ok n, st') ->
  writeMessage value = Ok n -> response_ok value = true -> response_validate value = Ok tt -> rp_RequestID value = id ->
  request c tp operation reason target runbook filter incidentID approval =
    (value, if String.eqb (rp_Result value) resultFailure then Fail ErrRequestRejected else Ok "") /\
  after_call env m st = st'.
Proof using Type*.
  intros Hroute. apply request_answered. rewrite Hroute. f_equal. destruct n as [b d]. f_equal. f_equal. apply bytes_inj.
  by rewrite bytes_app, app_nil_r.
Qed.
(** A refusal reaches the client with its code. *)
Lemma request_refused code st' :
  route env actor rq st = (reply env (failureResponse id code), st') -> validReasonCode code = true ->
  request c tp operation reason target runbook filter incidentID approval =
    (failureResponse id code, Fail ErrRequestRejected) /\ after_call env m st = st'.
Proof using Type*.
  intros Hroute Hc. pose proof (validate_request_id rq Hv) as Hid. change (rq_RequestID rq) with id in Hid.
  destruct (failure_fits id code Hid Hc) as (n & Hn).
  unfold reply in Hroute. rewrite Hn, (cn_write _ _ _ _ _ _ Hcn) in Hroute. cbn [mbind result_bind] in Hroute.
  destruct (failure_valid id code Hid Hc) as [Hvok Hvv].
  destruct (request_answered_line (failureResponse id code) n st' Hroute Hn Hvok Hvv eq_refl) as [-> ->]. done.
Qed.
(** Nothing reaches the client when the server fails. *)
Lemma request_unanswered err st' :
  route env actor rq st = (Fail err, st') ->
  request c tp operation reason target runbook filter incidentID approval = (response_zero, Fail (transportError tp)) /\
  after_call env m st = st'.
Proof using Type*.
  intros Hroute. unfold after_call. pose proof (request_served c tp env st actor id rq m Hcn Hok Hv Hw) as Hs.
  rewrite Hroute in Hs. split; [|by rewrite Hs].
  destruct Hcn as [Ht Hrid Hco Hex _ _ _ _ _]. destruct (validate_codes rq Hv) as [Hop Hre].
  change (rq_Operation rq) with operation in Hop. change (rq_ReasonCode rq) with reason in Hre.
  unfold request. rewrite Hop, Hre, Hrid, Hco. destruct (Z.leb_spec (cl_requestTimeout c) 0); [lia|]. cbn [negb orb].
  change (mkRequest SchemaVersionV1 id operation reason target runbook approval filter incidentID) with rq.
  by rewrite Hw, Hex, Hs.
Qed.
End Call.

(** ** Successful answers *)

Lemma success_valid value id :
  rp_SchemaVersion value = SchemaVersionV1 -> rp_RequestID value = id -> validRequestID id = true ->
  rp_Result value = resultSuccess -> rp_ErrorCode value = "" -> responsePayloadCount value = 1 ->
  opt_valid valid_status (rp_Status value) = true -> 0 <= rp_BackupSize value ->
  opt_valid validTargetResult (rp_TargetResult value) = true -> opt_valid validRunbookResult (rp_RunbookResult value) = true ->
  opt_valid validApprovalResult (rp_ApprovalResult value) = true -> opt_valid validIncidentPage (rp_IncidentPage value) = true ->
  opt_valid (fun incident => is_ok (Incident_Validate incident)) (rp_Incident value) = true ->
  response_validate value = Ok tt.
Proof.
  intros Hv Hid Hi Hr He Hc Hs Hb Ht Hrb Ha Hp Hin. unfold response_validate.
  rewrite Hv, Hid, Hi, Hr, He, Hc, Hs, Ht, Hrb, Ha, Hp, Hin, !String.eqb_refl. cbn [negb orb andb]. rewrite andb_false_r.
  destruct (Z.ltb_spec (rp_BackupSize value) 0); [lia|]. by rewrite Z.eqb_refl.
Qed.

(** The answer that carries an incident, or a page of them. *)
Definition shown (id : string) (v : Incident) : response := successResponse id <| rp_Incident := Some v |>.
Definition listed (id : string) (page : Page) : response := successResponse id <| rp_IncidentPage := Some page |>.
Lemma shown_valid id i s v :
  validRequestID id = true -> Show i s = Ok v -> response_validate (shown id v) = Ok tt.
Proof.
  intros Hid (Hv & _)%Show_valid. eapply (success_valid _ id); try done. cbn. by rewrite Hv.
Qed.
Lemma listed_valid id filter s page :
  validRequestID id = true -> List filter s = Ok page -> response_validate (listed id page) = Ok tt.
Proof.
  intros Hid (Hn & Hl & Hf)%List_valid. eapply (success_valid _ id); try done. cbn. unfold validIncidentPage, go_count, maxPageSize in *.
  destruct (Z.ltb_spec (pg_NextOffset page) 0); [lia|]. destruct (Z.ltb_spec 100 (Z.of_nat (length (pg_Incidents page)))); [lia|].
  cbn [orb]. apply forallb_forall. intros i Hi. apply list_elem_of_In in Hi. eapply Forall_forall in Hf; [|exact Hi]. by rewrite Hf.
Qed.
Lemma request_id_utf8 id : validRequestID id = true -> valid_utf8 id = true.
Proof. apply validCode_utf8. Qed.

Lemma written_reply env value :
  at_write env = Ok tt -> reply env value = writeMessage value.
Proof. intros Hw. unfold reply. rewrite Hw. by destruct (writeMessage value). Qed.

Lemma ShowIncident_ends c tp env s d actor id reason i m :
  connection c tp env (s, d) actor id ->
  let rq := call_request id OperationIncidentShow reason None None None i None in
  Request_ok rq = true -> Request_validate rq = Ok tt -> writeMessage rq = Ok m ->
  (forall v, Show i d = Ok v -> Incident_ok v = true) ->
  let event := match Show i d with Ok _ => (auditResultAccepted, reason) | Fail _ => (auditResultRejected, "not_found") end in
  match appendAudit env actor id "incident.show" event.1 event.2 d with
  | (Fail _, d') => ShowIncident c tp reason i = Fail (transportError tp) /\ after_call env m (s, d) = (s, d')
  | (Ok _, d') =>
    after_call env m (s, d) = (s, d') /\
    ShowIncident c tp reason i =
      match Show i d with
      | Fail _ => Fail ErrIncidentNotFound
      | Ok v => if is_ok (writeMessage (shown id v)) then Ok v else Fail (transportError tp)
      end
  end.
Proof.
  intros Hcn rq Hok Hv Hw Hiok. cbv zeta.
  pose proof (validate_request_id rq Hv) as Hid. change (rq_RequestID rq) with id in Hid.
  assert (Hroute : route env actor rq (s, d) = route_show env actor rq (s, d)) by reflexivity.
  unfold route_show in Hroute. cbn [snd] in Hroute. change (rq_IncidentID rq) with i in Hroute.
  change (rq_RequestID rq) with id in Hroute. change (rq_ReasonCode rq) with reason in Hroute.
  unfold ShowIncident. destruct (Show i d) as [v|e] eqn:Es; cbn [fst snd]; unfold audited_then in Hroute;
    destruct (appendAudit _ _ _ _ _ _ d) as [[[]|err] d'] eqn:Ea.
  - rewrite (written_reply env (successResponse id <| rp_Incident := Some v |>)) in Hroute by apply Hcn.
    destruct (writeMessage (shown id v)) as [n|err] eqn:En; unfold shown in En; rewrite En in Hroute; cbn [is_ok].
    + destruct (request_answered_line _ _ _ _ _ _ _ _ _ _ _ _ _ _ Hcn Hok Hv Hw (shown id v) n _ Hroute En) as [-> ->]; [|by eapply shown_valid|done|done].
      unfold response_ok, shown. cbn. by rewrite (request_id_utf8 _ Hid), (Hiok v eq_refl).
    + destruct (request_unanswered _ _ _ _ _ _ _ _ _ _ _ _ _ _ Hcn Hok Hv Hw err _ Hroute) as [-> ->].
      change (String.eqb (rp_ErrorCode response_zero) errorIncidentNotFound) with false. by rewrite andb_false_r.
  - destruct (request_unanswered _ _ _ _ _ _ _ _ _ _ _ _ _ _ Hcn Hok Hv Hw err _ Hroute) as [-> ->].
      change (String.eqb (rp_ErrorCode response_zero) errorIncidentNotFound) with false. by rewrite andb_false_r.
  - by destruct (request_refused _ _ _ _ _ _ _ _ _ _ _ _ _ _ Hcn Hok Hv Hw errorIncidentNotFound _ Hroute eq_refl) as [-> ->].
  - destruct (request_unanswered _ _ _ _ _ _ _ _ _ _ _ _ _ _ Hcn Hok Hv Hw err _ Hroute) as [-> ->].
      change (String.eqb (rp_ErrorCode response_zero) errorIncidentNotFound) with false. by rewrite andb_false_r.
Qed.

Lemma ListIncidents_ends c tp env s d actor id reason filter m :
  connection c tp env (s, d) actor id ->
  let rq := call_request id OperationIncidentList reason None None (Some filter) "" None in
  Request_ok rq = true -> Request_validate rq = Ok tt -> writeMessage rq = Ok m ->
  (forall page, List filter d = Ok page -> Page_ok page = true) ->
  match List filter d with
  | Fail _ => ListIncidents c tp reason filter = Fail ErrRequestRejected /\ after_call env m (s, d) = (s, d)
  | Ok page =>
    match appendAudit env actor id "incident.list" auditResultAccepted reason d with
    | (Fail _, d') => ListIncidents c tp reason filter = Fail (transportError tp) /\ after_call env m (s, d) = (s, d')
    | (Ok _, d') =>
      after_call env m (s, d) = (s, d') /\
      ListIncidents c tp reason filter =
        (if is_ok (writeMessage (listed id page)) then Ok page else Fail (transportError tp))
    end
  end.
Proof.
  intros Hcn rq Hok Hv Hw Hpok.
  pose proof (validate_request_id rq Hv) as Hid. change (rq_RequestID rq) with id in Hid.
  assert (Hroute : route env actor rq (s, d) = route_list env actor rq (s, d)) by reflexivity.
  unfold route_list in Hroute. change (rq_IncidentFilter rq) with (Some filter) in Hroute. cbn [snd] in Hroute.
  change (rq_RequestID rq) with id in Hroute. change (rq_ReasonCode rq) with reason in Hroute.
  unfold ListIncidents. destruct (List filter d) as [page|e] eqn:Es.
  - unfold audited_then in Hroute. destruct (appendAudit _ _ _ _ _ _ d) as [[[]|err] d'] eqn:Ea.
    + rewrite (written_reply env (successResponse id <| rp_IncidentPage := Some page |>)) in Hroute by apply Hcn.
      destruct (writeMessage (listed id page)) as [n|err] eqn:En; unfold listed in En; rewrite En in Hroute; cbn [is_ok].
      * destruct (request_answered_line _ _ _ _ _ _ _ _ _ _ _ _ _ _ Hcn Hok Hv Hw (listed id page) n _ Hroute En) as [-> ->]; [|by eapply listed_valid|done|done].
        unfold response_ok, listed. cbn. by rewrite (request_id_utf8 _ Hid), (Hpok page eq_refl).
      * by destruct (request_unanswered _ _ _ _ _ _ _ _ _ _ _ _ _ _ Hcn Hok Hv Hw err _ Hroute) as [-> ->].
    + by destruct (request_unanswered _ _ _ _ _ _ _ _ _ _ _ _ _ _ Hcn Hok Hv Hw err _ Hroute) as [-> ->].
  - by destruct (request_refused _ _ _ _ _ _ _ _ _ _ _ _ _ _ Hcn Hok Hv Hw errorTargetRejected _ Hroute eq_refl) as [-> ->].
Qed.

(** ** Registrations *)

Definition target_answer (id : string) (snapshot : Snapshot) (target : ServiceTarget) : response :=
  successResponse id <| rp_TargetResult := Some (mkTargetResult SchemaVersionV1 (ss_Version snapshot) (tgt_TargetID target)) |>.
Lemma target_answer_members id snapshot target :
  id <> "" ->
  to_json (target_answer id snapshot target) = Some (JObj [("schema_version", JStr SchemaVersionV1); ("request_id", JStr id);
    ("result", JStr resultSuccess); ("target_result", JObj [("schema_version", JStr SchemaVersionV1);
      ("version", JInt (ss_Version snapshot)); ("target_id", JStr (tgt_TargetID target))])]).
Proof. intros Hi. unfold target_answer. cbn. unfold empty_string. destruct (String.eqb_spec id ""); [done|]. reflexivity. Qed.

Lemma target_answered id snapshot target :
  validRequestID id = true -> 0 < ss_Version snapshot <= maxUint64 -> matches_identifier (tgt_TargetID target) = true ->
  response_validate (target_answer id snapshot target) = Ok tt /\ response_ok (target_answer id snapshot target) = true /\
  exists n, writeMessage (target_answer id snapshot target) = Ok n.
Proof.
  intros Hid Hn Ht. pose proof (matches_identifier_clean _ Ht) as Hc. destruct (matches_identifier_inv _ Ht) as (Hne & Hl & _). split_and!.
  - eapply (success_valid _ id); try done. cbn. unfold validTargetResult. cbn.
    destruct (Z.eqb_spec (ss_Version snapshot) 0); [lia|]. by destruct (String.eqb_spec (tgt_TargetID target) "").
  - unfold response_ok, target_answer, TargetResult_ok. cbn. rewrite (request_id_utf8 _ Hid), (clean_valid_utf8 _ Hc).
    destruct (Z.leb_spec 0 (ss_Version snapshot)); [|lia]. by destruct (Z.leb_spec (ss_Version snapshot) maxUint64); [|lia].
  - pose proof (code_render _ _ Hid) as H1. eapply fits; [apply target_answer_members; by apply validCode_clean in Hid as (_ & _ & ?)|reflexivity|].
    cbn [foldr fst snd]. pose proof (clean_render _ 96 Hc Hl) as H2.
    pose proof (small_render (ss_Version snapshot) 64 ltac:(unfold maxUint64 in *; lia) ltac:(lia)) as H3.
    match goal with |- context [render (JObj ?ms)] => pose proof (render_obj_len ms ltac:(repeat constructor)) as Hr end.
    cbn [foldr fst snd] in Hr. change (go_len (render (JStr SchemaVersionV1))) with 4 in *.
    change (go_len (render (JStr resultSuccess))) with 9. revert Hr. known_lengths.
    unfold maxRequestIDBytes, MaxDocumentBytes in *. lia.
Qed.

(** An accepted registration's new version is positive. *)
Lemma registered_version r env registration d snapshot r' d' :
  0 <= ss_Version (rg_snapshot r) < maxUint64 -> Target.Register r env registration d = (snapshot, None, r', d') ->
  validateTarget r (rg_Target registration) = Ok tt /\ 0 < ss_Version snapshot <= maxUint64.
Proof.
  intros Hver. unfold Target.Register. destruct (negb _); [done|]. destruct (validateTarget r _) as [[]|e].
  2: { by destruct (Target.recordRejected _ _ _ _ _) as [[?|?] ?]. }
  destruct (Update _ _) as [[[e|]|e] d1] eqn:Eu; try done. intros [= <- _ _]. split; [done|].
  unfold registered. cbn [ss_Version]. unfold wrap_uint64. rewrite Z.mod_small; unfold maxUint64 in *; lia.
Qed.

Lemma Register_ends c tp env s d actor id reason target r m :
  connection c tp env (s, d) actor id -> sv_targets s = Some r -> 0 <= ss_Version (rg_snapshot r) < maxUint64 ->
  let rq := call_request id OperationTargetRegister reason (Some target) None None "" None in
  Request_ok rq = true -> Request_validate rq = Ok tt -> writeMessage rq = Ok m ->
  let '(snapshot, err, r', d') := Target.Register r (at_target env) (Target.mkRegistration target (Identity actor) id reason) d in
  after_call env m (s, d) = (s <| sv_targets := Some r' |>, d') /\
  Register c tp reason target =
    match err with
    | None => Ok (mkTargetResult SchemaVersionV1 (ss_Version snapshot) (tgt_TargetID target))
    | Some _ => Fail ErrRequestRejected
    end.
Proof.
  intros Hcn Hr Hver rq Hok Hv Hw.
  pose proof (validate_request_id rq Hv) as Hid. change (rq_RequestID rq) with id in Hid.
  assert (Hroute : route env actor rq (s, d) = route_target env actor rq (s, d)) by reflexivity.
  unfold route_target in Hroute. rewrite Hr in Hroute. change (rq_Target rq) with (Some target) in Hroute. cbv beta iota in Hroute.
  change (rq_RequestID rq) with id in Hroute. change (rq_ReasonCode rq) with reason in Hroute. unfold Register.
  destruct (Target.Register _ _ _ _) as [[[snapshot [err|]] r'] d'] eqn:Er.
  - by destruct (request_refused _ _ _ _ _ _ _ _ _ _ _ _ _ _ Hcn Hok Hv Hw errorTargetRejected _ Hroute eq_refl) as [-> ->].
  - apply registered_version in Er as [Hval Hn]; [|done]. cbn [rg_Target] in Hval.
    pose proof (to_id _ _ (validateTarget_ok _ _ Hval)) as Ht. destruct (target_answered id snapshot target Hid Hn Ht) as (Hrv & Hro & n & En).
    rewrite (written_reply env) in Hroute by apply Hcn. unfold target_answer in En. rewrite En in Hroute.
    by destruct (request_answered_line _ _ _ _ _ _ _ _ _ _ _ _ _ _ Hcn Hok Hv Hw (target_answer id snapshot target) n _ Hroute En Hro Hrv eq_refl) as [-> ->].
Qed.

Definition runbook_answer (id : string) (result : RegistrationResult) : response :=
  successResponse id <| rp_RunbookResult := Some result |>.
Lemma runbook_answer_members id result :
  id <> "" ->
  to_json (runbook_answer id result) = Some (JObj [("schema_version", JStr SchemaVersionV1); ("request_id", JStr id);
    ("result", JStr resultSuccess); ("runbook_result", JObj [("schema_version", JStr (rr_SchemaVersion result));
      ("runbook_id", JStr (rr_RunbookID result)); ("digest", JStr (rr_Digest result))])]).
Proof. intros Hi. unfold runbook_answer. cbn. unfold empty_string. destruct (String.eqb_spec id ""); [done|]. reflexivity. Qed.

Lemma CanonicalDigest_hash canonical digest : CanonicalDigest canonical = Ok digest -> exists text, digest = sha256_hex text.
Proof.
  unfold CanonicalDigest. destruct canonical as [[] []|]; cbv beta iota; intros E;
    lazymatch type of E with Fail _ = _ => discriminate E | _ => apply Ok_inj in E as <-; eexists; reflexivity end.
Qed.

(** The result of an accepted registration is short valid text. *)
Lemma runbook_result_facts env registration d result d' :
  valid_utf8 (rb_RunbookID (pr_Runbook (rn_Pair registration))) = true ->
  Runbook.Register env registration d = (Ok result, d') ->
  rr_SchemaVersion result = SchemaVersionV1 /\ validRunbookResult result = true /\ RegistrationResult_ok result = true /\
  go_len (rr_RunbookID result) <= 128 /\ validDigest (rr_Digest result) = true.
Proof.
  intros Hu Hr. apply Register_outcome in Hr. inversion Hr as [doc rb _ [_ _ Hv Hd] _ _ _ _| |]; subst.
  assert (Hl : go_len (rb_RunbookID rb) <= 128).
  { unfold validateRunbook, Runbook.validCode in Hv. revert Hv. pass_guard E. intros _. bool_prop. done. }
  assert (Hdig : validDigest (rb_Digest rb) = true).
  { unfold Digest in Hd. destruct (Marshal _) as [canonical|]; [|discriminate Hd].
    destruct (CanonicalDigest_hash _ _ Hd) as [text ->]. apply sha256_validDigest. }
  pose proof (validateRunbook_codes _ Hv) as (_ & Hne & _). cbn [rr_SchemaVersion rr_RunbookID rr_Digest]. split_and!; try done.
  - unfold validRunbookResult. cbn. destruct (String.eqb_spec (rb_RunbookID rb) ""); [done|]. cbn. by destruct (rb_Digest rb).
  - change (valid_utf8 (rb_RunbookID rb) = true) in Hu. unfold RegistrationResult_ok. cbn [rr_SchemaVersion rr_RunbookID rr_Digest]. rewrite Hu. cbn [andb]. apply clean_valid_utf8. apply digest_or_empty_clean. by right.
Qed.
Lemma runbook_answered id result :
  validRequestID id = true -> rr_SchemaVersion result = SchemaVersionV1 -> validRunbookResult result = true ->
  RegistrationResult_ok result = true -> go_len (rr_RunbookID result) <= 128 -> validDigest (rr_Digest result) = true ->
  response_validate (runbook_answer id result) = Ok tt /\ response_ok (runbook_answer id result) = true /\
  exists n, writeMessage (runbook_answer id result) = Ok n.
Proof.
  intros Hid Hver Hv Hok Hl Hd. split_and!.
  - by eapply (success_valid _ id).
  - unfold response_ok, runbook_answer. cbn. by rewrite (request_id_utf8 _ Hid), Hok.
  - pose proof (code_render _ _ Hid) as K1. eapply fits; [apply runbook_answer_members; by apply validCode_clean in Hid as (_ & _ & ?)|reflexivity|].
    unfold RegistrationResult_ok in Hok. rewrite Hver in *. bool_prop.
    destruct (digest_or_empty_clean (rr_Digest result)) as [Hc Hdl]; [by right|].
    cbn [foldr fst snd]. pose proof (clean_render _ 128 Hc Hdl) as K2. pose proof (string_render _ 128 Hl) as K3.
    match goal with |- context [render (JObj ?ms)] => pose proof (render_obj_len ms ltac:(repeat constructor)) as Hr end.
    cbn [foldr fst snd] in Hr. change (go_len (render (JStr SchemaVersionV1))) with 4 in *.
    change (go_len (render (JStr resultSuccess))) with 9. revert Hr. known_lengths.
    unfold maxRequestIDBytes, MaxDocumentBytes in *. lia.
Qed.

Lemma RegisterRunbook_ends c tp env s d actor id reason runbook m :
  connection c tp env (s, d) actor id -> sv_runbooks s = true ->
  let rq := call_request id OperationRunbookRegister reason None (Some runbook) None "" None in
  Request_ok rq = true -> Request_validate rq = Ok tt -> writeMessage rq = Ok m ->
  let '(registered, d') := Runbook.Register (at_runbook env)
    (Runbook.mkRegistration (mkPair runbook (rb_Digest runbook)) (Identity actor) id reason) d in
  after_call env m (s, d) = (s, d') /\
  RegisterRunbook c tp reason runbook = match registered with Ok result => Ok result | Fail _ => Fail ErrRequestRejected end.
Proof.
  intros Hcn Hr rq Hok Hv Hw.
  pose proof (validate_request_id rq Hv) as Hid. change (rq_RequestID rq) with id in Hid.
  assert (Hroute : route env actor rq (s, d) = route_runbook env actor rq (s, d)) by reflexivity.
  unfold route_runbook in Hroute. rewrite Hr in Hroute. change (rq_Runbook rq) with (Some runbook) in Hroute. cbv beta iota in Hroute.
  change (rq_RequestID rq) with id in Hroute. change (rq_ReasonCode rq) with reason in Hroute. unfold RegisterRunbook.
  destruct (Runbook.Register _ _ _) as [[result|err] d'] eqn:Er.
  - assert (Hu : valid_utf8 (rb_RunbookID runbook) = true).
    { unfold Request_ok, rq, call_request, Runbook_ok in Hok. cbn -[valid_utf8] in Hok. by bool_prop. }
    destruct (runbook_result_facts _ (Runbook.mkRegistration (mkPair runbook (rb_Digest runbook)) (Identity actor) id reason) _ _ _ Hu Er) as (Hver & Hres & Hrok & Hl & Hd).
    destruct (runbook_answered id result Hid Hver Hres Hrok Hl Hd) as (Hrv & Hro & n & En).
    rewrite (written_reply env) in Hroute by apply Hcn. unfold runbook_answer in En. rewrite En in Hroute.
    by destruct (request_answered_line _ _ _ _ _ _ _ _ _ _ _ _ _ _ Hcn Hok Hv Hw (runbook_answer id result) n _ Hroute En Hro Hrv eq_refl) as [-> ->].
  - by destruct (request_refused _ _ _ _ _ _ _ _ _ _ _ _ _ _ Hcn Hok Hv Hw errorTargetRejected _ Hroute eq_refl) as [-> ->].
Qed.

End Remote.

(** ** Decisions *)

Definition approval_answer (id : string) (decision : ApprovalDecisionResult) : response :=
  successResponse id <| rp_ApprovalResult := Some (approval_result decision) |>.
Lemma approval_answer_members id a :
  id <> "" -> time_printable (as_ExpiresAt a) = true ->
  to_json (successResponse id <| rp_ApprovalResult := Some a |>) =
    Some (JObj [("schema_version", JStr SchemaVersionV1); ("request_id", JStr id); ("result", JStr resultSuccess);
      ("approval_result", JObj [("schema_version", JStr (as_SchemaVersion a)); ("approval_id", JStr (as_ApprovalID a));
        ("command_id", JStr (as_CommandID a)); ("decision", JStr (as_Decision a));
        ("command_state", JStr (as_CommandState a)); ("expires_at", JTime (as_ExpiresAt a))])]).
Proof. intros Hi Ht. cbn. unfold empty_string. destruct (String.eqb_spec id ""); [done|]. cbn. by rewrite Ht. Qed.
Lemma approval_answered id a :
  validRequestID id = true -> validApprovalResult a = true -> time_printable (as_ExpiresAt a) = true ->
  let value := successResponse id <| rp_ApprovalResult := Some a |> in
  response_validate value = Ok tt /\ response_ok value = true /\ exists n, writeMessage value = Ok n.
Proof.
  intros Hid Hv Ht. cbv zeta. split.
  { by eapply (success_valid _ id). }
  unfold validApprovalResult in Hv. destruct a as [version approvalID commandID decision state expires]. cbn in *. bool_prop.
  repeat match goal with X : String.eqb _ _ = true |- _ => apply String.eqb_eq in X end. subst version.
  assert (Hdec : decision ∈ [ApprovalGranted; ApprovalDenied]).
  { match goal with X : String.eqb decision _ = true \/ _ |- _ => destruct X as [E|E] end; apply String.eqb_eq in E as ->; set_solver. }
  assert (Hst : state ∈ [RecoveryPending; RecoveryDenied]).
  { match goal with X : String.eqb state _ = true \/ _ |- _ => destruct X as [E|E] end; apply String.eqb_eq in E as ->; set_solver. }
  assert (Hcd : clean decision = true) by (by eapply choice_clean). assert (Hcs : clean state = true) by (by eapply choice_clean).
  pose proof (code_render _ _ Hid) as K1.
  match goal with A : validCode approvalID _ = true, B : validCode commandID _ = true |- _ =>
    pose proof (code_render _ _ A) as K2; pose proof (code_render _ _ B) as K3; pose proof (validCode_utf8 _ _ A) as Ua; pose proof (validCode_utf8 _ _ B) as Uc end.
  split.
  - unfold response_ok, ApprovalResult_ok. cbn. by rewrite (request_id_utf8 _ Hid), Ua, Uc, (clean_valid_utf8 _ Hcd), (clean_valid_utf8 _ Hcs), Ht.
  - eapply fits; [apply approval_answer_members; [by apply validCode_clean in Hid as (_ & _ & ?)|done]|reflexivity|].
    cbn [foldr fst snd as_SchemaVersion as_ApprovalID as_CommandID as_Decision as_CommandState as_ExpiresAt].
    pose proof (clean_render decision 12 Hcd ltac:(by eapply choice_len)) as K4. pose proof (clean_render state 12 Hcs ltac:(by eapply choice_len)) as K5.
    pose proof (time_render expires) as K6.
    match goal with |- context [render (JObj ?ms)] => pose proof (render_obj_len ms ltac:(repeat constructor)) as Hr end.
    cbn [foldr fst snd] in Hr. change (go_len (render (JStr SchemaVersionV1))) with 4 in *.
    change (go_len (render (JStr resultSuccess))) with 9. revert Hr. known_lengths.
    unfold maxRequestIDBytes, MaxDocumentBytes in *. lia.
Qed.

Section Decisions.
Context `{BoltLaws}.
#[local] Set Default Proof Using "Type*".

Lemma DecideApproval_ends c tp env s d actor id reason commandID decision expires m :
  connection c tp env (s, d) actor id -> sv_approvals s = true ->
  (forall approvalID, de_approvalID (at_approval env) = Ok approvalID -> validCode approvalID maxRequestIDBytes = true) ->
  decision = ApprovalGranted \/ decision = ApprovalDenied ->
  let operation := if String.eqb decision ApprovalDenied then OperationApprovalDeny else OperationApprovalGrant in
  let rq := call_request id operation reason None None None "" (Some (mkApprovalRequest commandID decision expires)) in
  Request_ok rq = true -> Request_validate rq = Ok tt -> writeMessage rq = Ok m ->
  let '(decided, d') := Decide (at_approval env)
    (mkApprovalDecisionRequest commandID decision (Identity actor) id reason expires) d in
  after_call env m (s, d) = (s, d') /\
  DecideApproval c tp reason commandID decision expires =
    match decided with Ok decided => Ok (approval_result decided) | Fail _ => Fail ErrRequestRejected end.
Proof.
  intros Hcn Hs Happ Hdec operation rq Hok Hv Hw.
  pose proof (validate_request_id rq Hv) as Hid. change (rq_RequestID rq) with id in Hid.
  assert (Hroute : route env actor rq (s, d) = route_approval env actor rq (s, d)).
  { unfold rq, operation. by destruct Hdec as [-> | ->]. }
  assert (Hval : validCode commandID maxRequestIDBytes = true /\ is_zero expires = false).
  { revert Hv. unfold rq, operation, Request_validate. pass_guard E. cbn [call_request rq_Operation rq_Approval rq_Target rq_Runbook rq_IncidentFilter rq_IncidentID].
    destruct Hdec as [-> | ->]; cbn -[validCode is_zero]; rewrite !andb_true_r;
      destruct (validCode commandID maxRequestIDBytes), (is_zero expires); done. }
  destruct Hval as [Hcmd Hexp].
  assert (Hpr : time_printable expires = true).
  { unfold Request_ok, rq, call_request, ApprovalRequest_ok in Hok. cbn -[valid_utf8 time_printable] in Hok. by bool_prop. }
  unfold route_approval in Hroute. rewrite Hs in Hroute. cbn [rq call_request rq_Approval] in Hroute. cbv beta iota in Hroute.
  cbn [aq_CommandID aq_Decision aq_ExpiresAt rq call_request rq_RequestID rq_ReasonCode] in Hroute. unfold DecideApproval. fold operation.
  rewrite Hcmd, Hexp. replace (negb (String.eqb decision ApprovalGranted) && negb (String.eqb decision ApprovalDenied)) with false by (by destruct Hdec as [-> | ->]).
  cbn [negb orb].
  destruct (Decide _ _ d) as [[decided|err] d'] eqn:Ed.
  - destruct (decision_facts _ _ _ _ _ Ed) as (Ha & Hc & Hde & Hex & Hst). cbn in Hc, Hde, Hex.
    set (value := successResponse id <| rp_ApprovalResult := Some (approval_result decided) |>) in *.
    assert (Hres : validApprovalResult (approval_result decided) = true).
    { unfold validApprovalResult, approval_result. cbn. rewrite (Happ _ Ha), Hc, Hcmd, Hde, Hex, Hexp.
      destruct Hdec as [-> | ->], Hst as [-> | ->]; done. }
    destruct (approval_answered id (approval_result decided) Hid Hres) as (Hrv & Hro & n & En).
    { unfold approval_result. cbn. by rewrite Hex. }
    rewrite (written_reply env) in Hroute by apply Hcn. fold value in En, Hrv, Hro. rewrite En in Hroute.
    destruct (request_answered_line _ _ _ _ _ _ _ _ _ _ _ _ _ _ Hcn Hok Hv Hw value n _ Hroute En Hro Hrv eq_refl) as [-> ->]. done.
  - by destruct (request_refused _ _ _ _ _ _ _ _ _ _ _ _ _ _ Hcn Hok Hv Hw errorApprovalRejected _ Hroute eq_refl) as [-> ->].
Qed.

(** ** Status and backups *)

Definition status_answer (id : string) (s : Server) : response := successResponse id <| rp_Status := Some (running s) |>.
Definition backup_answer (id : string) (size : Z) : response := successResponse id <| rp_BackupSize := size |>.
Lemma status_answered id s :
  validRequestID id = true ->
  response_validate (status_answer id s) = Ok tt /\ response_ok (status_answer id s) = true /\
  exists n, writeMessage (status_answer id s) = Ok n.
Proof.
  intros Hid. split_and!.
  - eapply (success_valid _ id); try done. cbn. unfold running, capabilities. by destruct (sv_approvals s).
  - unfold response_ok, status_answer, Status_ok, running, capabilities. cbn. rewrite (request_id_utf8 _ Hid). by destruct (sv_approvals s).
  - pose proof (code_render _ _ Hid) as K. apply validCode_clean in Hid as (_ & _ & Hi).
    set (text := render (JStr id)) in *.
    assert (Hj : to_json (status_answer id s) = Some (JObj [("schema_version", JStr SchemaVersionV1); ("request_id", JStr id);
      ("result", JStr resultSuccess); ("status", default JNull (to_json (running s)))])).
    { unfold status_answer. cbn. unfold empty_string. destruct (String.eqb_spec id ""); [done|]. unfold running, capabilities. by destruct (sv_approvals s). }
    eapply fits; [exact Hj|reflexivity|]. cbn [foldr fst snd]. fold text.
    assert (Hl : go_len (render (default JNull (to_json (running s)))) <= 400).
    { unfold running, capabilities. destruct (sv_approvals s); vm_compute; discriminate. }
    revert Hl. generalize (go_len (render (default JNull (to_json (running s))))). intros size Hl.
    change (go_len (render (JStr SchemaVersionV1))) with 4. change (go_len (render (JStr resultSuccess))) with 9. known_lengths.
    unfold maxRequestIDBytes, MaxDocumentBytes in *. lia.
Qed.
Lemma backup_answered id size :
  validRequestID id = true -> 0 < size <= maxInt64 ->
  response_validate (backup_answer id size) = Ok tt /\ response_ok (backup_answer id size) = true /\
  exists n, writeMessage (backup_answer id size) = Ok n.
Proof.
  intros Hid Hs. assert (Hz : (size =? 0) = false) by (apply Z.eqb_neq; lia). split_and!.
  - eapply (success_valid _ id); try done; [|cbn; lia]. unfold responsePayloadCount, backup_answer. cbn. by rewrite Hz.
  - unfold response_ok, backup_answer. cbn. rewrite (request_id_utf8 _ Hid). unfold int64_ok, minInt64.
    destruct (Z.leb_spec (-9223372036854775808) size); [|lia]. by destruct (Z.leb_spec size maxInt64); [|lia].
  - pose proof (code_render _ _ Hid) as K. apply validCode_clean in Hid as (_ & _ & Hi).
    assert (Hj : to_json (backup_answer id size) = Some (JObj [("schema_version", JStr SchemaVersionV1); ("request_id", JStr id);
      ("result", JStr resultSuccess); ("backup_size", JInt size)])).
    { unfold backup_answer. cbn. unfold empty_string. destruct (String.eqb_spec id ""); [done|]. by rewrite Hz. }
    eapply fits; [exact Hj|reflexivity|]. cbn [foldr fst snd].
    pose proof (small_render size 63 ltac:(unfold maxInt64 in *; lia) ltac:(lia)).
    change (go_len (render (JStr SchemaVersionV1))) with 4. change (go_len (render (JStr resultSuccess))) with 9. known_lengths.
    unfold maxRequestIDBytes, MaxDocumentBytes in *. lia.
Qed.

Lemma Status_ends c tp env s d actor id reason m :
  connection c tp env (s, d) actor id ->
  let rq := call_request id OperationStatus reason None None None "" None in
  Request_ok rq = true -> Request_validate rq = Ok tt -> writeMessage rq = Ok m ->
  match appendAudit env actor id auditActionStatus auditResultAccepted reason d with
  | (Fail _, d') => Status c tp reason = Fail (transportError tp) /\ after_call env m (s, d) = (s, d')
  | (Ok _, d') => Status c tp reason = Ok (running s) /\ after_call env m (s, d) = (s, d')
  end.
Proof.
  intros Hcn rq Hok Hv Hw. pose proof (validate_request_id rq Hv) as Hid. change (rq_RequestID rq) with id in Hid.
  assert (Hroute : route env actor rq (s, d) = route_status env actor rq (s, d)) by reflexivity.
  unfold route_status, audited_then in Hroute. change (rq_RequestID rq) with id in Hroute. change (rq_ReasonCode rq) with reason in Hroute.
  unfold Status. destruct (status_answered id s Hid) as (Hrv & Hro & n & En).
  rewrite (written_reply env) in Hroute by apply Hcn. cbn [fst] in Hroute. unfold status_answer in En. rewrite En in Hroute.
  destruct (appendAudit _ _ _ _ _ _ d) as [[[]|err] d'] eqn:Ea.
  - destruct (request_answered_line _ _ _ _ _ _ _ _ _ _ _ _ _ _ Hcn Hok Hv Hw (status_answer id s) n _ Hroute En Hro Hrv eq_refl) as [E1 E2]. rewrite E1. split; [reflexivity|exact E2].
  - destruct (request_unanswered _ _ _ _ _ _ _ _ _ _ _ _ _ _ Hcn Hok Hv Hw err _ Hroute) as [E1 E2]. rewrite E1. split; [reflexivity|exact E2].
Qed.

Lemma take_whole s : of_bytes (take (Z.to_nat (go_len s)) (bytes s)) = s.
Proof. unfold go_len. rewrite Nat2Z.id, <- length_bytes, take_ge by done. apply of_bytes_bytes. Qed.
Lemma Backup_ends c tp env s d actor id reason m :
  connection c tp env (s, d) actor id -> 0 < go_len (at_snapshot env) <= maxInt64 ->
  let rq := call_request id OperationBackup reason None None None "" None in
  Request_ok rq = true -> Request_validate rq = Ok tt -> writeMessage rq = Ok m ->
  match appendAudit env actor id auditActionBackup auditResultAccepted reason d with
  | (Fail _, d') => Backup c tp reason = ("", Some (transportError tp)) /\ after_call env m (s, d) = (s, d')
  | (Ok _, d') => Backup c tp reason = (at_snapshot env, None) /\ after_call env m (s, d) = (s, d')
  end.
Proof.
  intros Hcn Hsize rq Hok Hv Hw. pose proof (validate_request_id rq Hv) as Hid. change (rq_RequestID rq) with id in Hid.
  assert (Hroute : route env actor rq (s, d) = route_backup env actor rq (s, d)) by reflexivity.
  unfold route_backup, audited_then, BackupWithSize in Hroute. change (rq_RequestID rq) with id in Hroute. change (rq_ReasonCode rq) with reason in Hroute.
  unfold Backup. destruct (backup_answered id _ Hid Hsize) as (Hrv & Hro & n & En).
  rewrite (written_reply env) in Hroute by apply Hcn. unfold backup_answer in En. rewrite En in Hroute. cbn [mbind result_bind normalized] in Hroute.
  destruct (appendAudit _ _ _ _ _ _ d) as [[[]|err] d'] eqn:Ea.
  - destruct (request_answered _ _ _ _ _ _ _ _ _ _ _ _ _ _ Hcn Hok Hv Hw (backup_answer id (go_len (at_snapshot env))) n (at_snapshot env) _ Hroute En Hro Hrv eq_refl) as [-> ->].
    split; [|done]. change (String.eqb (rp_Result (backup_answer id (go_len (at_snapshot env)))) resultFailure) with false. cbv beta iota.
    change (rp_BackupSize (backup_answer id (go_len (at_snapshot env)))) with (go_len (at_snapshot env)).
    destruct (Z.leb_spec (go_len (at_snapshot env)) 0); [lia|]. cbn [rp_Status rp_TargetResult backup_answer successResponse absent negb orb].
    rewrite take_whole. by rewrite Z.ltb_irrefl.
  - destruct (request_unanswered _ _ _ _ _ _ _ _ _ _ _ _ _ _ Hcn Hok Hv Hw err _ Hroute) as [E1 E2]. rewrite E1. split; [reflexivity|exact E2].
Qed.
End Decisions.

(** * Properties *)

(** ** Remote calls

    The calls of the client apart from the backup, what they return, and the same
    call made by the daemon itself in the name of the peer. *)
Inductive call :=
| CallStatus
| CallTarget (submitted : ServiceTarget)
| CallRunbook (submitted : Contract.Runbook)
| CallDecide (commandID decision : string) (expires : time)
| CallList (filter : Filter)
| CallShow (incidentID : string).
Inductive answer :=
| AnswerStatus (status : AdminProtocol.Status)
| AnswerTarget (result : TargetResult)
| AnswerRunbook (result : RegistrationResult)
| AnswerApproval (result : ApprovalResult)
| AnswerPage (page : Page)
| AnswerIncident (value : Incident).

Definition answering {A} (f : A -> answer) (r : result A) : result answer := match r with Ok a => Ok (f a) | Fail e => Fail e end.
Definition remotely (c : Client) (tp : transport) (reason : string) (called : call) : result answer :=
  match called with
  | CallStatus => answering AnswerStatus (Status c tp reason)
  | CallTarget submitted => answering AnswerTarget (Register c tp reason submitted)
  | CallRunbook submitted => answering AnswerRunbook (RegisterRunbook c tp reason submitted)
  | CallDecide commandID decision expires => answering AnswerApproval (DecideApproval c tp reason commandID decision expires)
  | CallList filter => answering AnswerPage (ListIncidents c tp reason filter)
  | CallShow incidentID => answering AnswerIncident (ShowIncident c tp reason incidentID)
  end.
Definition request_of (id reason : string) (called : call) : Request :=
  match called with
  | CallStatus => call_request id OperationStatus reason None None None "" None
  | CallTarget submitted => call_request id OperationTargetRegister reason (Some submitted) None None "" None
  | CallRunbook submitted => call_request id OperationRunbookRegister reason None (Some submitted) None "" None
  | CallDecide commandID decision expires =>
    call_request id (if String.eqb decision ApprovalDenied then OperationApprovalDeny else OperationApprovalGrant) reason
      None None None "" (Some (mkApprovalRequest commandID decision expires))
  | CallList filter => call_request id OperationIncidentList reason None None (Some filter) "" None
  | CallShow incidentID => call_request id OperationIncidentShow reason None None None incidentID None
  end.

Lemma answering_ok {A} (f : A -> answer) r value : answering f r = Ok value -> exists a, r = Ok a /\ value = f a.
Proof. destruct r as [a|]; [|done]. intros [= <-]. by exists a. Qed.
Lemma payload_ok {A} called (check : response -> option A) a :
  payload called check = Ok a -> exists response rest, called = (response, Ok rest) /\ check response = Some a.
Proof.
  unfold payload. destruct called as [response [rest|]]; [|done]. destruct (check response) eqn:E; [|done]. intros [= ->]. by exists response, rest.
Qed.
Lemma when_some {A} b (o : option A) a : when b o = Some a -> o = Some a.
Proof. by destruct b. Qed.

(** What [request] returns without error answers the request it wrote. *)
Definition trusted (tp : transport) (rq : string -> Request) (response : response) : Prop :=
  exists id m reply document, tp_requestID tp = Ok id /\ writeMessage (rq id) = Ok m /\ tp_exchange tp m = Some reply /\
    readMessage reply = Ok document /\ decodeResponse document = Ok response /\ response_validate response = Ok tt /\
    rp_RequestID response = id /\ rp_Result response = resultSuccess /\ responsePayloadCount response = 1.
Lemma decodeResponse_valid document response : decodeResponse document = Ok response -> response_validate response = Ok tt.
Proof.
  unfold decodeResponse. destruct (Json.Decode _ _) as [v|] eqn:E; [|done]. intros [= ->].
  by apply Decode_ok in E as (j & validate & _ & [= <-] & Hv & _).
Qed.
Lemma request_trusted c tp operation reason target runbook filter incidentID approval response rest :
  request c tp operation reason target runbook filter incidentID approval = (response, Ok rest) ->
  trusted tp (fun id => call_request id operation reason target runbook filter incidentID approval) response.
Proof.
  unfold request. destruct (_ || negb (validReasonCode reason)); [done|]. destruct (tp_requestID tp) as [id|] eqn:Ei; [|done].
  destruct (tp_connect tp); [|done]. destruct (writeMessage _) as [m|] eqn:Ew; [|done].
  destruct (tp_exchange tp m) as [reply|] eqn:Ex; [|done]. destruct (readMessage reply) as [document|] eqn:Er; [|done].
  destruct (decodeResponse document) as [decoded|] eqn:Ed; [|done].
  destruct (negb (String.eqb (rp_RequestID decoded) id) && _) eqn:Eid; [done|].
  destruct (String.eqb_spec (rp_Result decoded) resultFailure) as [|Hnf]; [done|]. intros [= <- _].
  pose proof (decodeResponse_valid _ _ Ed) as Hv. exists id, m, reply, document. split_and!; try done.
  - destruct (String.eqb_spec (rp_RequestID decoded) id); [done|]. cbn in Eid.
    destruct (String.eqb_spec (rp_Result decoded) resultFailure); [done|discriminate Eid].
  - unfold response_validate in Hv. destruct (_ || _); [done|].
    destruct (String.eqb_spec (rp_Result decoded) resultSuccess); [done|].
    destruct (String.eqb_spec (rp_Result decoded) resultFailure); [done|discriminate Hv].
  - unfold response_validate in Hv. destruct (_ || _); [done|].
    destruct (String.eqb_spec (rp_Result decoded) resultSuccess) as [E|].
    + destruct (String.eqb (rp_ErrorCode decoded) ""); [|discriminate Hv]. destruct (Z.eqb_spec (responsePayloadCount decoded) 1); [done|discriminate Hv].
    + destruct (String.eqb_spec (rp_Result decoded) resultFailure); [done|discriminate Hv].
Qed.

Section Properties.
Context `{BoltLaws}.
#[local] Set Default Proof Using "Type*".

(** The answer, once the audit log has the event; without the event, or when the
    answer does not fit into a line, there is none. *)
Definition once_audited (lost : error) (env : surroundings) (actor : Actor) (id action outcome reason : string)
    (out : result answer) (st : state) : result answer * state :=
  let '(s, d) := st in
  match appendAudit env actor id action outcome reason d with
  | (Fail _, d) => (Fail lost, (s, d))
  | (Ok _, d) => (out, (s, d))
  end.
Definition locally (lost : error) (env : surroundings) (actor : Actor) (id reason : string) (called : call) (st : state) :
    result answer * state :=
  let '(s, d) := st in
  match called with
  | CallStatus =>
    once_audited lost env actor id auditActionStatus auditResultAccepted reason (Ok (AnswerStatus (running s))) st
  | CallTarget submitted =>
    match sv_targets s with
    | None => (Fail lost, st)
    | Some r =>
      let '(snapshot, err, r, d) :=
        Target.Register r (at_target env) (Target.mkRegistration submitted (Identity actor) id reason) d in
      (match err with
       | None => Ok (AnswerTarget (mkTargetResult SchemaVersionV1 (ss_Version snapshot) (tgt_TargetID submitted)))
       | Some _ => Fail ErrRequestRejected
       end, (s <| sv_targets := Some r |>, d))
    end
  | CallRunbook submitted =>
    let '(registered, d) := Runbook.Register (at_runbook env)
      (Runbook.mkRegistration (mkPair submitted (rb_Digest submitted)) (Identity actor) id reason) d in
    (match registered with Ok result => Ok (AnswerRunbook result) | Fail _ => Fail ErrRequestRejected end, (s, d))
  | CallDecide commandID decision expires =>
    let '(decided, d) := Decide (at_approval env)
      (mkApprovalDecisionRequest commandID decision (Identity actor) id reason expires) d in
    (match decided with Ok decided => Ok (AnswerApproval (approval_result decided)) | Fail _ => Fail ErrRequestRejected end, (s, d))
  | CallList filter =>
    match List filter d with
    | Fail _ => (Fail ErrRequestRejected, st)
    | Ok page =>
      once_audited lost env actor id "incident.list" auditResultAccepted reason
        (if is_ok (writeMessage (listed id page)) then Ok (AnswerPage page) else Fail lost) st
    end
  | CallShow incidentID =>
    match Show incidentID d with
    | Fail _ => once_audited lost env actor id "incident.show" auditResultRejected "not_found" (Fail ErrIncidentNotFound) st
    | Ok value =>
      once_audited lost env actor id "incident.show" auditResultAccepted reason
        (if is_ok (writeMessage (shown id value)) then Ok (AnswerIncident value) else Fail lost) st
    end
  end.

(** What the daemon must offer for a call: its registry or manager, with versions
    left and short approval IDs; incidents the codec can write. *)
Definition serviceable (env : surroundings) (st : state) (called : call) : Prop :=
  match called with
  | CallStatus => True
  | CallTarget _ => exists r, sv_targets st.1 = Some r /\ 0 <= ss_Version (rg_snapshot r) < maxUint64
  | CallRunbook _ => sv_runbooks st.1 = true
  | CallDecide _ decision _ => sv_approvals st.1 = true /\ (decision = ApprovalGranted \/ decision = ApprovalDenied) /\
    forall approvalID, de_approvalID (at_approval env) = Ok approvalID -> validCode approvalID maxRequestIDBytes = true
  | CallList filter => forall page, List filter st.2 = Ok page -> Page_ok page = true
  | CallShow incidentID => forall value, Show incidentID st.2 = Ok value -> Incident_ok value = true
  end.

(** C24: a remote call is the local one: over a working connection an admitted
    peer's valid request leaves the daemon in the state of the same operation done
    locally in the peer's name, and the client returns what it returns; a refusal
    is reported as a refusal, and no answer comes back without its audit event or
    when it does not fit into a line. *)
Theorem remote_calls_are_local c tp env s d actor id reason called m :
  connection c tp env (s, d) actor id -> serviceable env (s, d) called ->
  Request_ok (request_of id reason called) = true -> Request_validate (request_of id reason called) = Ok tt ->
  writeMessage (request_of id reason called) = Ok m ->
  (remotely c tp reason called, after_call env m (s, d)) = locally (transportError tp) env actor id reason called (s, d).
Proof.
  intros Hcn Hsv Hok Hv Hw. destruct called as [|target|runbook|commandID decision expires|filter|i]; cbn [remotely locally serviceable] in *.
  - pose proof (Status_ends _ _ _ _ _ _ _ _ _ Hcn Hok Hv Hw) as He. unfold once_audited.
    destruct (appendAudit _ _ _ _ _ _ d) as [[[]|err] d']; by destruct He as [-> ->].
  - destruct Hsv as (r & Hr & Hver). cbn [fst] in Hr. pose proof (Register_ends _ _ _ _ _ _ _ _ _ _ _ Hcn Hr Hver Hok Hv Hw) as He. rewrite Hr.
    destruct (Target.Register _ _ _ _) as [[[snapshot [err|]] r'] d']; by destruct He as [-> ->].
  - cbn [fst] in Hsv. pose proof (RegisterRunbook_ends _ _ _ _ _ _ _ _ _ _ Hcn Hsv Hok Hv Hw) as He.
    destruct (Runbook.Register _ _ _) as [[result|err] d']; by destruct He as [-> ->].
  - destruct Hsv as (Hs & Hd & Hid). cbn [fst] in Hs. pose proof (DecideApproval_ends _ _ _ _ _ _ _ _ _ _ _ _ Hcn Hs Hid Hd Hok Hv Hw) as He.
    destruct (Decide _ _ d) as [[decided|err] d']; by destruct He as [-> ->].
  - pose proof (ListIncidents_ends _ _ _ _ _ _ _ _ _ _ Hcn Hok Hv Hw Hsv) as He. cbn [snd] in He.
    destruct (List filter d) as [page|e]; [|by destruct He as [-> ->]]. unfold once_audited.
    destruct (appendAudit _ _ _ _ _ _ d) as [[[]|err] d']; destruct He as [-> ->]; [by destruct (is_ok _)|done].
  - pose proof (ShowIncident_ends _ _ _ _ _ _ _ _ _ _ Hcn Hok Hv Hw Hsv) as He. cbv zeta in He. cbn [snd] in He.
    destruct (Show i d) as [value|e]; cbn [fst snd] in He; unfold once_audited;
      destruct (appendAudit _ _ _ _ _ _ d) as [[[]|err] d']; destruct He as [-> ->]; try done. by destruct (is_ok _).
Qed.

(** A backup over a working connection delivers exactly the bytes of the
    snapshot, after the accepted event is in the audit log, and changes nothing
    else. *)
Lemma Backup_delivers_snapshot c tp env s d actor id reason m written s' d' :
  connection c tp env (s, d) actor id -> 0 < go_len (at_snapshot env) <= maxInt64 ->
  let rq := call_request id OperationBackup reason None None None "" None in
  Request_ok rq = true -> Request_validate rq = Ok tt -> writeMessage rq = Ok m ->
  Backup c tp reason = (written, None) -> after_call env m (s, d) = (s', d') ->
  written = at_snapshot env /\ s' = s /\ only_audit d d' /\
  exists eventID, log_grows d d' (admin_event env actor eventID id auditActionBackup auditResultAccepted reason).
Proof.
  intros Hcn Hsize rq Hok Hv Hw Hb Ha. pose proof (Backup_ends _ _ _ _ _ _ _ _ _ Hcn Hsize Hok Hv Hw) as He.
  destruct (appendAudit _ _ _ _ _ _ d) as [out d1] eqn:Eap. apply appendAudit_cases in Eap as [(eventID & -> & _ & Hs & Hg)|(err & -> & ->)].
  - destruct He as [He1 He2]. rewrite He1 in Hb. rewrite He2 in Ha. injection Hb as <-. injection Ha as <- <-. split_and!; [done..|]. by exists eventID.
  - destruct He as [He1 _]. rewrite He1 in Hb. discriminate Hb.
Qed.

(** The value is the payload of the response. *)
Definition carries (response : response) (value : answer) : Prop :=
  match value with
  | AnswerStatus status => rp_Status response = Some status
  | AnswerTarget result => rp_TargetResult response = Some result
  | AnswerRunbook result => rp_RunbookResult response = Some result
  | AnswerApproval result => rp_ApprovalResult response = Some result
  | AnswerPage page => rp_IncidentPage response = Some page
  | AnswerIncident incident => rp_Incident response = Some incident
  end.

(** C27: whatever peer the client is connected to, a call returns a value only
    from a valid successful response to the request it sent, as its one payload. *)
Theorem answers_match c tp reason called value :
  remotely c tp reason called = Ok value ->
  exists response, trusted tp (fun id => request_of id reason called) response /\ carries response value.
Proof.
  assert (Hpay : forall A (f : A -> answer) check operation target runbook filter incidentID approval,
    answering f (payload (request c tp operation reason target runbook filter incidentID approval) check) = Ok value ->
    exists response a, trusted tp (fun id => call_request id operation reason target runbook filter incidentID approval) response /\
      check response = Some a /\ value = f a).
  { intros A f check operation target runbook filter incidentID approval Hv.
    apply answering_ok in Hv as (a & (response & rest & Hr & Hc)%payload_ok & ->). exists response, a. split; [|by split].
    by eapply request_trusted. }
  destruct called as [|target|runbook|commandID decision expires|filter|i]; cbn [remotely request_of]; intros Hv.
  - apply Hpay in Hv as (response & a & Ht & Hc%when_some & ->). exists response. exact (conj Ht Hc).
  - apply Hpay in Hv as (response & a & Ht & Hc%when_some & ->). exists response. exact (conj Ht Hc).
  - apply Hpay in Hv as (response & a & Ht & Hc%when_some & ->). exists response. exact (conj Ht Hc).
  - unfold DecideApproval in Hv. destruct (_ || _ || _); [discriminate Hv|].
    apply Hpay in Hv as (response & a & Ht & Hc%when_some & ->). exists response. exact (conj Ht Hc).
  - apply Hpay in Hv as (response & a & Ht & Hc & ->). exists response. exact (conj Ht Hc).
  - unfold ShowIncident in Hv. destruct (request _ _ _ _ _ _ _ _ _) as [response [rest|err]] eqn:Er.
    + apply answering_ok in Hv as (a & (response' & rest' & Hr & Hc)%payload_ok & ->). injection Hr as <- <-.
      exists response. exact (conj (request_trusted _ _ _ _ _ _ _ _ _ _ _ Er) Hc).
    + destruct (_ && _); discriminate Hv.
Qed.
End Properties.

(** * Examples *)

Definition demo_client : Client := mkClient (5 * second).
Definition demo_transport : transport :=
  mkTransport (Ok "request-1") (Ok tt) None (fun m => sd_reply (serveConnection (demo_surroundings demo_actor) m demo_state).1).
Lemma demo_connected : connection demo_client demo_transport (demo_surroundings demo_actor) demo_state demo_actor "request-1".
Proof. split; try reflexivity. Qed.

Definition demo_call : call := CallTarget (Target.demo_target "checkout").
Definition call_message (called : call) : message := message_of (request_of "request-1" DefaultReasonCode called).
Lemma demo_call_fits :
  Request_ok (request_of "request-1" DefaultReasonCode demo_call) = true /\
  Request_validate (request_of "request-1" DefaultReasonCode demo_call) = Ok tt /\
  is_ok (writeMessage (request_of "request-1" DefaultReasonCode demo_call)) = true.
Proof. vm_compute. auto. Qed.
Definition demo_answer : result answer := remotely demo_client demo_transport DefaultReasonCode demo_call.

(** The registration of the example succeeds, as the first version. *)
Lemma demo_answer_value : demo_answer = Ok (AnswerTarget (mkTargetResult SchemaVersionV1 1 "checkout")).
Proof. vm_compute. reflexivity. Qed.

Lemma remote_calls_are_local_witness :
  (demo_answer, after_call (demo_surroundings demo_actor) (call_message demo_call) demo_state) =
    locally (transportError demo_transport) (demo_surroundings demo_actor) demo_actor "request-1" DefaultReasonCode demo_call demo_state.
Proof.
  destruct demo_call_fits as (Hok & Hv & Hw%message_of_ok).
  refine (remote_calls_are_local (H := gmapBolt) demo_client demo_transport (demo_surroundings demo_actor) demo_state.1 demo_state.2
    demo_actor "request-1" DefaultReasonCode demo_call (call_message demo_call) demo_connected _ Hok Hv Hw).
  exists Target.demo_registry. split; [reflexivity|]. change (0 <= 0 < maxUint64). unfold maxUint64. lia.
Defined.
Lemma answers_match_witness :
  exists response, trusted demo_transport (fun id => request_of id DefaultReasonCode demo_call) response /\
    carries response (AnswerTarget (mkTargetResult SchemaVersionV1 1 "checkout")).
Proof. exact (answers_match demo_client demo_transport DefaultReasonCode demo_call _ demo_answer_value). Defined.

Definition demo_backup_request : Request := call_request "request-1" OperationBackup DefaultReasonCode None None None "" None.
Definition backup_state : @state gmapBolt := after_call (demo_surroundings demo_actor) (message_of demo_backup_request) demo_state.
Lemma demo_backup : Backup demo_client demo_transport DefaultReasonCode = ("bolt", None).
Proof. vm_compute. reflexivity. Qed.
Lemma demo_backup_fits :
  Request_ok demo_backup_request = true /\ Request_validate demo_backup_request = Ok tt /\ is_ok (writeMessage demo_backup_request) = true.
Proof. vm_compute. auto. Qed.
Lemma state_parts (st : @state gmapBolt) : st = (st.1, st.2).
Proof. by destruct st. Qed.
Lemma Backup_delivers_snapshot_witness : "bolt" = at_snapshot (demo_surroundings demo_actor) /\ backup_state.1 = demo_server.
Proof.
  destruct demo_backup_fits as (Hok & Hv & Hw%message_of_ok).
  destruct (Backup_delivers_snapshot (H := gmapBolt) demo_client demo_transport (demo_surroundings demo_actor) demo_state.1 demo_state.2
    demo_actor "request-1" DefaultReasonCode (message_of demo_backup_request) "bolt" backup_state.1 backup_state.2 demo_connected) as (Hb & Hs & _).
  - vm_compute. split; [reflexivity|discriminate].
  - exact Hok.
  - exact Hv.
  - exact Hw.
  - exact demo_backup.
  - exact (state_parts backup_state).
  - exact (conj Hb Hs).
Defined.
