(* ===== verification/Llm.v ===== *)
(** The bounded model (src/internal/llm/llm.go): a language model behind a fixed
    name, a deadline, a number of attempts and the prohibition of tools.

    An iterator is the list of its elements, a range loop a consumer that says
    after each element whether it goes on.  Go panics when an iterator yields
    again after its consumer stopped; the model records it.  The provider and the
    expiry of the deadlines are arguments, the HTTP client is not modelled. *)
From S2P Require Import Prelude GoLib.
From stdpp Require Import options.
Local Open Scope Z_scope.

Definition maxQuotaAttempts : Z := 3.
Definition maxTimeout : duration := 2 * minute.

Definition llm_error := mkError "llm".
Definition ErrInvalidOptions := llm_error "invalid llm options".
Definition ErrSecretUnavailable := llm_error "llm secret unavailable".
Definition ErrUnavailable := llm_error "llm unavailable".
Definition ErrTimeout := llm_error "llm timeout".
Definition ErrQuota := llm_error "llm quota exceeded".
Definition ErrMalformedResponse := llm_error "llm malformed response".
Definition ErrToolsForbidden := llm_error "llm tools are forbidden".

(** * Construction *)

Record GeminiOptions := mkGeminiOptions {
  go_Provider : string;
  go_ModelName : string;
  go_Timeout : duration;
  go_MaxAttempts : Z;
  go_APIKeyRef : string;
}.
Record boundedModel := mkBoundedModel { bm_modelName : string; bm_timeout : duration; bm_maxAttempts : Z }.

Definition validOptions (options : GeminiOptions) : bool :=
  String.eqb (go_Provider options) "gemini" && negb (String.eqb (trim_space (go_ModelName options)) "") &&
  (0 <? go_Timeout options) && (go_Timeout options <=? maxTimeout) && (1 <=? go_MaxAttempts options) &&
  (go_MaxAttempts options <=? maxQuotaAttempts) && negb (String.eqb (go_APIKeyRef options) "").

(** [NewGemini]: [resolve] is the secret resolver, [connect] the construction of
    the provider's client with the key. *)
Definition NewGemini (resolve : string -> result string) (connect : string -> string -> result unit) (options : GeminiOptions) :
    result boundedModel :=
  if negb (validOptions options) then Fail ErrInvalidOptions
  else
    match resolve (go_APIKeyRef options) with
    | Fail _ => Fail ErrSecretUnavailable
    | Ok apiKey =>
      if String.eqb apiKey "" then Fail ErrSecretUnavailable
      else
        match connect (go_ModelName options) apiKey with
        | Fail _ => Fail ErrUnavailable
        | Ok _ => Ok (mkBoundedModel (go_ModelName options) (go_Timeout options) (go_MaxAttempts options))
        end
    end.
Definition Name (m : boundedModel) : string := bm_modelName m.

(** * Requests and responses *)

(** A response, by its end-of-turn mark; an error of the provider, by what
    [errors.Is] and [errors.As] find in it. *)
Record LLMResponse := mkLLMResponse { lr_Text : string; lr_TurnComplete : bool }.
Record provider_error := mkProviderError { pe_Deadline : bool; pe_TooManyRequests : bool; pe_Sentinel : option error }.
(** An element of the provider's iterator: an error with the expiry of the call's
    deadline at that moment, or a response, which may be nil. *)
Inductive element :=
| Failed (err : provider_error) (expired : bool)
| Emitted (response : option LLMResponse).
(** An element the bounded model yields. *)
Inductive yielded :=
| YieldError (err : error)
| YieldResponse (response : LLMResponse).

(** A request: the model it names, its contents, the tools it declares, and the
    configuration of the provider, with the tools named there, copied by value. *)
Record RequestConfig := mkRequestConfig { rc_Tools : list string; rc_Headers : list (string * string) }.
Record LLMRequest := mkLLMRequest {
  lq_Model : string;
  lq_Contents : list string;
  lq_Tools : list string;
  lq_Config : option RequestConfig;
}.
Definition copyRequest (request : LLMRequest) (modelName : string) : LLMRequest :=
  mkLLMRequest modelName (lq_Contents request) []
    match lq_Config request with None => None | Some config => Some (mkRequestConfig (rc_Tools config) (rc_Headers config)) end.

Definition classifyError (expired : bool) (err : provider_error) : error :=
  if expired || pe_Deadline err then ErrTimeout
  else if pe_TooManyRequests err then ErrQuota
  else
    match pe_Sentinel err with
    | Some sentinel =>
      if bool_decide (sentinel ∈ [ErrTimeout; ErrQuota; ErrMalformedResponse; ErrToolsForbidden]) then sentinel else ErrUnavailable
    | None => ErrUnavailable
    end.

(** * Iteration *)

(** What was yielded, whether the consumer stopped, and whether something was
    yielded after that. *)
Record emission := mkEmission { em_elements : list yielded; em_stopped : bool; em_panicked : bool }.
Definition emission_start : emission := mkEmission [] false false.
(** [yield]: the consumer decides on the elements so far. *)
Definition yield (wants : list yielded -> bool) (element : yielded) (em : emission) : bool * emission :=
  if em_stopped em then (false, mkEmission (em_elements em) true true)
  else
    let elements := (em_elements em ++ [element])%list in
    (wants elements, mkEmission elements (negb (wants elements)) (em_panicked em)).

(** [generateOnce]: the loop over the elements of one call; to be retried, the
    turn completed, and the emission. *)
Fixpoint generate_loop (stream : bool) (wants : list yielded -> bool) (elements : list element) (emitted completed : bool)
    (em : emission) : bool * bool * emission :=
  match elements with
  | [] => (false, completed || negb stream, em)
  | Failed err expired :: _ =>
    let classified := classifyError expired err in
    if bool_decide (classified = ErrQuota) && negb stream && negb emitted then (true, false, em)
    else (false, false, (yield wants (YieldError classified) em).2)
  | Emitted None :: _ => (false, false, (yield wants (YieldError ErrMalformedResponse) em).2)
  | Emitted (Some response) :: elements =>
    let completed := completed || lr_TurnComplete response in
    let '(continue, em) := yield wants (YieldResponse response) em in
    if negb continue then (false, completed, em) else generate_loop stream wants elements true completed em
  end.
Definition generateOnce (m : boundedModel) (delegate : LLMRequest -> list element) (request : LLMRequest) (stream : bool)
    (wants : list yielded -> bool) (em : emission) : bool * bool * emission :=
  generate_loop stream wants (delegate (copyRequest request (bm_modelName m))) false false em.

(** The attempts still to be made; the number of calls is returned too. *)
Fixpoint attempt_loop (m : boundedModel) (delegate : nat -> LLMRequest -> list element) (request : LLMRequest) (stream : bool)
    (wants : list yielded -> bool) (attempt remaining : nat) (em : emission) : nat * emission :=
  match remaining with
  | O => (O, em)
  | S remaining =>
    let '(retry, completed, em) := generateOnce m (delegate attempt) request stream wants em in
    if retry then
      match remaining with
      | O => (1%nat, (yield wants (YieldError ErrQuota) em).2)
      | _ => let '(calls, em) := attempt_loop m delegate request stream wants (S attempt) remaining em in (S calls, em)
      end
    else if stream && negb completed then (1%nat, (yield wants (YieldError ErrMalformedResponse) em).2)
    else (1%nat, em)
  end.

(** [GenerateContent]: the calls of the provider and what was yielded. *)
Definition GenerateContent (m : boundedModel) (delegate : nat -> LLMRequest -> list element) (request : LLMRequest) (stream : bool)
    (wants : list yielded -> bool) : nat * emission :=
  if negb (Z.of_nat (length (lq_Tools request)) =? 0) then (O, (yield wants (YieldError ErrToolsForbidden) emission_start).2)
  else attempt_loop m delegate request stream wants 0 (Z.to_nat (bm_maxAttempts m)) emission_start.

(** * Facts *)

(** Nothing was yielded after the consumer stopped. *)
Definition orderly (em : emission) : Prop := em_panicked em = false.

Lemma yield_orderly wants element em : em_stopped em = false -> orderly em -> orderly (yield wants element em).2.
Proof. unfold yield, orderly. by intros ->. Qed.
Lemma yield_continues wants element em em' : yield wants element em = (true, em') -> em_stopped em' = false.
Proof. unfold yield. destruct (em_stopped em); [done|]. intros [= -> <-]. done. Qed.

Lemma generate_loop_orderly stream wants elements emitted completed em retry completed' em' :
  em_stopped em = false -> orderly em ->
  generate_loop stream wants elements emitted completed em = (retry, completed', em') ->
  orderly em' /\ (retry = true -> stream = false /\ emitted = false /\ em' = em).
Proof.
  revert emitted completed em. induction elements as [|[err expired|[response|]] elements IH]; intros emitted completed em Hs Ho; cbn [generate_loop].
  - by intros [= <- <- <-].
  - destruct (bool_decide _ && negb stream && negb emitted) eqn:E; intros [= <- <- <-].
    + apply andb_true_iff in E as [[_ Hst]%andb_true_iff Hem]. by apply negb_true_iff in Hst, Hem.
    + split; [by apply yield_orderly|done].
  - pose proof (yield_orderly wants (YieldResponse response) em Hs Ho) as Hx.
    destruct (yield _ _ _) as [continue em1] eqn:Ey. cbn [snd] in Hx. destruct continue; cbn [negb].
    + intros Hl. apply IH in Hl as [Ho' Hr]; [|by eapply yield_continues|done]. split; [done|]. by intros (_ & Hd & _)%Hr.
    + by intros [= <- <- <-].
  - intros [= <- <- <-]. split; [by apply yield_orderly|done].
Qed.

(** A call whose first element the consumer does not want more of. *)
Lemma generate_loop_first stream wants response elements :
  wants [YieldResponse response] = false ->
  generate_loop stream wants (Emitted (Some response) :: elements) false false emission_start =
    (false, lr_TurnComplete response, mkEmission [YieldResponse response] true false).
Proof. intros Hw. cbn [generate_loop yield emission_start em_stopped em_elements em_panicked app]. by rewrite Hw. Qed.

(** The prohibition of tools looks at the tools of the request only: those of the
    provider's configuration are handed to it. *)
Lemma config_tools_forwarded request modelName config :
  lq_Tools request = [] -> lq_Config request = Some config -> lq_Config (copyRequest request modelName) = Some config.
Proof. intros _ E. unfold copyRequest. rewrite E. by destruct config. Qed.

(** The attempts of a request that is not streamed start afresh. *)
Lemma attempt_loop_plain m delegate request wants attempt remaining calls em :
  attempt_loop m delegate request false wants attempt remaining emission_start = (calls, em) ->
  orderly em /\ (calls <= remaining)%nat /\ (remaining <> 0%nat -> (1 <= calls)%nat) /\
  forall k, (S k < calls)%nat -> (generateOnce m (delegate (attempt + k)%nat) request false wants emission_start).1.1 = true.
Proof.
  revert attempt calls. induction remaining as [|remaining IH]; intros attempt calls; cbn [attempt_loop].
  { intros [= <- <-]. split_and!; [done..|]. intros k Hk. lia. }
  destruct (generateOnce _ _ _ _ _ _) as [[retry completed] em1] eqn:Eg. pose proof Eg as Eg'.
  unfold generateOnce in Eg. apply generate_loop_orderly in Eg as [Ho Hr]; [|done..]. destruct retry; cbn [andb].
  - destruct (Hr eq_refl) as (_ & _ & ->). destruct remaining as [|remaining].
    + intros [= <- <-]. split_and!; [done|lia|lia|]. intros k Hk. lia.
    + destruct (attempt_loop m delegate request false wants (S attempt) (S remaining) emission_start) as [calls' em2] eqn:El.
      intros [= <- <-]. apply IH in El as (Ho2 & Hc & _ & Hk). split_and!; [done|lia|lia|].
      intros [|k] Hlt; [by rewrite Nat.add_0_r, Eg'|]. rewrite <- Nat.add_succ_comm. apply Hk. lia.
  - intros [= <- <-]. split_and!; [done|lia|lia|]. intros k Hk. lia.
Qed.
Lemma attempt_loop_stream m delegate request wants attempt remaining em calls em' :
  attempt_loop m delegate request true wants attempt remaining em = (calls, em') -> em_stopped em = false -> orderly em ->
  (calls <= 1)%nat.
Proof.
  destruct remaining as [|remaining]; cbn [attempt_loop]; [intros [= <- _]; lia|].
  destruct (generateOnce _ _ _ _ _ _) as [[retry completed] em1] eqn:Eg. intros Hl Hs Ho.
  unfold generateOnce in Eg. apply generate_loop_orderly in Eg as [_ Hr]; [|done..].
  destruct retry; [by destruct (Hr eq_refl) as (Hx & _)|]. cbn [andb] in Hl. destruct (negb completed); injection Hl as <- _; lia.
Qed.

(** * Properties *)

(** A request that is not streamed is tried at most the configured number of
    times and at most three times, a call is repeated only after it failed for its
    quota with nothing yielded, nothing is yielded after the consumer stopped, and
    a request with tools never reaches the provider. *)
Lemma GenerateContent_bounded resolve connect options m delegate request wants calls em :
  NewGemini resolve connect options = Ok m -> GenerateContent m delegate request false wants = (calls, em) ->
  orderly em /\ Z.of_nat calls <= go_MaxAttempts options <= 3 /\
  (forall k, (S k < calls)%nat -> (generateOnce m (delegate k) request false wants emission_start).1.1 = true) /\
  (lq_Tools request <> [] -> calls = 0%nat).
Proof.
  unfold NewGemini. destruct (validOptions options) eqn:Ev; [|done]. destruct (resolve _) as [key|]; [|done].
  cbn [negb]. destruct (String.eqb key ""); [done|]. destruct (connect _ _); [|done]. intros [= <-].
  unfold validOptions in Ev. bool_prop. unfold maxQuotaAttempts in *. unfold GenerateContent. cbn [bm_maxAttempts].
  destruct (Z.eqb_spec (Z.of_nat (length (lq_Tools request))) 0) as [Hn|Hn]; cbn [negb]; intros Hg.
  - apply attempt_loop_plain in Hg as (Ho & Hc & _ & Hk). split_and!; [done|lia|lia|exact Hk|].
    intros Ht. destruct (lq_Tools request); [done|]. cbn in Hn. lia.
  - injection Hg as <- <-. split_and!; [done|lia|lia|intros k Hk; lia|done].
Qed.

(** C30: a streamed request panics when its consumer stops at a response that does
    not end the turn: the iterator yields an error to the consumer that has
    stopped. *)
Theorem stream_stop_panics m delegate request wants response rest :
  lq_Tools request = [] -> 1 <= bm_maxAttempts m ->
  delegate 0%nat (copyRequest request (bm_modelName m)) = Emitted (Some response) :: rest -> lr_TurnComplete response = false ->
  wants [YieldResponse response] = false -> em_panicked (GenerateContent m delegate request true wants).2 = true.
Proof.
  intros Ht Hm Hd Hr Hw. unfold GenerateContent. rewrite Ht. cbn [length Z.of_nat Z.eqb negb].
  destruct (Z.to_nat (bm_maxAttempts m)) as [|remaining] eqn:En; [lia|]. cbn [attempt_loop]. unfold generateOnce.
  rewrite Hd, generate_loop_first by done. by rewrite Hr.
Qed.

(** * Examples *)

Definition demo_options : GeminiOptions := mkGeminiOptions "gemini" "gemini-flash" (30 * second) 2 "env:GEMINI_API_KEY".
Definition demo_bounded : boundedModel := mkBoundedModel "gemini-flash" (30 * second) 2.
Definition demo_request : LLMRequest := mkLLMRequest "other" ["prompt"] [] None.
Definition quota : provider_error := mkProviderError false true None.
(** The first call fails for its quota, the second answers. *)
Definition demo_delegate (attempt : nat) (_ : LLMRequest) : list element :=
  match attempt with O => [Failed quota false] | _ => [Emitted (Some (mkLLMResponse "answer" false))] end.
Lemma demo_generated :
  GenerateContent demo_bounded demo_delegate demo_request false (fun _ => false) =
    (2%nat, mkEmission [YieldResponse (mkLLMResponse "answer" false)] true false).
Proof. vm_compute. reflexivity. Qed.
Lemma GenerateContent_bounded_witness : 2 <= go_MaxAttempts demo_options <= 3.
Proof.
  exact (proj1 (proj2 (GenerateContent_bounded (fun _ => Ok "key") (fun _ _ => Ok tt) demo_options demo_bounded demo_delegate
    demo_request (fun _ => false) 2%nat _ eq_refl demo_generated))).
Defined.
Lemma stream_stop_panics_witness :
  em_panicked (GenerateContent demo_bounded (fun _ => demo_delegate 1) demo_request true (fun _ => false)).2 = true.
Proof.
  apply (stream_stop_panics demo_bounded (fun _ => demo_delegate 1) demo_request (fun _ => false) (mkLLMResponse "answer" false) []);
    [reflexivity|vm_compute; discriminate|reflexivity|reflexivity|reflexivity].
Defined.
