(* ===== verification/Service.v ===== *)
(** The standalone service (src/internal/standalone/service.go): admission of work
    and the drain at shutdown.

    Every critical section under the mutex of the source is one step of a step
    relation; the properties hold for all interleavings. *)
From S2P Require Import Prelude GoLib.
From stdpp Require Import relations gmap options.
Local Open Scope Z_scope.

Definition ErrAlreadyStarted := mkError "standalone" "standalone service already started".
Definition ErrShutdownTimeout := mkError "standalone" "standalone shutdown timed out".

(** * The service *)

(** [sv_closes] counts the calls of [close(s.drained)]; the second one panics. *)
Record Service := mkService { sv_started : bool; sv_accepting : bool; sv_active : Z; sv_closes : nat }.
#[export] Instance Service_eta : Updatable Service :=
  fun r => mkService (sv_started r) (sv_accepting r) (sv_active r) (sv_closes r).
Definition newService : Service := mkService false false 0 0.

Definition start (s : Service) : result unit * Service :=
  if sv_started s then (Fail ErrAlreadyStarted, s) else (Ok tt, s <| sv_started := true |> <| sv_accepting := true |>).
(** [BeginWork]: whether the work is admitted; its completion function runs
    [completeWork] once. *)
Definition BeginWork (s : Service) : bool * Service :=
  if negb (sv_accepting s) then (false, s) else (true, s <| sv_active := sv_active s + 1 |>).
Definition close_drained (s : Service) : Service := s <| sv_closes := S (sv_closes s) |>.
Definition completeWork (s : Service) : Service :=
  let s := s <| sv_active := sv_active s - 1 |> in
  if negb (sv_accepting s) && (sv_active s =? 0) then close_drained s else s.
Definition stopAccepting (s : Service) : Service :=
  let s := s <| sv_accepting := false |> in
  if sv_active s =? 0 then close_drained s else s.
Definition Accepting (s : Service) : bool := sv_accepting s.

(** The program counter of the one run that started. *)
Inductive run := NotStarted | Running | Draining.
(** The service, its run and the work admitted so far: [true] once the completion
    function of a work was called. *)
Record world := mkWorld { w_service : Service; w_run : run; w_works : list bool }.
Definition world_start : world := mkWorld newService NotStarted [].

(** [drain] returns when the channel is closed, or when the timer expired. *)
Inductive drain (w : world) (expired : bool) : option error -> Prop :=
| drain_done : (0 < sv_closes (w_service w))%nat -> drain w expired None
| drain_timeout : expired = true -> drain w expired (Some ErrShutdownTimeout).

Inductive step (w : world) : world -> Prop :=
| step_start s : start (w_service w) = (Ok tt, s) -> step w (mkWorld s Running (w_works w))
| step_refused e s : start (w_service w) = (Fail e, s) -> step w (mkWorld s (w_run w) (w_works w))
| step_begin s : BeginWork (w_service w) = (true, s) -> step w (mkWorld s (w_run w) (w_works w ++ [false]))
| step_rejected s : BeginWork (w_service w) = (false, s) -> step w (mkWorld s (w_run w) (w_works w))
| step_complete i : w_works w !! i = Some false -> step w (mkWorld (completeWork (w_service w)) (w_run w) (<[i := true]> (w_works w)))
| step_complete_again i : w_works w !! i = Some true -> step w w
| step_stop : w_run w = Running -> step w (mkWorld (stopAccepting (w_service w)) Draining (w_works w)).

(** ** Facts *)

Definition unfinished (works : list bool) : Z := Z.of_nat (length (filter (fun done => done = false) works)).
Record world_ok (w : world) : Prop := {
  wo_active : sv_active (w_service w) = unfinished (w_works w);
  wo_started : sv_started (w_service w) = match w_run w with NotStarted => false | _ => true end;
  wo_accepting : sv_accepting (w_service w) = match w_run w with Running => true | _ => false end;
  wo_idle : w_run w = NotStarted -> w_works w = [];
  wo_closes : sv_closes (w_service w) =
    match w_run w with Draining => if sv_active (w_service w) =? 0 then 1%nat else 0%nat | _ => 0%nat end;
}.
Lemma unfinished_snoc works : unfinished (works ++ [false]) = unfinished works + 1.
Proof. unfold unfinished. rewrite filter_app, length_app, filter_cons_True by done. cbn. lia. Qed.
Lemma unfinished_complete works i : works !! i = Some false -> unfinished (<[i := true]> works) = unfinished works - 1.
Proof.
  intros Hi. unfold unfinished. rewrite insert_take_drop by (by eapply lookup_lt_Some). rewrite <- (take_drop_middle works i false Hi) at 3.
  rewrite !filter_app, !length_app, (filter_cons_False _ true), (filter_cons_True _ false) by done. cbn [length]. lia.
Qed.
Lemma unfinished_nonneg works : 0 <= unfinished works.
Proof. unfold unfinished. lia. Qed.
Lemma unfinished_some works i : works !! i = Some false -> 0 < unfinished works.
Proof. intros Hi. pose proof (unfinished_complete works i Hi). pose proof (unfinished_nonneg (<[i := true]> works)). lia. Qed.
Lemma unfinished_none works : unfinished works = 0 <-> Forall (eq true) works.
Proof.
  unfold unfinished. induction works as [|[] works IH]; [by split; [constructor|]| |].
  - rewrite filter_cons_False by done. rewrite IH. split; [by constructor|by intros Hf; inversion Hf].
  - rewrite filter_cons_True by done. cbn. split; [lia|]. intros Hf; inversion Hf; done.
Qed.

Lemma step_ok w w' : world_ok w -> step w w' -> world_ok w'.
Proof.
  intros [Ha Hs Hacc Hid Hc]. destruct w as [[started accepting active closes] pc works]. cbn in *.
  destruct 1 as [s Hst|e s Hst|s Hb|s Hb|i Hi|i Hi|Hr]; cbn in *.
  - unfold start in Hst. cbn in Hst. destruct started; [done|]. injection Hst as <-. destruct pc; [|discriminate..]. rewrite (Hid eq_refl) in *.
    split; cbn; done.
  - unfold start in Hst. cbn in Hst. destruct started; [|done]. by injection Hst as _ <-.
  - unfold BeginWork in Hb. cbn in Hb. destruct accepting; [|done]. injection Hb as <-. destruct pc; try done.
    split; cbn; try done. rewrite unfinished_snoc. by rewrite Ha.
  - unfold BeginWork in Hb. cbn in Hb. destruct accepting; [done|]. by injection Hb as <-.
  - pose proof (unfinished_complete works i Hi) as Hu. pose proof (unfinished_some works i Hi) as Hp.
    unfold completeWork. cbn. destruct accepting; cbn [negb andb].
    + destruct pc; try done. split; cbn; try done. lia.
    + destruct pc; try done; [by rewrite (Hid eq_refl) in Hi|]. destruct (Z.eqb_spec (active - 1) 0) as [Hz|Hz]; cbn [negb andb].
      * split; cbn; try done; [lia|]. destruct (Z.eqb_spec active 0); [lia|]. rewrite Hc. by destruct (Z.eqb_spec (active - 1) 0); [|lia].
      * split; cbn; try done; [lia|]. destruct (Z.eqb_spec active 0); [lia|]. rewrite Hc. by destruct (Z.eqb_spec (active - 1) 0); [lia|].
  - done.
  - subst pc. unfold stopAccepting. cbn. destruct (Z.eqb_spec active 0) as [Hz|Hz]; split; cbn; try done.
    + by rewrite Hc, Hz.
    + by destruct (Z.eqb_spec active 0); [lia|].
Qed.
Definition reachable (w : world) : Prop := rtc step world_start w.
Lemma service_reachable_ok w : reachable w -> world_ok w.
Proof.
  intros Hr. unfold reachable in Hr. remember world_start as w0 eqn:E. assert (H0 : world_ok w0) by (subst; by split).
  clear E. induction Hr as [w|w w1 w2 Hs _ IH]; [done|]. apply IH. by eapply step_ok.
Qed.

Lemma closed_iff w :
  world_ok w ->
  (sv_closes (w_service w) <= 1)%nat /\ ((0 < sv_closes (w_service w))%nat <-> w_run w = Draining /\ Forall (eq true) (w_works w)).
Proof.
  intros [Ha _ _ _ Hc]. rewrite <- unfinished_none, <- Ha, Hc. destruct (w_run w); try (split; [lia|split; [lia|by intros [? _]]]).
  destruct (Z.eqb_spec (sv_active (w_service w)) 0); (split; [lia|split; [|by intros [_ ?]; lia]]); intros ?; split; done || lia.
Qed.
(** Once drained, no step changes the works or opens the channel again. *)
Lemma drained_step w w' :
  world_ok w -> (0 < sv_closes (w_service w))%nat -> step w w' -> w_works w' = w_works w /\ (0 < sv_closes (w_service w'))%nat.
Proof.
  intros Hok Hc Hs. pose proof (proj1 (proj2 (closed_iff w Hok)) Hc) as [Hrun Hall]. destruct Hok as [_ Hst Hacc _ _].
  rewrite Hrun in Hst, Hacc. destruct w as [[started accepting active closes] pc works]. cbn in *. subst.
  destruct Hs as [s Hst|e s Hst|s Hb|s Hb|i Hi|i Hi|Hr]; cbn in *; try done.
  - by injection Hst as _ <-.
  - by injection Hb as <-.
  - rewrite Forall_forall in Hall. apply list_elem_of_lookup_2 in Hi. by specialize (Hall _ Hi).
Qed.

(** ** Properties *)

(** C31: in every interleaving of runs, admissions and completions, called any
    number of times, the drained channel is closed at most once, and exactly when
    the service was stopped and every admitted work is complete; work is admitted
    only between start and stop. *)
Theorem service_drains w :
  reachable w ->
  (sv_closes (w_service w) <= 1)%nat /\
  ((0 < sv_closes (w_service w))%nat <-> w_run w = Draining /\ Forall (eq true) (w_works w)) /\
  ((BeginWork (w_service w)).1 = true <-> w_run w = Running).
Proof.
  intros Hok%service_reachable_ok. destruct (closed_iff w Hok). split_and!; [done..|].
  destruct Hok as [_ _ Hacc _ _]. unfold BeginWork. rewrite Hacc. by destruct (w_run w).
Qed.

(** A run that returns without error left no admitted work unfinished, and no
    later step admits any; one that returns an error timed out. *)
Lemma drained_for_good w w' expired r :
  reachable w -> drain w expired r -> rtc step w w' ->
  match r with
  | None => w_works w' = w_works w /\ Forall (eq true) (w_works w)
  | Some e => e = ErrShutdownTimeout /\ expired = true
  end.
Proof.
  intros Hok%service_reachable_ok Hd Hs. destruct Hd as [Hc|He]; [|done].
  pose proof (proj1 (proj2 (closed_iff w Hok)) Hc) as [_ Hall]. split; [|done].
  clear Hall. induction Hs as [w|w w1 w2 Hstep _ IH]; [done|].
  destruct (drained_step w w1 Hok Hc Hstep) as [Hw Hc1]. rewrite IH; [done|by eapply step_ok|done].
Qed.

(** ** Witnesses *)

(** Two works are admitted, one completes, the service stops and the other one
    completes while the run drains. *)
Definition demo_service (active : Z) (accepting : bool) : Service := mkService true accepting active 0.
Definition demo_drained : world := mkWorld (mkService true false 0 1) Draining [true; true].
Lemma demo_drained_reachable : reachable demo_drained.
Proof.
  eapply rtc_l; [apply (step_start _ (demo_service 0 true)); reflexivity|].
  eapply rtc_l; [apply (step_begin _ (demo_service 1 true)); reflexivity|].
  eapply rtc_l; [apply (step_begin _ (demo_service 2 true)); reflexivity|].
  eapply rtc_l; [apply (step_complete _ 1); reflexivity|].
  eapply rtc_l; [apply step_stop; reflexivity|].
  eapply rtc_l; [apply (step_complete _ 0); reflexivity|]. apply rtc_refl.
Qed.
Lemma service_drains_witness :
  (sv_closes (w_service demo_drained) <= 1)%nat /\
  ((0 < sv_closes (w_service demo_drained))%nat <-> w_run demo_drained = Draining /\ Forall (eq true) (w_works demo_drained)) /\
  ((BeginWork (w_service demo_drained)).1 = true <-> w_run demo_drained = Running).
Proof. exact (service_drains demo_drained demo_drained_reachable). Defined.
Lemma demo_drained_rejects : rtc step demo_drained demo_drained.
Proof. eapply rtc_l; [apply (step_rejected _ (mkService true false 0 1)); reflexivity|]. apply rtc_refl. Qed.
Lemma drained_for_good_witness : w_works demo_drained = w_works demo_drained /\ Forall (eq true) (w_works demo_drained).
Proof.
  exact (drained_for_good demo_drained demo_drained false None demo_drained_reachable
    (drain_done demo_drained false (le_n 1)) demo_drained_rejects).
Defined.
