(* ===== verification/ServerLife.v ===== *)
(** The accept loop of the administrative server with its shutdown:
    src/internal/adminipc/server.go, [Serve], [Close] and the critical sections they
    share with the connection workers.

    Connections are numbered in the order they are accepted. The operating system's
    part of the state (the listening socket, the open connections) is kept beside the
    fields of [Server]; every critical section and every call that opens or closes a
    descriptor is one step. What a worker reads and writes is in AdminServer. *)
From S2P Require Import Prelude GoLib.
From stdpp Require Import relations gmap options.

Definition ErrAlreadyServing := mkError "adminipc" "administrative server already serving".

(** * The fields of [Server] the loop shares, and their critical sections *)

Record Server := mkServer {
  srv_started : bool; srv_closed : bool; srv_closeDone : bool;
  srv_listener : bool; srv_connections : gset nat;
}.
#[export] Instance Server_eta : Updatable Server :=
  fun r => mkServer (srv_started r) (srv_closed r) (srv_closeDone r) (srv_listener r) (srv_connections r).
Definition newServer : Server := mkServer false false false false ∅.

Definition begin (s : Server) : result unit * Server :=
  if srv_started s || srv_closed s then (Fail ErrAlreadyServing, s) else (Ok tt, s <| srv_started := true |>).
Definition installListener (s : Server) : bool * Server :=
  if srv_closed s then (false, s) else (true, s <| srv_listener := true |>).
Definition trackConnection (c : nat) (s : Server) : bool * Server :=
  if srv_closed s then (false, s) else (true, s <| srv_connections := {[c]} ∪ srv_connections s |>).
Definition untrack (c : nat) (s : Server) : Server := s <| srv_connections := srv_connections s ∖ {[c]} |>.
(** The first critical section of [Close]: what is left to close, unless another
    call of [Close] is or was at it. *)
Definition Close_enter (s : Server) : option (bool * gset nat) * Server :=
  if srv_closed s then (None, s)
  else (Some (srv_listener s, srv_connections s), s <| srv_closed := true |> <| srv_listener := false |>).
Definition Close_leave (s : Server) : Server := s <| srv_closeDone := true |>.

(** * The program counters *)

Inductive socket := Unbound | Listening | Shut.
(** A worker serves its connection, has removed it from the tracked ones, has
    closed it; then it leaves the wait group. *)
Inductive worker := Serving | Untracked | Closed.
Inductive serve :=
| NotServing | Listen | Install | DropListener
| Accept | CurrentSocket (c : nat) | Track (c : nat) | Drop (c : nat)
| Closing (wait : bool) | Waiting | Returned.
Record world := mkWorld {
  w_server : Server; w_serve : serve; w_listener : socket; w_open : gset nat; w_next : nat;
  w_workers : gmap nat worker; w_closer : option (bool * gset nat);
}.
#[export] Instance world_eta : Updatable world :=
  fun r => mkWorld (w_server r) (w_serve r) (w_listener r) (w_open r) (w_next r) (w_workers r) (w_closer r).
Definition world_start : world := mkWorld newServer NotServing Unbound ∅ 0 ∅ None.

(** The call of [Close] in [Serve] returns once [closeDone] is closed, whichever
    call of [Close] did the work. *)
Inductive step (w : world) : world -> Prop :=
| step_begin s : begin (w_server w) = (Ok tt, s) -> step w (w <| w_server := s |> <| w_serve := Listen |>)
| step_refused e s : begin (w_server w) = (Fail e, s) -> step w (w <| w_server := s |>)
| step_listen : w_serve w = Listen -> step w (w <| w_serve := Install |> <| w_listener := Listening |>)
| step_listen_failed : w_serve w = Listen -> step w (w <| w_serve := Closing false |>)
| step_install s : w_serve w = Install -> installListener (w_server w) = (true, s) ->
    step w (w <| w_server := s |> <| w_serve := Accept |>)
| step_install_closed s : w_serve w = Install -> installListener (w_server w) = (false, s) ->
    step w (w <| w_server := s |> <| w_serve := DropListener |>)
| step_drop_listener : w_serve w = DropListener -> step w (w <| w_listener := Shut |> <| w_serve := Returned |>)
| step_accept : w_serve w = Accept -> w_listener w = Listening ->
    step w (w <| w_serve := CurrentSocket (w_next w) |> <| w_open := {[w_next w]} ∪ w_open w |> <| w_next := S (w_next w) |>)
| step_accept_failed : w_serve w = Accept -> step w (w <| w_serve := Closing true |>)
| step_current c : w_serve w = CurrentSocket c -> step w (w <| w_serve := Track c |>)
| step_replaced c : w_serve w = CurrentSocket c -> step w (w <| w_serve := Drop c |>)
| step_track c s : w_serve w = Track c -> trackConnection c (w_server w) = (true, s) ->
    step w (w <| w_server := s |> <| w_serve := Accept |> <| w_workers := <[c := Serving]> (w_workers w) |>)
| step_track_closed c s : w_serve w = Track c -> trackConnection c (w_server w) = (false, s) ->
    step w (w <| w_server := s |> <| w_serve := Drop c |>)
| step_drop c : w_serve w = Drop c -> step w (w <| w_open := w_open w ∖ {[c]} |> <| w_serve := Closing true |>)
| step_close_returned wait : w_serve w = Closing wait -> srv_closeDone (w_server w) = true ->
    step w (w <| w_serve := if wait then Waiting else Returned |>)
| step_waited : w_serve w = Waiting -> w_workers w = ∅ -> step w (w <| w_serve := Returned |>)
| step_close k s : Close_enter (w_server w) = (Some k, s) -> step w (w <| w_server := s |> <| w_closer := Some k |>)
| step_closed_already s : Close_enter (w_server w) = (None, s) -> step w (w <| w_server := s |>)
| step_close_listener cs : w_closer w = Some (true, cs) -> step w (w <| w_closer := Some (false, cs) |> <| w_listener := Shut |>)
| step_close_connection c cs : w_closer w = Some (false, cs) -> c ∈ cs ->
    step w (w <| w_closer := Some (false, cs ∖ {[c]}) |> <| w_open := w_open w ∖ {[c]} |>)
| step_close_done : w_closer w = Some (false, ∅) -> step w (w <| w_server := Close_leave (w_server w) |> <| w_closer := None |>)
| step_worker_untrack c : w_workers w !! c = Some Serving ->
    step w (w <| w_server := untrack c (w_server w) |> <| w_workers := <[c := Untracked]> (w_workers w) |>)
| step_worker_close c : w_workers w !! c = Some Untracked ->
    step w (w <| w_open := w_open w ∖ {[c]} |> <| w_workers := <[c := Closed]> (w_workers w) |>)
| step_worker_done c : w_workers w !! c = Some Closed -> step w (w <| w_workers := delete c (w_workers w) |>).
Definition reachable (w : world) : Prop := rtc step world_start w.

(** * Facts *)

(** The connection [Serve] holds between accepting it and handing it over. *)
Definition holds (pc : serve) (c : nat) : Prop := pc = CurrentSocket c \/ pc = Track c \/ pc = Drop c.
(** The program counters before the listener is installed. *)
Definition early (pc : serve) : Prop :=
  match pc with NotServing | Listen | Install | DropListener | Closing false => True | _ => False end.

(** What each connection, the closing call and the program counter keep. *)
Record connections_ok (w : world) : Prop := {
  ci_tracked c : c ∈ srv_connections (w_server w) <-> w_workers w !! c = Some Serving;
  ci_owned c : c ∈ w_open w -> w_workers w !! c = Some Serving \/ w_workers w !! c = Some Untracked \/ holds (w_serve w) c;
  ci_bound c : c ∈ w_open w \/ is_Some (w_workers w !! c) \/ holds (w_serve w) c -> (c < w_next w)%nat;
  ci_closer c : srv_closed (w_server w) = true -> c ∈ srv_connections (w_server w) -> c ∈ w_open w ->
    exists l cs, w_closer w = Some (l, cs) /\ c ∈ cs;
}.
Record closing_ok (w : world) : Prop := {
  li_open : srv_closed (w_server w) = false -> w_closer w = None /\ srv_closeDone (w_server w) = false;
  li_done : srv_closeDone (w_server w) = true -> w_closer w = None;
  li_started : w_serve w <> NotServing -> srv_started (w_server w) = true;
  li_listener : w_listener w = Listening ->
    srv_listener (w_server w) = true \/ (exists cs, w_closer w = Some (true, cs)) \/ w_serve w = Install \/ w_serve w = DropListener;
  li_installed : srv_listener (w_server w) = true -> srv_closed (w_server w) = false;
  li_early : early (w_serve w) -> srv_listener (w_server w) = false /\ (forall cs, w_closer w <> Some (true, cs)) /\ w_workers w = ∅;
  li_drop : w_serve w = DropListener -> srv_closed (w_server w) = true;
  li_waiting : w_serve w = Waiting -> srv_closeDone (w_server w) = true;
  li_returned : w_serve w = Returned -> srv_closed (w_server w) = true /\ (forall cs, w_closer w <> Some (true, cs)) /\ w_workers w = ∅;
}.
Ltac step_cases Hs :=
  let pc := fresh "pc" in
  destruct Hs as [s Hb|e s Hb|Hpc|Hpc|s Hpc Hb|s Hpc Hb|Hpc|Hpc Hl|Hpc|c Hpc|c Hpc|c s Hpc Hb|c s Hpc Hb|c Hpc|wait Hpc Hd|Hpc Hw
    |k s Hb|s Hb|cs Hk|c cs Hk Hc|Hk|c Hw|c Hw|c Hw]; cbn in *;
  unfold begin, installListener, trackConnection, Close_enter, holds in *; cbn in *;
  repeat match goal with H : (if ?b then _ else _) = _ |- _ => destruct b eqn:?; try discriminate H end;
  simplify_eq; cbn in *.
Ltac at_connection x :=
  repeat match goal with
  | |- context [<[?c := _]> _ !! x] => destruct (decide (c = x)) as [->|]; [rewrite lookup_insert_eq in *|rewrite lookup_insert_ne in * by done]
  | H : context [<[?c := _]> _ !! x] |- _ => destruct (decide (c = x)) as [->|]; [rewrite lookup_insert_eq in *|rewrite lookup_insert_ne in * by done]
  | H : context [delete ?c _ !! x] |- _ => destruct (decide (c = x)) as [->|]; [rewrite lookup_delete_eq in *|rewrite lookup_delete_ne in * by done]
  | |- context [delete ?c _ !! x] => destruct (decide (c = x)) as [->|]; [rewrite lookup_delete_eq in *|rewrite lookup_delete_ne in * by done]
  end.
Lemma step_connections w w' : connections_ok w -> closing_ok w -> step w w' -> connections_ok w'.
Proof.
  intros [Ht Ho Hb' Hc'] [_ _ Hst _ _ _ _ _ _] Hs. destruct w as [[started closed done listener conns] pc lst op next workers closer]. cbn in *.
  step_cases Hs.
  all: (split; cbn; intros x; specialize (Ht x); specialize (Ho x); specialize (Hb' x); specialize (Hc' x); at_connection x; try tauto;
    unfold holds; set_unfold; try tauto).
  all: try solve [intuition (try congruence; try lia)].
  all: try (destruct started; [discriminate|]; destruct pc; try (discriminate Hst; done); try tauto).
  all: try solve [intros; apply Hb'; eauto].
  - intros Hx. destruct (Ho Hx) as [|[|[|[|]]]]; try discriminate; tauto.
  - intros [[->|Hx]|[Hx|[[= ->]|[|]]]]; try discriminate; try lia; enough (x < next) by lia; apply Hb'; tauto.
  - intros -> Hx [->|Hop]; [|by apply Hc']. rewrite (proj1 Ht Hx) in Hb'. enough (next < next) by lia. apply Hb'. right; left; eauto.
  - intros [|[|[|[[= ->]|]]]]; try discriminate; apply Hb'; tauto.
  - intros [|[|[|[|[= ->]]]]]; try discriminate; apply Hb'; tauto.
  - intros [|[|[|[|[= ->]]]]]; try discriminate; apply Hb'; tauto.
  - intros [|[|[|[|]]]]; try (destruct wait; discriminate); apply Hb'; tauto.
  - eauto.
  - intros -> Hx Hop. destruct (Hc' eq_refl Hx Hop) as (l & cs' & [= <- <-] & Hin). eauto.
  - intros -> Hx [Hop Hne]. destruct (Hc' eq_refl Hx Hop) as (l & cs' & [= <- <-] & Hin). eexists _, _. split; [done|]. set_solver.
  - intros -> Hx Hop. destruct (Hc' eq_refl Hx Hop) as (l & cs' & [= <- <-] & Hin). set_solver.
Qed.
Lemma step_closing w w' : closing_ok w -> step w w' -> closing_ok w'.
Proof.
  intros [Hop Hdn Hst Hls Hin Hea Hdr Hwt Hre] Hs.
  destruct w as [[started closed done listener conns] pc lst op next workers closer]. cbn in *.
  step_cases Hs.
  all: split; cbn; try tauto; try congruence.
  all: try (destruct started; [discriminate|]; destruct pc; try (discriminate Hst; done); try tauto).
  all: intuition (try congruence).
  all: try (exfalso; subst workers; rewrite lookup_empty in Hw; discriminate).
  all: try (destruct wait; cbn in *; first [tauto|discriminate|destruct closed; [done|naive_solver]]).
  - destruct closed; [done|]. destruct Hop as [_ Hf]; [done|congruence].
  - subst listener. right; left; eauto.
  - match goal with He : exists _, closer = _ |- _ => destruct He as [cs He'] end. congruence.
  - match goal with He : exists _, Some _ = _ |- _ => destruct He as [cs' [=]] end.
  - match goal with He : exists _, Some _ = _ |- _ => destruct He as [cs [=]] end.
Qed.
Lemma server_reachable_ok w : reachable w -> connections_ok w /\ closing_ok w.
Proof.
  intros Hr. unfold reachable in Hr. remember world_start as w0 eqn:E.
  assert (H0 : connections_ok w0 /\ closing_ok w0).
  { subst w0. split; [|by split]. split; cbn; intros c.
    - rewrite lookup_empty. set_solver.
    - set_solver.
    - intros [H|[[x H]|[H|[H|H]]]]; done || set_solver.
    - done. }
  clear E. induction Hr as [w|w w1 w2 Hs _ IH]; [done|]. destruct H0 as [Hc Hl]. apply IH.
  split; [by eapply step_connections|by eapply step_closing].
Qed.

(** ** Properties *)

(** C32: once [Serve] returned, no connection it ever accepted is open, the listening
    socket is closed, and no worker runs: in every interleaving of accepting,
    connection workers and any number of concurrent calls of [Serve] and [Close],
    with a listener that fails, that is installed too late or that is replaced. *)
Theorem Serve_leaves_nothing w :
  reachable w -> w_serve w = Returned ->
  w_open w = ∅ /\ w_workers w = ∅ /\ w_listener w <> Listening /\ srv_closed (w_server w) = true.
Proof.
  intros [[_ Ho _ _] [_ _ _ Hls Hin _ _ _ Hre]]%server_reachable_ok Hpc. destruct (Hre Hpc) as (Hcl & Hk & Hw).
  split_and!; [|done| |done].
  - apply elem_of_equiv_empty_L. intros c Hc. destruct (Ho c Hc) as [H|[H|H]]; try by rewrite Hw, lookup_empty in H.
    destruct H as [H|[H|H]]; congruence.
  - intros Hl. destruct (Hls Hl) as [H|[[cs H]|[H|H]]]; [|by eapply Hk|congruence..]. by rewrite (Hin H) in Hcl.
Qed.

(** C33: once a call of [Close] returned, every connection a worker still serves is
    closed, so its next read or write fails, no later connection is handed to a
    worker, and no connection is accepted: the listening socket is closed, or held by
    a call of [Serve] that is about to close it. *)
Theorem Close_cuts_peers w c :
  reachable w -> srv_closeDone (w_server w) = true ->
  (w_workers w !! c = Some Serving -> c ∉ w_open w) /\ (trackConnection c (w_server w)).1 = false /\
  (w_listener w = Listening -> w_serve w = Install \/ w_serve w = DropListener).
Proof.
  intros [[Ht _ _ Hc] [Hop Hdn _ Hls Hin _ _ _ _]]%server_reachable_ok Hd.
  assert (Hcl : srv_closed (w_server w) = true).
  { destruct (srv_closed (w_server w)); [done|]. destruct (Hop eq_refl). congruence. }
  split_and!.
  - intros Hw Hopen. destruct (Hc c Hcl (proj2 (Ht c) Hw) Hopen) as (l & cs & Hk & _). by rewrite (Hdn Hd) in Hk.
  - unfold trackConnection. by rewrite Hcl.
  - intros Hl. destruct (Hls Hl) as [H|[[cs H]|H]]; [|by rewrite (Hdn Hd) in H|done]. by rewrite (Hin H) in Hcl.
Qed.

(** ** Witnesses *)

(** A connection is being served when [Close] is called from outside. *)
Definition demo_closed : world :=
  mkWorld (mkServer true true true false {[0]}) Accept Shut ∅ 1 {[0 := Serving]} None.
Lemma demo_closed_reachable : reachable demo_closed.
Proof.
  eapply rtc_l; [apply step_begin; reflexivity|].
  eapply rtc_l; [apply step_listen; reflexivity|].
  eapply rtc_l; [eapply step_install; reflexivity|].
  eapply rtc_l; [apply step_accept; reflexivity|].
  eapply rtc_l; [apply step_current with (c := 0); reflexivity|].
  eapply rtc_l; [eapply step_track with (c := 0); reflexivity|].
  eapply rtc_l; [eapply step_close; reflexivity|].
  eapply rtc_l; [eapply step_close_listener; reflexivity|].
  eapply rtc_l; [eapply step_close_connection with (c := 0); [reflexivity|vm_compute; reflexivity]|].
  eapply rtc_l; [apply step_close_done; vm_compute; reflexivity|].
  assert (H : forall w, w = demo_closed -> rtc step w demo_closed) by (by intros w ->; apply rtc_refl).
  apply H. vm_compute. reflexivity.
Qed.
Definition demo_returned : world := mkWorld (mkServer true true true false ∅) Returned Shut ∅ 1 ∅ None.
Lemma demo_returned_reachable : reachable demo_returned.
Proof.
  unfold reachable. transitivity demo_closed; [apply demo_closed_reachable|].
  eapply rtc_l; [apply step_accept_failed; reflexivity|].
  eapply rtc_l; [apply step_close_returned with (wait := true); reflexivity|].
  eapply rtc_l; [apply step_worker_untrack with (c := 0); reflexivity|].
  eapply rtc_l; [apply step_worker_close with (c := 0); vm_compute; reflexivity|].
  eapply rtc_l; [apply step_worker_done with (c := 0); vm_compute; reflexivity|].
  eapply rtc_l; [apply step_waited; vm_compute; reflexivity|].
  assert (H : forall w, w = demo_returned -> rtc step w demo_returned) by (by intros w ->; apply rtc_refl).
  apply H. vm_compute. reflexivity.
Qed.
Lemma Serve_leaves_nothing_witness :
  w_open demo_returned = ∅ /\ w_workers demo_returned = ∅ /\ w_listener demo_returned <> Listening /\
  srv_closed (w_server demo_returned) = true.
Proof. exact (Serve_leaves_nothing demo_returned demo_returned_reachable eq_refl). Defined.
Lemma Close_cuts_peers_witness :
  (w_workers demo_closed !! 0 = Some Serving -> 0 ∉ w_open demo_closed) /\
  (trackConnection 0 (w_server demo_closed)).1 = false /\
  (w_listener demo_closed = Listening -> w_serve demo_closed = Install \/ w_serve demo_closed = DropListener).
Proof. exact (Close_cuts_peers demo_closed 0 demo_closed_reachable eq_refl). Defined.
