(* ===== verification/GoPath.v ===== *)
(** The functions of path/filepath the configuration uses, on a Unix system: the
    elements of a path, [Clean], [IsAbs] and [Rel], with the shape of the clean
    absolute paths. *)
From S2P Require Import Prelude GoLib GoText.
From stdpp Require Import options.
Local Open Scope Z_scope.

Definition slash : string := String (of_byte 47) EmptyString.
Definition IsAbs (path : string) : bool := has_prefix slash path.

(** One element of a path after the clean elements before it, the last one
    first. *)
Definition clean_step (rooted : bool) (out : list string) (element : string) : list string :=
  if String.eqb element "" || String.eqb element "." then out
  else if String.eqb element ".." then
    match out with
    | last :: rest => if String.eqb last ".." then element :: out else rest
    | [] => if rooted then [] else [element]
    end
  else element :: out.
Definition clean_elements (rooted : bool) (elements : list string) : list string :=
  reverse (fold_left (clean_step rooted) elements []).
Definition absolute (elements : list string) : string := String.append slash (join slash elements).
Definition Clean (path : string) : string :=
  if String.eqb path "" then "."
  else
    let elements := clean_elements (IsAbs path) (split_byte 47 path) in
    if IsAbs path then absolute elements
    else if decide (elements = []) then "." else join slash elements.

(** The elements of a clean path that starts with a slash. *)
Definition elements_of (path : string) : list string := List.filter (fun element => negb (String.eqb element "")) (split_byte 47 path).
Fixpoint strip_common (base target : list string) : list string * list string :=
  match base, target with
  | b :: base', t :: target' => if String.eqb b t then strip_common base' target' else (base, target)
  | _, _ => (base, target)
  end.
(** [Rel] to an absolute path: an error unless the base is absolute too; up from
    the base and down to the path. *)
Definition Rel (basepath targpath : string) : option string :=
  let base := Clean basepath in
  let targ := Clean targpath in
  if String.eqb targ base then Some "."
  else if negb (Bool.eqb (IsAbs base) (IsAbs targ)) then None
  else
    let '(up, down) := strip_common (elements_of base) (elements_of targ) in
    match up with
    | ".." :: _ => None
    | _ => Some (join slash (map (fun _ => "..") up ++ down))
    end.

(** * The clean absolute paths *)

(** An element that stays in a clean absolute path. *)
Definition proper (element : string) : Prop :=
  element <> "" /\ element <> "." /\ element <> ".." /\ contains_byte element 47 = false.

Lemma contains_byte_cons c s b : contains_byte (String c s) b = (byte_of c =? b) || contains_byte s b.
Proof. unfold contains_byte. cbn [bytes existsb]. by rewrite Z.eqb_sym. Qed.
Lemma split_byte_whole sep s : contains_byte s sep = false -> split_byte sep s = [s].
Proof.
  induction s as [|c s IH]; [done|]. rewrite contains_byte_cons. intros [Hc Hs]%orb_false_iff.
  cbn [split_byte String.append]. rewrite Hc. by rewrite IH.
Qed.
Lemma split_byte_app s rest :
  contains_byte s 47 = false -> split_byte 47 (String.append s (String.append slash rest)) = s :: split_byte 47 rest.
Proof.
  induction s as [|c s IH]; [done|]. rewrite contains_byte_cons. intros [Hc Hs]%orb_false_iff.
  change (String.append (String c s) (String.append slash rest)) with (String c (String.append s (String.append slash rest))). cbn [split_byte]. rewrite Hc. by rewrite IH.
Qed.
Lemma split_byte_of_join parts :
  parts <> [] -> Forall (fun part => contains_byte part 47 = false) parts -> split_byte 47 (join slash parts) = parts.
Proof.
  intros Hn Hf. induction Hf as [|part parts Hp Hf IH]; [done|]. destruct parts as [|q parts]; [by apply split_byte_whole|].
  rewrite join_cons by done. rewrite split_byte_app by done. by rewrite IH.
Qed.
Lemma proper_free elements : Forall proper elements -> Forall (fun part => contains_byte part 47 = false) elements.
Proof. intros H. eapply Forall_impl; [exact H|]. by intros ? (_ & _ & _ & ?). Qed.
Lemma split_absolute elements :
  Forall proper elements -> split_byte 47 (absolute elements) = "" :: match elements with [] => [""] | _ => elements end.
Proof.
  intros Hf. unfold absolute. change (String.append slash (join slash elements)) with (String.append "" (String.append slash (join slash elements))).
  rewrite split_byte_app by done. destruct elements as [|e elements]; [done|]. by rewrite split_byte_of_join; [|done|apply proper_free].
Qed.

Lemma clean_step_proper rooted out element : proper element -> clean_step rooted out element = element :: out.
Proof.
  intros (H1 & H2 & H3 & _). unfold clean_step. apply String.eqb_neq in H1, H2, H3. by rewrite H1, H2, H3.
Qed.
Lemma clean_fold_proper rooted elements out :
  Forall proper elements -> fold_left (clean_step rooted) elements out = (reverse elements ++ out)%list.
Proof.
  intros Hf. revert out. induction Hf as [|e elements He Hf IH]; intros out; [done|]. cbn [fold_left].
  rewrite clean_step_proper, IH by done. by rewrite reverse_cons, <- app_assoc.
Qed.
Lemma clean_fold_rooted elements out :
  Forall (fun part => contains_byte part 47 = false) elements -> Forall proper out ->
  Forall proper (fold_left (clean_step true) elements out).
Proof.
  intros Hf. revert out. induction Hf as [|e elements He Hf IH]; intros out Ho; [done|]. cbn [fold_left]. apply IH.
  unfold clean_step. destruct (String.eqb_spec e "") as [|H1]; [done|]. destruct (String.eqb_spec e ".") as [|H2]; [done|].
  cbn [orb]. destruct (String.eqb_spec e "..") as [|H3]; [|by constructor].
  destruct Ho as [|last rest (? & ? & Hl & ?) Ho]; [done|]. apply String.eqb_neq in Hl. by rewrite Hl.
Qed.
Lemma absolute_rooted elements : IsAbs (absolute elements) = true.
Proof. done. Qed.
Lemma Clean_absolute elements : Forall proper elements -> Clean (absolute elements) = absolute elements.
Proof.
  intros Hf. unfold Clean. rewrite absolute_rooted. unfold clean_elements. rewrite split_absolute by done.
  destruct elements as [|e elements]; [done|]. cbn [absolute String.append slash String.eqb].
  change (fold_left (clean_step true) ("" :: e :: elements) []) with (fold_left (clean_step true) (e :: elements) []).
  rewrite clean_fold_proper by done. by rewrite app_nil_r, reverse_involutive.
Qed.
(** The clean absolute paths are the proper elements after a slash. *)
Lemma clean_absolute_iff path :
  IsAbs path = true /\ Clean path = path <-> exists elements, Forall proper elements /\ path = absolute elements.
Proof.
  split.
  - intros [Ha Hc]. unfold Clean in Hc. rewrite Ha in Hc. destruct (String.eqb_spec path "") as [->|_]; [done|].
    eexists. split; [|by symmetry]. unfold clean_elements. rewrite Forall_reverse. apply clean_fold_rooted; [apply split_byte_free|constructor].
  - intros (elements & Hf & ->). split; [done|by apply Clean_absolute].
Qed.
Lemma elements_of_absolute elements : Forall proper elements -> elements_of (absolute elements) = elements.
Proof.
  intros Hf. unfold elements_of. rewrite split_absolute by done. cbn [List.filter String.eqb negb].
  destruct elements as [|e elements]; [done|]. revert Hf. generalize (e :: elements) as l. intros l Hf.
  induction Hf as [|x l (Hx & _) Hf IH]; [done|]. cbn [List.filter]. apply String.eqb_neq in Hx. by rewrite Hx, IH.
Qed.
Lemma absolute_inj l l' : Forall proper l -> Forall proper l' -> absolute l = absolute l' -> l = l'.
Proof. intros Hl Hl' E. by rewrite <- (elements_of_absolute l), <- (elements_of_absolute l'), E. Qed.

Lemma strip_common_ok base target up down :
  strip_common base target = (up, down) ->
  exists common, base = (common ++ up)%list /\ target = (common ++ down)%list.
Proof.
  revert target. induction base as [|b base IH]; intros [|t target]; cbn [strip_common]; try by intros [= <- <-]; exists [].
  destruct (String.eqb_spec b t) as [<-|_]; [|by intros [= <- <-]; exists []].
  intros (common & -> & ->)%IH. by exists (b :: common).
Qed.
Lemma strip_common_below base down : strip_common base (base ++ down) = ([], down).
Proof. induction base as [|b base IH]; [by destruct down|]. cbn [strip_common app]. by rewrite String.eqb_refl. Qed.

(** A relative path that goes nowhere, or up. *)
Definition leaves (relative : string) : bool :=
  String.eqb relative "." || String.eqb relative ".." || has_prefix (String.append ".." slash) relative.
Lemma leaves_join parts :
  parts <> [] -> Forall (fun part => contains_byte part 47 = false) parts ->
  leaves (join slash parts) = true <-> parts = ["."] \/ exists rest, parts = ".." :: rest.
Proof.
  intros Hn Hf. pose proof (split_byte_of_join parts Hn Hf) as Hs. unfold leaves. rewrite !orb_true_iff, !String.eqb_eq. split.
  - intros [[E|E]|E]; [rewrite E in Hs; by left|rewrite E in Hs; by right; exists []|].
    apply prefix_split in E. rewrite E, string_app_assoc, split_byte_app in Hs by done. right. by eexists.
  - intros [->|[rest ->]]; [by left; left|]. destruct rest as [|part rest]; [by left; right|]. right.
    rewrite join_cons by done. done.
Qed.
Lemma Rel_absolute root path :
  Forall proper root -> Forall proper path ->
  Rel (absolute root) (absolute path) =
    if decide (path = root) then Some "."
    else let '(up, down) := strip_common root path in Some (join slash (map (fun _ => "..") up ++ down)).
Proof.
  intros Hr Hp. unfold Rel. rewrite !Clean_absolute by done. destruct (String.eqb_spec (absolute path) (absolute root)) as [E|E].
  - apply absolute_inj in E; [|done..]. by rewrite decide_True.
  - rewrite decide_False by (by intros ->). cbn [absolute_rooted]. rewrite !absolute_rooted. cbn [Bool.eqb negb].
    rewrite !elements_of_absolute by done. destruct (strip_common root path) as [up down] eqn:Es.
    destruct up as [|u up]; [done|]. apply strip_common_ok in Es as (common & -> & _).
    apply Forall_app in Hr as [_ Hu]. inversion Hu as [|? ? (_ & _ & Hu' & _) _]; subst.
    destruct u as [|c1 [|c2 [|c3 u]]]; try done; repeat (case_match; try done).
Qed.
(** A path is below another one exactly when its elements extend those of the
    other. *)
Lemma Rel_below root path :
  Forall proper root -> Forall proper path ->
  (exists relative, Rel (absolute root) (absolute path) = Some relative /\ leaves relative = false) <->
  exists rest, rest <> [] /\ path = (root ++ rest)%list.
Proof.
  intros Hr Hp. rewrite Rel_absolute by done. case_decide as E.
  - split; [by intros (? & [= <-] & ?)|]. intros (rest & Hn & Hx). subst path. exfalso. apply Hn.
    symmetry in Hx. by apply app_nil_r_inv in Hx || (rewrite <- (app_nil_r root) in Hx at 2; by apply app_inv_head in Hx).
  - destruct (strip_common root path) as [up down] eqn:Es. pose proof Es as (common & Hroot & Hpath)%strip_common_ok. split.
    + intros (relative & [= <-] & Hl). destruct up as [|u up].
      * rewrite app_nil_r in Hroot. subst. exists down. split; [|done]. intros ->. by rewrite app_nil_r in E.
      * exfalso. assert (Hf : Forall (fun part => contains_byte part 47 = false) (map (fun _ => "..") (u :: up) ++ down)%list).
        { apply Forall_app. split; [by apply Forall_map, Forall_true|]. rewrite Hpath in Hp. apply Forall_app in Hp as [_ Hd]. by apply proper_free. }
        apply not_true_iff_false in Hl. apply Hl, leaves_join; [done|exact Hf|]. right. by eexists.
    + intros (rest & Hn & Hx). rewrite Hx, strip_common_below in Es. injection Es as <- <-. eexists. split; [done|]. cbn [map app].
      rewrite Hx in Hp. apply Forall_app in Hp as [_ Hd]. apply not_true_iff_false. rewrite leaves_join by (done || by apply proper_free).
      intros [->|[rest' ->]]; inversion Hd as [|? ? (_ & ? & ? & _)]; done.
Qed.
