(* ===== verification/Config.v ===== *)
(** The configuration of the standalone service (src/internal/config/config.go): its
    JSON form, its validation, and what the components built from a valid one can
    rely on.

    The parsers of net/url and net are arguments; the paths are those of GoPath. *)
From S2P Require Import Prelude GoLib Llm Json Contract Policy Store Redaction GoText GoPath Target AdminProtocol AdminServer.
From stdpp Require Import options.
Local Open Scope Z_scope.

Definition maxAllowedTargets : Z := 10000.
Definition maxRetentionAge : duration := 365 * 24 * hour.
Definition maxRetentionBytes : Z := Z.shiftl 1 40.
Definition maxGeminiTimeout : duration := 2 * minute.
Definition maxAdminIdentities : Z := 1024.

Definition config_error := mkError "config".
Definition ErrInvalidConfig := config_error "invalid configuration".
Definition ErrConfigTooLarge := config_error "configuration document exceeds size limit".

Definition UsageProduction : string := "production".
Definition UsageSyntheticDevelopment : string := "synthetic_development".
Definition DataProcessingBillingEnabled : string := "billing_enabled".
Definition DataProcessingUnpaidOrFree : string := "unpaid_or_free".

(** * Data *)

(** [uint32] members. *)
Definition uint32_json : GoJson Z := {|
  go_zero := 0;
  to_json z := Some (JInt z);
  of_json _ v j := match j with
    | JInt z => if (0 <=? z) && (z <? 2 ^ 32) then Value z None else type_error v
    | JNull => Value v None
    | _ => type_error v
    end;
|}.

Record DockerConfig := mkDockerConfig { dc_Endpoint : string }.
#[export] Instance DockerConfig_eta : Updatable DockerConfig := fun r => mkDockerConfig (dc_Endpoint r).
Definition DockerConfig_zero : DockerConfig := mkDockerConfig "".
#[export] Instance DockerConfig_json : GoJson DockerConfig := struct_json DockerConfig_zero [
  field_of "endpoint" dc_Endpoint never].

Record AdminConfig := mkAdminConfig { ad_SocketPath : string; ad_AllowedUIDs : list Z; ad_AllowedGIDs : list Z }.
#[export] Instance AdminConfig_eta : Updatable AdminConfig :=
  fun r => mkAdminConfig (ad_SocketPath r) (ad_AllowedUIDs r) (ad_AllowedGIDs r).
Definition AdminConfig_zero : AdminConfig := mkAdminConfig "" [] [].
#[export] Instance AdminConfig_json : GoJson AdminConfig := struct_json AdminConfig_zero [
  field_of "socket_path" ad_SocketPath never;
  @field_of _ _ (@slice_json Z uint32_json) "allowed_uids" ad_AllowedUIDs _ never;
  @field_of _ _ (@slice_json Z uint32_json) "allowed_gids" ad_AllowedGIDs _ never].

Record RetentionConfig := mkRetentionConfig { rt_MaxAge : duration; rt_MaxBytes : Z }.
#[export] Instance RetentionConfig_eta : Updatable RetentionConfig := fun r => mkRetentionConfig (rt_MaxAge r) (rt_MaxBytes r).
Definition RetentionConfig_zero : RetentionConfig := mkRetentionConfig 0 0.
#[export] Instance RetentionConfig_json : GoJson RetentionConfig := struct_json RetentionConfig_zero [
  field_dur "max_age" rt_MaxAge;
  field_of "max_bytes" rt_MaxBytes never].
Record LimitsConfig := mkLimitsConfig { lc_MaxTargets : Z; lc_Retention : RetentionConfig }.
#[export] Instance LimitsConfig_eta : Updatable LimitsConfig := fun r => mkLimitsConfig (lc_MaxTargets r) (lc_Retention r).
Definition LimitsConfig_zero : LimitsConfig := mkLimitsConfig 0 RetentionConfig_zero.
#[export] Instance LimitsConfig_json : GoJson LimitsConfig := struct_json LimitsConfig_zero [
  field_of "max_targets" lc_MaxTargets never;
  field_of "retention" lc_Retention never].

Record AllowedTarget := mkAllowedTarget { al_TargetID : string; al_AdapterType : string }.
#[export] Instance AllowedTarget_eta : Updatable AllowedTarget := fun r => mkAllowedTarget (al_TargetID r) (al_AdapterType r).
Definition AllowedTarget_zero : AllowedTarget := mkAllowedTarget "" "".
#[export] Instance AllowedTarget_json : GoJson AllowedTarget := struct_json AllowedTarget_zero [
  field_of "target_id" al_TargetID never;
  field_of "adapter_type" al_AdapterType never].

Record GeminiConfig := mkGeminiConfig {
  gm_Provider : string; gm_Model : string; gm_Timeout : duration; gm_DataProcessingMode : string; gm_APIKeyRef : string;
}.
#[export] Instance GeminiConfig_eta : Updatable GeminiConfig :=
  fun r => mkGeminiConfig (gm_Provider r) (gm_Model r) (gm_Timeout r) (gm_DataProcessingMode r) (gm_APIKeyRef r).
Definition GeminiConfig_zero : GeminiConfig := mkGeminiConfig "" "" 0 "" "".
#[export] Instance GeminiConfig_json : GoJson GeminiConfig := struct_json GeminiConfig_zero [
  field_of "provider" gm_Provider never;
  field_of "model" gm_Model never;
  field_dur "timeout" gm_Timeout;
  field_of "data_processing_mode" gm_DataProcessingMode never;
  field_of "api_key_ref" gm_APIKeyRef never].

Record WebhookConfig := mkWebhookConfig { wc_Endpoint : string; wc_SecretRef : string; wc_PreviousSecretRef : string }.
#[export] Instance WebhookConfig_eta : Updatable WebhookConfig :=
  fun r => mkWebhookConfig (wc_Endpoint r) (wc_SecretRef r) (wc_PreviousSecretRef r).
Definition WebhookConfig_zero : WebhookConfig := mkWebhookConfig "" "" "".
#[export] Instance WebhookConfig_json : GoJson WebhookConfig := struct_json WebhookConfig_zero [
  field_of "endpoint" wc_Endpoint never;
  field_of "secret_ref" wc_SecretRef never;
  field_of "previous_secret_ref" wc_PreviousSecretRef empty_string].
Record WebhooksConfig := mkWebhooksConfig { wh_Ingress : WebhookConfig; wh_Outbound : WebhookConfig }.
#[export] Instance WebhooksConfig_eta : Updatable WebhooksConfig := fun r => mkWebhooksConfig (wh_Ingress r) (wh_Outbound r).
Definition WebhooksConfig_zero : WebhooksConfig := mkWebhooksConfig WebhookConfig_zero WebhookConfig_zero.
#[export] Instance WebhooksConfig_json : GoJson WebhooksConfig := struct_json WebhooksConfig_zero [
  field_of "ingress" wh_Ingress never;
  field_of "outbound" wh_Outbound never].

Record Config := mkConfig {
  cf_SchemaVersion : string;
  cf_UsageMode : string;
  cf_DataDirectory : string;
  cf_EvidenceDirectory : string;
  cf_Docker : DockerConfig;
  cf_Admin : AdminConfig;
  cf_Limits : LimitsConfig;
  cf_AllowedTargets : list AllowedTarget;
  cf_Gemini : GeminiConfig;
  cf_Webhooks : WebhooksConfig;
}.
#[export] Instance Config_eta : Updatable Config := fun r => mkConfig (cf_SchemaVersion r) (cf_UsageMode r) (cf_DataDirectory r)
  (cf_EvidenceDirectory r) (cf_Docker r) (cf_Admin r) (cf_Limits r) (cf_AllowedTargets r) (cf_Gemini r) (cf_Webhooks r).
Definition Config_zero : Config :=
  mkConfig "" "" "" "" DockerConfig_zero AdminConfig_zero LimitsConfig_zero [] GeminiConfig_zero WebhooksConfig_zero.
#[export] Instance Config_json : GoJson Config := struct_json Config_zero [
  field_of "schema_version" cf_SchemaVersion never;
  field_of "usage_mode" cf_UsageMode never;
  field_of "data_directory" cf_DataDirectory never;
  field_of "evidence_directory" cf_EvidenceDirectory never;
  field_of "docker" cf_Docker never;
  field_of "admin" cf_Admin never;
  field_of "limits" cf_Limits never;
  field_of "allowed_targets" cf_AllowedTargets never;
  field_of "gemini" cf_Gemini never;
  field_of "webhooks" cf_Webhooks never].

(** * Validation *)

(** What [url.Parse] and [url.ParseRequestURI] make of an address, and whether
    [net.ParseIP] reads a host as a loopback address. *)
Record url := mkUrl {
  ul_Scheme : string; ul_Host : string; ul_Hostname : string; ul_Path : string; ul_User : bool; ul_RawQuery : string; ul_Fragment : string;
}.
Class GoNet := {
  url_Parse : string -> option url;
  url_ParseRequestURI : string -> option url;
  ip_loopback : string -> bool;
}.

Definition isUsageMode (value : string) : bool := String.eqb value UsageProduction || String.eqb value UsageSyntheticDevelopment.
Definition hasParentSegment (value : string) : bool := existsb (fun segment => String.eqb segment "..") (split_byte 47 value).
Definition isAbsoluteCleanPath (value : string) : bool :=
  if String.eqb value "" || negb (IsAbs value) || negb (String.eqb (Clean value) value) then false else negb (hasParentSegment value).
Definition isContainedCleanPath (root value : string) : bool :=
  if negb (isAbsoluteCleanPath value) then false
  else
    match Rel root value with
    | None => false
    | Some relative =>
      if String.eqb relative "." || String.eqb relative ".." then false else negb (has_prefix (String.append ".." slash) relative)
    end.

Fixpoint identities_fresh (seen : gset Z) (identities : list Z) : bool :=
  match identities with
  | [] => true
  | identity :: identities => if decide (identity ∈ seen) then false else identities_fresh ({[identity]} ∪ seen) identities
  end.
Definition validateIdentityList (identities : list Z) : result unit :=
  let n := Z.of_nat (length identities) in
  if (n =? 0) || (maxAdminIdentities <? n) then Fail ErrInvalidConfig
  else if identities_fresh ∅ identities then Ok tt else Fail ErrInvalidConfig.
Definition AdminConfig_validate (c : AdminConfig) : result unit :=
  validateIdentityList (ad_AllowedUIDs c) ≫= fun _ => validateIdentityList (ad_AllowedGIDs c).

Definition validTargetID (value : string) : bool := matches_identifier value && negb (contains_str ".." value).
Fixpoint targets_fresh (seen : gset string) (targets : list AllowedTarget) : bool :=
  match targets with
  | [] => true
  | target :: targets =>
    if negb (validTargetID (al_TargetID target)) || negb (String.eqb (al_AdapterType target) "docker") then false
    else if decide (al_TargetID target ∈ seen) then false
    else targets_fresh ({[al_TargetID target]} ∪ seen) targets
  end.
Definition validateAllowedTargets (targets : list AllowedTarget) (maxTargets : Z) : result unit :=
  if maxTargets <? Z.of_nat (length targets) then Fail ErrInvalidConfig
  else if targets_fresh ∅ targets then Ok tt else Fail ErrInvalidConfig.

(** The pattern [^env:[A-Za-z_][A-Za-z0-9_]*$]. *)
Definition name_start (r : Z) : bool := is_lower r || is_upper r || (r =? 95).
Definition name_rest (r : Z) : bool := is_alnum r || (r =? 95).
Definition isSecretReference (value : string) : bool :=
  has_prefix "env:" value &&
  match bytes (drop_bytes 4 value) with [] => false | b :: rest => name_start b && forallb name_rest rest end.
Definition GeminiConfig_validate (c : GeminiConfig) (usageMode : string) : result unit :=
  if negb (String.eqb (gm_Provider c) "gemini") || String.eqb (gm_Model c) "" || (gm_Timeout c <=? 0) || (maxGeminiTimeout <? gm_Timeout c)
  then Fail ErrInvalidConfig
  else if negb (String.eqb (gm_DataProcessingMode c) DataProcessingBillingEnabled) &&
          negb (String.eqb (gm_DataProcessingMode c) DataProcessingUnpaidOrFree) then Fail ErrInvalidConfig
  else if String.eqb usageMode UsageProduction && negb (String.eqb (gm_DataProcessingMode c) DataProcessingBillingEnabled)
  then Fail ErrInvalidConfig
  else if negb (isSecretReference (gm_APIKeyRef c)) then Fail ErrInvalidConfig
  else Ok tt.
Definition validWebhookSecrets (value : WebhookConfig) : bool :=
  if negb (isSecretReference (wc_SecretRef value)) then false
  else String.eqb (wc_PreviousSecretRef value) "" ||
       (negb (String.eqb (wc_PreviousSecretRef value) (wc_SecretRef value)) && isSecretReference (wc_PreviousSecretRef value)).

Section Validate.
Context `{GoNet}.

Definition isUnixSocketEndpoint (value : string) : bool :=
  match url_Parse value with
  | None => false
  | Some endpoint =>
    if negb (String.eqb (ul_Scheme endpoint) "unix") || negb (String.eqb (ul_Host endpoint) "") ||
       negb (String.eqb (ul_RawQuery endpoint) "") || negb (String.eqb (ul_Fragment endpoint) "") || ul_User endpoint
    then false else isAbsoluteCleanPath (ul_Path endpoint)
  end.
(** [strings.EqualFold] with a lower-case ASCII word. *)
Definition isLoopbackHost (host : string) : bool :=
  if Zlist_eqb (fold_name host) (fold_name "localhost") then true else ip_loopback host.
Definition isWebhookEndpoint (value usageMode : string) : bool :=
  match url_ParseRequestURI value with
  | None => false
  | Some endpoint =>
    if String.eqb (ul_Host endpoint) "" || ul_User endpoint || negb (String.eqb (ul_RawQuery endpoint) "") ||
       negb (String.eqb (ul_Fragment endpoint) "") then false
    else
      let loopback := isLoopbackHost (ul_Hostname endpoint) in
      if String.eqb (ul_Scheme endpoint) "https" then String.eqb usageMode UsageSyntheticDevelopment || negb loopback
      else if String.eqb (ul_Scheme endpoint) "http" then String.eqb usageMode UsageSyntheticDevelopment && loopback
      else false
  end.
Definition WebhooksConfig_validate (c : WebhooksConfig) (usageMode : string) : result unit :=
  if negb (isWebhookEndpoint (wc_Endpoint (wh_Ingress c)) usageMode) || negb (validWebhookSecrets (wh_Ingress c)) then Fail ErrInvalidConfig
  else if negb (isWebhookEndpoint (wc_Endpoint (wh_Outbound c)) usageMode) || negb (validWebhookSecrets (wh_Outbound c))
  then Fail ErrInvalidConfig
  else Ok tt.

Definition Config_Validate (c : Config) : result unit :=
  if negb (String.eqb (cf_SchemaVersion c) SchemaVersionV1) || negb (isUsageMode (cf_UsageMode c)) ||
     negb (isAbsoluteCleanPath (cf_DataDirectory c)) then Fail ErrInvalidConfig
  else if negb (isContainedCleanPath (cf_DataDirectory c) (cf_EvidenceDirectory c)) ||
          negb (isContainedCleanPath (cf_DataDirectory c) (ad_SocketPath (cf_Admin c))) then Fail ErrInvalidConfig
  else
    AdminConfig_validate (cf_Admin c) ≫= fun _ =>
    if negb (isUnixSocketEndpoint (dc_Endpoint (cf_Docker c))) then Fail ErrInvalidConfig
    else if (lc_MaxTargets (cf_Limits c) <? 1) || (maxAllowedTargets <? lc_MaxTargets (cf_Limits c)) then Fail ErrInvalidConfig
    else
      let retention := lc_Retention (cf_Limits c) in
      if (rt_MaxAge retention <=? 0) || (maxRetentionAge <? rt_MaxAge retention) || (rt_MaxBytes retention <? 1) ||
         (maxRetentionBytes <? rt_MaxBytes retention) then Fail ErrInvalidConfig
      else
        validateAllowedTargets (cf_AllowedTargets c) (lc_MaxTargets (cf_Limits c)) ≫= fun _ =>
        GeminiConfig_validate (cf_Gemini c) (cf_UsageMode c) ≫= fun _ =>
        WebhooksConfig_validate (cf_Webhooks c) (cf_UsageMode c).

Definition config_options : DecodeOptions Config :=
  {| MaxBytes := MaxDocumentBytes; SchemaVersion := SchemaVersionV1; Validate := Some Config_Validate |}.
Definition Decode (doc : document) : result Config := Json.Decode doc config_options.
(** [readDocument] from what the file holds, if it can be opened and read. *)
Definition readDocument (file : option document) : result document :=
  match file with
  | None => Fail ErrInvalidConfig
  | Some doc => if MaxDocumentBytes <? doc_len doc then Fail ErrConfigTooLarge else Ok doc
  end.
Definition Load (file : option document) : result Config := readDocument file ≫= Decode.
End Validate.

(** * Facts *)

Lemma isAbsoluteCleanPath_iff value :
  isAbsoluteCleanPath value = true <-> exists elements, Forall proper elements /\ value = absolute elements.
Proof.
  rewrite <- clean_absolute_iff. unfold isAbsoluteCleanPath. split.
  - destruct (_ || _) eqn:E; [done|]. intros _. bool_prop. split; [done|].
    match goal with X : String.eqb (Clean _) _ = true |- _ => by apply String.eqb_eq in X end.
  - intros [Ha Hc]. rewrite Ha. destruct (String.eqb_spec value "") as [->|_]; [done|]. rewrite Hc, String.eqb_refl. cbn [negb orb].
    apply negb_true_iff. destruct (clean_absolute_iff value) as [(elements & Hf & ->) _]; [done|].
    unfold hasParentSegment. rewrite split_absolute by done. cbn [existsb String.eqb orb].
    destruct elements as [|e elements]; [done|]. revert Hf. generalize (e :: elements). intros l Hf.
    induction Hf as [|x l (_ & _ & Hx & _) Hf IH]; [done|]. cbn [existsb]. apply String.eqb_neq in Hx. by rewrite Hx.
Qed.
Lemma isContainedCleanPath_iff root value :
  Forall proper root ->
  isContainedCleanPath (absolute root) value = true <->
  exists rest, rest <> [] /\ Forall proper rest /\ value = absolute (root ++ rest).
Proof.
  intros Hr. unfold isContainedCleanPath. destruct (isAbsoluteCleanPath value) eqn:Ev; cbn [negb].
  - apply isAbsoluteCleanPath_iff in Ev as (path & Hp & ->). trans (exists rest, rest <> [] /\ path = (root ++ rest)%list).
    + rewrite <- Rel_below by done. destruct (Rel _ _) as [relative|]; [|naive_solver]. unfold leaves. split.
      * destruct (_ || _) eqn:E; [done|]. intros Hn%negb_true_iff. exists relative. by rewrite E, Hn.
      * intros (? & [= <-] & Hl). apply orb_false_iff in Hl as [-> ->]. done.
    + split; intros (rest & Hn & Hx); exists rest.
      * subst path. apply Forall_app in Hp as [_ Hp]. by split_and!.
      * destruct Hx as [Hf Hx]. split; [done|]. apply absolute_inj in Hx; [done..|]. by apply Forall_app.
  - split; [done|]. intros (rest & _ & Hf & ->). assert (isAbsoluteCleanPath (absolute (root ++ rest)) = true); [|congruence].
    apply isAbsoluteCleanPath_iff. exists (root ++ rest)%list. split; [by apply Forall_app|done].
Qed.

Lemma identities_fresh_iff seen identities :
  identities_fresh seen identities = true <-> NoDup identities /\ forall identity, identity ∈ identities -> identity ∉ seen.
Proof.
  revert seen. induction identities as [|x identities IH]; intros seen; cbn [identities_fresh].
  { split; [|done]. intros _. split; [constructor|]. intros ? H. by apply not_elem_of_nil in H. }
  rewrite NoDup_cons. case_decide as Hs.
  - split; [done|]. intros [_ Hn]. exfalso. apply (Hn x); [constructor|done].
  - rewrite IH. set_solver.
Qed.
Definition identity_list (identities : list Z) : Prop := 1 <= Z.of_nat (length identities) <= 1024 /\ NoDup identities.
Lemma validateIdentityList_iff identities : validateIdentityList identities = Ok tt <-> identity_list identities.
Proof.
  unfold validateIdentityList, identity_list, maxAdminIdentities.
  destruct (_ || _) eqn:E; [split; [done|]; bool_prop; lia|]. bool_prop.
  pose proof (identities_fresh_iff ∅ identities) as Hf. destruct (identities_fresh _ _).
  - split; [|done]. intros _. split; [lia|by apply Hf].
  - split; [done|]. intros [_ Hn]. exfalso. enough (false = true) by done. apply Hf. split; [done|set_solver].
Qed.
Lemma targets_fresh_iff seen targets :
  targets_fresh seen targets = true <->
  Forall (fun target => validTargetID (al_TargetID target) = true /\ al_AdapterType target = "docker") targets /\
  NoDup (map al_TargetID targets) /\ forall id, id ∈ map al_TargetID targets -> id ∉ seen.
Proof.
  revert seen. induction targets as [|x targets IH]; intros seen; cbn [targets_fresh map].
  { split; [|done]. intros _. split_and!; [constructor..|]. intros ? H. by apply not_elem_of_nil in H. }
  rewrite Forall_cons, NoDup_cons. destruct (validTargetID (al_TargetID x)) eqn:Ev; cbn [negb orb]; [|naive_solver].
  destruct (String.eqb_spec (al_AdapterType x) "docker") as [Ea|Ea]; cbn [negb]; [|naive_solver].
  case_decide as Hs.
  - split; [done|]. intros (_ & _ & Hn). exfalso. apply (Hn (al_TargetID x)); [constructor|done].
  - rewrite IH. set_solver.
Qed.
Lemma isSecretReference_iff value :
  isSecretReference value = true <->
  exists name b rest, value = String.append "env:" name /\ bytes name = b :: rest /\ name_start b = true /\ Forall (fun r => name_rest r = true) rest.
Proof.
  unfold isSecretReference. split.
  - intros [Hp Hn]%andb_true_iff. apply prefix_split in Hp. destruct (bytes (drop_bytes 4 value)) as [|b rest] eqn:Eb; [done|].
    apply andb_true_iff in Hn as [Hb Hr]. exists (drop_bytes 4 value), b, rest. split_and!; [exact Hp|done|done|].
    apply Forall_forall. intros x Hx. rewrite forallb_forall in Hr. apply Hr. by apply list_elem_of_In.
  - intros (name & b & rest & -> & Hb & Hs & Hr).
    change (has_prefix "env:" (String.append "env:" name)) with true. change (drop_bytes 4 (String.append "env:" name)) with name.
    rewrite Hb, Hs. cbn [andb]. apply forallb_forall. intros x Hx. rewrite Forall_forall in Hr. apply Hr. by apply list_elem_of_In.
Qed.

Section Specification.
Context `{GoNet}.

(** What a webhook endpoint may be in each mode. *)
Definition endpoint_spec (value usageMode : string) : Prop :=
  exists endpoint, url_ParseRequestURI value = Some endpoint /\ ul_Host endpoint <> "" /\ ul_User endpoint = false /\
    ul_RawQuery endpoint = "" /\ ul_Fragment endpoint = "" /\
    (ul_Scheme endpoint = "https" /\ (usageMode = UsageSyntheticDevelopment \/ isLoopbackHost (ul_Hostname endpoint) = false) \/
     ul_Scheme endpoint = "http" /\ usageMode = UsageSyntheticDevelopment /\ isLoopbackHost (ul_Hostname endpoint) = true).
Definition webhook_spec (w : WebhookConfig) (usageMode : string) : Prop :=
  endpoint_spec (wc_Endpoint w) usageMode /\ isSecretReference (wc_SecretRef w) = true /\
  (wc_PreviousSecretRef w = "" \/ wc_PreviousSecretRef w <> wc_SecretRef w /\ isSecretReference (wc_PreviousSecretRef w) = true).
Record valid_config (c : Config) : Prop := {
  vc_version : cf_SchemaVersion c = SchemaVersionV1;
  vc_mode : cf_UsageMode c = UsageProduction \/ cf_UsageMode c = UsageSyntheticDevelopment;
  vc_paths : exists root evidence socket,
    Forall proper (root ++ evidence) /\ Forall proper (root ++ socket) /\ evidence <> [] /\ socket <> [] /\
    cf_DataDirectory c = absolute root /\ cf_EvidenceDirectory c = absolute (root ++ evidence) /\
    ad_SocketPath (cf_Admin c) = absolute (root ++ socket);
  vc_identities : identity_list (ad_AllowedUIDs (cf_Admin c)) /\ identity_list (ad_AllowedGIDs (cf_Admin c));
  vc_docker : exists endpoint elements, url_Parse (dc_Endpoint (cf_Docker c)) = Some endpoint /\ ul_Scheme endpoint = "unix" /\
    ul_Host endpoint = "" /\ ul_RawQuery endpoint = "" /\ ul_Fragment endpoint = "" /\ ul_User endpoint = false /\
    Forall proper elements /\ ul_Path endpoint = absolute elements;
  vc_limits : 1 <= lc_MaxTargets (cf_Limits c) <= 10000 /\ 0 < rt_MaxAge (lc_Retention (cf_Limits c)) <= 365 * 24 * hour /\
    1 <= rt_MaxBytes (lc_Retention (cf_Limits c)) <= 2 ^ 40;
  vc_targets : Z.of_nat (length (cf_AllowedTargets c)) <= lc_MaxTargets (cf_Limits c) /\
    Forall (fun target => validTargetID (al_TargetID target) = true /\ al_AdapterType target = "docker") (cf_AllowedTargets c) /\
    NoDup (map al_TargetID (cf_AllowedTargets c));
  vc_gemini : gm_Provider (cf_Gemini c) = "gemini" /\ gm_Model (cf_Gemini c) <> "" /\ 0 < gm_Timeout (cf_Gemini c) <= 2 * minute /\
    (gm_DataProcessingMode (cf_Gemini c) = DataProcessingBillingEnabled \/
     gm_DataProcessingMode (cf_Gemini c) = DataProcessingUnpaidOrFree /\ cf_UsageMode c <> UsageProduction) /\
    isSecretReference (gm_APIKeyRef (cf_Gemini c)) = true;
  vc_webhooks : webhook_spec (wh_Ingress (cf_Webhooks c)) (cf_UsageMode c) /\ webhook_spec (wh_Outbound (cf_Webhooks c)) (cf_UsageMode c);
}.

Lemma isWebhookEndpoint_iff value usageMode : isWebhookEndpoint value usageMode = true <-> endpoint_spec value usageMode.
Proof.
  unfold isWebhookEndpoint, endpoint_spec. destruct (url_ParseRequestURI value) as [u|]; [|naive_solver].
  trans (ul_Host u <> "" /\ ul_User u = false /\ ul_RawQuery u = "" /\ ul_Fragment u = "" /\
    (ul_Scheme u = "https" /\ (usageMode = UsageSyntheticDevelopment \/ isLoopbackHost (ul_Hostname u) = false) \/
     ul_Scheme u = "http" /\ usageMode = UsageSyntheticDevelopment /\ isLoopbackHost (ul_Hostname u) = true)).
  2: { split; [intros; by exists u|]. by intros (? & [= <-] & ?). }
  cbv zeta. generalize (isLoopbackHost (ul_Hostname u)) as l. intros l.
  destruct (String.eqb_spec (ul_Host u) ""); cbn [orb]; [naive_solver|]. destruct (ul_User u); cbn [orb]; [naive_solver|].
  destruct (String.eqb_spec (ul_RawQuery u) ""); cbn [orb negb]; [|naive_solver].
  destruct (String.eqb_spec (ul_Fragment u) ""); cbn [orb negb]; [|naive_solver].
  destruct (String.eqb_spec (ul_Scheme u) "https") as [->|]; destruct (String.eqb_spec usageMode UsageSyntheticDevelopment); cbn [orb andb].
  all: try destruct (String.eqb_spec (ul_Scheme u) "http"); destruct l; cbn [negb andb]; naive_solver.
Qed.
Lemma webhook_iff w usageMode :
  isWebhookEndpoint (wc_Endpoint w) usageMode = true /\ validWebhookSecrets w = true <-> webhook_spec w usageMode.
Proof.
  unfold webhook_spec, validWebhookSecrets. rewrite <- isWebhookEndpoint_iff. apply and_iff_compat_l.
  destruct (isSecretReference (wc_SecretRef w)); cbn [negb]; [|naive_solver].
  destruct (String.eqb_spec (wc_PreviousSecretRef w) ""); [naive_solver|].
  destruct (String.eqb_spec (wc_PreviousSecretRef w) (wc_SecretRef w)); cbn [negb orb andb]; naive_solver.
Qed.
Lemma GeminiConfig_iff g usageMode :
  GeminiConfig_validate g usageMode = Ok tt <->
  gm_Provider g = "gemini" /\ gm_Model g <> "" /\ 0 < gm_Timeout g <= 2 * minute /\
  (gm_DataProcessingMode g = DataProcessingBillingEnabled \/
   gm_DataProcessingMode g = DataProcessingUnpaidOrFree /\ usageMode <> UsageProduction) /\
  isSecretReference (gm_APIKeyRef g) = true.
Proof.
  unfold GeminiConfig_validate, maxGeminiTimeout. destruct (String.eqb_spec (gm_Provider g) "gemini"); cbn [negb orb]; [|naive_solver].
  destruct (String.eqb_spec (gm_Model g) ""); cbn [negb orb]; [naive_solver|].
  destruct (Z.leb_spec (gm_Timeout g) 0); cbn [orb]; [split; [done|lia]|]. destruct (Z.ltb_spec (2 * minute) (gm_Timeout g)); [split; [done|lia]|].
  assert (Hd : DataProcessingUnpaidOrFree <> DataProcessingBillingEnabled) by done. assert (Hr : 0 < gm_Timeout g <= 2 * minute) by lia.
  destruct (String.eqb_spec (gm_DataProcessingMode g) DataProcessingBillingEnabled);
    destruct (String.eqb_spec (gm_DataProcessingMode g) DataProcessingUnpaidOrFree);
    destruct (String.eqb_spec usageMode UsageProduction); cbn [negb andb]; destruct (isSecretReference _); cbn [negb]; naive_solver.
Qed.
Lemma isUnixSocketEndpoint_iff value :
  isUnixSocketEndpoint value = true <->
  exists endpoint elements, url_Parse value = Some endpoint /\ ul_Scheme endpoint = "unix" /\
    ul_Host endpoint = "" /\ ul_RawQuery endpoint = "" /\ ul_Fragment endpoint = "" /\ ul_User endpoint = false /\
    Forall proper elements /\ ul_Path endpoint = absolute elements.
Proof.
  unfold isUnixSocketEndpoint. destruct (url_Parse value) as [u|]; [|naive_solver].
  pose proof (isAbsoluteCleanPath_iff (ul_Path u)) as Hp.
  destruct (String.eqb_spec (ul_Scheme u) "unix"); cbn [negb orb]; [|naive_solver].
  destruct (String.eqb_spec (ul_Host u) ""); cbn [negb orb]; [|naive_solver].
  destruct (String.eqb_spec (ul_RawQuery u) ""); cbn [negb orb]; [|naive_solver].
  destruct (String.eqb_spec (ul_Fragment u) ""); cbn [negb orb]; [|naive_solver].
  destruct (ul_User u) eqn:Eu; [naive_solver|]. rewrite Hp. naive_solver.
Qed.

Lemma unit_bind {B} (m : result unit) (f : unit -> result B) b : m ≫= f = Ok b <-> m = Ok tt /\ f tt = Ok b.
Proof. rewrite result_bind_ok. split; [by intros ([] & ? & ?)|]. intros [? ?]. by exists tt. Qed.
Lemma guard_ok (b : bool) (m : result unit) e : (if b then Fail e else m) = Ok tt <-> b = false /\ m = Ok tt.
Proof. destruct b; naive_solver. Qed.
Lemma targets_iff targets :
  (if targets_fresh ∅ targets then Ok tt else Fail ErrInvalidConfig) = Ok tt <->
  Forall (fun target => validTargetID (al_TargetID target) = true /\ al_AdapterType target = "docker") targets /\
  NoDup (map al_TargetID targets).
Proof.
  pose proof (targets_fresh_iff ∅ targets) as Hf. destruct (targets_fresh ∅ targets); split; try done.
  - intros _. destruct (proj1 Hf eq_refl) as (? & ? & _). done.
  - intros [Ht Hn]. enough (false = true) by done. apply Hf. split_and!; [done|done|set_solver].
Qed.
Lemma isUsageMode_iff value : isUsageMode value = true <-> value = UsageProduction \/ value = UsageSyntheticDevelopment.
Proof. unfold isUsageMode. by rewrite orb_true_iff, !String.eqb_eq. Qed.
Lemma paths_iff c :
  isAbsoluteCleanPath (cf_DataDirectory c) = true /\
  isContainedCleanPath (cf_DataDirectory c) (cf_EvidenceDirectory c) = true /\
  isContainedCleanPath (cf_DataDirectory c) (ad_SocketPath (cf_Admin c)) = true <->
  exists root evidence socket,
    Forall proper (root ++ evidence) /\ Forall proper (root ++ socket) /\ evidence <> [] /\ socket <> [] /\
    cf_DataDirectory c = absolute root /\ cf_EvidenceDirectory c = absolute (root ++ evidence) /\
    ad_SocketPath (cf_Admin c) = absolute (root ++ socket).
Proof.
  rewrite isAbsoluteCleanPath_iff. split.
  - intros ((root & Hr & ->) & He & Hs). apply isContainedCleanPath_iff in He as (evidence & ? & ? & ?); [|done].
    apply isContainedCleanPath_iff in Hs as (socket & ? & ? & ?); [|done]. exists root, evidence, socket.
    split_and!; try done; by apply Forall_app.
  - intros (root & evidence & socket & [Hr He]%Forall_app & [_ Hs]%Forall_app & ? & ? & -> & -> & ->). split_and!; [by exists root|..].
    + apply isContainedCleanPath_iff; [done|]. by exists evidence.
    + apply isContainedCleanPath_iff; [done|]. by exists socket.
Qed.

(** ** Properties *)

(** C34: validation accepts exactly the configurations of the declarative
    specification: the evidence directory and the administrative socket strictly
    below the data directory, distinct bounded identities and targets, a local
    Docker socket, limits in range, and in production paid data processing and
    encrypted webhooks away from the local host. *)
Theorem Config_Validate_iff c : Config_Validate c = Ok tt <-> valid_config c.
Proof.
  assert (Hs : Z.shiftl 1 40 = 2 ^ 40) by reflexivity.
  unfold Config_Validate, AdminConfig_validate, WebhooksConfig_validate, validateAllowedTargets.
  rewrite !guard_ok, !unit_bind, !guard_ok, !unit_bind, !guard_ok, !orb_false_iff, !negb_false_iff, GeminiConfig_iff, !webhook_iff, targets_iff,
    isUnixSocketEndpoint_iff, isUsageMode_iff, !validateIdentityList_iff, String.eqb_eq, !Z.ltb_ge, Z.leb_gt.
  unfold maxAllowedTargets, maxRetentionAge, maxRetentionBytes. rewrite Hs. pose proof (paths_iff c) as Hp. split.
  - intros (((Hv & Hm) & Hd) & (He & Hk) & (Hu & Hg) & Hdo & Hmx & Hret & (Hlen & Ht) & Hge & Hwi & Hwo & _).
    split; try done; [by apply Hp|lia].
  - intros [Hv Hm Hpaths Hi Hdo (Hmx & Hage & Hby) (Hlen & Ht) Hge (Hwi & Hwo)]. apply Hp in Hpaths as (? & ? & ?).
    destruct Hi, Ht. repeat (split; [first [done|lia|tauto]|]). done.
Qed.
End Specification.

(** ** The components of a valid configuration *)

Lemma add_identities_fresh set identities :
  NoDup identities -> (forall identity, identity ∈ identities -> identity ∉ set) ->
  add_identities set identities = Some (list_to_set identities ∪ set).
Proof.
  intros Hn. revert set. induction Hn as [|x identities Hx Hn IH]; intros set Hs; cbn [add_identities].
  - f_equal. set_solver.
  - rewrite decide_False by (apply Hs; constructor). rewrite IH by set_solver. f_equal. set_solver.
Qed.
Lemma identitySet_list identities : identity_list identities -> identitySet identities = Some (list_to_set identities).
Proof.
  intros [Hl Hn]. unfold identitySet. destruct (Z.eqb_spec (Z.of_nat (length identities)) 0); [lia|].
  rewrite add_identities_fresh by set_solver. f_equal. set_solver.
Qed.
Lemma validTargetID_identifier value : validTargetID value = true -> Target.validIdentifier value = true.
Proof.
  unfold validTargetID, Target.validIdentifier. intros [Hm ->]%andb_true_iff. rewrite Hm.
  apply matches_identifier_inv in Hm as (_ & Hl & _). unfold Target.maxTargetIDBytes. destruct (Z.leb_spec (go_len value) 96); [done|lia].
Qed.
(** What [RunWithConfig] hands to the target registry. *)
Definition registry_targets (c : Config) : list (string * string) :=
  map (fun target => (al_TargetID target, al_AdapterType target)) (cf_AllowedTargets c).
Lemma allowed_entries_fresh allowed targets :
  Forall (fun target => validTargetID (al_TargetID target) = true /\ al_AdapterType target = "docker") targets ->
  NoDup (map al_TargetID targets) -> (forall id, id ∈ map al_TargetID targets -> allowed !! id = None) ->
  exists entries, allowed_entries allowed (map (fun target => (al_TargetID target, al_AdapterType target)) targets) = Ok entries /\
    forall id adapter, entries !! id = Some adapter <-> allowed !! id = Some adapter \/ id ∈ map al_TargetID targets /\ adapter = "docker".
Proof.
  intros Hf. revert allowed. induction Hf as [|x targets [Hv Ha] Hf IH]; intros allowed Hn Hs; cbn [map allowed_entries].
  - exists allowed. split; [done|]. intros id adapter. split; [by left|]. intros [?|[Hx _]]; [done|]. by apply not_elem_of_nil in Hx.
  - apply NoDup_cons in Hn as [Hx Hn]. rewrite validTargetID_identifier, Ha, String.eqb_refl, Hs by (done || constructor). cbn [negb orb].
    destruct (IH (<[al_TargetID x := "docker"]> allowed)) as (entries & -> & He); [done| |].
    { intros id Hid. rewrite lookup_insert_ne by (by intros <-). apply Hs. by constructor. }
    exists entries. split; [done|]. intros id adapter. rewrite He, elem_of_cons.
    destruct (decide (id = al_TargetID x)) as [->|Hne].
    + rewrite lookup_insert_eq, (Hs (al_TargetID x)) by constructor. naive_solver.
    + rewrite lookup_insert_ne by done. naive_solver.
Qed.

Section Setup.
Context `{GoNet} `{Bolt}.

(** What the components are built with in [RunWithConfig]: opening the store at a
    path, whether the parent of the socket is a plain directory, and the process
    identity. The registries of runbooks and approvals only need their
    dependencies. *)
Record process := mkProcess {
  ps_open : string -> result db;
  ps_socket_parent : string -> bool;
  ps_uid : Z;
  ps_gid : Z;
}.
Definition stateFileName : string := "state.db".
(** [filepath.Join]. *)
Definition state_path (c : Config) : string := Clean (join slash [cf_DataDirectory c; stateFileName]).
(** The check of the path in the options of the store, and of the socket. *)
Definition clean_option (path : string) : bool :=
  negb (String.eqb path "") && IsAbs path && String.eqb (Clean path) path.
Definition validateSocketPath (p : process) (path : string) : result unit :=
  if negb (clean_option path) then Fail AdminProtocol.ErrInvalidOptions
  else if ps_socket_parent p path then Ok tt else Fail (mkError "adminipc" "insecure administrative socket").
Definition setup (p : process) (c : Config) : result (db * Registry * Server) :=
  Config_Validate c ≫= fun _ =>
  if negb (clean_option (state_path c)) then Fail (mkError "store" "invalid local store options")
  else
    ps_open p (state_path c) ≫= fun d =>
    NewRegistry (registry_targets c) (lc_MaxTargets (cf_Limits c)) (rt_MaxBytes (lc_Retention (cf_Limits c))) d ≫= fun registry =>
    NewServer (mkOptions (validateSocketPath p (ad_SocketPath (cf_Admin c))) (ad_AllowedUIDs (cf_Admin c)) (ad_AllowedGIDs (cf_Admin c))
      (Some registry) true true 0 (ps_uid p) (ps_gid p)) ≫= fun server =>
    Ok (d, registry, server).

Lemma clean_option_absolute elements : Forall proper elements -> clean_option (absolute elements) = true.
Proof. intros Hf. unfold clean_option. by rewrite absolute_rooted, Clean_absolute, String.eqb_refl. Qed.
Lemma state_path_absolute c root :
  Forall proper root -> cf_DataDirectory c = absolute root -> state_path c = absolute (root ++ [stateFileName]).
Proof.
  intros Hr E. unfold state_path. rewrite E. assert (Hp : proper stateFileName) by done.
  assert (Hf : Forall proper (root ++ [stateFileName])) by (apply Forall_app; auto).
  destruct root as [|e root]; [reflexivity|]. rewrite <- (Clean_absolute (_ ++ _)) by done. f_equal.
  unfold absolute. rewrite join_snoc by done. cbn [join]. by rewrite string_app_assoc.
Qed.

(** C35: a valid configuration is accepted by every component it is handed to: with
    the state opened at its clean path below the data directory, the stored
    targets readable and the parent of the socket a directory, the daemon is built,
    admits exactly the configured identities and registers exactly the configured
    targets. *)
Theorem valid_config_starts p c d snapshot :
  Config_Validate c = Ok tt -> ps_open p (state_path c) = Ok d -> ps_socket_parent p (ad_SocketPath (cf_Admin c)) = true ->
  0 <= ps_uid p -> 0 <= ps_gid p ->
  (forall allowed, (forall id adapter, allowed !! id = Some adapter <-> id ∈ map al_TargetID (cf_AllowedTargets c) /\ adapter = "docker") ->
     load (mkRegistry allowed (lc_MaxTargets (cf_Limits c)) (rt_MaxBytes (lc_Retention (cf_Limits c)))
     (mkSnapshot SchemaVersionV1 0 [])) d = Ok snapshot) ->
  exists registry server, setup p c = Ok (d, registry, server) /\
    (forall actor, authorized server actor = true <->
       ac_UID actor ∈ ad_AllowedUIDs (cf_Admin c) /\ ac_GID actor ∈ ad_AllowedGIDs (cf_Admin c)) /\
    (forall id adapter, rg_allowedTargets registry !! id = Some adapter <->
       id ∈ map al_TargetID (cf_AllowedTargets c) /\ adapter = "docker") /\
    rg_snapshot registry = snapshot.
Proof.
  intros Hc Hopen Hparent Huid Hgid Hload. pose proof Hc as [_ _ (root & evidence & socket & He & Hs & _ & _ & Hd & _ & Hk) [Hu Hg] _ (Hm & _ & Hb) (_ & Ht & Hn) _ _]%Config_Validate_iff.
  assert (Hr : Forall proper root) by (by apply Forall_app in He as [? _]).
  destruct (allowed_entries_fresh ∅ (cf_AllowedTargets c) Ht Hn) as (entries & Ha & Hin); [done|].
  set (registry := mkRegistry entries (lc_MaxTargets (cf_Limits c)) (rt_MaxBytes (lc_Retention (cf_Limits c))) snapshot).
  assert (HR : NewRegistry (registry_targets c) (lc_MaxTargets (cf_Limits c)) (rt_MaxBytes (lc_Retention (cf_Limits c))) d = Ok registry).
  { unfold NewRegistry, allowedTargetMap, registry_targets. rewrite Ha.
    destruct (Z.ltb_spec (lc_MaxTargets (cf_Limits c)) 1); [lia|]. destruct (Z.ltb_spec maxTargets (lc_MaxTargets (cf_Limits c))) as [Hx|_]; [unfold maxTargets in Hx; lia|].
    destruct (Z.ltb_spec (rt_MaxBytes (lc_Retention (cf_Limits c))) 1); [lia|]. cbn [orb]. cbv zeta.
    rewrite Hload; [done|]. intros id adapter. rewrite Hin, lookup_empty. naive_solver. }
  eexists registry, _. split.
  - assert (Hst : Forall proper (root ++ [stateFileName])) by (apply Forall_app; split; [done|by repeat constructor]).
    unfold setup. rewrite Hc. cbn [mbind result_bind]. rewrite (state_path_absolute c root), clean_option_absolute by done.
    rewrite (state_path_absolute c root) in Hopen by done. cbn [negb]. rewrite Hopen. cbn [mbind result_bind]. rewrite HR. cbn [mbind result_bind].
    unfold NewServer, validateSocketPath. cbn [op_SocketPath op_AllowedUIDs op_AllowedGIDs op_ownerUID op_ownerGID op_RequestTimeout].
    rewrite Hparent, Hk, clean_option_absolute, !identitySet_list by done. cbn [negb].
    destruct (Z.ltb_spec (ps_uid p) 0); [lia|]. destruct (Z.ltb_spec (ps_gid p) 0); [lia|]. reflexivity.
  - split_and!; [|intros id adapter; cbn; rewrite Hin, lookup_empty; naive_solver|done].
    intros actor. unfold authorized. cbn. rewrite andb_true_iff, !bool_decide_eq_true. by rewrite !elem_of_list_to_set.
Qed.
End Setup.

(** * Examples *)

(** A parser that knows three addresses. *)
Definition demo_net : GoNet := {|
  url_Parse value := if String.eqb value "unix:///var/run/docker.sock" then Some (mkUrl "unix" "" "" "/var/run/docker.sock" false "" "") else None;
  url_ParseRequestURI value :=
    if String.eqb value "https://alerts.example.com" then Some (mkUrl "https" "alerts.example.com" "alerts.example.com" "" false "" "")
    else if String.eqb value "http://127.0.0.1:8080" then Some (mkUrl "http" "127.0.0.1:8080" "127.0.0.1" "" false "" "") else None;
  ip_loopback host := String.eqb host "127.0.0.1";
|}.
Definition demo_config (mode socket model endpoint : string) : Config :=
  mkConfig SchemaVersionV1 mode "/var/lib/pulse" "/var/lib/pulse/evidence" (mkDockerConfig "unix:///var/run/docker.sock")
    (mkAdminConfig socket [0; 1000] [0]) (mkLimitsConfig 2 (mkRetentionConfig hour 8192)) [mkAllowedTarget "checkout" "docker"]
    (mkGeminiConfig "gemini" model (30 * second) DataProcessingBillingEnabled "env:KEY")
    (mkWebhooksConfig (mkWebhookConfig endpoint "env:INGRESS" "") (mkWebhookConfig endpoint "env:OUTBOUND" "env:PREVIOUS")).
Definition demo_valid : Config := demo_config UsageProduction "/var/lib/pulse/admin.sock" "gemini-flash" "https://alerts.example.com".
Definition demo_process : @process gmapBolt := mkProcess (fun _ => Ok demo_store) (fun _ => true) 0 0.
Lemma demo_config_valid : Config_Validate (H := demo_net) demo_valid = Ok tt.
Proof. vm_compute. reflexivity. Qed.
Lemma valid_config_starts_witness :
  exists registry server, setup (H := demo_net) demo_process demo_valid = Ok (demo_store, registry, server) /\
    (forall actor, authorized server actor = true <-> ac_UID actor ∈ [0; 1000] /\ ac_GID actor ∈ [0]) /\
    (forall id adapter, rg_allowedTargets registry !! id = Some adapter <-> id ∈ ["checkout"] /\ adapter = "docker") /\
    rg_snapshot registry = mkSnapshot SchemaVersionV1 0 [].
Proof.
  apply (valid_config_starts (H := demo_net) (H0 := gmapBolt) demo_process demo_valid demo_store (mkSnapshot SchemaVersionV1 0 [])
    demo_config_valid eq_refl eq_refl); [discriminate|discriminate|]. intros allowed _. vm_compute. reflexivity.
Defined.

(** A local endpoint is for development only. *)
Lemma demo_development :
  Config_Validate (H := demo_net) (demo_config UsageSyntheticDevelopment "/var/lib/pulse/admin.sock" "gemini-flash" "http://127.0.0.1:8080") = Ok tt /\
  Config_Validate (H := demo_net) (demo_config UsageProduction "/var/lib/pulse/admin.sock" "gemini-flash" "http://127.0.0.1:8080") = Fail ErrInvalidConfig.
Proof. split; vm_compute; reflexivity. Qed.
(** A valid configuration may put the socket on the file of the state, and name a
    blank model that the language model boundary refuses. *)
Lemma socket_on_state_valid :
  let c := demo_config UsageProduction "/var/lib/pulse/state.db" "gemini-flash" "https://alerts.example.com" in
  Config_Validate (H := demo_net) c = Ok tt /\ state_path c = ad_SocketPath (cf_Admin c).
Proof. split; vm_compute; reflexivity. Qed.
Lemma blank_model_valid :
  let c := demo_config UsageProduction "/var/lib/pulse/admin.sock" " " "https://alerts.example.com" in
  Config_Validate (H := demo_net) c = Ok tt /\
  forall attempts, Llm.validOptions (Llm.mkGeminiOptions (gm_Provider (cf_Gemini c)) (gm_Model (cf_Gemini c)) (gm_Timeout (cf_Gemini c))
    attempts (gm_APIKeyRef (cf_Gemini c))) = false.
Proof. split; [vm_compute; reflexivity|]. intros attempts. reflexivity. Qed.
