(* ===== verification/Command.v ===== *)
(** The command line (src/internal/command/command.go): which arguments run which
    operation, with what exit code and output.

    The files, the clock of the service, the acceptance baseline and the client
    are an interface; the administrative client over a connection is one of its
    instances. Each command makes at most one call, so the answers are functions
    of the call. *)
From S2P Require Import Prelude GoLib GoTime Json Contract Store Redaction AuditChain GoText Target Journal Approval IncidentQuery JsonStruct Runbook AdminProtocol AdminServer AdminClient Config.
From stdpp Require Import options.
Local Open Scope Z_scope.

Definition ExitSuccess : Z := 0.
Definition ExitFailure : Z := 1.
Definition ExitUsage : Z := 2.
Definition ExitNotImplemented : Z := 3.
Definition errorSchemaVersion : string := "pulse-agent.cli.error.v1".

(** [commandGroups] and [directCommands]. *)
Definition commandGroups (name : string) : option (list string) :=
  if String.eqb name "approval" then Some ["deny"; "grant"]
  else if String.eqb name "config" then Some ["validate"]
  else if String.eqb name "incident" then Some ["list"; "show"]
  else if String.eqb name "runbook" then Some ["register"; "validate"]
  else if String.eqb name "target" then Some ["register"]
  else None.
Definition directCommands (name : string) : bool := String.eqb name "backup" || String.eqb name "status".

(** * Output *)

Record diagnosticDetail := mkDetail { dt_Code : string; dt_Command : string; dt_Message : string; dt_Retryable : bool }.
#[export] Instance diagnosticDetail_eta : Updatable diagnosticDetail :=
  fun r => mkDetail (dt_Code r) (dt_Command r) (dt_Message r) (dt_Retryable r).
#[export] Instance diagnosticDetail_json : GoJson diagnosticDetail := struct_json (mkDetail "" "" "" false) [
  field_of "code" dt_Code never;
  field_of "command" dt_Command empty_string;
  field_of "message" dt_Message never;
  field_of "retryable" dt_Retryable never].
Record diagnostic := mkDiagnostic { dg_SchemaVersion : string; dg_Error : diagnosticDetail }.
#[export] Instance diagnostic_eta : Updatable diagnostic := fun r => mkDiagnostic (dg_SchemaVersion r) (dg_Error r).
#[export] Instance diagnostic_json : GoJson diagnostic := struct_json (mkDiagnostic "" (mkDetail "" "" "" false)) [
  field_of "schema_version" dg_SchemaVersion never;
  field_of "error" dg_Error never].
Record configValidation := mkConfigValidation { cv_SchemaVersion : string; cv_Valid : bool }.
#[export] Instance configValidation_eta : Updatable configValidation := fun r => mkConfigValidation (cv_SchemaVersion r) (cv_Valid r).
#[export] Instance configValidation_json : GoJson configValidation := struct_json (mkConfigValidation "" false) [
  field_of "schema_version" cv_SchemaVersion never;
  field_of "valid" cv_Valid never].
Record runbookValidation := mkRunbookValidation { rv_SchemaVersion : string; rv_RunbookID : string; rv_Digest : string }.
#[export] Instance runbookValidation_eta : Updatable runbookValidation :=
  fun r => mkRunbookValidation (rv_SchemaVersion r) (rv_RunbookID r) (rv_Digest r).
#[export] Instance runbookValidation_json : GoJson runbookValidation := struct_json (mkRunbookValidation "" "" "") [
  field_of "schema_version" rv_SchemaVersion never;
  field_of "runbook_id" rv_RunbookID never;
  field_of "digest" rv_Digest never].

(** What is written to a stream: a usage text, one JSON value and its newline, or
    the bytes of a backup. *)
Inductive output :=
| Usage (text : string)
| JsonValue (value : json)
| Raw (content : string).

(** * The calls *)

Inductive call :=
| CallStatus (socket reason : string)
| CallBackup (socket reason : string)
| CallRegister (socket reason : string) (target : ServiceTarget)
| CallRegisterRunbook (socket reason : string) (runbook : Contract.Runbook)
| CallListIncidents (socket reason : string) (filter : Filter)
| CallShowIncident (socket reason id : string)
| CallDecideApproval (socket reason commandID decision : string) (expiresAt : time)
| CallService (config : Config)
| CallAcceptance (outputDirectory projectRoot goBinary : string).

(** The interfaces [adminClient], [standaloneRunner] and [configLoader] with the
    functions that read files; the acceptance baseline yields its result with
    whether it names a report, and whether it failed. A stream fails when writing
    to it meets an error other than a closed pipe. [out_of_range] is what an
    argument beyond the end of the line would read as: Go would panic, and no
    command reads one ([Execute_orderly]). *)
Class Surroundings := {
  out_of_range : string;
  loadConfig : string -> result Config;
  loadTarget : string -> result ServiceTarget;
  loadRunbook : string -> result Pair;
  parseTime : string -> option time;
  workingDirectory : result string;
  newClient : result unit;
  stdoutFails : bool;
  stderrFails : bool;
  api_Status : string -> string -> result AdminProtocol.Status;
  api_Backup : string -> string -> string * option error;
  api_Register : string -> string -> ServiceTarget -> result TargetResult;
  api_RegisterRunbook : string -> string -> Contract.Runbook -> result RegistrationResult;
  api_ListIncidents : string -> string -> Filter -> result Page;
  api_ShowIncident : string -> string -> string -> result Incident;
  api_DecideApproval : string -> string -> string -> string -> time -> result ApprovalResult;
  runService : Config -> option string;
  runAcceptance : string -> string -> string -> json * bool * bool;
}.

(** The exit code, the two streams and the calls made. *)
Record outcome := mkOutcome { oc_exit : Z; oc_stdout : list output; oc_stderr : list output; oc_calls : list call }.

Section Command.
Context `{Surroundings}.

Definition usage (text : string) : outcome := mkOutcome ExitSuccess [Usage text] [] [].
Definition writeError (exitCode : Z) (code commandName message : string) : outcome :=
  match to_json (mkDiagnostic errorSchemaVersion (mkDetail code commandName message false)) with
  | Some j => if stderrFails then mkOutcome ExitFailure [] [] [] else mkOutcome exitCode [] [JsonValue j] []
  | None => mkOutcome ExitFailure [] [] []
  end.
(** [writeJSON] and the writers of one type each. *)
Definition writeJSON {A} `{GoJson A} (value : A) : outcome :=
  match to_json value with
  | Some j => if stdoutFails then mkOutcome ExitFailure [] [] [] else mkOutcome ExitSuccess [JsonValue j] [] []
  | None => mkOutcome ExitFailure [] [] []
  end.
Definition calling (k : call) (o : outcome) : outcome := mkOutcome (oc_exit o) (oc_stdout o) (oc_stderr o) (k :: oc_calls o).

Definition isHelp (argument : string) : bool :=
  String.eqb argument "help" || String.eqb argument "-h" || String.eqb argument "--help".
Definition arg (args : list string) (i : nat) : string := nth i args out_of_range.
Definition count (args : list string) : Z := Z.of_nat (length args).
Definition last_arg (args : list string) : string := List.last args "".

Definition writeAdminRequestError (commandName : string) (err : error) : outcome :=
  if decide (err = ErrIncidentNotFound) then writeError ExitFailure "not_found" commandName "incident was not found"
  else if decide (err = AdminProtocol.ErrInvalidOptions)
  then writeError ExitUsage "invalid_arguments" commandName "invalid administrative request"
  else writeError ExitFailure "daemon_unavailable" commandName "administrative daemon request failed".
(** A call of the client and its answer. *)
Definition answered {A} `{GoJson A} (k : call) (commandName : string) (answer : result A) : outcome :=
  calling k match answer with Fail err => writeAdminRequestError commandName err | Ok value => writeJSON value end.
Definition with_config (path commandName : string) (f : Config -> outcome) : outcome :=
  match loadConfig path with
  | Fail _ => writeError ExitFailure "config_invalid" commandName "configuration validation failed"
  | Ok cfg => f cfg
  end.
Definition socket (cfg : Config) : string := ad_SocketPath (cf_Admin cfg).

Definition approval_usage : string := "Usage: pulse-agent approval grant --config <path> --command-id <id> --expires-at <RFC3339> [--reason <code>]
       pulse-agent approval deny --config <path> --command-id <id> --expires-at <RFC3339> [--reason <code>]".
Definition executeApproval (args : list string) : outcome :=
  let invalid := writeError ExitUsage "invalid_arguments" "approval" in
  let arguments := "approval requires grant or deny with --config, --command-id, and --expires-at" in
  if (2 <=? count args) && isHelp (last_arg args) then usage approval_usage
  else if negb (count args =? 8) && negb (count args =? 10) then invalid arguments
  else if (negb (String.eqb (arg args 1) "grant") && negb (String.eqb (arg args 1) "deny")) ||
          negb (String.eqb (arg args 2) "--config") || String.eqb (arg args 3) "" ||
          negb (String.eqb (arg args 4) "--command-id") || String.eqb (arg args 5) "" ||
          negb (String.eqb (arg args 6) "--expires-at") || String.eqb (arg args 7) "" then invalid arguments
  else if (count args =? 10) && (negb (String.eqb (arg args 8) "--reason") || String.eqb (arg args 9) "")
  then invalid "invalid approval reason"
  else
    let reasonCode := if count args =? 10 then arg args 9 else DefaultReasonCode in
    match parseTime (arg args 7) with
    | None => invalid "invalid approval expiry"
    | Some expiresAt =>
      with_config (arg args 3) "approval" (fun cfg =>
        let decision := if String.eqb (arg args 1) "deny" then ApprovalDenied else ApprovalGranted in
        answered (CallDecideApproval (socket cfg) reasonCode (arg args 5) decision expiresAt)
          (String.append "approval " (arg args 1)) (api_DecideApproval (socket cfg) reasonCode (arg args 5) decision expiresAt))
    end.

(** [strconv.Atoi]: a sign and digits, in the range of [int]. *)
Definition Atoi (s : string) : option Z :=
  let read (sign : Z) (digits : list Z) :=
    if (length digits =? 0)%nat || negb (forallb is_digit digits) then None
    else let value := sign * digits_value digits in if int64_ok value then Some value else None in
  match bytes s with
  | 45 :: digits => read (-1) digits
  | 43 :: digits => read 1 digits
  | digits => read 1 digits
  end.
(** The loop over the options of [incident list]: the filter, or a message. *)
Fixpoint list_options (filter : Filter) (options : list string) : Filter + string :=
  match options with
  | [] => inl filter
  | [_] => inr "invalid incident list options"
  | name :: value :: options =>
    if String.eqb name "--state" then list_options (filter <| fl_State := value |>) options
    else if String.eqb name "--page-size" then
      match Atoi value with None => inr "invalid page size" | Some n => list_options (filter <| fl_PageSize := n |>) options end
    else if String.eqb name "--offset" then
      match Atoi value with None => inr "invalid offset" | Some n => list_options (filter <| fl_Offset := n |>) options end
    else if String.eqb name "--from" then
      match parseTime value with None => inr "invalid from time" | Some t => list_options (filter <| fl_From := t |>) options end
    else if String.eqb name "--to" then
      match parseTime value with None => inr "invalid to time" | Some t => list_options (filter <| fl_To := t |>) options end
    else inr "unknown incident list option"
  end.
Definition incident_usage : string := "Usage: pulse-agent incident list --config <path> [--state <state>] [--page-size <1-100>] [--offset <n>]
       pulse-agent incident show --config <path> --id <incident-id>".
Definition executeIncident (args : list string) : outcome :=
  if (2 <=? count args) && isHelp (last_arg args) then usage incident_usage
  else if count args <? 4 then writeError ExitUsage "invalid_arguments" "incident" "incident query requires --config <path>"
  else if String.eqb (arg args 1) "show" && (count args =? 6) && String.eqb (arg args 2) "--config" &&
          String.eqb (arg args 4) "--id" && negb (String.eqb (arg args 3) "") && negb (String.eqb (arg args 5) "") then
    with_config (arg args 3) "incident show" (fun cfg =>
      answered (CallShowIncident (socket cfg) DefaultReasonCode (arg args 5)) "incident show"
        (api_ShowIncident (socket cfg) DefaultReasonCode (arg args 5)))
  else if negb (String.eqb (arg args 1) "list") || negb (String.eqb (arg args 2) "--config") || String.eqb (arg args 3) ""
  then writeError ExitUsage "invalid_arguments" "incident" "invalid incident query arguments"
  else
    match list_options (mkFilter "" 0 0 0 0) (drop 4 args) with
    | inr message => writeError ExitUsage "invalid_arguments" "incident list" message
    | inl filter =>
      with_config (arg args 3) "incident list" (fun cfg =>
        answered (CallListIncidents (socket cfg) DefaultReasonCode filter) "incident list"
          (api_ListIncidents (socket cfg) DefaultReasonCode filter))
    end.

Definition runbook_usage : string := "Usage: pulse-agent runbook validate --runbook <directory>
       pulse-agent runbook register --config <path> --runbook <directory> [--reason <code>]".
Definition runbook_valid (loaded : Pair) : runbookValidation :=
  mkRunbookValidation SchemaVersionV1 (rb_RunbookID (pr_Runbook loaded)) (pr_Digest loaded).
Definition executeRunbook (args : list string) : outcome :=
  if (2 <=? count args) && isHelp (last_arg args) then usage runbook_usage
  else if (count args =? 4) && String.eqb (arg args 1) "validate" && String.eqb (arg args 2) "--runbook" && negb (String.eqb (arg args 3) "") then
    match loadRunbook (arg args 3) with
    | Fail _ => writeError ExitUsage "runbook_invalid" "runbook validate" "runbook pair validation failed"
    | Ok loaded => writeJSON (runbook_valid loaded)
    end
  else if negb (count args =? 6) && negb (count args =? 8)
  then writeError ExitUsage "invalid_arguments" "runbook" "invalid runbook command arguments"
  else if negb (String.eqb (arg args 1) "register") || negb (String.eqb (arg args 2) "--config") || String.eqb (arg args 3) "" ||
          negb (String.eqb (arg args 4) "--runbook") || String.eqb (arg args 5) ""
  then writeError ExitUsage "invalid_arguments" "runbook register" "runbook register requires --config <path> --runbook <directory>"
  else if (count args =? 8) && (negb (String.eqb (arg args 6) "--reason") || String.eqb (arg args 7) "")
  then writeError ExitUsage "invalid_arguments" "runbook register" "invalid reason option"
  else
    let reason := if count args =? 8 then arg args 7 else DefaultReasonCode in
    match loadRunbook (arg args 5) with
    | Fail _ => writeError ExitUsage "runbook_invalid" "runbook register" "runbook pair validation failed"
    | Ok loaded =>
      with_config (arg args 3) "runbook register" (fun cfg =>
        answered (CallRegisterRunbook (socket cfg) reason (pr_Runbook loaded)) "runbook register"
          (api_RegisterRunbook (socket cfg) reason (pr_Runbook loaded)))
    end.

Definition target_usage : string := "Usage: pulse-agent target register --config <path> --target <path> [--reason <code>]".
Definition executeTarget (args : list string) : outcome :=
  let commandName := "target register" in
  let invalid := writeError ExitUsage "invalid_arguments" commandName
    "target register requires --config <path> --target <path> with optional --reason <code>" in
  if (count args =? 2) && isHelp (arg args 1) then usage target_usage
  else if (count args =? 3) && String.eqb (arg args 1) "register" && isHelp (arg args 2) then usage target_usage
  else if negb (count args =? 6) && negb (count args =? 8) then invalid
  else if negb (String.eqb (arg args 1) "register") || negb (String.eqb (arg args 2) "--config") || String.eqb (arg args 3) "" ||
          negb (String.eqb (arg args 4) "--target") || String.eqb (arg args 5) "" then invalid
  else if (count args =? 8) && (negb (String.eqb (arg args 6) "--reason") || String.eqb (arg args 7) "") then invalid
  else
    let reasonCode := if count args =? 8 then arg args 7 else DefaultReasonCode in
    with_config (arg args 3) commandName (fun cfg =>
      match loadTarget (arg args 5) with
      | Fail _ => writeError ExitUsage "target_invalid" commandName "target document validation failed"
      | Ok submitted =>
        answered (CallRegister (socket cfg) reasonCode submitted) commandName (api_Register (socket cfg) reasonCode submitted)
      end).

(** The configured service, which is what [Execute] runs. *)
Definition executeStandalone (args : list string) : outcome :=
  if (count args =? 2) && isHelp (arg args 1) then usage "Usage: pulse-agent standalone --config <path>"
  else if negb (count args =? 3) || negb (String.eqb (arg args 1) "--config") || String.eqb (arg args 2) ""
  then writeError ExitUsage "invalid_arguments" "standalone" "standalone requires --config <path>"
  else
    with_config (arg args 2) "standalone" (fun cfg =>
      calling (CallService cfg)
        match runService cfg with
        | Some text => writeError ExitFailure "standalone_failed" "standalone" text
        | None => mkOutcome ExitSuccess [] [] []
        end).

Definition orderedSubcommands (group : string) : list string :=
  if String.eqb group "approval" then ["grant"; "deny"]
  else if String.eqb group "config" then ["validate"]
  else if String.eqb group "incident" then ["list"; "show"]
  else if String.eqb group "runbook" then ["validate"; "register"]
  else if String.eqb group "target" then ["register"]
  else [].
Definition newline : string := String (of_byte 10) EmptyString.
Definition writeGroupUsage (group : string) (subcommands : list string) : output :=
  Usage (fold_left (fun text subcommand =>
      if bool_decide (subcommand ∈ subcommands) then String.append text (String.append "  " (String.append subcommand newline)) else text)
    (orderedSubcommands group)
    (String.append "Usage: pulse-agent " (String.append group (String.append " <command>" (String.append newline
      (String.append newline (String.append "Commands:" newline))))))).
Definition config_usage : string := "Usage: pulse-agent config validate --config <path>".
Definition executeConfig (args : list string) : outcome :=
  if (count args =? 2) && isHelp (arg args 1) then usage config_usage
  else if count args <? 2 then mkOutcome ExitUsage [] [writeGroupUsage "config" (default [] (commandGroups "config"))] []
  else if negb (String.eqb (arg args 1) "validate")
  then writeError ExitUsage "unknown_command" (join " " (take 2 args)) "unknown command"
  else if (count args =? 3) && isHelp (arg args 2) then usage config_usage
  else if negb (count args =? 4) || negb (String.eqb (arg args 2) "--config") || String.eqb (arg args 3) ""
  then writeError ExitUsage "invalid_arguments" "config validate" "config validate requires --config <path>"
  else with_config (arg args 3) "config validate" (fun _ => writeJSON (mkConfigValidation "pulse-agent.cli.config_validation.v1" true)).

Definition parseAdminArguments (args : list string) : option (string * string) :=
  if negb (count args =? 3) && negb (count args =? 5) then None
  else if negb (String.eqb (arg args 1) "--config") || String.eqb (arg args 2) "" then None
  else if count args =? 3 then Some (arg args 2, DefaultReasonCode)
  else if negb (String.eqb (arg args 3) "--reason") || String.eqb (arg args 4) "" then None
  else Some (arg args 2, arg args 4).
(** The bytes of a backup go to the output as they arrive; an output that was
    closed ends the command without error. *)
Definition ErrClosedPipe := mkError "io" "io: read/write on closed pipe".
Definition backed_up (answer : string * option error) : outcome :=
  match answer with
  | (content, None) => mkOutcome ExitSuccess [Raw content] [] []
  | (content, Some err) =>
    if decide (err = ErrClosedPipe) then mkOutcome ExitSuccess [Raw content] [] [] else
    let o := writeAdminRequestError "backup" err in mkOutcome (oc_exit o) (Raw content :: oc_stdout o) (oc_stderr o) (oc_calls o)
  end.
Definition executeAdmin (args : list string) : outcome :=
  let commandName := arg args 0 in
  if (count args =? 2) && isHelp (arg args 1)
  then usage (String.append "Usage: pulse-agent " (String.append commandName " --config <path> [--reason <code>]"))
  else
    match parseAdminArguments args with
    | None => writeError ExitUsage "invalid_arguments" commandName "command requires --config <path> with optional --reason <code>"
    | Some (configPath, reasonCode) =>
      with_config configPath commandName (fun cfg =>
        if String.eqb commandName "status" then answered (CallStatus (socket cfg) reasonCode) commandName (api_Status (socket cfg) reasonCode)
        else if String.eqb commandName "backup" then calling (CallBackup (socket cfg) reasonCode) (backed_up (api_Backup (socket cfg) reasonCode))
        else writeError ExitUsage "unknown_command" commandName "unknown command")
    end.

(** The loop over the options of [acceptance run]: the output directory and the
    Go binary, or a message. *)
Fixpoint acceptance_options (outputDirectory goBinary : string) (options : list string) : (string * string) + string :=
  match options with
  | name :: value :: options =>
    if String.eqb value "" then inr "acceptance option values must not be empty"
    else if String.eqb name "--output" then acceptance_options value goBinary options
    else if String.eqb name "--go-bin" then acceptance_options outputDirectory value options
    else inr "unknown acceptance option"
  | _ => inl (outputDirectory, goBinary)
  end.
Definition executeAcceptance (args : list string) : outcome :=
  let commandName := "acceptance run" in
  let invalid := writeError ExitUsage "invalid_arguments" commandName in
  if ((count args =? 2) && isHelp (arg args 1)) || ((count args =? 3) && isHelp (arg args 2))
  then usage "Usage: pulse-agent acceptance run --output <directory> [--go-bin <path>]"
  else if (count args <? 4) || negb (String.eqb (arg args 1) "run") || negb (count args mod 2 =? 0)
  then invalid "acceptance run requires --output <directory> with optional --go-bin <path>"
  else
    match acceptance_options "" "" (drop 2 args) with
    | inr message => invalid message
    | inl (outputDirectory, goBinary) =>
      if String.eqb outputDirectory "" then invalid "acceptance run requires --output <directory>"
      else
        match workingDirectory with
        | Fail _ => writeError ExitFailure "working_directory_unavailable" commandName "working directory is unavailable"
        | Ok projectRoot =>
          let '(result, named, failed) := runAcceptance outputDirectory projectRoot goBinary in
          calling (CallAcceptance outputDirectory projectRoot goBinary)
            (let printed := if stdoutFails then mkOutcome ExitFailure [] [] [] else mkOutcome ExitSuccess [JsonValue result] [] [] in
             if failed : bool then
               let o := writeError ExitFailure "acceptance_failed" commandName "acceptance baseline did not pass" in
               if named : bool then mkOutcome (oc_exit o) (oc_stdout printed) (oc_stderr o) [] else o
             else printed)
        end
    end.

Definition writeNotImplemented (commandName : string) : outcome :=
  writeError ExitNotImplemented "not_implemented" commandName "command is recognized but not implemented".
Definition executeGroup (args subcommands : list string) : outcome :=
  let group := arg args 0 in
  if (count args =? 2) && isHelp (arg args 1) then mkOutcome ExitSuccess [writeGroupUsage group subcommands] [] []
  else if count args <? 2 then mkOutcome ExitUsage [] [writeGroupUsage group subcommands] []
  else
    let commandName := join " " (take 2 args) in
    if negb (bool_decide (arg args 1 ∈ subcommands)) then writeError ExitUsage "unknown_command" commandName "unknown command"
    else if (count args =? 3) && isHelp (arg args 2)
    then mkOutcome ExitSuccess [Usage (String.append "Usage: pulse-agent " commandName)] [] []
    else if negb (count args =? 2) then writeError ExitUsage "invalid_arguments" commandName "command does not accept arguments yet"
    else writeNotImplemented commandName.

Definition top_level_usage : string := ("Usage: pulse-agent <command> [arguments]

Commands:
  standalone          Run the standalone host service
  config validate     Validate local configuration without changing state
  target register     Register a target through the local daemon
  runbook validate    Validate a runbook pair without changing state
  runbook register    Register a runbook through the local daemon
  incident list       List incidents through the local daemon
  incident show       Show an incident through the local daemon
  approval grant      Grant an approval through the local daemon
  approval deny       Deny an approval through the local daemon
  status              Show standalone daemon status
  backup              Request a daemon-owned state backup
  acceptance run      Generate the deterministic MVP acceptance baseline

Use " ++ quote ++ "pulse-agent <command> --help" ++ quote ++ " for command usage.
")%string.
Definition executeWithDependencies (args : list string) : outcome :=
  let name := arg args 0 in
  if count args =? 0 then mkOutcome ExitUsage [] [Usage top_level_usage] []
  else if isHelp name then mkOutcome ExitSuccess [Usage top_level_usage] [] []
  else if String.eqb name "standalone" then executeStandalone args
  else if String.eqb name "config" then executeConfig args
  else if String.eqb name "acceptance" then executeAcceptance args
  else if directCommands name then executeAdmin args
  else if String.eqb name "target" then executeTarget args
  else if String.eqb name "runbook" then executeRunbook args
  else if String.eqb name "incident" then executeIncident args
  else if String.eqb name "approval" then executeApproval args
  else
    match commandGroups name with
    | Some subcommands => executeGroup args subcommands
    | None => writeError ExitUsage "unknown_command" name "unknown command"
    end.
Definition Execute (args : list string) : outcome :=
  if negb (count args =? 0) && String.eqb (arg args 0) "acceptance" then executeAcceptance args
  else
    match newClient with
    | Fail _ => writeError ExitFailure "admin_client_unavailable" "" "administrative client initialization failed"
    | Ok _ => executeWithDependencies args
    end.

(** * The command lines that make a call *)

Inductive optional_reason : list string -> string -> Prop :=
| default_reason : optional_reason [] DefaultReasonCode
| given_reason reason : reason <> "" -> optional_reason ["--reason"; reason] reason.
(** The configuration named on the line, and the call with it. The groups that look
    for help at the end of the line refuse a last argument that asks for it. *)
Inductive accepts : list string -> string -> (Config -> call) -> Prop :=
| accepts_standalone path : path <> "" -> accepts ["standalone"; "--config"; path] path CallService
| accepts_status path rest reason :
    path <> "" -> optional_reason rest reason ->
    accepts ("status" :: "--config" :: path :: rest) path (fun cfg => CallStatus (socket cfg) reason)
| accepts_backup path rest reason :
    path <> "" -> optional_reason rest reason ->
    accepts ("backup" :: "--config" :: path :: rest) path (fun cfg => CallBackup (socket cfg) reason)
| accepts_target path file target rest reason :
    path <> "" -> file <> "" -> optional_reason rest reason -> loadTarget file = Ok target ->
    accepts ("target" :: "register" :: "--config" :: path :: "--target" :: file :: rest) path
      (fun cfg => CallRegister (socket cfg) reason target)
| accepts_runbook path directory loaded rest reason :
    path <> "" -> directory <> "" -> optional_reason rest reason -> loadRunbook directory = Ok loaded ->
    isHelp (last_arg (directory :: rest)) = false ->
    accepts ("runbook" :: "register" :: "--config" :: path :: "--runbook" :: directory :: rest) path
      (fun cfg => CallRegisterRunbook (socket cfg) reason (pr_Runbook loaded))
| accepts_show path id :
    path <> "" -> id <> "" -> isHelp id = false ->
    accepts ["incident"; "show"; "--config"; path; "--id"; id] path (fun cfg => CallShowIncident (socket cfg) DefaultReasonCode id)
| accepts_list path rest filter :
    path <> "" -> list_options (mkFilter "" 0 0 0 0) rest = inl filter -> isHelp (last_arg (path :: rest)) = false ->
    accepts ("incident" :: "list" :: "--config" :: path :: rest) path (fun cfg => CallListIncidents (socket cfg) DefaultReasonCode filter)
| accepts_approval verb decision path id text expiresAt rest reason :
    verb = "grant" /\ decision = ApprovalGranted \/ verb = "deny" /\ decision = ApprovalDenied ->
    path <> "" -> id <> "" -> text <> "" -> parseTime text = Some expiresAt -> optional_reason rest reason ->
    isHelp (last_arg (text :: rest)) = false ->
    accepts ("approval" :: verb :: "--config" :: path :: "--command-id" :: id :: "--expires-at" :: text :: rest) path
      (fun cfg => CallDecideApproval (socket cfg) reason id decision expiresAt).

(** The options of an acceptance run: pairs of a name and a value; the last of
    each name counts. *)
Inductive acceptance_pairs : list string -> string -> string -> Prop :=
| no_pairs : acceptance_pairs [] "" ""
| output_pair options output binary value :
    acceptance_pairs options output binary -> value <> "" -> acceptance_pairs (options ++ ["--output"; value]) value binary
| binary_pair options output binary value :
    acceptance_pairs options output binary -> value <> "" -> acceptance_pairs (options ++ ["--go-bin"; value]) output value.
(** The line that needs neither a configuration nor the client. *)
Inductive accepts_bare : list string -> call -> Prop :=
| accepts_acceptance options output binary root :
    acceptance_pairs options output binary -> output <> "" -> workingDirectory = Ok root ->
    accepts_bare ("acceptance" :: "run" :: options) (CallAcceptance output root binary).

(** ** Facts *)

Lemma writeError_calls exitCode code commandName message : oc_calls (writeError exitCode code commandName message) = [].
Proof. unfold writeError. by repeat case_match. Qed.
Lemma writeJSON_calls {A} `{GoJson A} (value : A) : oc_calls (writeJSON value) = [].
Proof. unfold writeJSON. by repeat case_match. Qed.
Lemma writeAdminRequestError_calls commandName err : oc_calls (writeAdminRequestError commandName err) = [].
Proof. unfold writeAdminRequestError. repeat case_decide; apply writeError_calls. Qed.
Lemma answered_calls {A} `{GoJson A} k commandName (answer : result A) : oc_calls (answered k commandName answer) = [k].
Proof. unfold answered, calling. cbn. f_equal. destruct answer; [apply writeJSON_calls|apply writeAdminRequestError_calls]. Qed.
Lemma with_config_calls path commandName f k ks :
  oc_calls (with_config path commandName f) = k :: ks -> exists cfg, loadConfig path = Ok cfg /\ oc_calls (f cfg) = k :: ks.
Proof. unfold with_config. destruct (loadConfig path) as [cfg|]; [by exists cfg|]. by rewrite writeError_calls. Qed.
Lemma with_config_ok path commandName f cfg : loadConfig path = Ok cfg -> with_config path commandName f = f cfg.
Proof. unfold with_config. by intros ->. Qed.
Lemma count_is args n : (count args =? Z.of_nat n) = true -> length args = n.
Proof. unfold count. intros Hn%Z.eqb_eq. lia. Qed.

(** A line by its first arguments and the rest. *)
Lemma front_of n args : (n <= length args)%nat -> args = (map (arg args) (seq 0 n) ++ drop n args)%list.
Proof.
  revert args. induction n as [|n IH]; intros args Hn; [done|]. destruct args as [|x args]; [cbn in Hn; lia|]. cbn [seq map app drop].
  f_equal. rewrite (IH args) at 1 by (cbn in Hn; lia). f_equal. rewrite <- seq_shift, map_map. by apply map_ext.
Qed.
Lemma drop_two args n : length args = (2 + n)%nat -> drop n args = [arg args n; arg args (1 + n)].
Proof.
  revert args. induction n as [|n IH]; intros args Hl.
  - destruct args as [|x [|y []]]; cbn in Hl; try lia. done.
  - destruct args as [|x args]; cbn in Hl; [lia|]. cbn [drop]. apply (IH args). lia.
Qed.
(** An optional reason after [n] arguments, as the handlers read it. *)
Lemma reason_at args n :
  (count args =? Z.of_nat n) = true \/ (count args =? Z.of_nat (2 + n)) = true ->
  (count args =? Z.of_nat (2 + n)) && (negb (String.eqb (arg args n) "--reason") || String.eqb (arg args (1 + n)) "") = false ->
  optional_reason (drop n args) (if count args =? Z.of_nat (2 + n) then arg args (1 + n) else DefaultReasonCode).
Proof.
  intros [Hl%count_is|Hl] Hr.
  - unfold count in *. destruct (Z.eqb_spec (Z.of_nat (length args)) (Z.of_nat (2 + n))) as [|_]; [lia|]. rewrite drop_ge by lia. constructor.
  - rewrite Hl in *. cbn [andb] in Hr. apply orb_false_iff in Hr as [Hr He]. apply negb_false_iff, String.eqb_eq in Hr. apply String.eqb_neq in He.
    apply count_is in Hl. pose proof (drop_two args n Hl) as Hd.
    rewrite Hd, Hr. by constructor.
Qed.
Lemma last_arg_drop n args : (n < length args)%nat -> last_arg args = last_arg (drop n args).
Proof.
  revert args. induction n as [|n IH]; intros args Hn; [done|]. destruct args as [|x args]; [cbn in Hn; lia|]. cbn [drop].
  rewrite <- IH by (cbn in Hn; lia). destruct args; [cbn in Hn; lia|done].
Qed.
Lemma not_help_line args n :
  (2 <=? count args) && isHelp (last_arg args) = false -> (2 <= n <= length args)%nat -> isHelp (last_arg (arg args (n - 1) :: drop n args)) = false.
Proof.
  unfold count. intros Hh [H2 Hn]. destruct (Z.leb_spec 2 (Z.of_nat (length args))); [|lia]. cbn [andb] in Hh. rewrite <- Hh. f_equal.
  rewrite (last_arg_drop (n - 1) args) by lia. f_equal. destruct n as [|n]; [lia|]. replace (S n - 1)%nat with n by lia.
  clear -Hn. revert args Hn. induction n as [|n IH]; intros [|x args] Hn; cbn in Hn; try lia; [done|]. cbn [drop arg nth]. apply (IH args). lia.
Qed.

Definition called (args : list string) (k : call) (ks : list call) : Prop :=
  exists path cfg mk, accepts args path mk /\ loadConfig path = Ok cfg /\ k = mk cfg /\ ks = [].
Lemma called_by args path mk f k ks commandName :
  accepts args path mk -> (forall cfg, oc_calls (f cfg) = [mk cfg]) -> oc_calls (with_config path commandName f) = k :: ks -> called args k ks.
Proof.
  intros Ha Hf (cfg & Hl & Hc)%with_config_calls. rewrite Hf in Hc. injection Hc as <- <-. by exists path, cfg, mk.
Qed.
End Command.

(** The branches of a handler that make no call, closed; the conditions of the
    last one, as equations. *)
Ltac skip_quiet := repeat match goal with
  | |- oc_calls (if ?b then _ else _) = _ -> _ => destruct b eqn:?; [by rewrite ?writeError_calls, ?writeJSON_calls|]
  end.
Ltac read_arguments := repeat match goal with
  | Hx : _ || _ = false |- _ => apply orb_false_iff in Hx; destruct Hx
  | Hx : negb _ = false |- _ => apply negb_false_iff in Hx
  | Hx : String.eqb _ _ = true |- _ => apply String.eqb_eq in Hx
  | Hx : String.eqb _ _ = false |- _ => apply String.eqb_neq in Hx
  end.

(** A line of [n] arguments, in the conditions of a handler. *)
Ltac line_of n :=
  repeat match goal with |- context [count ?args] => change (count args) with n end;
  cbn [arg nth Z.eqb Z.leb Z.ltb Z.compare Pos.compare Pos.compare_cont Pos.eqb negb andb orb];
  repeat match goal with
  | Hx : String.eqb ?a ?b = false |- context [String.eqb ?a ?b] => rewrite Hx
  | |- context [String.eqb ?a ?a] => rewrite (String.eqb_refl a)
  end;
  cbn [negb andb orb].

Ltac no_help Hh :=
  match goal with |- context [isHelp (last_arg ?l)] => replace (isHelp (last_arg l)) with false by (symmetry; exact Hh) end.

Section Lines.
Context `{Surroundings}.

Lemma either_length args n :
  negb (count args =? Z.of_nat n) && negb (count args =? Z.of_nat (2 + n)) = false ->
  ((count args =? Z.of_nat n) = true \/ (count args =? Z.of_nat (2 + n)) = true) /\ (n <= length args)%nat.
Proof.
  intros Hn. assert (Ho : (count args =? Z.of_nat n) = true \/ (count args =? Z.of_nat (2 + n)) = true).
  { destruct (count args =? Z.of_nat n); [by left|]. by apply negb_false_iff in Hn; right. }
  split; [done|]. destruct Ho as [Ho|Ho]; apply count_is in Ho; lia.
Qed.

Lemma executeApproval_calls args k ks :
  arg args 0 = "approval" -> oc_calls (executeApproval args) = k :: ks -> called args k ks.
Proof.
  intros H0. unfold executeApproval. cbv zeta. skip_quiet.
  destruct (parseTime _) as [expiresAt|] eqn:Ht; [|by rewrite writeError_calls].
  destruct (either_length args 8) as [Ho Hl]; [done|]. pose proof (reason_at args 8 Ho ltac:(done)) as Hr.
  pose proof (not_help_line args 8 ltac:(done) ltac:(lia)) as Hh. read_arguments.
  eapply called_by; [|intros; apply answered_calls].
  rewrite (front_of 8 args Hl) at 1. cbn [map seq app].
  repeat match goal with Hx : arg args _ = _ |- _ => rewrite Hx end.
  apply accepts_approval; try done. destruct (String.eqb_spec (arg args 1) "deny") as [->|Hn]; [by right|]. left. split; [|done].
  match goal with Hx : negb (String.eqb _ "grant") && _ = false |- _ => by apply andb_false_iff in Hx as [Hx%negb_false_iff%String.eqb_eq|] end.
Qed.
Lemma executeRunbook_calls args k ks :
  arg args 0 = "runbook" -> oc_calls (executeRunbook args) = k :: ks -> called args k ks.
Proof.
  intros H0. unfold executeRunbook. cbv zeta. skip_quiet.
  destruct (_ && negb (String.eqb (arg args 3) "")) eqn:E. { destruct (loadRunbook _); by rewrite ?writeError_calls, ?writeJSON_calls. }
  skip_quiet. destruct (loadRunbook (arg args 5)) as [loaded|] eqn:Ht; [|by rewrite writeError_calls].
  destruct (either_length args 6) as [Ho Hl]; [done|]. pose proof (reason_at args 6 Ho ltac:(done)) as Hr.
  pose proof (not_help_line args 6 ltac:(done) ltac:(lia)) as Hh. read_arguments.
  eapply called_by; [|intros; apply answered_calls].
  rewrite (front_of 6 args Hl) at 1. cbn [map seq app].
  repeat match goal with Hx : arg args _ = _ |- _ => rewrite Hx end. by apply accepts_runbook.
Qed.
Lemma executeTarget_calls args k ks :
  arg args 0 = "target" -> oc_calls (executeTarget args) = k :: ks -> called args k ks.
Proof.
  intros H0. unfold executeTarget. cbv zeta. skip_quiet.
  destruct (either_length args 6) as [Ho Hl]; [done|]. pose proof (reason_at args 6 Ho ltac:(done)) as Hr. read_arguments.
  intros (cfg & Hc & Hk)%with_config_calls. destruct (loadTarget (arg args 5)) as [target|] eqn:Ht; [|by rewrite writeError_calls in Hk].
  rewrite answered_calls in Hk. injection Hk as <- <-. eexists (arg args 3), cfg, (fun cfg => CallRegister (socket cfg) _ target).
  split; [|done]. rewrite (front_of 6 args Hl) at 1. cbn [map seq app].
  repeat match goal with Hx : arg args _ = _ |- _ => rewrite Hx end. by apply accepts_target.
Qed.
Lemma executeIncident_calls args k ks :
  arg args 0 = "incident" -> oc_calls (executeIncident args) = k :: ks -> called args k ks.
Proof.
  intros H0. unfold executeIncident. skip_quiet. destruct (_ && negb (String.eqb (arg args 5) "")) eqn:E.
  - rewrite !andb_true_iff, !negb_true_iff, !String.eqb_eq, !String.eqb_neq in E. destruct_and! E.
    match goal with Hx : (count args =? 6) = true |- _ => apply (count_is args 6) in Hx as Hl end.
    pose proof (not_help_line args 6 ltac:(done) ltac:(lia)) as Hh. rewrite drop_ge in Hh by lia.
    eapply called_by; [|intros; apply answered_calls]. rewrite (front_of 6 args ltac:(lia)) at 1. rewrite drop_ge by lia. cbn [map seq app].
    repeat match goal with Hx : arg args _ = _ |- _ => rewrite Hx end. by apply accepts_show.
  - skip_quiet. destruct (list_options _ _) as [filter|message] eqn:Eo; [|by rewrite writeError_calls].
    assert (Hl : (4 <= length args)%nat) by (match goal with Hx : (count args <? 4) = false |- _ => apply Z.ltb_ge in Hx; unfold count in Hx end; lia).
    pose proof (not_help_line args 4 ltac:(done) ltac:(lia)) as Hh. read_arguments.
    eapply called_by; [|intros; apply answered_calls]. rewrite (front_of 4 args Hl) at 1. cbn [map seq app].
    repeat match goal with Hx : arg args _ = _ |- _ => rewrite Hx end. by apply accepts_list.
Qed.
Lemma executeStandalone_calls args k ks :
  arg args 0 = "standalone" -> oc_calls (executeStandalone args) = k :: ks -> called args k ks.
Proof.
  intros H0. unfold executeStandalone. skip_quiet. read_arguments.
  match goal with Hx : (count args =? 3) = true |- _ => apply (count_is args 3) in Hx as Hl end.
  eapply called_by.
  2: { intros cfg. cbn. f_equal. destruct (runService cfg); [apply writeError_calls|done]. }
  rewrite (front_of 3 args ltac:(lia)) at 1. rewrite drop_ge by lia. cbn [map seq app].
  repeat match goal with Hx : arg args _ = _ |- _ => rewrite Hx end. by apply accepts_standalone.
Qed.
Lemma parseAdminArguments_line args path reason :
  parseAdminArguments args = Some (path, reason) ->
  exists name rest, args = (name :: "--config" :: path :: rest) /\ path <> "" /\ optional_reason rest reason.
Proof.
  unfold parseAdminArguments. destruct (_ && _) eqn:E1; [done|]. destruct (_ || _) eqn:E2; [done|].
  destruct (either_length args 3) as [Ho Hl]; [done|]. intros Hp.
  assert (Hr : (count args =? Z.of_nat (2 + 3)) && (negb (String.eqb (arg args 3) "--reason") || String.eqb (arg args 4) "") = false /\
    path = arg args 2 /\ reason = if count args =? Z.of_nat (2 + 3) then arg args 4 else DefaultReasonCode).
  { destruct Ho as [Ho|Ho]; apply count_is in Ho; unfold count in *; rewrite Ho in *;
      change (Z.of_nat 3) with 3 in *; change (Z.of_nat (2 + 3)) with 5 in *; change (Z.of_nat 5) with 5 in *; cbn [Z.eqb Pos.eqb andb] in Hp |- *.
    - injection Hp as <- <-. done.
    - revert Hp. destruct (negb (String.eqb (arg args 3) "--reason") || _); [done|]. intros [= <- <-]. done. }
  destruct Hr as (Hr%(reason_at args 3 Ho) & -> & ->). read_arguments. exists (arg args 0), (drop 3 args). split_and!; [|done|done].
  rewrite (front_of 3 args Hl) at 1. cbn [map seq app]. by repeat match goal with Hx : arg args _ = _ |- _ => rewrite Hx end.
Qed.
Lemma backup_calls k answer : oc_calls (calling k (backed_up answer)) = [k].
Proof.
  cbn. f_equal. unfold backed_up. destruct answer as [content [err|]]; [|done]. case_decide; [done|]. apply writeAdminRequestError_calls.
Qed.
Lemma executeAdmin_calls args k ks :
  arg args 0 = "status" \/ arg args 0 = "backup" -> oc_calls (executeAdmin args) = k :: ks -> called args k ks.
Proof.
  intros H0. unfold executeAdmin. skip_quiet. destruct (parseAdminArguments args) as [[path reason]|] eqn:Ep; [|by rewrite writeError_calls].
  apply parseAdminArguments_line in Ep as (name & rest & -> & Hp & Hr). cbn [arg nth] in *. destruct H0 as [-> | ->]; cbn [String.eqb].
  - eapply called_by; [by apply accepts_status|]. intros. apply answered_calls.
  - eapply called_by; [by apply accepts_backup|]. intros. apply backup_calls.
Qed.
Lemma executeConfig_calls args : oc_calls (executeConfig args) = [].
Proof.
  unfold executeConfig. repeat case_match; rewrite ?writeError_calls; try done. unfold with_config.
  destruct (loadConfig _); rewrite ?writeError_calls, ?writeJSON_calls; done.
Qed.
Lemma executeGroup_calls args subcommands : oc_calls (executeGroup args subcommands) = [].
Proof. unfold executeGroup, writeNotImplemented. repeat case_match; by rewrite ?writeError_calls. Qed.

(** The options read from left to right. *)
Lemma acceptance_options_app options output binary rest :
  acceptance_pairs options output binary -> acceptance_options "" "" (options ++ rest) = acceptance_options output binary rest.
Proof.
  intros Hp. revert rest. induction Hp as [|options output binary value _ IH Hv|options output binary value _ IH Hv]; intros rest; [done| |].
  all: apply String.eqb_neq in Hv; rewrite <- app_assoc, IH; cbn [app acceptance_options]; rewrite Hv; reflexivity.
Qed.
Lemma acceptance_options_pairs n options output binary rest output' binary' :
  length rest = (2 * n)%nat -> acceptance_pairs options output binary ->
  acceptance_options output binary rest = inl (output', binary') -> acceptance_pairs (options ++ rest) output' binary'.
Proof.
  revert options output binary rest. induction n as [|n IH]; intros options output binary rest Hl Hp.
  - destruct rest; [|cbn in Hl; lia]. intros [= <- <-]. by rewrite app_nil_r.
  - destruct rest as [|name [|value rest]]; cbn [length] in Hl; [lia|lia|]. cbn [acceptance_options].
    destruct (String.eqb_spec value ""); [done|].
    change (name :: value :: rest) with ([name; value] ++ rest). rewrite app_assoc.
    destruct (String.eqb_spec name "--output") as [->|]; [|destruct (String.eqb_spec name "--go-bin") as [->|]; [|done]].
    + apply IH; [lia|by eapply output_pair].
    + apply IH; [lia|by eapply binary_pair].
Qed.
Lemma acceptance_pairs_even options output binary :
  acceptance_pairs options output binary -> exists n, length options = (2 * n)%nat /\ (output <> "" -> (1 <= n)%nat).
Proof.
  induction 1 as [|options output binary value _ (n & Hn & _) _|options output binary value _ (n & Hn & Ho) _].
  - by exists 0%nat.
  - exists (S n). rewrite length_app, Hn. cbn [length]. split; lia.
  - exists (S n). rewrite length_app, Hn. cbn [length]. split; lia.
Qed.
Lemma executeAcceptance_calls args k ks :
  arg args 0 = "acceptance" -> args <> [] -> oc_calls (executeAcceptance args) = k :: ks <-> ks = [] /\ accepts_bare args k.
Proof.
  intros H0 Hne. split.
  - unfold executeAcceptance. skip_quiet. destruct (acceptance_options _ _ _) as [[output binary]|] eqn:Eo; [|by rewrite writeError_calls].
    skip_quiet. destruct workingDirectory as [root|] eqn:Ew; [|by rewrite writeError_calls].
    destruct (runAcceptance output root binary) as [[result named] failed]. read_arguments. rename select (_ mod 2 =? 0 = true) into He.
    rename select ((count args <? 4) = false) into Hl. apply Z.eqb_eq in He. apply Z.ltb_ge in Hl.
    assert (Hq : forall o, oc_calls o = [] -> oc_calls (calling (CallAcceptance output root binary) o) = k :: ks ->
      ks = [] /\ accepts_bare args k).
    { intros o Ho. cbn. rewrite Ho. intros [= <- <-]. split; [done|]. unfold count in *.
      rewrite (front_of 2 args ltac:(lia)) at 1. cbn [map seq app]. rename select (arg args 1 = "run") into H1. rewrite H0, H1.
      constructor; [|done|done].
      apply Z.mod_divide in He as [m Hm]; [|lia].
      apply (acceptance_options_pairs (Z.to_nat (m - 1)) [] "" "" (drop 2 args)); [|constructor|done].
      rewrite length_drop. lia. }
    apply Hq. destruct failed; [destruct named|]; [done|apply writeError_calls|by destruct stdoutFails].
  - intros [-> Ha]. destruct Ha as [options output binary root Hp Ho Hw]. destruct (acceptance_pairs_even _ _ _ Hp) as (n & Hn & Hpos).
    specialize (Hpos Ho). unfold executeAcceptance. cbv zeta.
    assert (Hc : count ("acceptance" :: "run" :: options) = 2 * (1 + Z.of_nat n)) by (unfold count; cbn [length]; lia).
    rewrite Hc, (proj2 (Z.eqb_neq _ 2)), (proj2 (Z.eqb_neq _ 3)), (proj2 (Z.ltb_ge _ 4)) by lia.
    rewrite Z.mul_comm, Z.mod_mul by lia. cbn [andb orb arg nth]. rewrite (String.eqb_refl "run"). cbn [negb orb Z.eqb drop].
    replace options with (options ++ [])%list at 1 by apply app_nil_r. rewrite drop_0, (acceptance_options_app _ _ _ _ Hp).
    cbn [acceptance_options]. apply String.eqb_neq in Ho. rewrite Ho, Hw.
    destruct (runAcceptance output root binary) as [[result named] failed]. cbn [calling oc_calls]. f_equal.
    destruct failed; [destruct named|]; [done|apply writeError_calls|by destruct stdoutFails].
Qed.

Lemma Execute_calls args k ks :
  arg args 0 <> "acceptance" -> oc_calls (Execute args) = k :: ks -> called args k ks.
Proof.
  intros Ha. unfold Execute. apply String.eqb_neq in Ha. rewrite Ha, andb_false_r. destruct newClient; [|by rewrite writeError_calls].
  unfold executeWithDependencies. skip_quiet. rewrite Ha.
  destruct (String.eqb_spec (arg args 0) "standalone"); [by apply executeStandalone_calls|].
  destruct (String.eqb_spec (arg args 0) "config"); [by rewrite executeConfig_calls|].
  destruct (directCommands (arg args 0)) eqn:Ed.
  { apply executeAdmin_calls. unfold directCommands in Ed. apply orb_true_iff in Ed as [Ed|Ed]; apply String.eqb_eq in Ed; auto. }
  destruct (String.eqb_spec (arg args 0) "target"); [by apply executeTarget_calls|].
  destruct (String.eqb_spec (arg args 0) "runbook"); [by apply executeRunbook_calls|].
  destruct (String.eqb_spec (arg args 0) "incident"); [by apply executeIncident_calls|].
  destruct (String.eqb_spec (arg args 0) "approval"); [by apply executeApproval_calls|].
  destruct (commandGroups _); by rewrite ?executeGroup_calls, ?writeError_calls.
Qed.

(** An accepted line with a configuration that loads makes its call. *)
Lemma accepted_calls args path mk cfg :
  is_ok newClient = true -> accepts args path mk -> loadConfig path = Ok cfg -> oc_calls (Execute args) = [mk cfg].
Proof.
  intros Hn Ha Hc. unfold Execute. destruct newClient; [clear Hn|done].
  destruct Ha as [path Hp|path rest reason Hp Hr|path rest reason Hp Hr|path file target rest reason Hp Hf Hr Ht
    |path directory loaded rest reason Hp Hf Hr Ht Hh|path id Hp Hi Hh|path rest filter Hp Ho Hh|verb decision path id text expiresAt rest reason Hv Hp Hi Ht Hx Hr Hh].
  all: repeat match goal with Hx : _ <> "" |- _ => apply String.eqb_neq in Hx end.
  - transitivity (oc_calls (executeStandalone ["standalone"; "--config"; path])); [reflexivity|]. unfold executeStandalone.
    line_of 3. rewrite (with_config_ok _ _ _ cfg) by done. cbn. f_equal. destruct (runService cfg); [apply writeError_calls|done].
  - destruct Hr as [|reason Hn]; [|apply String.eqb_neq in Hn].
    + transitivity (oc_calls (executeAdmin ["status"; "--config"; path])); [reflexivity|]. unfold executeAdmin, parseAdminArguments.
      line_of 3. rewrite (with_config_ok _ _ _ cfg) by done. apply answered_calls.
    + transitivity (oc_calls (executeAdmin ["status"; "--config"; path; "--reason"; reason])); [reflexivity|]. unfold executeAdmin, parseAdminArguments.
      line_of 5. rewrite (with_config_ok _ _ _ cfg) by done. apply answered_calls.
  - destruct Hr as [|reason Hn]; [|apply String.eqb_neq in Hn].
    + transitivity (oc_calls (executeAdmin ["backup"; "--config"; path])); [reflexivity|]. unfold executeAdmin, parseAdminArguments.
      line_of 3. rewrite (with_config_ok _ _ _ cfg) by done. apply backup_calls.
    + transitivity (oc_calls (executeAdmin ["backup"; "--config"; path; "--reason"; reason])); [reflexivity|]. unfold executeAdmin, parseAdminArguments.
      line_of 5. rewrite (with_config_ok _ _ _ cfg) by done. apply backup_calls.
  - destruct Hr as [|reason Hn]; [|apply String.eqb_neq in Hn].
    + transitivity (oc_calls (executeTarget ["target"; "register"; "--config"; path; "--target"; file])); [reflexivity|]. unfold executeTarget.
      cbv zeta. line_of 6. rewrite (with_config_ok _ _ _ cfg), Ht by done. apply answered_calls.
    + transitivity (oc_calls (executeTarget ["target"; "register"; "--config"; path; "--target"; file; "--reason"; reason])); [reflexivity|].
      unfold executeTarget. cbv zeta. line_of 8. rewrite (with_config_ok _ _ _ cfg), Ht by done. apply answered_calls.
  - destruct Hr as [|reason Hn]; [|apply String.eqb_neq in Hn].
    + transitivity (oc_calls (executeRunbook ["runbook"; "register"; "--config"; path; "--runbook"; directory])); [reflexivity|].
      unfold executeRunbook. cbv zeta. line_of 6. no_help Hh. line_of 6. rewrite Ht, (with_config_ok _ _ _ cfg) by done. apply answered_calls.
    + transitivity (oc_calls (executeRunbook ["runbook"; "register"; "--config"; path; "--runbook"; directory; "--reason"; reason])); [reflexivity|].
      unfold executeRunbook. cbv zeta. line_of 8. no_help Hh. line_of 8. rewrite Ht, (with_config_ok _ _ _ cfg) by done. apply answered_calls.
  - transitivity (oc_calls (executeIncident ["incident"; "show"; "--config"; path; "--id"; id])); [reflexivity|]. unfold executeIncident.
    line_of 6. no_help Hh. line_of 6. rewrite (with_config_ok _ _ _ cfg) by done. apply answered_calls.
  - transitivity (oc_calls (executeIncident ("incident" :: "list" :: "--config" :: path :: rest))); [reflexivity|]. unfold executeIncident.
    no_help Hh. rewrite andb_false_r.
    destruct (Z.ltb_spec (count ("incident" :: "list" :: "--config" :: path :: rest)) 4) as [Hl|_]; [unfold count in Hl; cbn [length] in Hl; lia|].
    cbn [arg nth]. change (String.eqb "list" "show") with false. cbn [andb]. rewrite !String.eqb_refl, Hp. cbn [negb orb drop].
    rewrite drop_0, Ho, (with_config_ok _ _ _ cfg) by done. apply answered_calls.
  - assert (Hd : decision = if String.eqb verb "deny" then ApprovalDenied else ApprovalGranted) by (by destruct Hv as [[-> ->]|[-> ->]]).
    assert (Hg : negb (String.eqb verb "grant") && negb (String.eqb verb "deny") = false) by (by destruct Hv as [[-> _]|[-> _]]).
    destruct Hr as [|reason Hn]; [|apply String.eqb_neq in Hn].
    + transitivity (oc_calls (executeApproval ["approval"; verb; "--config"; path; "--command-id"; id; "--expires-at"; text])); [reflexivity|].
      unfold executeApproval. cbv zeta. line_of 8. no_help Hh. rewrite Hg. line_of 8. rewrite Hx, (with_config_ok _ _ _ cfg), Hd by done. apply answered_calls.
    + transitivity (oc_calls (executeApproval ["approval"; verb; "--config"; path; "--command-id"; id; "--expires-at"; text; "--reason"; reason])); [reflexivity|].
      unfold executeApproval. cbv zeta. line_of 10. no_help Hh. rewrite Hg. line_of 10. rewrite Hx, (with_config_ok _ _ _ cfg), Hd by done. apply answered_calls.
Qed.

(** ** Exit codes *)

(** A command succeeds in silence, fails with 1 or 2, and writes at most one value
    on each stream, a diagnostic only when it fails. *)
Definition orderly_end (o : outcome) : Prop :=
  (oc_exit o = ExitSuccess /\ oc_stderr o = [] \/ oc_exit o = ExitFailure \/ oc_exit o = ExitUsage) /\
  (length (oc_stdout o) <= 1)%nat /\ (length (oc_stderr o) <= 1)%nat.
Lemma writeError_orderly exitCode code commandName message :
  exitCode = ExitFailure \/ exitCode = ExitUsage ->
  orderly_end (writeError exitCode code commandName message) /\ oc_stdout (writeError exitCode code commandName message) = [].
Proof. intros He. unfold writeError, orderly_end. repeat case_match; cbn; split; try done; split_and!; auto with lia. Qed.
Lemma error_orderly exitCode code commandName message :
  exitCode = ExitFailure \/ exitCode = ExitUsage -> orderly_end (writeError exitCode code commandName message).
Proof. intros He. by apply writeError_orderly. Qed.
Lemma writeJSON_orderly {A} `{GoJson A} (value : A) : orderly_end (writeJSON value).
Proof. unfold writeJSON, orderly_end. repeat case_match; cbn; split_and!; auto with lia. Qed.
Lemma adminError_orderly commandName err :
  orderly_end (writeAdminRequestError commandName err) /\ oc_stdout (writeAdminRequestError commandName err) = [].
Proof. unfold writeAdminRequestError. repeat case_decide; apply writeError_orderly; auto. Qed.
Lemma calling_orderly k o : orderly_end o -> orderly_end (calling k o).
Proof. done. Qed.
Lemma answered_orderly {A} `{GoJson A} k commandName (answer : result A) : orderly_end (answered k commandName answer).
Proof. apply calling_orderly. destruct answer; [apply writeJSON_orderly|apply adminError_orderly]. Qed.
Lemma usage_orderly text : orderly_end (usage text).
Proof. unfold orderly_end. cbn. split_and!; auto with lia. Qed.
Lemma with_config_orderly path commandName f : (forall cfg, orderly_end (f cfg)) -> orderly_end (with_config path commandName f).
Proof. intros Hf. unfold with_config. destruct (loadConfig path); [apply Hf|apply error_orderly; auto]. Qed.
End Lines.

Create HintDb command.
#[export] Hint Resolve error_orderly writeJSON_orderly calling_orderly answered_orderly usage_orderly with_config_orderly : command.

Section Properties.
Context `{Surroundings}.

Ltac branches := cbv zeta; repeat match goal with
  | |- orderly_end (if ?b then _ else _) => destruct b
  | |- orderly_end match ?m with _ => _ end => destruct m
  end; auto with command.
Lemma handlers_orderly args :
  orderly_end (executeApproval args) /\ orderly_end (executeIncident args) /\ orderly_end (executeRunbook args) /\
  orderly_end (executeTarget args) /\ orderly_end (executeConfig args).
Proof.
  split_and!.
  - unfold executeApproval. branches.
  - unfold executeIncident. branches.
  - unfold executeRunbook. branches.
  - unfold executeTarget. branches. apply with_config_orderly. intros cfg. destruct (loadTarget _); auto with command.
  - unfold executeConfig. branches. unfold orderly_end. cbn. split_and!; auto with lia.
Qed.
Lemma executeStandalone_orderly args : orderly_end (executeStandalone args).
Proof.
  unfold executeStandalone. branches. apply with_config_orderly. intros cfg. apply calling_orderly.
  destruct (runService cfg); [auto with command|]. unfold orderly_end. cbn. split_and!; auto with lia.
Qed.
Lemma executeAdmin_orderly args : orderly_end (executeAdmin args).
Proof.
  unfold executeAdmin. cbv zeta. destruct (_ && _); [auto with command|]. destruct (parseAdminArguments args) as [[path reason]|]; [|auto with command].
  apply with_config_orderly. intros cfg. branches. apply calling_orderly. unfold backed_up.
  destruct (api_Backup _ _) as [content [err|]]; [|unfold orderly_end; cbn; split_and!; auto with lia].
  case_decide; [unfold orderly_end; cbn; split_and!; auto with lia|]. destruct (adminError_orderly "backup" err) as [(He & _ & Hl) Hs].
  unfold orderly_end. cbn. rewrite Hs. split_and!; [|cbn; lia|done]. exact He.
Qed.
Lemma executeAcceptance_orderly args : orderly_end (executeAcceptance args).
Proof.
  unfold executeAcceptance. cbv zeta. destruct (_ || _); [auto with command|]. destruct (_ || _); [auto with command|].
  destruct (acceptance_options _ _ _) as [[output binary]|]; [|auto with command]. destruct (String.eqb output ""); [auto with command|].
  destruct workingDirectory as [root|]; [|auto with command]. destruct (runAcceptance _ _ _) as [[result named] failed]. apply calling_orderly.
  destruct failed; [|destruct stdoutFails; unfold orderly_end; cbn; split_and!; auto with lia].
  destruct (writeError_orderly ExitFailure "acceptance_failed" "acceptance run" "acceptance baseline did not pass" ltac:(auto)) as [(He & Ho & Hl) Hs].
  destruct named; [|done]. unfold orderly_end. destruct stdoutFails; cbn; (split; [exact He|split; [lia|exact Hl]]).
Qed.

(** ** Arguments beyond the end of the line

    The same surroundings with another value for them. *)
Definition reading (base : Surroundings) (beyond : string) : Surroundings := {|
  out_of_range := beyond;
  loadConfig := @loadConfig base; loadTarget := @loadTarget base; loadRunbook := @loadRunbook base; parseTime := @parseTime base;
  workingDirectory := @workingDirectory base; newClient := @newClient base; stdoutFails := @stdoutFails base; stderrFails := @stderrFails base;
  api_Status := @api_Status base; api_Backup := @api_Backup base; api_Register := @api_Register base;
  api_RegisterRunbook := @api_RegisterRunbook base; api_ListIncidents := @api_ListIncidents base;
  api_ShowIncident := @api_ShowIncident base; api_DecideApproval := @api_DecideApproval base;
  runService := @runService base; runAcceptance := @runAcceptance base;
|}.
Lemma executeApproval_reads base beyond args : @executeApproval (reading base beyond) args = @executeApproval base args.
Proof. do 10 (destruct args as [|? args]; [reflexivity|]). reflexivity. Qed.
Lemma executeIncident_reads base beyond args : @executeIncident (reading base beyond) args = @executeIncident base args.
Proof.
  do 6 (destruct args as [|? args];
    [reflexivity || (unfold executeIncident; cbn [arg nth]; destruct (String.eqb _ "show"); reflexivity)|]). reflexivity.
Qed.
Lemma executeRunbook_reads base beyond args : @executeRunbook (reading base beyond) args = @executeRunbook base args.
Proof. do 8 (destruct args as [|? args]; [reflexivity|]). reflexivity. Qed.
Lemma executeTarget_reads base beyond args : @executeTarget (reading base beyond) args = @executeTarget base args.
Proof. do 8 (destruct args as [|? args]; [reflexivity|]). reflexivity. Qed.
Lemma executeAcceptance_reads base beyond args : @executeAcceptance (reading base beyond) args = @executeAcceptance base args.
Proof. do 4 (destruct args as [|? args]; [reflexivity|]). reflexivity. Qed.
Lemma executeAdmin_reads base beyond args : args <> [] -> @executeAdmin (reading base beyond) args = @executeAdmin base args.
Proof. intros Hn. destruct args as [|? args]; [done|]. do 4 (destruct args as [|? args]; [reflexivity|]). reflexivity. Qed.
Lemma executeStandalone_reads base beyond args : @executeStandalone (reading base beyond) args = @executeStandalone base args.
Proof. do 3 (destruct args as [|? args]; [reflexivity|]). reflexivity. Qed.
Lemma executeConfig_reads base beyond args : @executeConfig (reading base beyond) args = @executeConfig base args.
Proof. do 4 (destruct args as [|? args]; [reflexivity|]). reflexivity. Qed.
Lemma executeGroup_reads base beyond args subcommands :
  args <> [] -> @executeGroup (reading base beyond) args subcommands = @executeGroup base args subcommands.
Proof. intros Hn. destruct args as [|? args]; [done|]. do 2 (destruct args as [|? args]; [reflexivity|]). reflexivity. Qed.

Lemma Execute_reads base beyond args : @Execute (reading base beyond) args = @Execute base args.
Proof.
  destruct args as [|name args]; [reflexivity|]. assert (Hne : name :: args <> []) by done. unfold Execute.
  rewrite executeAcceptance_reads. change (@arg (reading base beyond) (name :: args) 0) with (@arg base (name :: args) 0).
  destruct (_ && _); [done|]. change (@newClient (reading base beyond)) with (@newClient base). destruct newClient; [|reflexivity].
  unfold executeWithDependencies. cbv zeta. change (@arg (reading base beyond) (name :: args) 0) with (@arg base (name :: args) 0).
  rewrite executeStandalone_reads, executeConfig_reads, executeAcceptance_reads, (executeAdmin_reads base beyond _ Hne), executeTarget_reads,
    executeRunbook_reads, executeIncident_reads, executeApproval_reads. repeat (case_match; [done|]).
  destruct (commandGroups _); [by apply executeGroup_reads|reflexivity].
Qed.

(** C36: whatever the arguments and the surroundings, a command ends with exit code 0
    and nothing on its error stream, or with 1 or 2, and prints at most one value on
    each stream; the exit code for a command that is not implemented never
    occurs; and no argument beyond the end of the line is read: the outcome is the
    same whatever value such a read would give. *)
Theorem Execute_orderly args :
  orderly_end (Execute args) /\ oc_exit (Execute args) <> ExitNotImplemented /\
  forall beyond, @Execute (reading H beyond) args = Execute args.
Proof.
  enough (Ho : orderly_end (Execute args)).
  { split_and!; [done| |intros beyond; apply Execute_reads]. destruct Ho as ([[-> _]|[-> | ->]] & _); done. }
  unfold Execute. destruct (_ && _); [apply executeAcceptance_orderly|]. destruct newClient; [|auto with command].
  unfold executeWithDependencies. cbv zeta. destruct (handlers_orderly args) as (H1 & H2 & H3 & H4 & H5).
  destruct (_ =? 0); [unfold orderly_end; cbn; split_and!; auto with lia|]. destruct (isHelp _); [unfold orderly_end; cbn; split_and!; auto with lia|].
  destruct (String.eqb (arg args 0) "standalone"); [apply executeStandalone_orderly|].
  destruct (String.eqb (arg args 0) "config") eqn:E1; [done|]. destruct (String.eqb (arg args 0) "acceptance"); [apply executeAcceptance_orderly|].
  destruct (directCommands _); [apply executeAdmin_orderly|]. destruct (String.eqb (arg args 0) "target") eqn:E2; [done|].
  destruct (String.eqb (arg args 0) "runbook") eqn:E3; [done|]. destruct (String.eqb (arg args 0) "incident") eqn:E4; [done|].
  destruct (String.eqb (arg args 0) "approval") eqn:E5; [done|]. unfold commandGroups. rewrite E1, E2, E3, E4, E5. auto with command.
Qed.

(** C37: a command line makes a call exactly when it is an acceptance run with an
    output directory, from a working directory that can be read, which needs no
    configuration and no client; or the client is there, the line has one of the
    other accepted forms, and the configuration it names loads. The call is the
    one of that form, to the administrative socket of that configuration where
    there is one, and it is the only one. *)
Theorem Execute_calls_iff args k ks :
  oc_calls (Execute args) = k :: ks <->
  ks = [] /\ (accepts_bare args k \/
    is_ok newClient = true /\ exists path cfg mk, accepts args path mk /\ loadConfig path = Ok cfg /\ k = mk cfg).
Proof.
  destruct args as [|name args].
  { split; [|by intros (_ & [Hb|(_ & ? & ? & ? & Ha & _)]); inversion_clear Hb || inversion_clear Ha].
    unfold Execute. change (negb (count [] =? 0)) with false. cbn [andb]. destruct newClient; [done|by rewrite writeError_calls]. }
  destruct (decide (name = "acceptance")) as [->|Hne].
  - change (Execute ("acceptance" :: args)) with (executeAcceptance ("acceptance" :: args)).
    rewrite executeAcceptance_calls by done. split; [intros [-> Hb]; by split; [|left]|].
    intros (-> & [Hb|(_ & path & cfg & mk & Ha & _)]); [done|]. inversion Ha.
  - split.
    + intros Hc. pose proof Hc as (path & cfg & mk & Hacc & Hl & -> & ->)%Execute_calls; [|done]. split; [done|]. right.
      split; [|by exists path, cfg, mk]. revert Hc. unfold Execute. apply String.eqb_neq in Hne. cbn [arg nth]. rewrite Hne, andb_false_r.
      destruct newClient; [done|by rewrite writeError_calls].
    + intros (-> & [Hb|(Hn & path & cfg & mk & Hacc & Hl & ->)]); [by inversion Hb|]. by apply (accepted_calls _ path mk cfg).
Qed.
End Properties.

(** * The command line with the daemon *)

(** The surroundings with the administrative client over the connections to the
    sockets. *)
Definition remote (base : Surroundings) (c : Client) (tp : string -> transport) : Surroundings := {|
  out_of_range := @out_of_range base;
  loadConfig := @loadConfig base; loadTarget := @loadTarget base; loadRunbook := @loadRunbook base; parseTime := @parseTime base;
  workingDirectory := @workingDirectory base; newClient := @newClient base; stdoutFails := @stdoutFails base; stderrFails := @stderrFails base;
  api_Status socket := AdminClient.Status c (tp socket);
  api_Backup socket := AdminClient.Backup c (tp socket);
  api_Register socket := AdminClient.Register c (tp socket);
  api_RegisterRunbook socket := AdminClient.RegisterRunbook c (tp socket);
  api_ListIncidents socket := AdminClient.ListIncidents c (tp socket);
  api_ShowIncident socket := AdminClient.ShowIncident c (tp socket);
  api_DecideApproval socket := AdminClient.DecideApproval c (tp socket);
  runService := @runService base; runAcceptance := @runAcceptance base;
|}.
(** What the command reports of an operation of the daemon. *)
Definition reported {A} `{Surroundings} `{GoJson A} (k : call) (done : option A) : outcome :=
  calling k match done with
  | Some value => writeJSON value
  | None => writeError ExitFailure "daemon_unavailable" (match k with CallRegister _ _ _ => "target register" | CallDecideApproval _ _ _ decision _ =>
      if String.eqb decision ApprovalDenied then "approval deny" else "approval grant" | _ => "" end) "administrative daemon request failed"
  end.

Section Remote.
Context `{BoltLaws}.
#[local] Set Default Proof Using "Type*".

(** C38: the command that registers a target over a working connection is the
    registration by the daemon in the name of its peer: the same state, the new
    version on the output, and exit code 1 when the daemon refuses. *)
Theorem register_command base c tp env s d actor id path file cfg target r m :
  let commandLine := ["target"; "register"; "--config"; path; "--target"; file] in
  let rq := call_request id OperationTargetRegister DefaultReasonCode (Some target) None None "" None in
  path <> "" -> file <> "" -> is_ok (@newClient base) = true -> @loadConfig base path = Ok cfg -> @loadTarget base file = Ok target ->
  connection c (tp (socket cfg)) env (s, d) actor id -> sv_targets s = Some r -> 0 <= ss_Version (rg_snapshot r) < maxUint64 ->
  Request_ok rq = true -> Request_validate rq = Ok tt -> writeMessage rq = Ok m ->
  let '(snapshot, err, r', d') := Target.Register r (at_target env) (Target.mkRegistration target (Identity actor) id DefaultReasonCode) d in
  after_call env m (s, d) = (s <| sv_targets := Some r' |>, d') /\
  @Execute (remote base c tp) commandLine =
    @reported _ base _ (CallRegister (socket cfg) DefaultReasonCode target)
      match err with None => Some (mkTargetResult SchemaVersionV1 (ss_Version snapshot) (tgt_TargetID target)) | Some _ => None end.
Proof.
  intros commandLine rq Hp Hf Hn Hc Ht Hcn Hr Hv Hok Hval Hw.
  pose proof (Register_ends c (tp (socket cfg)) env s d actor id DefaultReasonCode target r m Hcn Hr Hv Hok Hval Hw) as He.
  destruct (Target.Register _ _ _ _) as [[[snapshot err] r'] d']. destruct He as [Hst He]. split; [exact Hst|].
  apply String.eqb_neq in Hp, Hf. unfold Execute. destruct (@newClient (remote base c tp)) eqn:En; [|change (@newClient base = Fail e) in En; by rewrite En in Hn].
  transitivity (@executeTarget (remote base c tp) commandLine); [reflexivity|]. unfold executeTarget, commandLine. cbv zeta. line_of 6.
  rewrite (@with_config_ok (remote base c tp) _ _ _ cfg) by exact Hc.
  change (@loadTarget (remote base c tp) file) with (@loadTarget base file). rewrite Ht.
  unfold answered. change (@api_Register (remote base c tp) (socket cfg)) with (AdminClient.Register c (tp (socket cfg))). rewrite He.
  destruct err; reflexivity.
Qed.
(** The same of an approval decision. *)
Lemma approval_command base c tp env s d actor id path commandID text cfg verb expires m :
  let decision := if String.eqb verb "deny" then ApprovalDenied else ApprovalGranted in
  let operation := if String.eqb decision ApprovalDenied then OperationApprovalDeny else OperationApprovalGrant in
  let commandLine := ["approval"; verb; "--config"; path; "--command-id"; commandID; "--expires-at"; text] in
  let rq := call_request id operation DefaultReasonCode None None None "" (Some (mkApprovalRequest commandID decision expires)) in
  verb = "grant" \/ verb = "deny" -> path <> "" -> commandID <> "" -> text <> "" -> isHelp text = false ->
  is_ok (@newClient base) = true -> @loadConfig base path = Ok cfg -> @parseTime base text = Some expires ->
  connection c (tp (socket cfg)) env (s, d) actor id -> sv_approvals s = true ->
  (forall approvalID, de_approvalID (at_approval env) = Ok approvalID -> AdminProtocol.validCode approvalID maxRequestIDBytes = true) ->
  Request_ok rq = true -> Request_validate rq = Ok tt -> writeMessage rq = Ok m ->
  let '(decided, d') := Decide (at_approval env) (mkApprovalDecisionRequest commandID decision (Identity actor) id DefaultReasonCode expires) d in
  after_call env m (s, d) = (s, d') /\
  @Execute (remote base c tp) commandLine =
    @reported _ base _ (CallDecideApproval (socket cfg) DefaultReasonCode commandID decision expires)
      match decided with Ok decided => Some (approval_result decided) | Fail _ => None end.
Proof.
  intros decision operation commandLine rq Hverb Hp Hf Htx Hh Hn Hc Ht Hcn Hs Ha Hok Hval Hw.
  assert (Hdec : decision = ApprovalGranted \/ decision = ApprovalDenied) by (unfold decision; destruct Hverb as [-> | ->]; [left|right]; reflexivity).
  pose proof (DecideApproval_ends c (tp (socket cfg)) env s d actor id DefaultReasonCode commandID decision expires m Hcn Hs Ha Hdec Hok Hval Hw) as He.
  destruct (Decide _ _ d) as [decided d']. destruct He as [Hst He]. split; [exact Hst|].
  apply String.eqb_neq in Hp, Hf, Htx. unfold Execute. destruct (@newClient (remote base c tp)) eqn:En; [|change (@newClient base = Fail e) in En; by rewrite En in Hn].
  assert (Hg : negb (String.eqb verb "grant") && negb (String.eqb verb "deny") = false) by (by destruct Hverb as [-> | ->]).
  transitivity (@executeApproval (remote base c tp) commandLine); [reflexivity|]. unfold executeApproval, commandLine. cbv zeta. line_of 8.
  no_help Hh. rewrite Hg. line_of 8. change (@parseTime (remote base c tp) text) with (@parseTime base text). rewrite Ht.
  rewrite (@with_config_ok (remote base c tp) _ _ _ cfg) by exact Hc. fold decision.
  unfold answered. change (@api_DecideApproval (remote base c tp) (socket cfg)) with (AdminClient.DecideApproval c (tp (socket cfg))). rewrite He.
  unfold reported. destruct decided; [reflexivity|]. unfold decision. destruct Hverb as [-> | ->]; reflexivity.
Qed.
End Remote.

(** * Examples *)

Definition demo_base : Surroundings := {|
  out_of_range := "";
  loadConfig path := if String.eqb path "config.json" then Ok demo_valid else Fail ErrInvalidConfig;
  loadTarget file := if String.eqb file "target.json" then Ok (Target.demo_target "checkout") else Fail ErrInvalidTarget;
  loadRunbook _ := Fail ErrInvalidPair;
  parseTime _ := None;
  workingDirectory := Ok "/"; newClient := Ok tt; stdoutFails := false; stderrFails := false;
  api_Status _ _ := Fail ErrDaemonUnavailable;
  api_Backup _ _ := ("", Some ErrDaemonUnavailable);
  api_Register _ _ _ := Fail ErrDaemonUnavailable;
  api_RegisterRunbook _ _ _ := Fail ErrDaemonUnavailable;
  api_ListIncidents _ _ _ := Fail ErrDaemonUnavailable;
  api_ShowIncident _ _ _ := Fail ErrDaemonUnavailable;
  api_DecideApproval _ _ _ _ _ := Fail ErrDaemonUnavailable;
  runService _ := None; runAcceptance _ _ _ := (JNull, false, false);
|}.
Definition demo_line : list string := ["target"; "register"; "--config"; "config.json"; "--target"; "target.json"].
Lemma Execute_calls_iff_witness :
  oc_calls (@Execute demo_base demo_line) =
    [CallRegister "/var/lib/pulse/admin.sock" DefaultReasonCode (Target.demo_target "checkout")].
Proof.
  apply (@Execute_calls_iff demo_base demo_line _ []). split; [reflexivity|]. right. split; [reflexivity|].
  exists "config.json", demo_valid, (fun cfg => CallRegister (socket cfg) DefaultReasonCode (Target.demo_target "checkout")).
  split; [|split; reflexivity]. apply (@accepts_target demo_base "config.json" "target.json" (Target.demo_target "checkout") [] DefaultReasonCode);
    [discriminate|discriminate|constructor|reflexivity].
Defined.
Definition demo_remote : Surroundings := remote demo_base demo_client (fun _ => demo_transport).
(** The registration succeeds and its version is printed. *)
Lemma demo_line_prints :
  @Execute demo_remote demo_line =
    mkOutcome ExitSuccess [JsonValue (JObj [("schema_version", JStr "v1"); ("version", JInt 1); ("target_id", JStr "checkout")])] []
      [CallRegister "/var/lib/pulse/admin.sock" DefaultReasonCode (Target.demo_target "checkout")].
Proof. vm_compute. reflexivity. Qed.
Definition demo_registered : Snapshot * option error * Registry * @db gmapBolt :=
  Target.Register Target.demo_registry (at_target (demo_surroundings demo_actor))
    (Target.mkRegistration (Target.demo_target "checkout") (Identity demo_actor) "request-1" DefaultReasonCode) demo_state.2.
Lemma registered_parts (out : Snapshot * option error * Registry * @db gmapBolt) : out = (out.1.1.1, out.1.1.2, out.1.2, out.2).
Proof. by destruct out as [[[? ?] ?] ?]. Qed.
Lemma register_command_witness :
  after_call (demo_surroundings demo_actor) (call_message AdminClient.demo_call) demo_state =
    (demo_state.1 <| sv_targets := Some demo_registered.1.2 |>, demo_registered.2).
Proof.
  destruct demo_call_fits as (Hok & Hv & Hw%message_of_ok).
  assert (Hr : 0 <= ss_Version (rg_snapshot Target.demo_registry) < maxUint64) by (change (0 <= 0 < maxUint64); unfold maxUint64; lia).
  pose proof (register_command (H := gmapBolt) demo_base demo_client (fun _ => demo_transport) (demo_surroundings demo_actor)
    demo_state.1 demo_state.2 demo_actor "request-1" "config.json" "target.json" demo_valid (Target.demo_target "checkout") Target.demo_registry
    (call_message AdminClient.demo_call) ltac:(discriminate) ltac:(discriminate) eq_refl eq_refl eq_refl demo_connected eq_refl Hr Hok Hv Hw) as Hc.
  cbv zeta in Hc. fold demo_registered in Hc. rewrite (registered_parts demo_registered) in Hc. exact (proj1 Hc).
Defined.
