(* ===== verification/Telemetry.v ===== *)
(** Telemetry (src/internal/telemetry/telemetry.go): events of closed vocabularies and
    what a recorder emits for them.

    The OpenTelemetry SDK is not modelled: its tracer and its two instruments are the
    lists of what they were given. *)
From S2P Require Import Prelude GoLib.
From stdpp Require Import options.
Local Open Scope Z_scope.

Definition telemetry_error := mkError "telemetry".
Definition ErrInvalidEvent := telemetry_error "invalid telemetry event".
Definition ErrInvalidContext := telemetry_error "invalid telemetry context".
Definition SpanNamePrefix : string := "pulse.agent".
Definition AttributeComponent : string := "pulse.agent.component".
Definition AttributeOperation : string := "pulse.agent.operation".
Definition AttributeResult : string := "pulse.agent.result".
Definition AttributeReason : string := "pulse.agent.reason".
Definition AttributeTarget : string := "pulse.agent.target".
Definition AttributeRule : string := "pulse.agent.rule".
Definition AttributeProvider : string := "pulse.agent.provider".

(** * The vocabularies *)

Definition components : list string :=
  ["admin_ipc"; "runbook"; "store"; "target"; "webhook"; "observer"; "alert"; "correlator"; "evidence"; "analysis";
   "policy"; "docker"; "recovery"; "approval"; "stabilization"; "delivery"; "report"].
Definition operations : list string :=
  ["read"; "write"; "register"; "request"; "backup"; "validate"; "transition"; "redact"; "analyze"; "decide"; "execute";
   "reconcile"; "verify"; "deliver"; "publish"].
Definition results : list string :=
  ["success"; "failure"; "rejected"; "unavailable"].
Definition reasons : list string :=
  ["none"; "accepted"; "duplicate"; "invalid"; "redaction_failed"; "unauthorized"; "timeout"; "unavailable"; "internal";
   "allowed"; "denied"; "approval_required"; "conflict"; "expired"; "retry"; "unhealthy"; "payload"].
Definition targets : list string := ["docker"].
Definition rules : list string := ["availability"; "error_rate"; "latency_ms"].
Definition providers : list string := ["gemini"; "custom"].
Definition member (value : string) (values : list string) : bool := existsb (String.eqb value) values.

(** [TargetForAdapter], [RuleForSignal] and [ProviderForName]: the classification of
    a name, if it has one. *)
Definition classify (values : list string) (name : string) : string * bool := if member name values then (name, true) else ("", false).
Definition TargetForAdapter : string -> string * bool := classify targets.
Definition RuleForSignal : string -> string * bool := classify rules.
Definition ProviderForName : string -> string * bool := classify providers.

(** * Events *)

Record Dimensions := mkDimensions { dm_Target : string; dm_Rule : string; dm_Provider : string }.
Record Event := mkEvent {
  ev_component : string; ev_operation : string; ev_result : string; ev_reason : string; ev_duration : duration; ev_dimensions : Dimensions;
}.
Definition validDimensions (value : Dimensions) : bool :=
  (String.eqb (dm_Target value) "" || member (dm_Target value) targets) &&
  (String.eqb (dm_Rule value) "" || member (dm_Rule value) rules) &&
  (String.eqb (dm_Provider value) "" || member (dm_Provider value) providers).
Definition valid (e : Event) : bool :=
  member (ev_component e) components && member (ev_operation e) operations && member (ev_result e) results &&
  member (ev_reason e) reasons && validDimensions (ev_dimensions e) && (0 <=? ev_duration e).
Definition NewEventWithDimensions (component operation res reason : string) (d : duration) (dimensions : Dimensions) : result Event :=
  let event := mkEvent component operation res reason d dimensions in
  if valid event then Ok event else Fail ErrInvalidEvent.
Definition NewEvent (component operation res reason : string) (d : duration) : result Event :=
  NewEventWithDimensions component operation res reason d (mkDimensions "" "" "").
Definition spanName (e : Event) : string :=
  String.append SpanNamePrefix (String.append "." (String.append (ev_component e) (String.append "." (ev_operation e)))).
Definition optional (key value : string) : list (string * string) := if String.eqb value "" then [] else [(key, value)].
Definition attributes (e : Event) : list (string * string) :=
  [(AttributeComponent, ev_component e); (AttributeOperation, ev_operation e); (AttributeResult, ev_result e); (AttributeReason, ev_reason e)] ++
  optional AttributeTarget (dm_Target (ev_dimensions e)) ++ optional AttributeRule (dm_Rule (ev_dimensions e)) ++
  optional AttributeProvider (dm_Provider (ev_dimensions e)).

(** * Recording *)

Record span := mkSpan { sp_name : string; sp_start : time; sp_end : time; sp_attributes : list (string * string); sp_status : option string }.
(** The recorder: with a tracer or not, and what was emitted. *)
Record Recorder := mkRecorder {
  rc_enabled : bool; rc_tracer : bool;
  rc_spans : list span;
  rc_counted : list (list (string * string));
  rc_durations : list (duration * list (string * string));
}.
Definition New (exporter reader : bool) : Recorder := mkRecorder (exporter || reader) exporter [] [] [].
Definition Enabled (r : option Recorder) : bool := match r with Some r => rc_enabled r | None => false end.
Definition emit (now : time) (e : Event) (r : Recorder) : Recorder :=
  let attrs := attributes e in
  mkRecorder (rc_enabled r) (rc_tracer r)
    (if rc_tracer r
     then rc_spans r ++ [mkSpan (spanName e) (time_add now (- ev_duration e)) now attrs (if String.eqb (ev_result e) "success" then None else Some (ev_reason e))]
     else rc_spans r)
    (rc_counted r ++ [attrs]) (rc_durations r ++ [(ev_duration e, attrs)]).
(** A nil recorder is [None]. *)
Definition Record_ (context : bool) (now : time) (e : Event) (r : option Recorder) : result unit * option Recorder :=
  if negb context then (Fail ErrInvalidContext, r)
  else if negb (valid e) then (Fail ErrInvalidEvent, r)
  else
    match r with
    | None => (Ok tt, None)
    | Some r => if rc_enabled r then (Ok tt, Some (emit now e r)) else (Ok tt, Some r)
    end.
Definition RecordBestEffort (context : bool) (now : time) (e : Event) (r : option Recorder) : option Recorder :=
  match r with None => None | Some _ => (Record_ context now e r).2 end.

(** * Facts *)

Lemma member_iff value values : member value values = true <-> value ∈ values.
Proof.
  unfold member. rewrite existsb_exists. split.
  - intros (x & Hx & <-%String.eqb_eq). by apply list_elem_of_In.
  - intros Hx. exists value. split; [by apply list_elem_of_In|apply String.eqb_refl].
Qed.
Definition values_of (key : string) : list string :=
  if String.eqb key AttributeComponent then components else if String.eqb key AttributeOperation then operations
  else if String.eqb key AttributeResult then results else if String.eqb key AttributeReason then reasons
  else if String.eqb key AttributeTarget then targets else if String.eqb key AttributeRule then rules
  else if String.eqb key AttributeProvider then providers else [].
Lemma optional_known key value values : String.eqb value "" = true \/ member value values = true -> values_of key = values ->
  Forall (fun kv => kv.2 ∈ values_of kv.1) (optional key value).
Proof.
  unfold optional. intros Hv Hk. destruct (String.eqb value ""); [constructor|]. destruct Hv as [|Hv]; [done|].
  constructor; [|constructor]. cbn. rewrite Hk. by apply member_iff.
Qed.
(** Every attribute of a valid event is a word of its vocabulary. *)
Lemma attributes_known e : valid e = true -> Forall (fun kv => kv.2 ∈ values_of kv.1) (attributes e).
Proof.
  unfold valid, validDimensions. intros Hv. bool_prop. unfold attributes.
  repeat (constructor; [cbn; by apply member_iff|]). repeat apply Forall_app_2.
  - by eapply optional_known.
  - by eapply optional_known.
  - by eapply optional_known.
Qed.
Lemma attributes_distinct e : NoDup (map fst (attributes e)).
Proof.
  unfold attributes, optional. destruct (String.eqb _ ""), (String.eqb (dm_Rule _) ""), (String.eqb (dm_Provider _) ""); cbn;
    by apply (bool_decide_unpack _); vm_compute.
Qed.

(** All the attribute sets there are. *)
Definition attribute_sets : list (list (string * string)) :=
  flat_map (fun c => flat_map (fun o => flat_map (fun r => flat_map (fun s => flat_map (fun t => flat_map (fun u =>
    map (fun p => attributes (mkEvent c o r s 0 (mkDimensions t u p))) ("" :: providers)) ("" :: rules)) ("" :: targets)) reasons) results)
    operations) components.
Lemma length_flat_map_const {A B} (f : A -> list B) l n k :
  Z.of_nat (length l) = n -> (forall x, Z.of_nat (length (f x)) = k) -> Z.of_nat (length (flat_map f l)) = n * k.
Proof. intros <- Hf. induction l as [|x l IH]; [done|]. cbn [flat_map length]. rewrite length_app, Nat2Z.inj_add, Hf, IH. lia. Qed.
Lemma attribute_sets_length : Z.of_nat (length attribute_sets) = 17 * (15 * (4 * (17 * (2 * (4 * 3))))).
Proof.
  unfold attribute_sets. apply (length_flat_map_const _ _ 17 (15 * (4 * (17 * (2 * (4 * 3)))))); [reflexivity|intros c].
  apply (length_flat_map_const _ _ 15 (4 * (17 * (2 * (4 * 3))))); [reflexivity|intros o].
  apply (length_flat_map_const _ _ 4 (17 * (2 * (4 * 3)))); [reflexivity|intros r].
  apply (length_flat_map_const _ _ 17 (2 * (4 * 3))); [reflexivity|intros s].
  apply (length_flat_map_const _ _ 2 (4 * 3)); [reflexivity|intros t].
  apply (length_flat_map_const _ _ 4 3); [reflexivity|intros u]. by rewrite length_map.
Qed.
Lemma flat_map_elem {A B} (f : A -> list B) l x y : x ∈ l -> y ∈ f x -> y ∈ flat_map f l.
Proof. intros Hx Hy. apply list_elem_of_In, in_flat_map. exists x. by rewrite <- !list_elem_of_In. Qed.
Lemma attributes_counted e : valid e = true -> attributes e ∈ attribute_sets.
Proof.
  unfold valid, validDimensions. intros Hv. bool_prop. destruct e as [c o r s d [t u p]]. cbn [ev_component ev_operation ev_result ev_reason ev_duration ev_dimensions dm_Target dm_Rule dm_Provider] in *.
  assert (Hopt : forall value values, String.eqb value "" = true \/ member value values = true -> value ∈ "" :: values).
  { intros value values [->%String.eqb_eq|Hm%member_iff]; by constructor. }
  unfold attribute_sets. apply (flat_map_elem _ _ c); [by apply member_iff|]. apply (flat_map_elem _ _ o); [by apply member_iff|].
  apply (flat_map_elem _ _ r); [by apply member_iff|]. apply (flat_map_elem _ _ s); [by apply member_iff|].
  apply (flat_map_elem _ _ t); [by apply Hopt|]. apply (flat_map_elem _ _ u); [by apply Hopt|].
  apply list_elem_of_In, in_map_iff. exists p. split; [done|]. apply list_elem_of_In. by apply Hopt.
Qed.

(** ** Properties *)

(** What the recorders emitted so far. *)
Definition emitted (r : Recorder) : list (list (string * string)) := map sp_attributes (rc_spans r) ++ rc_counted r ++ map snd (rc_durations r).
Inductive recordings : option Recorder -> Prop :=
| recordings_new exporter reader : recordings (Some (New exporter reader))
| recordings_nil : recordings None
| recordings_next context now e r : recordings r -> recordings (Record_ context now e r).2.

(** C39: whatever events are recorded, also those that never passed a constructor,
    each emitted attribute set has distinct keys with values of their closed
    vocabularies, and there are at most 416160 of them. *)
Theorem emitted_bounded r attrs :
  recordings (Some r) -> attrs ∈ emitted r ->
  NoDup (map fst attrs) /\ Forall (fun kv => kv.2 ∈ values_of kv.1) attrs /\ attrs ∈ attribute_sets /\
  Z.of_nat (length attribute_sets) = 416160.
Proof.
  intros Hr. remember (Some r) as o eqn:Eo. revert r Eo. induction Hr as [exporter reader| |context now e o Hr IH]; intros r Eo.
  - injection Eo as <-. by intros ?%elem_of_nil.
  - done.
  - unfold Record_ in Eo. destruct context; cbn [negb] in Eo; [|by apply IH]. destruct (valid e) eqn:Ev; cbn [negb] in Eo; [|by apply IH].
    destruct o as [r0|]; [|done]. destruct (rc_enabled r0); cbn in Eo; injection Eo as <-; [|by apply IH].
    intros Hin. assert (attrs ∈ emitted r0 \/ attrs = attributes e) as [Hold| ->].
    { clear -Hin. revert Hin. unfold emitted, emit. cbn. rewrite map_app. destruct (rc_tracer r0); rewrite ?map_app; cbn; set_solver. }
    + exact (IH r0 eq_refl Hold).
    + split; [apply attributes_distinct|split; [by apply attributes_known|split; [by apply attributes_counted|exact attribute_sets_length]]].
Qed.

(** * Examples *)

Definition demo_event : Event := mkEvent "docker" "execute" "failure" "timeout" second (mkDimensions "docker" "" "").
Definition demo_recorder : Recorder := emit 0 demo_event (New true true).
Lemma emitted_bounded_witness :
  NoDup (map fst (attributes demo_event)) /\ Forall (fun kv => kv.2 ∈ values_of kv.1) (attributes demo_event) /\
  attributes demo_event ∈ attribute_sets /\ Z.of_nat (length attribute_sets) = 416160.
Proof.
  apply (emitted_bounded demo_recorder (attributes demo_event)).
  - exact (recordings_next true 0 demo_event _ (recordings_new true true)).
  - unfold emitted, demo_recorder, emit. cbn [map New rc_spans rc_tracer sp_attributes app]. constructor.
Defined.
