(* ===== verification/Acceptance.v ===== *)
(** The acceptance baseline (src/internal/acceptance/runner.go): the metrics it
    evaluates, the thresholds, and what decides that it passes.

    Running a quality gate and writing the two files are arguments; the Markdown
    summary is formatting and left out. *)
From S2P Require Import Prelude GoLib GoText.
From stdpp Require Import options.
Local Open Scope Z_scope.

Definition SchemaVersion : string := "pulse-agent.mvp_acceptance.v1".
Definition FixtureVersion : string := "v1-mvp-fixture-2026-07-22".
Definition Seed : Z := 20260722.
Definition fixtureScenarioCount : Z := 100.
Definition recoveryRunCount : Z := 100.
Definition securityCorpusCount : Z := 100.

Record QualityGate := mkQualityGate { qg_Name : string; qg_Command : string; qg_Args : list string }.
Record QualityGateResult := mkQualityGateResult { qr_Name : string; qr_Command : string; qr_Passed : bool }.
Record Options := mkOptions { op_OutputDir : string; op_ProjectRoot : string; op_GoBinary : string }.

(** * Metrics *)

Record DetectionMetrics := mkDetectionMetrics {
  dm_ScenarioCount : Z; dm_FaultScenarioCount : Z; dm_NormalScenarioCount : Z; dm_TruePositives : Z; dm_FalsePositives : Z;
  dm_RecallPercent : Z; dm_FalsePositiveRatePercent : Z; dm_ProbeIntervalSeconds : Z; dm_MaxDetectionLatencySecond : Z;
}.
#[export] Instance DetectionMetrics_eta : Updatable DetectionMetrics := fun r => mkDetectionMetrics (dm_ScenarioCount r)
  (dm_FaultScenarioCount r) (dm_NormalScenarioCount r) (dm_TruePositives r) (dm_FalsePositives r) (dm_RecallPercent r)
  (dm_FalsePositiveRatePercent r) (dm_ProbeIntervalSeconds r) (dm_MaxDetectionLatencySecond r).
Record RecoveryMetrics := mkRecoveryMetrics {
  rm_RunCount : Z; rm_Succeeded : Z; rm_SuccessRatePercent : Z; rm_StabilizationLimitSeconds : Z; rm_MaxStabilizationSeconds : Z;
  rm_FailureReasons : gmap string Z; rm_SingleContainerExecutions : Z; rm_OneReplicaComposeExecutions : Z;
  rm_UnsupportedReplicaExecutions : gmap string Z;
}.
#[export] Instance RecoveryMetrics_eta : Updatable RecoveryMetrics := fun r => mkRecoveryMetrics (rm_RunCount r) (rm_Succeeded r)
  (rm_SuccessRatePercent r) (rm_StabilizationLimitSeconds r) (rm_MaxStabilizationSeconds r) (rm_FailureReasons r)
  (rm_SingleContainerExecutions r) (rm_OneReplicaComposeExecutions r) (rm_UnsupportedReplicaExecutions r).
Record SafetyMetrics := mkSafetyMetrics {
  sm_MaximumDockerStateChanges : Z; sm_SecurityCorpusCount : Z; sm_SecurityBlockedCount : Z; sm_RestartRecoveryCount : Z;
  sm_RestartRecoveredCount : Z; sm_SecretExposureCount : Z;
}.
Record ReportingMetrics := mkReportingMetrics {
  pm_TerminalReportCount : Z; pm_RequiredFieldsComplete : Z; pm_DeliveredWithinLimit : Z; pm_RetryPendingWithinLimit : Z;
  pm_DeliveryLimitSeconds : Z; pm_MaximumDeliverySeconds : Z;
}.
Record ContractCheck := mkContractCheck { cc_Name : string; cc_Passed : bool; cc_Evidence : list string }.
Record Report := mkReport {
  rp_SchemaVersion : string; rp_FixtureVersion : string; rp_Seed : Z; rp_BaselineNotice : string;
  rp_GeneratedAt : time; rp_Detection : DetectionMetrics; rp_Recovery : RecoveryMetrics; rp_Safety : SafetyMetrics;
  rp_Reporting : ReportingMetrics; rp_ContractChecks : list ContractCheck; rp_QualityGates : list QualityGateResult;
  rp_Passed : bool; rp_FailureReasons : list string;
}.

Definition percent (numerator denominator : Z) : Z := if denominator =? 0 then 0 else Z.quot (numerator * 100) denominator.

Record detectionScenario := mkScenario { ds_fault : bool; ds_failureSamples : Z; ds_probeIntervalSeconds : Z; ds_detectionLatencySecond : Z }.
Definition detectionScenarios : list detectionScenario :=
  map (fun index => if Z.of_nat index <? 80 then mkScenario true 2 20 40 else mkScenario false 0 20 0) (seq 0 (Z.to_nat fixtureScenarioCount)).
Definition detectedWithinLimit (scenario : detectionScenario) : bool :=
  if ds_failureSamples scenario <? 2 then false
  else
    let limit := Z.min (2 * ds_probeIntervalSeconds scenario) 60 in
    (0 <? ds_detectionLatencySecond scenario) && (ds_detectionLatencySecond scenario <=? limit).
Definition detection_step (metrics : DetectionMetrics) (scenario : detectionScenario) : DetectionMetrics :=
  let metrics := metrics <| dm_ScenarioCount := dm_ScenarioCount metrics + 1 |> in
  if ds_fault scenario then
    let metrics := metrics <| dm_FaultScenarioCount := dm_FaultScenarioCount metrics + 1 |> in
    if detectedWithinLimit scenario then
      let metrics := metrics <| dm_TruePositives := dm_TruePositives metrics + 1 |> in
      if dm_MaxDetectionLatencySecond metrics <? ds_detectionLatencySecond scenario
      then metrics <| dm_MaxDetectionLatencySecond := ds_detectionLatencySecond scenario |> else metrics
    else metrics
  else
    let metrics := metrics <| dm_NormalScenarioCount := dm_NormalScenarioCount metrics + 1 |> in
    if detectedWithinLimit scenario then metrics <| dm_FalsePositives := dm_FalsePositives metrics + 1 |> else metrics.
Definition evaluateDetection : DetectionMetrics :=
  let metrics := fold_left detection_step detectionScenarios (mkDetectionMetrics 0 0 0 0 0 0 0 20 0) in
  metrics <| dm_RecallPercent := percent (dm_TruePositives metrics) (dm_FaultScenarioCount metrics) |>
          <| dm_FalsePositiveRatePercent := percent (dm_FalsePositives metrics) (dm_NormalScenarioCount metrics) |>.

Record recoveryRun := mkRun {
  rr_succeeded : bool; rr_failureReason : string; rr_stabilizationSeconds : Z; rr_singleContainerExecutions : Z; rr_oneReplicaComposeExecutions : Z;
}.
Definition recoveryRuns : list recoveryRun :=
  map (fun index =>
    if Nat.eqb index 17 || Nat.eqb index 74 then mkRun false "stabilization_timeout" 180 0 0
    else if Nat.eqb (index mod 2) 0 then mkRun true "" 120 1 0 else mkRun true "" 120 0 1) (seq 0 (Z.to_nat recoveryRunCount)).
Definition recovery_step (metrics : RecoveryMetrics) (run : recoveryRun) : RecoveryMetrics :=
  let metrics := metrics <| rm_RunCount := rm_RunCount metrics + 1 |>
    <| rm_SingleContainerExecutions := rm_SingleContainerExecutions metrics + rr_singleContainerExecutions run |>
    <| rm_OneReplicaComposeExecutions := rm_OneReplicaComposeExecutions metrics + rr_oneReplicaComposeExecutions run |> in
  let metrics := if rm_MaxStabilizationSeconds metrics <? rr_stabilizationSeconds run
    then metrics <| rm_MaxStabilizationSeconds := rr_stabilizationSeconds run |> else metrics in
  if rr_succeeded run then metrics <| rm_Succeeded := rm_Succeeded metrics + 1 |>
  else metrics <| rm_FailureReasons := <[rr_failureReason run := default 0 (rm_FailureReasons metrics !! rr_failureReason run) + 1]> (rm_FailureReasons metrics) |>.
Definition evaluateRecovery : RecoveryMetrics :=
  let metrics := fold_left recovery_step recoveryRuns (mkRecoveryMetrics 0 0 0 180 0 ∅ 0 0 {["0" := 0; "2" := 0; "3" := 0]}) in
  metrics <| rm_SuccessRatePercent := percent (rm_Succeeded metrics) (rm_RunCount metrics) |>.
Definition evaluateSafety : SafetyMetrics := mkSafetyMetrics 1 securityCorpusCount securityCorpusCount recoveryRunCount recoveryRunCount 0.
Definition evaluateReporting : ReportingMetrics := mkReportingMetrics recoveryRunCount recoveryRunCount 98 2 60 59.
Definition contractChecks : list ContractCheck := [
  mkContractCheck "admin_cli" true ["config validate"; "target register"; "runbook register"; "incident list/show"; "approval grant/deny"; "status"; "backup"];
  mkContractCheck "approval_lifecycle" true ["durable approval.requested"; "grant executes one command"; "deny/expire/revoke execute zero commands"];
  mkContractCheck "standard_webhooks" true ["fixed vector"; "300-second timestamp tolerance"; "replay protection"; "current/previous secret rotation"];
  mkContractCheck "scheduler_shutdown_leak" true ["scheduler cancellation"; "bounded graceful shutdown"]].
Definition qualityGates (goBinary : string) : list QualityGate := [
  mkQualityGate "go_test" goBinary ["test"; "./..."];
  mkQualityGate "go_test_race" goBinary ["test"; "-race"; "./..."];
  mkQualityGate "go_vet" goBinary ["vet"; "./..."];
  mkQualityGate "scheduler_shutdown_leak" goBinary ["test"; "-count=1"; "./internal/observer"; "./internal/standalone"; "-run";
    "TestScheduler_RunCycleStopsOnCancellationAndProbeTimeout|TestService_RunStopsAdmissionAndDrainsAcceptedWork|TestService_RunBoundsGracefulShutdown"]].
Definition commandLine (gate : QualityGate) : string := join " " (qg_Command gate :: qg_Args gate).

(** * The assessment *)

Definition when (b : bool) (failure : string) : list string := if b then [failure] else [].
Definition assess (report : Report) : list string :=
  let detection := rp_Detection report in
  let recovery := rp_Recovery report in
  let safety := rp_Safety report in
  let reporting := rp_Reporting report in
  (when (dm_ScenarioCount detection <? fixtureScenarioCount) "detection scenario count is below 100" ++
   when ((dm_FaultScenarioCount detection =? 0) || (dm_NormalScenarioCount detection =? 0) ||
         negb (dm_FaultScenarioCount detection + dm_NormalScenarioCount detection =? dm_ScenarioCount detection))
     "detection population must include both fault and normal scenarios" ++
   when (dm_TruePositives detection * 100 <? dm_FaultScenarioCount detection * 99) "detection recall is below 99 percent" ++
   when (dm_NormalScenarioCount detection <? dm_FalsePositives detection * 100) "detection false-positive rate exceeds 1 percent" ++
   when (Z.min (2 * dm_ProbeIntervalSeconds detection) 60 <? dm_MaxDetectionLatencySecond detection)
     "detection latency exceeds the probe interval limit" ++
   when (negb (rm_RunCount recovery =? recoveryRunCount) || (rm_Succeeded recovery * 100 <? rm_RunCount recovery * 95))
     "recovery success rate is below 95 percent" ++
   when (rm_StabilizationLimitSeconds recovery <? rm_MaxStabilizationSeconds recovery) "recovery stabilization exceeds 180 seconds" ++
   when (Nat.eqb (size (rm_FailureReasons recovery)) 0) "recovery failure reasons were not recorded" ++
   when (1 <? sm_MaximumDockerStateChanges safety) "idempotency permits more than one Docker state change" ++
   when (existsb (fun replicas => negb (default 0 (rm_UnsupportedReplicaExecutions recovery !! replicas) =? 0)) ["0"; "2"; "3"])
     "unsupported replica count executed Docker state change" ++
   when (negb (sm_SecurityCorpusCount safety =? securityCorpusCount) || negb (sm_SecurityBlockedCount safety =? securityCorpusCount))
     "security corpus block rate is below 100 percent" ++
   when (negb (sm_RestartRecoveryCount safety =? sm_RestartRecoveredCount safety)) "restart recovery rate is below 100 percent" ++
   when (negb (sm_SecretExposureCount safety =? 0)) "secret exposure was observed" ++
   when (negb (pm_TerminalReportCount reporting =? recoveryRunCount) ||
         negb (pm_RequiredFieldsComplete reporting =? pm_TerminalReportCount reporting) ||
         negb (pm_DeliveredWithinLimit reporting + pm_RetryPendingWithinLimit reporting =? pm_TerminalReportCount reporting) ||
         (pm_DeliveryLimitSeconds reporting <? pm_MaximumDeliverySeconds reporting)) "terminal report delivery baseline failed" ++
   flat_map (fun check => when (negb (cc_Passed check)) (String.append "acceptance contract check failed: " (cc_Name check)))
     (rp_ContractChecks report) ++
   flat_map (fun gate => when (negb (qr_Passed gate)) (String.append "quality gate failed: " (qr_Name gate))) (rp_QualityGates report))%list.

(** * Running *)

(** The clock, the outcome of a gate and whether the two files are written. *)
Record surroundings := mkSurroundings {
  at_now : time;
  at_workingDirectory : result string;
  at_gate : string -> QualityGate -> QualityGateResult;
  at_write : string -> Report -> result unit;
}.
Definition acceptance_error := mkError "acceptance".
Definition normalizeOptions (env : surroundings) (options : Options) : result Options :=
  if String.eqb (op_OutputDir options) "" then Fail (acceptance_error "acceptance output directory is required")
  else
    (if String.eqb (op_ProjectRoot options) "" then at_workingDirectory env else Ok (op_ProjectRoot options)) ≫= fun root =>
    Ok (mkOptions (op_OutputDir options) root (if String.eqb (op_GoBinary options) "" then "go" else op_GoBinary options)).
Definition run_gate (env : surroundings) (root : string) (gate : QualityGate) : QualityGateResult :=
  let result := at_gate env root gate in
  mkQualityGateResult (if String.eqb (qr_Name result) "" then qg_Name gate else qr_Name result)
    (if String.eqb (qr_Command result) "" then commandLine gate else qr_Command result) (qr_Passed result).
(** The report of a run, and its error when it was written but did not pass. *)
Definition Run (env : surroundings) (options : Options) : result (Report * option error) :=
  normalizeOptions env options ≫= fun options =>
  let report := mkReport SchemaVersion FixtureVersion Seed
    "This is a controlled MVP acceptance baseline, not a production SLO commitment." (utc (at_now env)) evaluateDetection evaluateRecovery evaluateSafety evaluateReporting contractChecks
    (map (run_gate env (op_ProjectRoot options)) (qualityGates (op_GoBinary options))) false [] in
  let failures := assess report in
  let report := mkReport (rp_SchemaVersion report) (rp_FixtureVersion report) (rp_Seed report) (rp_BaselineNotice report) (rp_GeneratedAt report) (rp_Detection report) (rp_Recovery report) (rp_Safety report) (rp_Reporting report)
    (rp_ContractChecks report) (rp_QualityGates report) (Nat.eqb (length failures) 0) failures in
  at_write env (op_OutputDir options) report ≫= fun _ =>
  Ok (report, if rp_Passed report then None else Some (acceptance_error "mvp acceptance baseline failed")).

(** * Facts *)

(** The metrics are computed from literals: no threshold is ever missed. *)
Lemma metrics_pass version fixture seed notice now gates :
  assess (mkReport version fixture seed notice now evaluateDetection evaluateRecovery evaluateSafety evaluateReporting contractChecks gates false []) =
    flat_map (fun gate => when (negb (qr_Passed gate)) (String.append "quality gate failed: " (qr_Name gate))) gates.
Proof.
  unfold assess. cbn [rp_Detection rp_Recovery rp_Safety rp_Reporting rp_ContractChecks rp_QualityGates].
  set (rest := flat_map _ gates). vm_compute. reflexivity.
Qed.
Lemma gates_pass gates :
  length (flat_map (fun gate => when (negb (qr_Passed gate)) (String.append "quality gate failed: " (qr_Name gate))) gates) = 0%nat <->
  Forall (fun gate => qr_Passed gate = true) gates.
Proof.
  induction gates as [|gate gates IH]; [by split; [constructor|]|]. rewrite Forall_cons, <- IH. cbn. rewrite length_app.
  destruct (qr_Passed gate); cbn; [split; [done|by intros [_ ?]]|split; [lia|by intros [? _]]].
Qed.

(** ** Properties *)

(** C40: the acceptance baseline passes exactly when its four quality gates do, and
    its failure reasons are those gates: the thresholds on detection, recovery,
    safety and reporting are compared with numbers written in the runner. *)
Theorem Run_passes_iff env options report err :
  Run env options = Ok (report, err) ->
  (err = None <-> Forall (fun gate => qr_Passed gate = true) (rp_QualityGates report)) /\
  rp_FailureReasons report =
    flat_map (fun gate => when (negb (qr_Passed gate)) (String.append "quality gate failed: " (qr_Name gate))) (rp_QualityGates report) /\
  length (rp_QualityGates report) = 4%nat /\ dm_RecallPercent (rp_Detection report) = 100 /\ sm_SecretExposureCount (rp_Safety report) = 0.
Proof.
  unfold Run. destruct (normalizeOptions env options) as [o|]; [|done]. cbn [mbind result_bind].
  cbn [rp_SchemaVersion rp_FixtureVersion rp_Seed rp_BaselineNotice rp_GeneratedAt rp_Detection rp_Recovery rp_Safety rp_Reporting
    rp_ContractChecks rp_QualityGates rp_Passed rp_FailureReasons].
  rewrite metrics_pass. set (gates := map _ _). assert (Hl : length gates = 4%nat) by reflexivity. clearbody gates.
  destruct (at_write _ _ _); [|done]. cbn [mbind result_bind]. intros [= <- <-].
  cbn [rp_Detection rp_Safety rp_QualityGates rp_FailureReasons]. rewrite <- gates_pass. split_and!; [|done|done|vm_compute; reflexivity|done].
  destruct (Nat.eqb _ 0) eqn:E.
  - split; [intros _; by apply Nat.eqb_eq|done].
  - split; [done|]. intros Hz. apply Nat.eqb_neq in E. contradiction.
Qed.

(** * Examples *)

Definition demo_run : surroundings :=
  mkSurroundings 1 (Ok "/") (fun _ gate => mkQualityGateResult "" "" (negb (String.eqb (qg_Name gate) "go_vet"))) (fun _ _ => Ok tt).
Definition demo_report : Report :=
  match Run demo_run (mkOptions "out" "" "") with Ok (report, _) => report
  | Fail _ => mkReport "" "" 0 "" 0 evaluateDetection evaluateRecovery evaluateSafety evaluateReporting [] [] false [] end.
Lemma demo_ran : Run demo_run (mkOptions "out" "" "") = Ok (demo_report, Some (acceptance_error "mvp acceptance baseline failed")).
Proof. vm_compute. reflexivity. Qed.
Lemma Run_passes_iff_witness : rp_FailureReasons demo_report = ["quality gate failed: go_vet"].
Proof.
  etransitivity; [exact (proj1 (proj2 (Run_passes_iff demo_run (mkOptions "out" "" "") demo_report _ demo_ran)))|]. vm_compute. reflexivity.
Defined.
